(** * mysql-parser: value layer of the MySQL front end

    A shallow embedding of the parts of [parser_driver] that turn literals
    into typed values: the packed temporal representation ([Time],
    [CoreTime]), the duration and datetime parsers, the decimal-string to
    unsigned conversion, enum resolution and the truncation policy of the
    statement context.

    Conventions.
    - Go's [int]/[int64]/[uint64] are [Z]; every conversion to [uint64] or
      [int64] that can wrap is written out with [uint64]/[int64] below.
    - Go strings are byte strings: [string] from the standard library, one
      [ascii] per byte.
    - Go's [error] interface value is [option error]; [None] is [nil].
    - Code that appends warnings to the context threads the context
      explicitly and returns the new one. *)

From Stdlib Require Import ZArith List Bool Lia Ascii String.
From coqutil Require Import Z.bitblast.
Import ListNotations.

Local Open Scope string_scope.
Local Open Scope list_scope.
Local Open Scope Z_scope.

(** ** Machine integers *)

Definition uint64 (z : Z) : Z := z mod 2 ^ 64.

Definition int64 (z : Z) : Z := (z + 2 ^ 63) mod 2 ^ 64 - 2 ^ 63.

Definition MaxUint64 : Z := 2 ^ 64 - 1.
Definition MaxInt64 : Z := 2 ^ 63 - 1.
Definition MinInt64 : Z := - 2 ^ 63.

(** [len(s)] as a Go [int]. *)
Definition len (s : string) : Z := Z.of_nat (String.length s).

(** ** Errors

    The values an [error] can hold in this package.  [NormalizedError] is
    the [*errors.Error] of pingcap/errors (the only kind that answers
    [Code()]); [TErrorValue] is this package's own [*TError]; [FmtError]
    is what [fmt.Errorf] builds, and [GenError code format args] is the
    [fmt.Errorf] value built by the generators of [*TError] from its code
    and their arguments (an argument stays the value it was, unprinted:
    a string, a number, a slice of strings, a core time, a duration, or
    the operands of an inner [fmt.Sprintf]); [Fundamental] is [errors.New] and
    [errors.Errorf] of pingcap/errors, which record a stack;
    [WithStack] and [WithMessage] are the wrappers behind [errors.Trace],
    [errors.WithStack] and [errors.Wrap]. *)

Inductive arg : Type :=
| AStr (s : string)
| AInt (n : Z)
| AStrs (l : list string)
| ACoreTime (t : Z)
| ADuration (d : Z)
| ASprintf (format : string) (ns : list Z).

Inductive error : Type :=
| NormalizedError (code : Z) (message : string)
| TErrorValue (code : Z)
| FmtError (format : string) (args : list arg)
| GenError (code : Z) (format : string) (args : list arg)
| Fundamental (format : string) (args : list arg)
| WithStack (cause : error)
| WithMessage (cause : error) (format : string) (args : list arg).

Module errors.

(** [errors.Cause]: follow [Cause()] while the value has one. *)
Fixpoint Cause (e : error) : error :=
  match e with
  | WithStack c => Cause c
  | WithMessage c _ _ => Cause c
  | _ => e
  end.

Fixpoint HasStack (e : error) : bool :=
  match e with
  | Fundamental _ _ => true
  | WithStack _ => true
  | WithMessage c _ _ => HasStack c
  | _ => false
  end.

(** [errors.Trace]: nil stays nil, a stack is added once. *)
Definition Trace (err : option error) : option error :=
  match err with
  | None => None
  | Some e => if HasStack e then Some e else Some (WithStack e)
  end.

(** [errors.Wrap(err, msg)] on a non-nil error. *)
Definition Wrap (e : error) (format : string) (args : list arg) : error :=
  WithStack (WithMessage e format args).

Definition Errorf (format : string) (args : list arg) : error :=
  Fundamental format args.

End errors.

(** Modelled from the spec: the constants of the [mysql] package, which
    is declared outside the files embedded here.  Section 6 of the spec
    fixes the error codes as the MySQL server's numbers; errors.go repeats
    1264, 1292, 1367 and 1690 in its comments. *)
Module mysql.
Definition ErrWarnDataOutOfRange : Z := 1264.
Definition WarnDataTruncated : Z := 1265.
Definition ErrTruncatedWrongValue : Z := 1292.
Definition ErrTruncatedWrongValueForField : Z := 1366.
Definition ErrDataTooLong : Z := 1406.
Definition ErrWrongValueForType : Z := 1411.
Definition ErrDatetimeFunctionOverflow : Z := 1441.
Definition ErrDataOutOfRange : Z := 1690.

(** The column type tags, with the numbers of the MySQL protocol. *)
Definition TypeTiny : Z := 1.
Definition TypeShort : Z := 2.
Definition TypeLong : Z := 3.
Definition TypeFloat : Z := 4.
Definition TypeDouble : Z := 5.
Definition TypeNull : Z := 6.
Definition TypeTimestamp : Z := 7.
Definition TypeLonglong : Z := 8.
Definition TypeInt24 : Z := 9.
Definition TypeDate : Z := 10.
Definition TypeDuration : Z := 11.
Definition TypeDatetime : Z := 12.
Definition TypeYear : Z := 13.
Definition TypeNewDate : Z := 14.
Definition TypeVarchar : Z := 15.
Definition TypeBit : Z := 16.
Definition TypeTiDBVectorFloat32 : Z := 225.
Definition TypeJSON : Z := 245.
Definition TypeNewDecimal : Z := 246.
Definition TypeEnum : Z := 247.
Definition TypeSet : Z := 248.
Definition TypeTinyBlob : Z := 249.
Definition TypeMediumBlob : Z := 250.
Definition TypeLongBlob : Z := 251.
Definition TypeBlob : Z := 252.
Definition TypeVarString : Z := 253.
Definition TypeString : Z := 254.
Definition TypeGeometry : Z := 255.
End mysql.

(** [*TError] and its generators (the error shim of this package). *)
Record TError : Type := NewStd { code : Z }.

Definition TError_GenWithStackByArgs (e : TError) (args : list arg) : error :=
  GenError (code e) "mysql error %d: %v" args.

Definition TError_FastGenByArgs (e : TError) (args : list arg) : error :=
  GenError (code e) "mysql error %d: %v" args.

Definition TError_GenWithStack (e : TError) (format : string) (args : list arg) : error :=
  GenError (code e) ("mysql error %d: " ++ format)%string args.

(** [Equal] of [*TError]: only another [*TError] with the same code. *)
Definition TError_Equal (e : TError) (other : option error) : bool :=
  match other with
  | Some (TErrorValue c) => code e =? c
  | _ => false
  end.

Definition ErrTruncated : TError := NewStd mysql.WarnDataTruncated.
Definition ErrOverflow : TError := NewStd mysql.ErrDataOutOfRange.
Definition ErrTruncatedWrongVal : TError := NewStd mysql.ErrTruncatedWrongValue.
Definition ErrWrongValue : TError := NewStd mysql.ErrTruncatedWrongValue.
Definition ErrTimestampInDSTTransition : TError := NewStd 1105.

Definition DateTimeStr : string := "datetime".
Definition TimeStr : string := "time".

(** ** Two-digit years *)

Definition adjustYear (y : Z) : Z :=
  if (y >=? 0) && (y <=? 69) then 2000 + y
  else if (y >=? 70) && (y <=? 99) then 1900 + y
  else y.

(** ** Enum *)

Record Enum : Type := mkEnum { Name : string; Value : Z }.

Definition zeroEnum : Enum := mkEnum "" 0.

(** [ParseEnumValue(elems, number)]; [number] is a [uint64]. *)
Definition ParseEnumValue (elems : list string) (number : Z) : Enum * option error :=
  if (number =? 0) || (number >? uint64 (Z.of_nat (List.length elems))) then
    (zeroEnum,
     Some (errors.Wrap (TErrorValue (code ErrTruncated))
             "convert to MySQL enum failed: number %d overflow enum boundary [1, %d]"
             [AInt number; AInt (Z.of_nat (List.length elems))]))
  else
    (mkEnum (nth (Z.to_nat (number - 1)) elems "") number, None).


(** ** Fractional-seconds precision

    Modelled from the spec: fsp.go, which holds these constants and
    [CheckFsp], is not among the sources.  The spec gives fsp the range 0
    to 6 and maps an unspecified fsp to the default 0; the sentinel is the
    value just below the range.  [CheckFsp] accepts the sentinel, rejects
    what lies below the range and clamps what lies above it. *)
Definition UnspecifiedFsp : Z := -1.
Definition MaxFsp : Z := 6.
Definition MinFsp : Z := 0.
Definition DefaultFsp : Z := 0.

(** Modelled from the spec: see the note on fsp above. *)
Definition CheckFsp (fsp : Z) : Z * option error :=
  if fsp =? UnspecifiedFsp then (DefaultFsp, None)
  else if fsp <? MinFsp then (DefaultFsp, Some (errors.Errorf "Invalid fsp %d" [AInt fsp]))
  else if fsp >? MaxFsp then (MaxFsp, None)
  else (fsp, None).

(** ** Packed temporal representation *)

(** A [CoreTime] is a [uint64]. *)
Definition CoreTime : Type := Z.

Definition ZeroCoreTime : CoreTime := 0.

Definition yearBitFieldOffset : Z := 50.
Definition yearBitFieldWidth : Z := 14.
Definition monthBitFieldOffset : Z := 46.
Definition monthBitFieldWidth : Z := 4.
Definition dayBitFieldOffset : Z := 41.
Definition dayBitFieldWidth : Z := 5.
Definition hourBitFieldOffset : Z := 36.
Definition hourBitFieldWidth : Z := 5.
Definition minuteBitFieldOffset : Z := 30.
Definition minuteBitFieldWidth : Z := 6.
Definition secondBitFieldOffset : Z := 24.
Definition secondBitFieldWidth : Z := 6.
Definition microsecondBitFieldOffset : Z := 4.
Definition microsecondBitFieldWidth : Z := 20.
Definition fspTtBitFieldOffset : Z := 0.
Definition fspTtBitFieldWidth : Z := 4.

(** [((1 << width) - 1) << offset]; [(1 << w) - 1] is [Z.ones w]. *)
Definition bitFieldMask (width offset : Z) : Z := Z.shiftl (Z.ones width) offset.

Definition yearBitFieldMask : Z := bitFieldMask yearBitFieldWidth yearBitFieldOffset.
Definition monthBitFieldMask : Z := bitFieldMask monthBitFieldWidth monthBitFieldOffset.
Definition dayBitFieldMask : Z := bitFieldMask dayBitFieldWidth dayBitFieldOffset.
Definition hourBitFieldMask : Z := bitFieldMask hourBitFieldWidth hourBitFieldOffset.
Definition minuteBitFieldMask : Z := bitFieldMask minuteBitFieldWidth minuteBitFieldOffset.
Definition secondBitFieldMask : Z := bitFieldMask secondBitFieldWidth secondBitFieldOffset.
Definition microsecondBitFieldMask : Z :=
  bitFieldMask microsecondBitFieldWidth microsecondBitFieldOffset.
Definition fspTtBitFieldMask : Z := bitFieldMask fspTtBitFieldWidth fspTtBitFieldOffset.

(** [^x] on a [uint64]. *)
Definition not64 (x : Z) : Z := Z.lxor x (Z.ones 64).

Definition fspTtForDate : Z := 14.
Definition fspBitFieldMask : Z := 14.
Definition coreTimeBitFieldMask : Z := not64 fspTtBitFieldMask.

(** [x << n] on a [uint64]. *)
Definition shl64 (x n : Z) : Z := uint64 (Z.shiftl x n).

Definition FromDate (year month day hour minute second microsecond : Z) : CoreTime :=
  let v := ZeroCoreTime in
  let v := Z.lor v (Z.land (shl64 (uint64 microsecond) microsecondBitFieldOffset)
                           microsecondBitFieldMask) in
  let v := Z.lor v (Z.land (shl64 (uint64 second) secondBitFieldOffset) secondBitFieldMask) in
  let v := Z.lor v (Z.land (shl64 (uint64 minute) minuteBitFieldOffset) minuteBitFieldMask) in
  let v := Z.lor v (Z.land (shl64 (uint64 hour) hourBitFieldOffset) hourBitFieldMask) in
  let v := Z.lor v (Z.land (shl64 (uint64 day) dayBitFieldOffset) dayBitFieldMask) in
  let v := Z.lor v (Z.land (shl64 (uint64 month) monthBitFieldOffset) monthBitFieldMask) in
  let v := Z.lor v (Z.land (shl64 (uint64 year) yearBitFieldOffset) yearBitFieldMask) in
  v.

Definition FromDateChecked (year month day hour minute second microsecond : Z)
  : CoreTime * bool :=
  if (uint64 year >=? Z.shiftl 1 yearBitFieldWidth)
     || (uint64 month >=? Z.shiftl 1 monthBitFieldWidth)
     || (uint64 day >=? Z.shiftl 1 dayBitFieldWidth)
     || (uint64 hour >=? Z.shiftl 1 hourBitFieldWidth)
     || (uint64 minute >=? Z.shiftl 1 minuteBitFieldWidth)
     || (uint64 second >=? Z.shiftl 1 secondBitFieldWidth)
     || (uint64 microsecond >=? Z.shiftl 1 microsecondBitFieldWidth)
  then (ZeroCoreTime, false)
  else (FromDate year month day hour minute second microsecond, true).

(** Modelled from the spec: core_time.go, which declares [CoreTime] and its
    field accessors, is not among the sources.  The spec describes the
    value as the fixed-width integer holding year (14 bits), month (4),
    day (5), hour (5), minute (6), second (6) and microsecond (20) above
    the 4 tag bits; each accessor reads its field through the mask and
    offset that [FromDate] writes it with. *)
Module CoreTimeFields.
Definition Year (t : CoreTime) : Z := Z.shiftr (Z.land t yearBitFieldMask) yearBitFieldOffset.
Definition Month (t : CoreTime) : Z :=
  Z.shiftr (Z.land t monthBitFieldMask) monthBitFieldOffset.
Definition Day (t : CoreTime) : Z := Z.shiftr (Z.land t dayBitFieldMask) dayBitFieldOffset.
Definition Hour (t : CoreTime) : Z := Z.shiftr (Z.land t hourBitFieldMask) hourBitFieldOffset.
Definition Minute (t : CoreTime) : Z :=
  Z.shiftr (Z.land t minuteBitFieldMask) minuteBitFieldOffset.
Definition Second (t : CoreTime) : Z :=
  Z.shiftr (Z.land t secondBitFieldMask) secondBitFieldOffset.
Definition Microsecond (t : CoreTime) : Z :=
  Z.shiftr (Z.land t microsecondBitFieldMask) microsecondBitFieldOffset.
End CoreTimeFields.
Export CoreTimeFields.

(** Modelled from the spec: [compareTime] lives in core_time.go as well.
    It orders two core times by date and time of day, then by
    microsecond, and ignores the tag bits; a value compares equal to
    [ZeroCoreTime] exactly when all seven fields are zero. *)
Definition datetimeToUint64 (t : CoreTime) : Z :=
  (Year t * 10000 + Month t * 100 + Day t) * 1000000
  + (Hour t * 10000 + Minute t * 100 + Second t).

(** Modelled from the spec: see [datetimeToUint64]. *)
Definition compareTime (a b : CoreTime) : Z :=
  let ta := datetimeToUint64 a in
  let tb := datetimeToUint64 b in
  if ta <? tb then -1
  else if ta >? tb then 1
  else if Microsecond a <? Microsecond b then -1
  else if Microsecond a >? Microsecond b then 1
  else 0.

(** [Time] embeds its [coreTime]; type and fsp live in the 4 tag bits. *)
Record Time : Type := mkTime { coreTime : CoreTime }.

Definition ZeroTime : Time := mkTime 0.

Definition NewTime (ct : CoreTime) (tp : Z) (fsp : Z) : Time :=
  let p := coreTime ZeroTime in
  let p := Z.lor p (Z.land (uint64 ct) coreTimeBitFieldMask) in
  if tp =? mysql.TypeDate then mkTime (Z.lor p (uint64 fspTtForDate))
  else
    let fsp := if fsp =? UnspecifiedFsp then DefaultFsp else fsp in
    let p := Z.lor p (shl64 (uint64 fsp) 1) in
    if tp =? mysql.TypeTimestamp then mkTime (Z.lor p 1) else mkTime p.

Definition getFspTt (t : Time) : Z := Z.land (coreTime t) fspTtBitFieldMask.

Definition setFspTt (t : Time) (fspTt : Z) : Time :=
  let c := Z.land (coreTime t) (not64 fspTtBitFieldMask) in
  mkTime (Z.lor c (uint64 fspTt)).

Definition Time_Type (t : Time) : Z :=
  if getFspTt t =? fspTtForDate then mysql.TypeDate
  else if Z.land (coreTime t) 1 =? 1 then mysql.TypeTimestamp
  else mysql.TypeDatetime.

Definition Time_Fsp (t : Time) : Z :=
  let fspTt := getFspTt t in
  if fspTt =? fspTtForDate then 0 else Z.shiftr fspTt 1.

(** [SetType]: the switch has no default, so any other [tp] only resets a
    date tag. *)
Definition SetType (t : Time) (tp : Z) : Time :=
  let fspTt := getFspTt t in
  let fspTt := if (fspTt =? fspTtForDate) && negb (tp =? mysql.TypeDate) then 0 else fspTt in
  let fspTt :=
    if tp =? mysql.TypeDate then fspTtForDate
    else if tp =? mysql.TypeTimestamp then Z.lor fspTt 1
    else if tp =? mysql.TypeDatetime then Z.land fspTt (not64 1)
    else fspTt in
  setFspTt t fspTt.

Definition SetFsp (t : Time) (fsp : Z) : Time :=
  if getFspTt t =? fspTtForDate then t
  else
    let fsp := if fsp =? UnspecifiedFsp then DefaultFsp else fsp in
    let c := Z.land (coreTime t) (not64 fspBitFieldMask) in
    mkTime (Z.lor c (shl64 (uint64 fsp) 1)).

(** [t.CoreTime()] *)
Definition Time_CoreTime (t : Time) : CoreTime := Z.land (coreTime t) coreTimeBitFieldMask.

Definition SetCoreTime (t : Time) (ct : CoreTime) : Time :=
  let c := Z.land (coreTime t) (not64 coreTimeBitFieldMask) in
  mkTime (Z.lor c (Z.land (uint64 ct) coreTimeBitFieldMask)).

Definition IsZero (t : Time) : bool := compareTime (coreTime t) ZeroCoreTime =? 0.

(** [ToPackedUint]; the error result is always nil. *)
Definition ToPackedUint (t : Time) : Z :=
  let tm := coreTime t in
  if IsZero t then 0
  else
    let '(year, month, day) := (Year tm, Month tm, Day tm) in
    let '(hour, minute, sec) := (Hour tm, Minute tm, Second tm) in
    let ymd := uint64 (Z.lor (Z.shiftl (year * 13 + month) 5) day) in
    let hms := uint64 (Z.lor (Z.lor (Z.shiftl hour 12) (Z.shiftl minute 6)) sec) in
    let micro := uint64 (Microsecond tm) in
    Z.lor (shl64 (Z.lor (shl64 ymd 17) hms) 24) micro.

(** [t.FromPackedUint(packed)]: the receiver [t] before the call and the
    packed value in, the receiver after the call out; the error result is
    always nil. *)
Definition FromPackedUint (t : Time) (packed : Z) : Time :=
  if packed =? 0 then SetCoreTime t ZeroCoreTime
  else
    let ymdhms := Z.shiftr packed 24 in
    let ymd := Z.shiftr ymdhms 17 in
    let day := Z.land ymd (Z.shiftl 1 5 - 1) in
    let ym := Z.shiftr ymd 5 in
    let month := ym mod 13 in
    let year := ym / 13 in
    let hms := Z.land ymdhms (Z.shiftl 1 17 - 1) in
    let second := Z.land hms (Z.shiftl 1 6 - 1) in
    let minute := Z.land (Z.shiftr hms 6) (Z.shiftl 1 6 - 1) in
    let hour := Z.shiftr hms 12 in
    let microsec := packed mod Z.shiftl 1 24 in
    SetCoreTime t (FromDate year month day hour minute second microsec).

(** The packed layout as the spec words it, from the most significant
    bit: 1 reserved bit, 17 bits of year*13+month, 5 bits of day, 5 of
    hour, 6 of minute, 6 of second and 24 of microsecond. *)
Definition packedLayout (year month day hour minute second microsecond : Z) : Z :=
  (year * 13 + month) * 2 ^ 46 + day * 2 ^ 41 + hour * 2 ^ 36 + minute * 2 ^ 30
  + second * 2 ^ 24 + microsecond.

(** Every field within its bit width. *)
Record fieldsInRange (Y M D h mi s us : Z) : Prop := {
  fr_year : 0 <= Y < 2 ^ 14;
  fr_month : 0 <= M < 2 ^ 4;
  fr_day : 0 <= D < 2 ^ 5;
  fr_hour : 0 <= h < 2 ^ 5;
  fr_minute : 0 <= mi < 2 ^ 6;
  fr_second : 0 <= s < 2 ^ 6;
  fr_micro : 0 <= us < 2 ^ 20 }.


(** ** Byte strings and the [strconv] / [strings] functions in use *)

Definition byte (c : ascii) : Z := Z.of_N (N_of_ascii c).

(** [s[i]]; the callers guard the index. *)
Definition byteAt (s : string) (i : Z) : ascii :=
  match String.get (Z.to_nat i) s with
  | Some c => c
  | None => Ascii.zero
  end.

(** [s[lo:hi]] and [s[lo:]]. *)
Definition slice (s : string) (lo hi : Z) : string :=
  String.substring (Z.to_nat lo) (Z.to_nat (hi - lo)) s.

Definition sliceFrom (s : string) (lo : Z) : string := slice s lo (len s).

Definition isDigitByte (c : ascii) : bool := (byte "0" <=? byte c) && (byte c <=? byte "9").

(** The longest prefix whose bytes satisfy [p], and the rest. *)
Fixpoint span (p : ascii -> bool) (s : string) : string * string :=
  match s with
  | EmptyString => (EmptyString, EmptyString)
  | String c r =>
      if p c then let '(a, b) := span p r in (String c a, b)
      else (EmptyString, s)
  end.

Fixpoint allBytes (p : ascii -> bool) (s : string) : bool :=
  match s with
  | EmptyString => true
  | String c r => p c && allBytes p r
  end.

(** Value of a string of decimal digits, most significant first. *)
Fixpoint digitsValue (acc : Z) (s : string) : Z :=
  match s with
  | EmptyString => acc
  | String c r => digitsValue (acc * 10 + (byte c - byte "0")) r
  end.

(** [strconv.ParseUint(s, 10, 64)]: digits only; the value saturates at
    the largest [uint64] with a range error. *)
Definition ParseUint (s : string) : Z * option error :=
  if (String.length s =? 0)%nat then
    (0, Some (FmtError "strconv.ParseUint: parsing %q: invalid syntax" [AStr s]))
  else if negb (allBytes isDigitByte s) then
    (0, Some (FmtError "strconv.ParseUint: parsing %q: invalid syntax" [AStr s]))
  else
    let v := digitsValue 0 s in
    if v >? MaxUint64 then
      (MaxUint64, Some (FmtError "strconv.ParseUint: parsing %q: value out of range" [AStr s]))
    else (v, None).

(** [strconv.ParseInt(s, 10, 64)]: an optional sign,
    then digits; the value saturates with a range error. *)
Definition ParseInt (s : string) : Z * option error :=
  let '(neg, body) :=
    match s with
    | String c r =>
        if Ascii.eqb c "-" then (true, r)
        else if Ascii.eqb c "+" then (false, r)
        else (false, s)
    | EmptyString => (false, s)
    end in
  if (String.length body =? 0)%nat then
    (0, Some (FmtError "strconv.ParseInt: parsing %q: invalid syntax" [AStr s]))
  else if negb (allBytes isDigitByte body) then
    (0, Some (FmtError "strconv.ParseInt: parsing %q: invalid syntax" [AStr s]))
  else
    let v := digitsValue 0 body in
    if negb neg && (v >? MaxInt64) then
      (MaxInt64, Some (FmtError "strconv.ParseInt: parsing %q: value out of range" [AStr s]))
    else if neg && (v >? - MinInt64) then
      (MinInt64, Some (FmtError "strconv.ParseInt: parsing %q: value out of range" [AStr s]))
    else (if neg then - v else v, None).

(** [nerr.Func = fnAtoi]: an error of [ParseInt] named after [Atoi]. *)
Definition asAtoiError (e : error) : error :=
  match e with
  | FmtError f args => FmtError ("strconv.Atoi" ++ sliceFrom f 16) args
  | _ => e
  end.

(** [strconv.Atoi]: [ParseInt] in base 10, its errors under the name of
    [Atoi]. *)
Definition Atoi (s : string) : Z * option error :=
  let '(v, err) := ParseInt s in (v, option_map asAtoiError err).

(** [strconv.FormatUint(n, 10)]; [fuel] bounds the number of digits. *)
Fixpoint formatDigits (fuel : nat) (n : Z) (acc : string) : string :=
  match fuel with
  | O => acc
  | S f =>
      let acc' := String (ascii_of_N (Z.to_N (byte "0" + n mod 10))) acc in
      if n / 10 =? 0 then acc' else formatDigits f (n / 10) acc'
  end.

Definition FormatUint (n : Z) : string := formatDigits 20 n EmptyString.

(** [strings.Index(s, ".")]-style search for one byte; -1 when absent. *)
Fixpoint indexByteFrom (c : ascii) (s : string) (i : Z) : Z :=
  match s with
  | EmptyString => -1
  | String d r => if Ascii.eqb d c then i else indexByteFrom c r (i + 1)
  end.

Definition IndexByte (s : string) (c : ascii) : Z := indexByteFrom c s 0.

(** [strings.TrimLeft(s, "0")]. *)
Fixpoint TrimLeftZeros (s : string) : string :=
  match s with
  | String c r => if Ascii.eqb c "0" then TrimLeftZeros r else s
  | EmptyString => EmptyString
  end.

(** [strings.Repeat("0", n)]. *)
Definition RepeatZero (n : Z) : string :=
  Z.iter n (fun s => String "0" s) EmptyString.

(** Go's [<] and [>] on strings: bytewise lexicographic order. *)
Fixpoint stringCompare (a b : string) : comparison :=
  match a, b with
  | EmptyString, EmptyString => Eq
  | EmptyString, String _ _ => Lt
  | String _ _, EmptyString => Gt
  | String x a', String y b' =>
      match Z.compare (byte x) (byte y) with
      | Eq => stringCompare a' b'
      | o => o
      end
  end.

Definition stringGt (a b : string) : bool :=
  match stringCompare a b with Gt => true | _ => false end.

(** [strings.TrimSpace] removes Unicode white space from both ends: the
    six ASCII blanks, and the UTF-8 encodings of U+0085, U+00A0, U+1680,
    U+2000 to U+200A, U+2028, U+2029, U+202F, U+205F and U+3000. *)
Definition isSpaceByte (c : ascii) : bool :=
  let b := byte c in
  (b =? 32) || ((9 <=? b) && (b <=? 13)).

Definition spaceRunes : list (list Z) :=
  [[194; 133]; [194; 160]; [225; 154; 128];
   [226; 128; 128]; [226; 128; 129]; [226; 128; 130]; [226; 128; 131];
   [226; 128; 132]; [226; 128; 133]; [226; 128; 134]; [226; 128; 135];
   [226; 128; 136]; [226; 128; 137]; [226; 128; 138];
   [226; 128; 168]; [226; 128; 169]; [226; 128; 175]; [226; 129; 159];
   [227; 128; 128]].

(** What is left of [s] after the bytes [bs], when [s] starts with them. *)
Fixpoint stripBytes (bs : list Z) (s : list ascii) : option (list ascii) :=
  match bs, s with
  | [], _ => Some s
  | b :: bs', c :: s' => if byte c =? b then stripBytes bs' s' else None
  | _ :: _, [] => None
  end.

Fixpoint stripAnyRune (runes : list (list Z)) (s : list ascii) : option (list ascii) :=
  match runes with
  | [] => None
  | r :: rs =>
      match stripBytes r s with
      | Some rest => Some rest
      | None => stripAnyRune rs s
      end
  end.

(** Drops leading white space; [runes] are the encodings to look for,
    [fuel] bounds the number of runes dropped. *)
Fixpoint trimLeftRunes (runes : list (list Z)) (fuel : nat) (s : list ascii) : list ascii :=
  match fuel with
  | O => s
  | S f =>
      match s with
      | [] => []
      | c :: r =>
          if isSpaceByte c then trimLeftRunes runes f r
          else
            match stripAnyRune runes s with
            | Some rest => trimLeftRunes runes f rest
            | None => s
            end
      end
  end.

Definition TrimSpace (s : string) : string :=
  let l := list_ascii_of_string s in
  let l := trimLeftRunes spaceRunes (List.length l) l in
  let r := trimLeftRunes (List.map (@List.rev Z) spaceRunes) (List.length l) (List.rev l) in
  string_of_list_ascii (List.rev r).

(** ** The small parser helpers (util/parser replacements) *)

Definition Char (s : string) (c : ascii) : string * option error :=
  match s with
  | String d r =>
      if negb (Ascii.eqb d c) then ("", Some (FmtError "expected %c" [AInt (byte c)]))
      else (r, None)
  | EmptyString => ("", Some (FmtError "expected %c" [AInt (byte c)]))
  end.

Definition isSpace32 (c : ascii) : bool := Ascii.eqb c " ".

(** [Space(s, min)]: at least [min] leading spaces. *)
Definition Space (s : string) (min : Z) : string * option error :=
  let '(sp, rest) := span isSpace32 s in
  if len sp <? min then ("", Some (FmtError "expected at least %d spaces" [AInt min]))
  else (rest, None).

Definition Space0 (s : string) : string := snd (span isSpace32 s).

(** [Number(s)]: the leading run of digits, read by [strconv.Atoi]. *)
Definition Number (s : string) : Z * string * option error :=
  if len s =? 0 then (0, s, Some (FmtError "no number found" []))
  else
    let '(ds, rest) := span isDigitByte s in
    if len ds =? 0 then (0, s, Some (FmtError "no number found" []))
    else
      let '(num, err) := Atoi ds in
      (num, rest, err).

(** [Digit(s, n)]: exactly the first [n] bytes, which must be digits. *)
Definition Digit (s : string) (n : Z) : string * string * option error :=
  if len s <? n then ("", s, Some (FmtError "not enough digits" []))
  else if negb (allBytes isDigitByte (slice s 0 n))
       then ("", s, Some (FmtError "expected digit" []))
       else (slice s 0 n, sliceFrom s n, None).

Definition isPunctByte (c : ascii) : bool :=
  let b := byte c in
  ((byte "!" <=? b) && (b <=? byte "/"))
  || ((byte ":" <=? b) && (b <=? byte "@"))
  || ((byte "[" <=? b) && (b <=? byte "`"))
  || ((byte "{" <=? b) && (b <=? byte "~")).

Definition AnyPunct (s : string) : string * option error :=
  match s with
  | EmptyString => ("", Some (FmtError "no punctuation found" []))
  | String c r =>
      if isPunctByte c then (r, None)
      else ("", Some (FmtError "expected punctuation" []))
  end.

(** Modelled from the spec: [isDigit] and [isPunctuation] are declared
    outside the files embedded here.  The parser splits on punctuation, and
    the punctuation bytes are the four ASCII ranges that [AnyPunct]
    spells out. *)
Definition isDigit (c : ascii) : bool := isDigitByte c.

(** Modelled from the spec: see [isDigit]. *)
Definition isPunctuation (c : ascii) : bool := isPunctByte c.

(** ** Go's [time] package, for fixed-offset zones

    A [Time] is an instant, counted in nanoseconds since
    0001-01-01 00:00:00 UTC, and the zone it is shown in.  Only zones
    with a fixed offset are modelled: [UTC] and the results of
    [FixedZone].  The calendar is the proleptic Gregorian one, and
    [Date] normalises fields outside their usual ranges as Go does. *)
Module gotime.

Definition Nanosecond : Z := 1.
Definition Microsecond : Z := 1000 * Nanosecond.
Definition Millisecond : Z := 1000 * Microsecond.
Definition Second : Z := 1000 * Millisecond.
Definition Minute : Z := 60 * Second.
Definition Hour : Z := 60 * Minute.

Inductive Location : Type :=
| UTC
| FixedZone (name : string) (offset : Z).

Definition offsetOf (l : Location) : Z :=
  match l with
  | UTC => 0
  | FixedZone _ off => off
  end.

(** Pointer equality of two locations; only [UTC] is a shared value. *)
Definition sameLocation (a b : Location) : bool :=
  match a, b with
  | UTC, UTC => true
  | _, _ => false
  end.

Record Time : Type := mkTime { instant : Z; zone : Location }.

Definition isLeap (year : Z) : bool :=
  ((year mod 4 =? 0) && negb (year mod 100 =? 0)) || (year mod 400 =? 0).

(** Days from 0001-01-01 to the first day of [year]. *)
Definition daysBeforeYear (year : Z) : Z :=
  let y := year - 1 in
  365 * y + y / 4 - y / 100 + y / 400.

Definition daysBefore : list Z := [0; 31; 59; 90; 120; 151; 181; 212; 243; 273; 304; 334; 365].

(** Days from the first day of the year to the first day of [month],
    for [month] in 1..12. *)
Definition daysBeforeMonth (year month : Z) : Z :=
  nth (Z.to_nat (month - 1)) daysBefore 0
  + (if isLeap year && (month >? 2) then 1 else 0).

(** [time.Date]. *)
Definition Date (year month day hour min sec nsec : Z) (loc : Location) : Time :=
  let m := month - 1 in
  let year := year + m / 12 in
  let month := m mod 12 + 1 in
  let days := daysBeforeYear year + daysBeforeMonth year month + (day - 1) in
  let secs := days * 86400 + hour * 3600 + min * 60 + sec - offsetOf loc in
  mkTime (secs * 1000000000 + nsec) loc.

(** Nanoseconds since the epoch, on the zone's own clock. *)
Definition wall (t : Time) : Z := instant t + offsetOf (zone t) * 1000000000.

Definition absDays (t : Time) : Z := wall t / 86400000000000.

(** Year and day within the year of a day count, by 400-, 100-, 4- and
    1-year cycles. *)
Definition yearDay (days : Z) : Z * Z :=
  let n400 := days / 146097 in
  let d := days mod 146097 in
  let n100 := Z.min (d / 36524) 3 in
  let d := d - 36524 * n100 in
  let n4 := d / 1461 in
  let d := d - 1461 * n4 in
  let n1 := Z.min (d / 365) 3 in
  let d := d - 365 * n1 in
  (400 * n400 + 100 * n100 + 4 * n4 + n1 + 1, d).

Fixpoint monthOf (year yday : Z) (fuel : nat) (month : Z) : Z * Z :=
  match fuel with
  | O => (month, yday - daysBeforeMonth year month + 1)
  | S f =>
      if yday <? daysBeforeMonth year (month + 1)
      then (month, yday - daysBeforeMonth year month + 1)
      else monthOf year yday f (month + 1)
  end.

(** [t.Date()] *)
Definition dateOf (t : Time) : Z * Z * Z :=
  let '(year, yday) := yearDay (absDays t) in
  let '(month, day) := monthOf year yday 11 1 in
  (year, month, day).

(** [t.Clock()] *)
Definition clockOf (t : Time) : Z * Z * Z :=
  let s := (wall t / 1000000000) mod 86400 in
  (s / 3600, (s mod 3600) / 60, s mod 60).

(** [t.Nanosecond()] *)
Definition nanosecondOf (t : Time) : Z := wall t mod 1000000000.

Definition Add (t : Time) (d : Z) : Time := mkTime (instant t + d) (zone t).

Definition In (t : Time) (loc : Location) : Time := mkTime (instant t) loc.

(** [t.Sub(u)] saturates at the ends of [int64]. *)
Definition Sub (t u : Time) : Z :=
  let d := instant t - instant u in
  if d >? MaxInt64 then MaxInt64 else if d <? MinInt64 then MinInt64 else d.

(** [t.Round(d)]: to the nearest multiple of [d] since the epoch, halves
    away from it; [d <= 0] leaves [t] as it is. *)
Definition Round (t : Time) (d : Z) : Time :=
  if d <=? 0 then t
  else
    let r := instant t mod d in
    if r + r <? d then Add t (- r) else Add t (d - r).

End gotime.

(** ** Statement context *)

Record ContextFlags : Type := mkContextFlags {
  InInsertStmt : bool;
  InUpdateStmt : bool;
  InDeleteStmt : bool;
  InSelectStmt : bool;
  ignoreZeroInDate : bool;
  DividedByZeroAsWarning : bool;
  ignoreTruncateErr : bool;
  truncateAsWarning : bool }.

Definition ContextFlags_IgnoreTruncateErr (cf : ContextFlags) : bool := ignoreTruncateErr cf.
Definition ContextFlags_TruncateAsWarning (cf : ContextFlags) : bool := truncateAsWarning cf.
Definition ContextFlags_AllowNegativeToUnsigned (cf : ContextFlags) : bool := false.
Definition ContextFlags_IgnoreZeroInDate (cf : ContextFlags) : bool := ignoreZeroInDate cf.
Definition ContextFlags_IgnoreInvalidDateErr (cf : ContextFlags) : bool := false.
Definition ContextFlags_IgnoreZeroDateErr (cf : ContextFlags) : bool := false.

Record StmtContext : Type := mkStmtContext {
  IgnoreTruncate : bool;
  TruncateAsWarning : bool;
  flags : ContextFlags;
  warnings : list error }.

Definition StmtContext_Flags (c : StmtContext) : ContextFlags := flags c.

Definition StmtContext_AppendWarning (c : StmtContext) (err : error) : StmtContext :=
  mkStmtContext (IgnoreTruncate c) (TruncateAsWarning c) (flags c) (warnings c ++ [err]).

(** [Location] always answers UTC. *)
Definition StmtContext_Location (c : StmtContext) : gotime.Location := gotime.UTC.

Definition DefaultStmtNoWarningContext : StmtContext :=
  mkStmtContext false false
    (mkContextFlags false false false false false false false false) [].

(** The codes [HandleTruncate] treats as truncation, in its order. *)
Definition isTruncateCode (c : Z) : bool :=
  negb (negb (c =? mysql.ErrTruncatedWrongValue)
        && negb (c =? mysql.ErrDataTooLong)
        && negb (c =? mysql.ErrTruncatedWrongValueForField)
        && negb (c =? mysql.ErrWarnDataOutOfRange)
        && negb (c =? mysql.ErrDataOutOfRange)
        && negb (c =? 1367)
        && negb (c =? mysql.ErrWrongValueForType)
        && negb (c =? mysql.ErrDatetimeFunctionOverflow)
        && negb (c =? mysql.WarnDataTruncated)
        && negb (c =? 1292)).

(** [HandleTruncate]: the context after the call and the error returned.
    The type assertion [err.( *errors.Error)] succeeds on a
    [NormalizedError] only. *)
Definition StmtContext_HandleTruncate (c : StmtContext) (err : option error)
  : StmtContext * option error :=
  match err with
  | None => (c, None)
  | Some e =>
      let err := errors.Cause e in
      let handled :=
        match err with
        | NormalizedError code _ => isTruncateCode code
        | _ => false
        end in
      if negb handled then (c, Some err)
      else if ContextFlags_IgnoreTruncateErr (StmtContext_Flags c) then (c, None)
      else if ContextFlags_TruncateAsWarning (StmtContext_Flags c)
           then (StmtContext_AppendWarning c err, None)
           else (c, Some err)
  end.


Definition TypeStr (tp : Z) : string :=
  if tp =? mysql.TypeBit then "bit"
  else if tp =? mysql.TypeTiny then "tinyint"
  else if tp =? mysql.TypeShort then "smallint"
  else if tp =? mysql.TypeLong then "int"
  else if tp =? mysql.TypeFloat then "float"
  else if tp =? mysql.TypeDouble then "double"
  else if tp =? mysql.TypeNull then "null"
  else if tp =? mysql.TypeTimestamp then "timestamp"
  else if tp =? mysql.TypeLonglong then "bigint"
  else if tp =? mysql.TypeInt24 then "mediumint"
  else if tp =? mysql.TypeDate then "date"
  else if tp =? mysql.TypeDuration then "time"
  else if tp =? mysql.TypeDatetime then "datetime"
  else if tp =? mysql.TypeYear then "year"
  else if tp =? mysql.TypeNewDate then "date"
  else if tp =? mysql.TypeVarchar then "varchar"
  else if tp =? mysql.TypeJSON then "json"
  else if tp =? mysql.TypeNewDecimal then "decimal"
  else if tp =? mysql.TypeEnum then "enum"
  else if tp =? mysql.TypeSet then "set"
  else if tp =? mysql.TypeTinyBlob then "tinyblob"
  else if tp =? mysql.TypeMediumBlob then "mediumblob"
  else if tp =? mysql.TypeLongBlob then "longblob"
  else if tp =? mysql.TypeBlob then "blob"
  else if tp =? mysql.TypeVarString then "var_string"
  else if tp =? mysql.TypeString then "char"
  else if tp =? mysql.TypeGeometry then "geometry"
  else if tp =? mysql.TypeTiDBVectorFloat32 then "vector"
  else "unknown".

(** [overflow(v, tp)] *)
Definition overflow (v : arg) (tp : Z) : error :=
  TError_GenWithStack ErrOverflow "constant %v overflows %s" [v; AStr (TypeStr tp)].

(** ** Core time and Go time *)

(** Modelled from the spec: [GoTime] of [CoreTime] lives in core_time.go.
    It reads the seven fields as a civil date and time in the zone given
    and fails with the wrong-value error when the zone's calendar has no
    such moment (a zero month or day, 30 February): the date Go
    normalises it to then differs from the fields. *)
Definition CoreTime_GoTime (t : CoreTime) (loc : gotime.Location)
  : gotime.Time * option error :=
  let tm := gotime.Date (Year t) (Month t) (Day t) (Hour t) (Minute t) (Second t)
              (Microsecond t * 1000) loc in
  let '(year2, month2, day2) := gotime.dateOf tm in
  let '(hour2, minute2, second2) := gotime.clockOf tm in
  let microsec2 := gotime.nanosecondOf tm / 1000 in
  if negb (year2 =? Year t) || negb (month2 =? Month t) || negb (day2 =? Day t)
     || negb (hour2 =? Hour t) || negb (minute2 =? Minute t) || negb (second2 =? Second t)
     || negb (microsec2 =? Microsecond t)
  then (tm, errors.Trace (Some (TError_GenWithStackByArgs ErrWrongValue
                                  [AStr TimeStr; ACoreTime t])))
  else (tm, None).

(** Modelled from the spec: [AdjustedGoTime] lives in core_time.go.  It
    moves a time that falls into a DST gap of the zone forward; a zone
    with a fixed offset has no gap, so it answers as [GoTime] does. *)
Definition CoreTime_AdjustedGoTime (t : CoreTime) (loc : gotime.Location)
  : gotime.Time * option error :=
  CoreTime_GoTime t loc.

Definition FromGoTime (t : gotime.Time) : CoreTime :=
  let t := gotime.Add t (500 * gotime.Nanosecond) in
  let '(year, month, day) := gotime.dateOf t in
  let '(hour, minute, second) := gotime.clockOf t in
  let microsecond := gotime.nanosecondOf t / 1000 in
  FromDate year month day hour minute second microsecond.

(** [t.ConvertTimeZone(from, to)]: the receiver after the call and the
    error. *)
Definition ConvertTimeZone (t : Time) (from to : gotime.Location) : Time * option error :=
  if negb (IsZero t) then
    let '(raw, err) := CoreTime_GoTime (coreTime t) from in
    match err with
    | Some _ => (t, errors.Trace err)
    | None => (SetCoreTime t (FromGoTime (gotime.In raw to)), None)
    end
  else (t, None).

Definition ZeroDatetime : Time := NewTime ZeroCoreTime mysql.TypeDatetime DefaultFsp.

Definition MinDatetime : CoreTime := FromDate 1 1 1 0 0 0 0.
Definition MaxDatetime : CoreTime := FromDate 9999 12 31 23 59 59 999999.
Definition BoundTimezone : gotime.Location := gotime.UTC.
Definition MinTimestamp : Time :=
  NewTime (FromDate 1970 1 1 0 0 1 0) mysql.TypeTimestamp DefaultFsp.
Definition MaxTimestamp : Time :=
  NewTime (FromDate 2038 1 19 3 14 7 999999) mysql.TypeTimestamp DefaultFsp.

Definition Time_Compare (t o : Time) : Z := compareTime (coreTime t) (coreTime o).

(** ** Validation *)

Definition maxDaysInMonth : list Z := [31; 29; 31; 30; 31; 30; 31; 31; 30; 31; 30; 31].

(** Modelled from the spec: [isLeapYear] is declared outside the files
    embedded here; the Gregorian rule on a [uint16] year. *)
Definition isLeapYear (year : Z) : bool :=
  ((year mod 4 =? 0) && negb (year mod 100 =? 0)) || (year mod 400 =? 0).

Definition uint16 (z : Z) : Z := z mod 2 ^ 16.

Definition checkDateRange (t : CoreTime) : option error :=
  if (Year t <? 0) || (Month t <? 0) || (Day t <? 0) then
    errors.Trace (Some (TError_GenWithStackByArgs ErrWrongValue [AStr TimeStr; ACoreTime t]))
  else if compareTime t MaxDatetime >? 0 then
    errors.Trace (Some (TError_GenWithStackByArgs ErrWrongValue [AStr TimeStr; ACoreTime t]))
  else None.

Definition checkMonthDay (year month day : Z) (allowInvalidDate : bool) : option error :=
  if (month <? 0) || (month >? 12) then
    errors.Trace (Some (TError_GenWithStackByArgs ErrWrongValue
                          [AStr DateTimeStr; ASprintf "%d-%d-%d" [year; month; day]]))
  else
    let maxDay := 31 in
    let maxDay :=
      if negb allowInvalidDate then
        let maxDay := if month >? 0 then nth (Z.to_nat (month - 1)) maxDaysInMonth 0
                      else maxDay in
        if (month =? 2) && negb (isLeapYear (uint16 year)) then 28 else maxDay
      else maxDay in
    if (day <? 0) || (day >? maxDay) then
      errors.Trace (Some (TError_GenWithStackByArgs ErrWrongValue
                            [AStr DateTimeStr; ASprintf "%d-%d-%d" [year; month; day]]))
    else None.

Definition checkDateType (t : CoreTime) (allowZeroInDate allowInvalidDate : bool)
  : option error :=
  let '(year, month, day) := (Year t, Month t, Day t) in
  if (year =? 0) && (month =? 0) && (day =? 0) then None
  else if negb allowZeroInDate && ((month =? 0) || (day =? 0)) then
    Some (TError_GenWithStackByArgs ErrWrongValue
            [AStr DateTimeStr; ASprintf "%04d-%02d-%02d" [year; month; day]])
  else
    match checkDateRange t with
    | Some e => errors.Trace (Some e)
    | None =>
        match checkMonthDay year month day allowInvalidDate with
        | Some e => errors.Trace (Some e)
        | None => None
        end
    end.

Definition checkDatetimeType (t : CoreTime) (allowZeroInDate allowInvalidDate : bool)
  : option error :=
  match checkDateType t allowZeroInDate allowInvalidDate with
  | Some e => errors.Trace (Some e)
  | None =>
      let '(hour, minute, second) := (Hour t, Minute t, Second t) in
      if (hour <? 0) || (hour >=? 24) then
        errors.Trace (Some (TError_GenWithStackByArgs ErrWrongValue [AStr TimeStr; AInt hour]))
      else if (minute <? 0) || (minute >=? 60) then
        errors.Trace (Some (TError_GenWithStackByArgs ErrWrongValue [AStr TimeStr; AInt minute]))
      else if (second <? 0) || (second >=? 60) then
        errors.Trace (Some (TError_GenWithStackByArgs ErrWrongValue [AStr TimeStr; AInt second]))
      else None
  end.

(** [adjustTimestampErrForDST]; [str] only feeds the message. *)
Definition adjustTimestampErrForDST (loc : gotime.Location) (str : arg) (tp : Z)
    (t : Time) (err : option error) : Time * option error :=
  if negb (tp =? mysql.TypeTimestamp) || IsZero t then (t, err)
  else
    let '(minTS, minErr) := ConvertTimeZone MinTimestamp gotime.UTC loc in
    let '(maxTS, maxErr) := ConvertTimeZone MaxTimestamp gotime.UTC loc in
    match minErr, maxErr with
    | None, None =>
        if (Time_Compare t minTS >? 0) && (Time_Compare t maxTS <? 0) then
          match CoreTime_AdjustedGoTime (coreTime t) loc with
          | (tAdjusted, None) =>
              (SetCoreTime t (FromGoTime tAdjusted),
               errors.Trace (Some (TError_GenWithStackByArgs ErrTimestampInDSTTransition
                                     [str; AStr (match loc with
                                                 | gotime.UTC => "UTC"
                                                 | gotime.FixedZone n _ => n
                                                 end)])))
          | (_, Some _) => (t, err)
          end
        else (t, err)
    | _, _ => (t, err)
    end.

Definition checkTimestampType (t : CoreTime) (tz : gotime.Location) : option error :=
  if compareTime t ZeroCoreTime =? 0 then None
  else
    let converted :=
      if negb (gotime.sameLocation tz BoundTimezone) then
        let convertTime := NewTime t mysql.TypeTimestamp DefaultFsp in
        match ConvertTimeZone convertTime tz BoundTimezone with
        | (_, Some e) =>
            inr (snd (adjustTimestampErrForDST tz (ACoreTime t) mysql.TypeTimestamp
                        (mkTime t) (Some e)))
        | (convertTime, None) => inl (coreTime convertTime)
        end
      else inl t in
    match converted with
    | inr err2 => err2
    | inl checkTime =>
        if (compareTime checkTime (coreTime MaxTimestamp) >? 0)
           || (compareTime checkTime (coreTime MinTimestamp) <? 0) then
          errors.Trace (Some (TError_GenWithStackByArgs ErrWrongValue
                                [AStr TimeStr; ACoreTime t]))
        else
          match CoreTime_GoTime t tz with
          | (_, Some e) => errors.Trace (Some e)
          | (_, None) => None
          end
    end.

(** [t.Check(ctx)] *)
Definition Time_Check (ctx : StmtContext) (t : Time) : option error :=
  let allowZeroInDate := ContextFlags_IgnoreZeroInDate (StmtContext_Flags ctx) in
  let allowInvalidDate := ContextFlags_IgnoreInvalidDateErr (StmtContext_Flags ctx) in
  let err :=
    if Time_Type t =? mysql.TypeTimestamp
    then checkTimestampType (coreTime t) (StmtContext_Location ctx)
    else if (Time_Type t =? mysql.TypeDatetime) || (Time_Type t =? mysql.TypeDate)
         then checkDatetimeType (coreTime t) allowZeroInDate allowInvalidDate
         else None in
  errors.Trace err.

(** ** Splitting a datetime literal *)

(** The backwards scan of [GetTimezone]: [n] is one more than the index
    looked at next; the results are [zidx], [sidx] and [spidx]. *)
Fixpoint tzScan (lit : string) (n : nat) (sidx spidx : Z) : Z * Z * Z :=
  match n with
  | O => (-1, sidx, spidx)
  | S i =>
      let c := byteAt lit (Z.of_nat i) in
      if Ascii.eqb c "Z" then (Z.of_nat i, sidx, spidx)
      else
        let sidx := if (sidx =? -1) && (Ascii.eqb c "-" || Ascii.eqb c "+")
                    then Z.of_nat i else sidx in
        let spidx := if (spidx =? -1) && Ascii.eqb c ":" then Z.of_nat i else spidx in
        tzScan lit i sidx spidx
  end.

(** [validIdxCombinations] *)
Definition validIdxCombinations (k : Z) : option (Z * Z) :=
  if k =? 100 then Some (0, 0)
  else if k =? 30 then Some (2, 0)
  else if k =? 50 then Some (4, 2)
  else if k =? 63 then Some (5, 2)
  else None.

Definition validTwoDigits (v : string) : bool :=
  isDigitByte (byteAt v 0) && isDigitByte (byteAt v 1).

(** [GetTimezone]: [(idx, tzSign, tzHour, tzSep, tzMinute)]. *)
Definition GetTimezone (lit : string) : Z * string * string * string * string :=
  let l := len lit in
  let '(zidx, sidx, spidx) := tzScan lit (String.length lit) (-1) (-1) in
  let k := 0 in
  let k := if l - zidx =? 1 then k + 100 else k in
  let t := l - sidx in
  let k := if (t =? 3) || (t =? 5) || (t =? 6) then k + t * 10 else k in
  let k := if l - spidx =? 3 then k + 3 else k in
  match validIdxCombinations k with
  | Some (vh, vm) =>
      let '(hidx, midx) := (l - vh, l - vm) in
      let '(tzSign, idx) :=
        if negb (sidx =? -1) then (slice lit sidx (sidx + 1), sidx) else ("", -1) in
      let idx := if negb (zidx =? -1) then zidx else idx in
      let tzSep := if l - spidx =? 3 then slice lit spidx (spidx + 1) else "" in
      let tzHour := if negb (vh =? 0) then slice lit hidx (hidx + 2) else "" in
      if negb (vh =? 0) && negb (validTwoDigits tzHour) then (-1, "", "", "", "")
      else
        let tzMinute := if negb (vm =? 0) then slice lit midx (midx + 2) else "" in
        if negb (vm =? 0) && negb (validTwoDigits tzMinute) then (-1, "", "", "", "")
        else (idx, tzSign, tzHour, tzSep, tzMinute)
  | None => (-1, "", "", "", "")
  end.

(** The backwards scan of [GetFracIndex] from index [n - 1]. *)
Fixpoint fracScan (s : string) (n : nat) : Z :=
  match n with
  | O => -1
  | S i =>
      let c := byteAt s (Z.of_nat i) in
      if negb (Ascii.eqb c "+") && negb (Ascii.eqb c "-") && isPunctuation c then
        if Ascii.eqb c "." then Z.of_nat i else -1
      else fracScan s i
  end.

Definition GetFracIndex (s : string) : Z :=
  let '(tzIndex, _, _, _, _) := GetTimezone s in
  let end_ := if negb (tzIndex =? -1) then tzIndex - 1 else len s - 1 in
  fracScan s (Z.to_nat (end_ + 1)).

Definition GetFsp (s : string) : Z :=
  let index := GetFracIndex s in
  let fsp := if index <? 0 then 0 else len s - index - 1 in
  if fsp >? 6 then 6 else fsp.

Definition isValidSeparator (c : ascii) (prevParts : Z) : bool :=
  if isPunctuation c then true
  else if (prevParts =? 2)
          && (Ascii.eqb c "T" || (byte c =? 32) || ((9 <=? byte c) && (byte c <=? 13)))
  then true
  else if (prevParts >? 4) && negb (isDigit c) then true
  else false.

(** The inner loop of [ParseDateFormat]: how many further separators
    follow from index [j] on. *)
Fixpoint countSeparators (format : string) (fuel : nat) (j : Z) (prevParts : Z) : Z :=
  match fuel with
  | O => 0
  | S f =>
      if (j <? len format) && isValidSeparator (byteAt format j) prevParts
      then 1 + countSeparators format f (j + 1) prevParts
      else 0
  end.

(** The outer loop of [ParseDateFormat] at index [i]; [None] is the early
    [return nil]. *)
Fixpoint parseDateFormatLoop (format : string) (fuel : nat) (i start : Z)
    (seps : list string) : option (list string) :=
  match fuel with
  | O => Some (seps ++ [sliceFrom format start])
  | S f =>
      if i <? len format - 1 then
        if isValidSeparator (byteAt format i) (Z.of_nat (List.length seps)) then
          let prevParts := Z.of_nat (List.length seps) in
          let seps := seps ++ [slice format start i] in
          let k := countSeparators format (String.length format) (i + 1) prevParts in
          parseDateFormatLoop format f (i + k + 1) (i + 1 + k) seps
        else if negb (isDigit (byteAt format i)) then None
        else parseDateFormatLoop format f (i + 1) start seps
      else Some (seps ++ [sliceFrom format start])
  end.

(** [ParseDateFormat]; the nil slice is the empty list. *)
Definition ParseDateFormat (format : string) : list string :=
  let format := TrimSpace format in
  if len format =? 0 then []
  else if negb (isDigit (byteAt format 0)) then []
  else
    match parseDateFormatLoop format (String.length format) 1 0 [] with
    | Some seps => seps
    | None => []
    end.

(** [for ; idx > 0 && isPunctuation(format[idx-1]); idx-- {}] *)
Fixpoint skipPunctBack (format : string) (n : nat) : Z :=
  match n with
  | O => 0
  | S i => if isPunctuation (byteAt format (Z.of_nat i)) then skipPunctBack format i
           else Z.of_nat n
  end.

Record splitResult : Type := mkSplit {
  sp_seps : list string;
  sp_fracStr : string;
  sp_hasTZ : bool;
  sp_tzSign : string;
  sp_tzHour : string;
  sp_tzSep : string;
  sp_tzMinute : string;
  sp_truncated : bool }.

Definition splitDateTime (format : string) : splitResult :=
  let '(tzIndex, tzSign, tzHour, tzSep, tzMinute) := GetTimezone format in
  let '(hasTZ, format) :=
    if tzIndex >? 0
    then (true, slice format 0 (skipPunctBack format (Z.to_nat tzIndex)))
    else (false, format) in
  let fracIndex := GetFracIndex format in
  let '(truncated, fracStr, format) :=
    if fracIndex >? 0 then
      let digits := fst (span isDigit (sliceFrom format (fracIndex + 1))) in
      let fracEnd := fracIndex + 1 + len digits in
      (negb (fracEnd =? len format),
       slice format (fracIndex + 1) fracEnd,
       slice format 0 (skipPunctBack format (Z.to_nat fracIndex)))
    else (false, "", format) in
  mkSplit (ParseDateFormat format) fracStr hasTZ tzSign tzHour tzSep tzMinute truncated.

(** ** [fmt.Sscanf] with fixed-width decimal verbs

    [Sscanf s widths] reads one [%Nd] per width from [s]: blanks are
    skipped, an optional sign and then digits are taken, at most [N]
    bytes in all.  It answers the values read so far and the error that
    stopped it; a later operand keeps the value it had.  Input left over
    is not an error, and a blank that ends the format matches nothing or
    more blanks. *)

Definition io_EOF : error := FmtError "EOF" [].

Definition isEOF (e : error) : bool :=
  match e with
  | FmtError f [] => String.eqb f "EOF"
  | _ => false
  end.

Definition isBlankByte (c : ascii) : bool :=
  (byte c =? 32) || (byte c =? 9) || (byte c =? 13).

Definition isScanDigit (c : ascii) : bool := isDigitByte c || Ascii.eqb c "_".

(** The first [n] bytes of [s] that satisfy [p], and the rest. *)
Fixpoint spanAtMost (p : ascii -> bool) (n : nat) (s : string) : string * string :=
  match n, s with
  | S m, String c r =>
      if p c then let '(a, b) := spanAtMost p m r in (String c a, b)
      else (EmptyString, s)
  | _, _ => (EmptyString, s)
  end.

Definition scanOneInt (width : Z) (s : string) : (Z + error) * string :=
  let s := snd (span isBlankByte s) in
  match s with
  | EmptyString => (inr io_EOF, s)
  | String c r =>
      let '(sign, body, w) :=
        if Ascii.eqb c "-" || Ascii.eqb c "+"
        then (String c EmptyString, r, width - 1) else (EmptyString, s, width) in
      if (len body =? 0) || (w <=? 0) then (inr io_EOF, body)
      else
        let '(tok, rest) := spanAtMost isScanDigit (Z.to_nat w) body in
        if len tok =? 0 then (inr (FmtError "expected integer" []), body)
        else
          match ParseInt (sign ++ tok)%string with
          | (v, None) => (inl v, rest)
          | (_, Some e) => (inr e, rest)
          end
  end.

Fixpoint Sscanf (s : string) (widths : list Z) : list Z * option error :=
  match widths with
  | [] => ([], None)
  | w :: ws =>
      match scanOneInt w s with
      | (inr e, _) => ([], Some e)
      | (inl v, rest) => let '(vs, e) := Sscanf rest ws in (v :: vs, e)
      end
  end.

(** The operand at position [i] after a scan: the value read, or the
    value it had. *)
Definition scanned (vals : list Z) (i : nat) (old : Z) : Z := nth i vals old.

(** [scanTimeArgs(seps, args...)]: one [strconv.Atoi] per component. *)
Fixpoint scanTimeArgsLoop (seps : list string) : list Z * option error :=
  match seps with
  | [] => ([], None)
  | s :: rest =>
      match Atoi s with
      | (v, Some e) => ([v], errors.Trace (Some e))
      | (v, None) => let '(vs, e) := scanTimeArgsLoop rest in (v :: vs, e)
      end
  end.

Definition scanTimeArgs (seps : list string) (nargs : Z) : list Z * option error :=
  if negb (Z.of_nat (List.length seps) =? nargs) then
    ([], errors.Trace (Some (TError_GenWithStackByArgs ErrWrongValue
                               [AStr TimeStr; AStrs seps])))
  else scanTimeArgsLoop seps.

(** Modelled from the spec: [ParseFrac] is declared in fsp.go, outside
    the files embedded here.  It reads the digits after the decimal point as
    microseconds, rounded half up to [fsp] places; a round-up that
    reaches a whole second is reported as overflow, with 0 for the
    fraction.  [(v, overflow, err)]. *)
Definition ParseFrac (s : string) (fsp : Z) : Z * bool * option error :=
  if len s =? 0 then (0, false, None)
  else
    match CheckFsp fsp with
    | (_, Some e) => (0, false, errors.Trace (Some e))
    | (fsp, None) =>
        if fsp >=? len s then
          match ParseInt s with
          | (_, Some e) => (0, false, errors.Trace (Some e))
          | (tmp, None) => (tmp * 10 ^ (MaxFsp - len s), false, None)
          end
        else
          match ParseInt (slice s 0 (fsp + 1)) with
          | (_, Some e) => (0, false, errors.Trace (Some e))
          | (tmp, None) =>
              let tmp := Z.quot (tmp + 5) 10 in
              if tmp >=? 10 ^ fsp then (0, true, None)
              else (tmp * 10 ^ (MaxFsp - fsp), false, None)
          end
    end.

(** ** Parsing a datetime literal *)

(** The six date and time operands of [parseDatetime], the [hhmmss] flag
    and the pending scan error. *)
Record dtFields : Type := mkFields {
  f_year : Z; f_month : Z; f_day : Z; f_hour : Z; f_minute : Z; f_second : Z;
  f_hhmmss : bool;
  f_err : option error }.

Definition noAbsorb (seps : list string) : bool :=
  (Z.of_nat (List.length seps) >? 5)
  || ((Z.of_nat (List.length seps) =? 1) && (len (nth 0 seps "") >? 4)).

Definition truncatedWarning (str : string) : error :=
  TError_FastGenByArgs ErrTruncatedWrongVal [AStr "datetime"; AStr str].

(** The branch of [parseDatetime] for one component given as a string:
    the context, and either the early return or the operands. *)
Definition scanCompact (ctx : StmtContext) (str seps0 fracStr : string)
    (truncatedOrIncorrect : bool) : StmtContext * ((Time * option error) + dtFields) :=
  let l := len seps0 in
  let scan widths adj hhmmss :=
    let '(vs, err) := Sscanf seps0 widths in
    let year := scanned vs 0 0 in
    Some (mkFields (if adj : bool then adjustYear year else year)
            (scanned vs 1 0) (scanned vs 2 0) (scanned vs 3 0) (scanned vs 4 0)
            (scanned vs 5 0) hhmmss err) in
  let first :=
    if l =? 14 then scan [4; 2; 2; 2; 2; 2] false true
    else if l =? 12 then scan [2; 2; 2; 2; 2; 2] true true
    else if l =? 11 then scan [2; 2; 2; 2; 2; 1] true true
    else if l =? 10 then scan [2; 2; 2; 2; 2] true false
    else if l =? 9 then scan [2; 2; 2; 2; 1] true false
    else if l =? 8 then scan [4; 2; 2] false false
    else if l =? 7 then scan [2; 2; 2; 1] true false
    else if (l =? 6) || (l =? 5) then scan [2; 2; 2] true false
    else None in
  match first with
  | None =>
      (ctx, inl (ZeroDatetime,
                 errors.Trace (Some (TError_GenWithStackByArgs ErrWrongValue
                                       [AStr TimeStr; AStr str]))))
  | Some f =>
      let '(f, truncatedOrIncorrect) :=
        if (l =? 5) || (l =? 6) || (l =? 8) then
          let f :=
            if len fracStr =? 0 then f
            else if (len fracStr =? 1) || (len fracStr =? 2) then
              let '(vs, err) := Sscanf fracStr [2] in
              mkFields (f_year f) (f_month f) (f_day f) (scanned vs 0 (f_hour f))
                (f_minute f) (f_second f) (f_hhmmss f) err
            else if (len fracStr =? 3) || (len fracStr =? 4) then
              let '(vs, err) := Sscanf fracStr [2; 2] in
              mkFields (f_year f) (f_month f) (f_day f) (scanned vs 0 (f_hour f))
                (scanned vs 1 (f_minute f)) (f_second f) (f_hhmmss f) err
            else
              let '(vs, err) := Sscanf fracStr [2; 2; 2] in
              mkFields (f_year f) (f_month f) (f_day f) (scanned vs 0 (f_hour f))
                (scanned vs 1 (f_minute f)) (scanned vs 2 (f_second f)) (f_hhmmss f) err in
          (f, match f_err f with Some _ => true | None => false end)
        else (f, truncatedOrIncorrect) in
      let '(f, truncatedOrIncorrect) :=
        if (l =? 9) || (l =? 10) then
          let f :=
            if len fracStr =? 0 then
              mkFields (f_year f) (f_month f) (f_day f) (f_hour f) (f_minute f) 0
                (f_hhmmss f) (f_err f)
            else
              let '(vs, err) := Sscanf fracStr [2] in
              mkFields (f_year f) (f_month f) (f_day f) (f_hour f) (f_minute f)
                (scanned vs 0 (f_second f)) (f_hhmmss f) err in
          (f, match f_err f with Some _ => true | None => false end)
        else (f, truncatedOrIncorrect) in
      if truncatedOrIncorrect then
        (StmtContext_AppendWarning ctx (truncatedWarning str),
         inr (mkFields (f_year f) (f_month f) (f_day f) (f_hour f) (f_minute f)
                (f_second f) (f_hhmmss f) None))
      else (ctx, inr f)
  end.

(** The branches of [parseDatetime] for three components and more. *)
Definition scanDelimited (seps : list string) (n : Z) (hhmmss : bool) : dtFields :=
  let '(vs, err) := scanTimeArgs seps n in
  mkFields (scanned vs 0 0) (scanned vs 1 0) (scanned vs 2 0) (scanned vs 3 0)
    (scanned vs 4 0) (scanned vs 5 0) hhmmss err.

(** [(tzHour[0]-'0')*10 + (tzHour[1]-'0')], in [byte] arithmetic. *)
Definition twoDigitValue (s : string) : Z :=
  (((byte (byteAt s 0) - byte "0") mod 256 * 10) mod 256
   + (byte (byteAt s 1) - byte "0") mod 256) mod 256.

(** [parseDatetime(ctx, str, fsp, false)]: the parser as [ParseTime]
    runs it, on a literal that is not a float's string; the branches
    under [isFloat] are not taken then. *)
Definition parseDatetime (ctx : StmtContext) (str : string) (fsp : Z)
  : StmtContext * Time * option error :=
  let sp := splitDateTime str in
  let '(seps, fracStr, hasTZ) := (sp_seps sp, sp_fracStr sp, sp_hasTZ sp) in
  let '(tzSign, tzHour, tzSep, tzMinute) :=
    (sp_tzSign sp, sp_tzHour sp, sp_tzSep sp, sp_tzMinute sp) in
  let truncatedOrIncorrect := sp_truncated sp in
  let ctx := if truncatedOrIncorrect
             then StmtContext_AppendWarning ctx (truncatedWarning str) else ctx in
  let '(seps, fracStr) :=
    if negb (len fracStr =? 0) && negb (noAbsorb seps)
    then (seps ++ [fracStr], "") else (seps, fracStr) in
  let '(seps, hasTZ) :=
    if hasTZ && negb (String.eqb tzSign "")
       && negb (noAbsorb seps)
       && negb (negb (String.eqb tzMinute "") && String.eqb tzSep "")
    then (seps ++ (if negb (len tzHour =? 0) then [tzHour] else [])
               ++ (if negb (len tzMinute =? 0) then [tzMinute] else []),
          false)
    else (seps, hasTZ) in
  let n := Z.of_nat (List.length seps) in
  let '(ctx, seps, scan) :=
    if n =? 0 then
      (ctx, seps,
       inl (ZeroDatetime,
            errors.Trace (Some (TError_GenWithStackByArgs ErrWrongValue
                                  [AStr DateTimeStr; AStr str]))))
    else if n =? 1 then
      let '(ctx, r) := scanCompact ctx str (nth 0 seps "") fracStr truncatedOrIncorrect in
      (ctx, seps, r)
    else if n =? 2 then
      (ctx, seps,
       inl (ZeroDatetime,
            errors.Trace (Some (TError_FastGenByArgs ErrWrongValue
                                  [AStr DateTimeStr; AStr str]))))
    else if n =? 3 then (ctx, seps, inr (scanDelimited seps 3 false))
    else if n =? 4 then (ctx, seps, inr (scanDelimited seps 4 false))
    else if n =? 5 then (ctx, seps, inr (scanDelimited seps 5 false))
    else if n =? 6 then (ctx, seps, inr (scanDelimited seps 6 true))
    else
      let seps := firstn 6 seps in
      (StmtContext_AppendWarning ctx (truncatedWarning str), seps,
       inr (scanDelimited seps 6 true)) in
  match scan with
  | inl (t, err) => (ctx, t, err)
  | inr f =>
      match f_err f with
      | Some e =>
          if isEOF e then
            (ctx, ZeroDatetime,
             errors.Trace (Some (TError_GenWithStackByArgs ErrWrongValue
                                   [AStr DateTimeStr; AStr str])))
          else (ctx, ZeroDatetime, errors.Trace (Some e))
      | None =>
          let '(year, month, day) := (f_year f, f_month f, f_day f) in
          let '(hour, minute, second) := (f_hour f, f_minute f, f_second f) in
          let hhmmss := f_hhmmss f in
          let year :=
            if (len (nth 0 seps "") <=? 2)
               && negb ((year =? 0) && (month =? 0) && (day =? 0) && (hour =? 0)
                        && (minute =? 0) && (second =? 0) && String.eqb fracStr "")
            then adjustYear year else year in
          let fracResult :=
            if hhmmss then ParseFrac fracStr fsp else (0, false, None) in
          match fracResult with
          | (_, _, Some e) => (ctx, ZeroDatetime, errors.Trace (Some e))
          | (microsecond, overflow, None) =>
              match FromDateChecked year month day hour minute second microsecond with
              | (_, false) =>
                  (ctx, ZeroDatetime,
                   errors.Trace (Some (TError_GenWithStackByArgs ErrWrongValue
                                         [AStr DateTimeStr; AStr str])))
              | (tmp, true) =>
                  let carried :=
                    if overflow then
                      match CoreTime_GoTime tmp (StmtContext_Location ctx) with
                      | (_, Some e) => inl (errors.Trace (Some e))
                      | (t1, None) => inr (FromGoTime (gotime.Add t1 gotime.Second))
                      end
                    else inr tmp in
                  match carried with
                  | inl err => (ctx, ZeroDatetime, err)
                  | inr tmp =>
                      if hasTZ then
                        if negb hhmmss then
                          (ctx, ZeroDatetime,
                           errors.Trace (Some (TError_GenWithStack ErrWrongValue DateTimeStr
                                                 [AStr str])))
                        else
                          let deltaHour :=
                            if negb (len tzHour =? 0) then twoDigitValue tzHour else 0 in
                          let deltaMinute :=
                            if negb (len tzMinute =? 0) then twoDigitValue tzMinute else 0 in
                          if (deltaHour >? 14) || (deltaMinute >? 59)
                             || ((deltaHour =? 14) && negb (deltaMinute =? 0))
                             || (String.eqb tzSign "-" && (deltaHour =? 0)
                                 && (deltaMinute =? 0))
                          then
                            (ctx, ZeroDatetime,
                             errors.Trace (Some (TError_GenWithStackByArgs ErrWrongValue
                                                   [AStr DateTimeStr; AStr str])))
                          else
                            let offset := deltaHour * 60 * 60 + deltaMinute * 60 in
                            let offset := if String.eqb tzSign "-" then - offset else offset in
                            let loc :=
                              gotime.FixedZone
                                ("UTC" ++ tzSign ++ tzHour ++ ":" ++ tzMinute)%string offset in
                            match CoreTime_GoTime tmp loc with
                            | (_, Some e) => (ctx, ZeroDatetime, errors.Trace (Some e))
                            | (t1, None) =>
                                let t1 := gotime.In t1 (StmtContext_Location ctx) in
                                (ctx, NewTime (FromGoTime t1) mysql.TypeDatetime fsp, None)
                            end
                      else (ctx, NewTime tmp mysql.TypeDatetime fsp, None)
                  end
              end
          end
      end
  end.

(** [parseTime(ctx, str, tp, fsp, false)] *)
Definition parseTime (ctx : StmtContext) (str : string) (tp : Z) (fsp : Z)
  : StmtContext * Time * option error :=
  match CheckFsp fsp with
  | (_, Some e) => (ctx, NewTime ZeroCoreTime tp DefaultFsp, errors.Trace (Some e))
  | (fsp, None) =>
      match parseDatetime ctx str fsp with
      | (ctx, _, Some e) => (ctx, NewTime ZeroCoreTime tp DefaultFsp, errors.Trace (Some e))
      | (ctx, t, None) =>
          let t := SetType t tp in
          match Time_Check ctx t with
          | Some e =>
              let dst :=
                if (tp =? mysql.TypeTimestamp) && negb (IsZero t) then
                  let '(tAdjusted, errAdjusted) :=
                    adjustTimestampErrForDST (StmtContext_Location ctx) (AStr str) tp t
                      (Some e) in
                  if TError_Equal ErrTimestampInDSTTransition errAdjusted
                  then Some (tAdjusted, errors.Trace errAdjusted) else None
                else None in
              match dst with
              | Some (tAdjusted, err) => (ctx, tAdjusted, err)
              | None => (ctx, NewTime ZeroCoreTime tp DefaultFsp, errors.Trace (Some e))
              end
          | None => (ctx, t, None)
          end
      end
  end.

Definition ParseTime (ctx : StmtContext) (str : string) (tp : Z) (fsp : Z)
  : StmtContext * Time * option error :=
  parseTime ctx str tp fsp.

Definition ParseDatetime (ctx : StmtContext) (str : string)
  : StmtContext * Time * option error :=
  ParseTime ctx str mysql.TypeDatetime (GetFsp str).

Definition ParseTimestamp (ctx : StmtContext) (str : string)
  : StmtContext * Time * option error :=
  ParseTime ctx str mysql.TypeTimestamp (GetFsp str).

Definition ParseDate (ctx : StmtContext) (str : string)
  : StmtContext * Time * option error :=
  ParseTime ctx str mysql.TypeDate MinFsp.

(** ** Durations *)

(** [Duration] embeds a [time.Duration], a count of nanoseconds, next to
    its fsp. *)
Record Duration : Type := mkDuration { duration : Z; Fsp : Z }.

Definition ZeroDuration : Duration := mkDuration 0 DefaultFsp.

Definition TimeMaxHour : Z := 838.
Definition TimeMaxMinute : Z := 59.
Definition TimeMaxSecond : Z := 59.

Definition MaxTime : Z := 838 * gotime.Hour + 59 * gotime.Minute + 59 * gotime.Second.
Definition MinTime : Z := - (838 * gotime.Hour + 59 * gotime.Minute + 59 * gotime.Second).

Definition NewDuration (hour minute second microsecond fsp : Z) : Duration :=
  mkDuration
    (int64 (int64 (int64 (int64 (hour * gotime.Hour) + int64 (minute * gotime.Minute))
                   + int64 (second * gotime.Second))
            + int64 (microsecond * gotime.Microsecond)))
    fsp.

(** [t.ConvertToDuration()]; the error result is always nil. *)
Definition Time_ConvertToDuration (t : Time) : Duration :=
  if IsZero t then ZeroDuration
  else
    let '(hour, minute, second) :=
      (Hour (coreTime t), Minute (coreTime t), Second (coreTime t)) in
    let frac := Microsecond (coreTime t) * 1000 in
    mkDuration (int64 (int64 ((hour * 3600 + minute * 60 + second) * gotime.Second) + frac))
      (Time_Fsp t).

Definition TruncateOverflowMySQLTime (d : Z) : Z * option error :=
  if d >? MaxTime then
    (MaxTime, Some (TError_GenWithStackByArgs ErrTruncatedWrongVal [AStr "time"; ADuration d]))
  else if d <? MinTime then
    (MinTime, Some (TError_GenWithStackByArgs ErrTruncatedWrongVal [AStr "time"; ADuration d]))
  else (d, None).

Definition isNegativeDuration (str : string) : bool * string :=
  match Char str "-" with
  | (_, Some _) => (false, str)
  | (rest, None) => (true, rest)
  end.

Definition matchColon (str : string) : string * option error :=
  let rest := Space0 str in
  match Char rest ":" with
  | (_, Some e) => (str, Some e)
  | (rest, None) => (Space0 rest, None)
  end.

(** [hhmmss] is a [[3]int]. *)
Definition hms : Type := (Z * Z * Z)%type.

Definition matchHHMMSSDelimited (str : string) (requireColon : bool)
  : hms * string * option error :=
  match Number str with
  | (_, _, Some e) => ((0, 0, 0), str, Some e)
  | (hour, rest, None) =>
      match matchColon rest with
      | (_, Some e) =>
          if requireColon then ((0, 0, 0), str, Some e) else ((hour, 0, 0), rest, None)
      | (remain, None) =>
          match Number remain with
          | (_, _, Some e) => ((0, 0, 0), str, Some e)
          | (minute, rest, None) =>
              match matchColon rest with
              | (_, Some _) => ((hour, minute, 0), rest, None)
              | (remain, None) =>
                  match Number remain with
                  | (_, _, Some e) => ((0, 0, 0), str, Some e)
                  | (second, rest, None) => ((hour, minute, second), rest, None)
                  end
              end
          end
      end
  end.

Definition matchDayHHMMSS (str : string) : Z * hms * string * option error :=
  match Number str with
  | (_, _, Some e) => (0, (0, 0, 0), str, Some e)
  | (day, rest, None) =>
      match Space rest 1 with
      | (_, Some e) => (0, (0, 0, 0), str, Some e)
      | (rest, None) =>
          match matchHHMMSSDelimited rest false with
          | (_, _, Some e) => (0, (0, 0, 0), str, Some e)
          | (hhmmss, rest, None) => (day, hhmmss, rest, None)
          end
      end
  end.

Definition matchHHMMSSCompact (str : string) : hms * string * option error :=
  match Number str with
  | (_, _, Some e) => ((0, 0, 0), str, Some e)
  | (num, rest, None) =>
      ((Z.quot num 10000, Z.rem (Z.quot num 100) 100, Z.rem num 100), rest, None)
  end.

(** [hhmmssAddOverflow(hms, true)]: the carry runs from the seconds up;
    the moduli are 60, 60 and -1. *)
Definition hhmmssAddOverflow (v : hms) : hms :=
  let '(h, m, s) := v in
  let s := int64 (s + 1) in
  if s =? 60 then
    let m := int64 (m + 1) in
    if m =? 60 then
      let h := int64 (h + 1) in
      if h =? -1 then (0, 0, 0) else (h, 0, 0)
    else (h, m, 0)
  else (h, m, s).

Definition checkHHMMSS (v : hms) : bool :=
  let '(_, m, s) := v in (m <? 60) && (s <? 60).

(** [matchFrac]: [(overflow, fraction, rest, err)]. *)
Definition matchFrac (str : string) (fsp : Z) : bool * Z * string * option error :=
  match Char str "." with
  | (_, Some _) => (false, 0, str, None)
  | (rest, None) =>
      match Digit rest 0 with
      | (_, _, Some e) => (false, 0, str, Some e)
      | (digits, rest, None) =>
          match ParseFrac digits fsp with
          | (_, _, Some e) => (false, 0, str, Some e)
          | (frac, overflow, None) => (overflow, frac, rest, None)
          end
      end
  end.

Definition truncatedTime (str : string) : error :=
  TError_GenWithStackByArgs ErrTruncatedWrongVal [AStr "time"; AStr str].

(** The three grammars [matchDuration] tries in turn on what follows the
    sign. *)
Definition matchAnyHHMMSS (rest : string) : option (hms * string) :=
  match matchDayHHMMSS rest with
  | (day, (h, m, s), remain, None) => Some ((int64 (h + int64 (24 * day)), m, s), remain)
  | (_, _, _, Some _) =>
      match matchHHMMSSDelimited rest true with
      | (v, remain, None) => Some (v, remain)
      | (_, _, Some _) =>
          match matchHHMMSSCompact rest with
          | (v, remain, None) => Some (v, remain)
          | (_, _, Some _) => None
          end
      end
  end.

(** [matchDuration]: [(d, isNull, err)]. *)
Definition matchDuration (str : string) (fsp : Z) : Duration * bool * option error :=
  match CheckFsp fsp with
  | (_, Some e) => (ZeroDuration, true, errors.Trace (Some e))
  | (fsp, None) =>
      if len str =? 0 then (ZeroDuration, true, Some (truncatedTime str))
      else
        let '(negative, rest) := isNegativeDuration str in
        let rest := Space0 rest in
        let charsLen := len rest in
        match matchAnyHHMMSS rest with
        | None => (ZeroDuration, true, Some (truncatedTime str))
        | Some (hhmmss, rest) =>
            let rest := Space0 rest in
            match matchFrac rest fsp with
            | (_, _, _, Some _) => (ZeroDuration, true, Some (truncatedTime str))
            | (overflow, frac, rest, None) =>
                if (len rest >? 0) && (charsLen >=? 12)
                then (ZeroDuration, true, Some (truncatedTime str))
                else
                  let '(hhmmss, frac) :=
                    if overflow : bool then (hhmmssAddOverflow hhmmss, 0)
                    else (hhmmss, frac) in
                  if negb (checkHHMMSS hhmmss)
                  then (ZeroDuration, true, Some (truncatedTime str))
                  else
                    let '(h, m, s) := hhmmss in
                    if h >? TimeMaxHour then
                      (mkDuration (if negative : bool then MinTime else MaxTime) fsp, false,
                       Some (truncatedTime str))
                    else
                      let d :=
                        int64 (int64 (int64 (int64 (int64 (h * 3600) + int64 (m * 60)) + s)
                                      * gotime.Second)
                               + int64 (frac * gotime.Microsecond)) in
                      let d := if negative then int64 (- d) else d in
                      match TruncateOverflowMySQLTime d with
                      | (d, None) =>
                          if len rest >? 0
                          then (mkDuration d fsp, false, Some (truncatedTime str))
                          else (mkDuration d fsp, false, None)
                      | (d, Some e) => (mkDuration d fsp, false, errors.Trace (Some e))
                      end
            end
        end
  end.

Definition canFallbackToDateTime (str : string) : bool :=
  match Digit str 1 with
  | (_, _, Some _) => false
  | (digits, rest, None) =>
      if (len digits =? 12) || (len digits =? 14) then true
      else
        match AnyPunct rest with
        | (_, Some _) => false
        | (rest, None) =>
            match Digit rest 1 with
            | (_, _, Some _) => false
            | (_, rest, None) =>
                match AnyPunct rest with
                | (_, Some _) => false
                | (rest, None) =>
                    match Digit rest 1 with
                    | (_, _, Some _) => false
                    | (_, rest, None) =>
                        (len rest >? 0)
                        && (Ascii.eqb (byteAt rest 0) " " || Ascii.eqb (byteAt rest 0) "T")
                    end
                end
            end
        end
  end.

Section SystemZone.

(** [time.Local], the zone of the system the code runs on. *)
Variable Local : gotime.Location.

(** [d.RoundFrac(fsp, loc)]; [None] is the nil location. *)
Definition Duration_RoundFrac (d : Duration) (fsp : Z) (loc : option gotime.Location)
  : Duration * option error :=
  let tz := match loc with
            | None => Local
            | Some l => l
            end in
  match CheckFsp fsp with
  | (_, Some e) => (d, errors.Trace (Some e))
  | (fsp, None) =>
      if fsp =? Fsp d then (d, None)
      else
        let n := gotime.Date 0 0 0 0 0 0 0 tz in
        let nd :=
          gotime.Sub
            (gotime.Round (gotime.Add n (duration d))
               (int64 (10 ^ (9 - fsp) * gotime.Nanosecond)))
            n in
        (mkDuration nd fsp, None)
  end.

(** [ParseDuration]: [(d, isNull, err)] next to the context. *)
Definition ParseDuration (ctx : StmtContext) (str : string) (fsp : Z)
  : StmtContext * Duration * bool * option error :=
  let rest := TrimSpace str in
  match matchDuration rest fsp with
  | (d, isNull, None) => (ctx, d, isNull, None)
  | (d, isNull, Some _) =>
      if negb (canFallbackToDateTime rest)
      then (ctx, d, isNull, Some (truncatedTime str))
      else
        match ParseDatetime ctx rest with
        | (ctx, _, Some _) => (ctx, ZeroDuration, true, Some (truncatedTime str))
        | (ctx, datetime, None) =>
            let d := Time_ConvertToDuration datetime in
            let '(d, err) := Duration_RoundFrac d fsp (Some (StmtContext_Location ctx)) in
            (ctx, d, false, err)
        end
  end.

End SystemZone.

(** ** Decimal string to unsigned integer *)

(** [s[lo:hi]] with Go's bounds check: [None] is the run-time panic. *)
Definition sliceChecked (s : string) (lo hi : Z) : option string :=
  if (0 <=? lo) && (lo <=? hi) && (hi <=? len s) then Some (slice s lo hi) else None.

(** The scan of [convertScientificNotation] from index [i]: [(eIdx, point)]. *)
Fixpoint sciScan (s : string) (i : Z) (point : Z) : Z * Z :=
  match s with
  | EmptyString => (-1, point)
  | String c r =>
      let point := if Ascii.eqb c "." then i else point in
      if Ascii.eqb c "e" || Ascii.eqb c "E"
      then (i, if point =? -1 then i else point)
      else sciScan r (i + 1) point
  end.

(** [convertScientificNotation]; [None] where a slice expression is out
    of bounds and the function panics. *)
Definition convertScientificNotation (str : string) : option (string * option error) :=
  let '(eIdx, point) := sciScan str 0 (-1) in
  if eIdx =? -1 then Some (str, None)
  else
    match ParseInt (sliceFrom str (eIdx + 1)) with
    | (_, Some e) => Some ("", Some (WithStack e))
    | (exp, None) =>
        let f := slice str 0 eIdx in
        let cat3 a b c :=
          match a, b, c with
          | Some a, Some b, Some c => Some ((a ++ b ++ c)%string, None)
          | _, _, _ => None
          end in
        if exp =? 0 then Some (f, None)
        else if exp >? 0 then
          if int64 (point + exp) =? len f - 1 then
            cat3 (sliceChecked f 0 point) (sliceChecked f (point + 1) (len f)) (Some "")
          else if int64 (point + exp) <? len f - 1 then
            cat3 (sliceChecked f 0 point)
              (sliceChecked f (point + 1) (int64 (point + 1 + exp)))
              (option_map (fun t => ("." ++ t)%string)
                 (sliceChecked f (int64 (point + 1 + exp)) (len f)))
          else
            let count := int64 (int64 (point + exp) - len f + 1) in
            cat3 (sliceChecked f 0 point) (sliceChecked f (point + 1) (len f))
              (if count <? 0 then None else Some (RepeatZero count))
        else
          let exp := int64 (- exp) in
          if exp <? point then
            cat3 (option_map (fun t => (t ++ ".")%string)
                    (sliceChecked f 0 (int64 (point - exp))))
              (sliceChecked f (int64 (point - exp)) point)
              (sliceChecked f (point + 1) (len f))
          else
            let count := int64 (exp - point) in
            cat3 (if count <? 0 then None else Some ("0." ++ RepeatZero count)%string)
              (sliceChecked f 0 point) (sliceChecked f (point + 1) (len f))
    end.

(** [convertDecimalStrToUint]; [None] only where
    [convertScientificNotation] panics. *)
Definition convertDecimalStrToUint (str : string) (upperBound : Z) (tp : Z)
  : option (Z * option error) :=
  match convertScientificNotation str with
  | None => None
  | Some (_, Some e) => Some (0, Some e)
  | Some (str, None) =>
      let p := IndexByte str "." in
      let '(intStr, fracStr) :=
        if p =? -1 then (str, "") else (slice str 0 p, sliceFrom str (p + 1)) in
      let intStr := TrimLeftZeros intStr in
      let intStr := if String.eqb intStr "" then "0" else intStr in
      if Ascii.eqb (byteAt intStr 0) "-" then Some (0, Some (overflow (AStr str) tp))
      else
        let round :=
          if negb (String.eqb fracStr "") && (byte (byteAt fracStr 0) >=? byte "5")
          then 1 else 0 in
        let upperStr := FormatUint (uint64 (upperBound - round)) in
        if (len intStr >? len upperStr)
           || ((len intStr =? len upperStr) && stringGt intStr upperStr)
        then Some (upperBound, Some (overflow (AStr str) tp))
        else
          match ParseUint intStr with
          | (val, Some _) => Some (val, Some (overflow (AStr str) tp))
          | (val, None) => Some (uint64 (val + round), None)
          end
  end.

Section Decimal.

(** [MyDecimal] and its [ToString] are declared outside the files embedded
    here; the conversion only needs the decimal's text. *)
Variable MyDecimal : Type.
Variable MyDecimal_ToString : MyDecimal -> string.


End Decimal.

(** * The rest of the value layer

    The functions around the ones above: the remaining parser helpers,
    the best-effort string to integer conversions, set values, the
    numeric temporal literals, the duration accessors and the small
    formatting helpers. *)

(** A string that does not start with a byte satisfying [p]. *)
Definition startsWithout (p : ascii -> bool) (s : string) : Prop :=
  match s with
  | EmptyString => True
  | String c _ => p c = false
  end.

(** ** Integer conversions (etc.go) *)

Definition ConvertIntToInt (val lowerBound upperBound tp : Z) : Z * option error :=
  if val <? lowerBound then (lowerBound, Some (overflow (AInt val) tp))
  else if val >? upperBound then (upperBound, Some (overflow (AInt val) tp))
  else (val, None).

(** [val] is a [uint64], [upperBound] an [int64]. *)
Definition ConvertUintToInt (val upperBound tp : Z) : Z * option error :=
  if val >? uint64 upperBound then (upperBound, Some (overflow (AInt val) tp))
  else (int64 val, None).

(** [val] is an [int64], [upperBound] a [uint64]. *)
Definition ConvertIntToUint (flags : ContextFlags) (val upperBound tp : Z)
  : Z * option error :=
  if (val <? 0) && negb (ContextFlags_AllowNegativeToUnsigned flags)
  then (0, Some (overflow (AInt val) tp))
  else if uint64 val >? upperBound then (upperBound, Some (overflow (AInt val) tp))
  else (uint64 val, None).

Definition ConvertUintToUint (val upperBound tp : Z) : Z * option error :=
  if val >? upperBound then (upperBound, Some (overflow (AInt val) tp))
  else (val, None).

(** ** Best-effort numeric prefixes (etc.go) *)

(** A byte incremented in place, [b++] on a [byte]. *)
Definition incByte (c : ascii) : ascii := ascii_of_N (Z.to_N ((byte c + 1) mod 256)).

(** The loop of [roundIntStr] over the bytes at indices [len-1 .. 1],
    given last byte first: the bytes after the loop, and whether the loop
    ran down to index 0 without a [break]. *)
Fixpoint roundCarry (revTail : list ascii) : list ascii * bool :=
  match revTail with
  | [] => ([], true)
  | c :: r =>
      if negb (Ascii.eqb c "9") then (incByte c :: r, false)
      else let '(r', ran) := roundCarry r in ("0"%char :: r', ran)
  end.

(** [roundIntStr(numNextDot, intStr)]; [None] is the panic of
    [retStr[1]] on a one-byte string that is not a digit. *)
Definition roundIntStr (numNextDot : ascii) (intStr : string) : option string :=
  if byte numNextDot <? byte "5" then Some intStr
  else
    match list_ascii_of_string intStr with
    | [] => Some intStr
    | c0 :: tail =>
        let '(revTail, ran) := roundCarry (List.rev tail) in
        let tail' := List.rev revTail in
        if negb ran then Some (string_of_list_ascii (c0 :: tail'))
        else if Ascii.eqb c0 "9"
        then Some (string_of_list_ascii (("1"%char :: tail') ++ ["0"%char]))
        else if isDigit c0 then Some (string_of_list_ascii (incByte c0 :: tail'))
        else
          match tail' with
          | [] => None
          | _ :: rest => Some (string_of_list_ascii ((c0 :: "1"%char :: rest) ++ ["0"%char]))
          end
    end.

Definition maxUintStr : string := FormatUint MaxUint64.
Definition minIntStr : string := "-9223372036854775808".

(** The index of the last byte of [s] that satisfies [p], counting from
    [i]; [acc] when there is none. *)
Fixpoint lastIndexFrom (p : ascii -> bool) (s : string) (i acc : Z) : Z :=
  match s with
  | EmptyString => acc
  | String c r => lastIndexFrom p r (i + 1) (if p c then i else acc)
  end.

Definition isDot (c : ascii) : bool := Ascii.eqb c ".".
Definition isExpMark (c : ascii) : bool := Ascii.eqb c "e" || Ascii.eqb c "E".
Definition isSign (c : ascii) : bool := Ascii.eqb c "-" || Ascii.eqb c "+".

(** [floatStrToIntStr(validFloat, oriStr)]; [None] where the code indexes
    an empty string or slices out of bounds and panics. *)
Definition floatStrToIntStr (validFloat oriStr : string) : option (string * option error) :=
  let dotIdx := lastIndexFrom isDot validFloat 0 (-1) in
  let eIdx := lastIndexFrom isExpMark validFloat 0 (-1) in
  if eIdx =? -1 then
    if dotIdx =? -1 then Some (validFloat, None)
    else
      let signed := isSign (byteAt validFloat 0) in
      let dotIdx := if signed then dotIdx - 1 else dotIdx in
      let digits := if signed then sliceFrom validFloat 1 else validFloat in
      let intStr := if dotIdx =? 0 then Some "0" else sliceChecked digits 0 dotIdx in
      let intStr :=
        match intStr with
        | None => None
        | Some intStr =>
            if len digits >? dotIdx + 1
            then roundIntStr (byteAt digits (dotIdx + 1)) intStr
            else Some intStr
        end in
      match intStr with
      | None => None
      | Some EmptyString => None
      | Some (String c0 r as intStr) =>
          if ((len intStr >? 1) || negb (Ascii.eqb c0 "0"))
             && Ascii.eqb (byteAt validFloat 0) "-"
          then Some (("-" ++ intStr)%string, None)
          else Some (intStr, None)
      end
  else
    match
      (if dotIdx =? -1 then Some (slice validFloat 0 eIdx, eIdx)
       else option_map
              (fun t => ((slice validFloat 0 dotIdx ++ t)%string, dotIdx))
              (sliceChecked validFloat (dotIdx + 1) eIdx))
    with
    | None => None
    | Some (digits, intCnt) =>
    let saturated :=
      match digits with
      | EmptyString => None
      | String c _ =>
          Some (if Ascii.eqb c "-" then minIntStr else maxUintStr,
                Some (TError_GenWithStackByArgs ErrOverflow [AStr "BIGINT"; AStr oriStr]))
      end in
    match Atoi (sliceFrom validFloat (eIdx + 1)) with
    | (_, Some _) => saturated
    | (exp, None) =>
        let intCnt := int64 (intCnt + exp) in
        if (exp >=? 0) && ((intCnt >? 21) || (intCnt <? 0)) then saturated
        else if intCnt <=? 0 then
          if (intCnt =? 0) && (len digits >? 0) && isDigit (byteAt digits 0)
          then option_map (fun s => (s, None)) (roundIntStr (byteAt digits 0) "0")
          else Some ("0", None)
        else
          match digits with
          | EmptyString =>
              if intCnt =? 1 then None
              else Some ((digits ++ RepeatZero (intCnt - len digits))%string, None)
          | String d0 _ =>
              if (intCnt =? 1) && isSign d0 then
                let intStr := if len digits >? 1 then roundIntStr (byteAt digits 1) "0"
                              else Some "0" in
                match intStr with
                | None => None
                | Some intStr =>
                    if Ascii.eqb (byteAt intStr 0) "1"
                    then Some ((slice digits 0 1 ++ intStr)%string, None)
                    else Some (intStr, None)
                end
              else if intCnt <=? len digits then
                let intStr := slice digits 0 intCnt in
                if intCnt <? len digits
                then option_map (fun s => (s, None)) (roundIntStr (byteAt digits intCnt) intStr)
                else Some (intStr, None)
              else Some ((digits ++ RepeatZero (intCnt - len digits))%string, None)
          end
    end
    end.

(** The scan of [getValidFloatPrefix] from index [i]: the valid length,
    and whether the scan stopped at a NUL byte (which cuts [s] there). *)
Fixpoint floatPrefixScan (s : string) (i : Z) (sawDot sawDigit : bool) (validLen eIdx : Z)
  : Z * bool :=
  match s with
  | EmptyString => (validLen, false)
  | String c r =>
      if Ascii.eqb c "+" || Ascii.eqb c "-" then
        if negb (i =? 0) && negb (i =? eIdx + 1) then (validLen, false)
        else floatPrefixScan r (i + 1) sawDot sawDigit validLen eIdx
      else if Ascii.eqb c "." then
        if sawDot || (eIdx >? 0) then (validLen, false)
        else floatPrefixScan r (i + 1) true sawDigit (if sawDigit then i + 1 else validLen) eIdx
      else if Ascii.eqb c "e" || Ascii.eqb c "E" then
        if negb sawDigit then (validLen, false)
        else if negb (eIdx =? -1) then (validLen, false)
        else floatPrefixScan r (i + 1) sawDot sawDigit validLen i
      else if Ascii.eqb c Ascii.zero then (validLen, true)
      else if (byte c <? byte "0") || (byte c >? byte "9") then (validLen, false)
      else floatPrefixScan r (i + 1) sawDot true (i + 1) eIdx
  end.

(** [getValidFloatPrefix]: the context after the call, the prefix and the
    error. *)
Definition getValidFloatPrefix (ctx : StmtContext) (s : string) (isFuncCast : bool)
  : StmtContext * string * option error :=
  if isFuncCast && String.eqb s "" then (ctx, "0", None)
  else
    let '(validLen, cut) := floatPrefixScan s 0 false false 0 (-1) in
    let s := if cut then slice s 0 validLen else s in
    let valid := slice s 0 validLen in
    let valid := if String.eqb valid "" then "0" else valid in
    if (validLen =? 0) || negb (validLen =? len s) then
      let '(ctx, err) :=
        StmtContext_HandleTruncate ctx
          (Some (TError_GenWithStackByArgs ErrTruncatedWrongVal [AStr "DOUBLE"; AStr s])) in
      (ctx, valid, errors.Trace err)
    else (ctx, valid, None).

(** The scan of [getValidIntPrefix] for a function cast, from index [i]. *)
Fixpoint intPrefixScan (s : string) (i validLen : Z) : Z :=
  match s with
  | EmptyString => validLen
  | String c r =>
      if (Ascii.eqb c "+" || Ascii.eqb c "-") && (i =? 0) then intPrefixScan r (i + 1) validLen
      else if (byte c >=? byte "0") && (byte c <=? byte "9")
      then intPrefixScan r (i + 1) (i + 1)
      else validLen
  end.

(** [getValidIntPrefix]; [None] where [floatStrToIntStr] panics. *)
Definition getValidIntPrefix (ctx : StmtContext) (str : string) (isFuncCast : bool)
  : option (StmtContext * string * option error) :=
  if negb isFuncCast then
    match getValidFloatPrefix ctx str isFuncCast with
    | (ctx, floatPrefix, Some e) => Some (ctx, floatPrefix, errors.Trace (Some e))
    | (ctx, floatPrefix, None) =>
        option_map (fun r => (ctx, fst r, snd r)) (floatStrToIntStr floatPrefix str)
    end
  else
    let validLen := intPrefixScan str 0 0 in
    let valid := slice str 0 validLen in
    let valid := if String.eqb valid "" then "0" else valid in
    if (validLen =? 0) || negb (validLen =? len str) then
      let '(ctx, err) :=
        StmtContext_HandleTruncate ctx
          (Some (TError_GenWithStackByArgs ErrTruncatedWrongVal [AStr "INTEGER"; AStr str])) in
      Some (ctx, valid, errors.Trace err)
    else Some (ctx, valid, None).

(** [StrToInt]: the context after the call, the value and the error. *)
Definition StrToInt (ctx : StmtContext) (str : string) (isFuncCast : bool)
  : option (StmtContext * Z * option error) :=
  let str := TrimSpace str in
  match getValidIntPrefix ctx str isFuncCast with
  | None => None
  | Some (ctx, validPrefix, err) =>
      match ParseInt validPrefix with
      | (iVal, Some _) =>
          Some (ctx, iVal,
                Some (TError_GenWithStackByArgs ErrOverflow [AStr "BIGINT"; AStr validPrefix]))
      | (iVal, None) => Some (ctx, iVal, errors.Trace err)
      end
  end.

(** [StrToUint]; [validPrefix[0]] panics on an empty prefix. *)
Definition StrToUint (ctx : StmtContext) (str : string) (isFuncCast : bool)
  : option (StmtContext * Z * option error) :=
  let str := TrimSpace str in
  match getValidIntPrefix ctx str isFuncCast with
  | None => None
  | Some (ctx, validPrefix, err) =>
      match validPrefix with
      | EmptyString => None
      | String c0 r =>
          let '(uVal, hasParseErr, validPrefix) :=
            if Ascii.eqb c0 "-"
            then (0, negb (allBytes (fun v => Ascii.eqb v "0") r), validPrefix)
            else
              let validPrefix := if Ascii.eqb c0 "+" then r else validPrefix in
              let '(v, e) := ParseUint validPrefix in
              (v, match e with Some _ => true | None => false end, validPrefix) in
          if hasParseErr then
            Some (ctx, uVal,
                  Some (TError_GenWithStackByArgs ErrOverflow
                          [AStr "BIGINT UNSIGNED"; AStr validPrefix]))
          else Some (ctx, uVal, errors.Trace err)
      end
  end.

(** An optional sign in front of a numeral. *)
Definition signPrefix (sg : string) : Prop := sg = "" \/ sg = "-" \/ sg = "+".

(** What a fraction part adds when a decimal is rounded half up: 1 when
    its first digit is 5 or more. *)
Definition fractionCarry (b : string) : Z :=
  match b with
  | EmptyString => 0
  | String c _ => if byte c <? byte "5" then 0 else 1
  end.

(** ** Quoting of string values (the value expression's formatter) *)

(** What follows the prefix [p] in [s], when [s] starts with [p]. *)
Fixpoint stripPrefix (p s : string) : option string :=
  match p, s with
  | EmptyString, _ => Some s
  | String a p', String b s' => if Ascii.eqb a b then stripPrefix p' s' else None
  | String _ _, EmptyString => None
  end.

(** [strings.ReplaceAll(s, old, new)] for a non-empty [old] (the package
    only passes literals): occurrences are replaced from the left and do
    not overlap.  [fuel] bounds the number of steps. *)
Fixpoint replaceAllFuel (fuel : nat) (old new s : string) : string :=
  match fuel with
  | O => s
  | S f =>
      match stripPrefix old s with
      | Some rest => (new ++ replaceAllFuel f old new rest)%string
      | None =>
          match s with
          | EmptyString => EmptyString
          | String c r => String c (replaceAllFuel f old new r)
          end
      end
  end.

Definition ReplaceAll (s old new : string) : string :=
  replaceAllFuel (S (String.length s)) old new s.

Definition backslash : ascii := ascii_of_N 92.
Definition quote : ascii := ascii_of_N 39.

Definition WrapInSingleQuotes (inStr : string) : string :=
  let s := ReplaceAll inStr (String backslash "") (String backslash (String backslash "")) in
  let s := ReplaceAll s (String quote "") (String quote (String quote "")) in
  (String quote "" ++ s ++ String quote "")%string.

Definition UnwrapFromSingleQuotes (inStr : string) : string :=
  if (len inStr <? 2)
     || negb (String.eqb (slice inStr 0 1) (String quote ""))
     || negb (String.eqb (sliceFrom inStr (len inStr - 1)) (String quote ""))
  then inStr
  else
    let s := ReplaceAll (slice inStr 1 (len inStr - 1))
               (String backslash (String backslash "")) (String backslash "") in
    ReplaceAll s (String quote (String quote "")) (String quote "").

(** [s] with every byte [q] written twice. *)
Fixpoint doubled (q : ascii) (s : string) : string :=
  match s with
  | EmptyString => EmptyString
  | String c r =>
      if Ascii.eqb c q then String q (String q (doubled q r)) else String c (doubled q r)
  end.

(** ** Set values (etc.go) *)

(** The Go type [Set]. *)
Record SetValue : Type := mkSet { Set_Name : string; Set_Value : Z }.

Definition zeroSet : SetValue := mkSet "" 0.

(** [setIndexValue[i]] and [setIndexInvertValue[i]], filled by [init] for
    the indices 0 to 63; [None] is the index out of range. *)
Definition setIndexValue (i : Z) : option Z :=
  if (0 <=? i) && (i <? 64) then Some (shl64 1 (uint64 i)) else None.

Definition setIndexInvertValue (i : Z) : option Z := option_map not64 (setIndexValue i).

(** [strings.Join(items, sep)]. *)
Fixpoint Join (items : list string) (sep : string) : string :=
  match items with
  | [] => ""
  | [x] => x
  | x :: rest => (x ++ sep ++ Join rest sep)%string
  end.

(** The loop of [ParseSetValue] from index [i]: what is left of [number]
    and the items collected; [None] when an index leaves the tables. *)
Fixpoint parseSetValueLoop (elems : list string) (i number : Z) (items : list string)
  : option (Z * list string) :=
  match elems with
  | [] => Some (number, items)
  | e :: rest =>
      match setIndexValue i, setIndexInvertValue i with
      | Some v, Some inv =>
          if Z.land number v >? 0
          then parseSetValueLoop rest (i + 1) (Z.land number inv) (items ++ [e])
          else parseSetValueLoop rest (i + 1) number items
      | _, _ => None
      end
  end.

(** [ParseSetValue(elems, number)]; [number] is a [uint64]. *)
Definition ParseSetValue (elems : list string) (number : Z) : option (SetValue * option error) :=
  if number =? 0 then Some (zeroSet, None)
  else
    let value := number in
    match parseSetValueLoop elems 0 number [] with
    | None => None
    | Some (number, items) =>
        if negb (number =? 0) then
          Some (mkSet "" 0,
                Some (errors.Errorf "invalid number %d for Set %v" [AInt number; AStrs elems]))
        else Some (mkSet (Join items ",") value, None)
    end.

(** The members of [elems] that [n] selects: the one at position [j] is
    in when bit [i + j] of [n] is set. *)
Fixpoint setMembers (elems : list string) (i n : Z) : list string :=
  match elems with
  | [] => []
  | e :: rest => if Z.testbit n i then e :: setMembers rest (i + 1) n else setMembers rest (i + 1) n
  end.

(** ** Collators and enum names (charset.go, the collate replacements) *)

(** [strings.Contains(s, substr)]. *)
Fixpoint Contains (s substr : string) : bool :=
  match stripPrefix substr s with
  | Some _ => true
  | None =>
      match s with
      | EmptyString => false
      | String _ r => Contains r substr
      end
  end.

Section Collation.

(** [strings.ToLower] of Go's library, which folds case over all of
    Unicode; the collator only needs it to be a function. *)
Variable ToLower : string -> string.

(** [(c *simpleCollator).Compare(a, b)] for the collator of [collation]. *)
Definition simpleCollator_Compare (collation a b : string) : Z :=
  let fold := Contains collation "_ci" || String.eqb collation "" in
  let a := if fold then ToLower a else a in
  let b := if fold then ToLower b else b in
  match stringCompare a b with
  | Lt => -1
  | Gt => 1
  | Eq => 0
  end.

(** [(c *simpleCollator).Key(str)] *)
Definition simpleCollator_Key (collation str : string) : string :=
  if Contains collation "_ci" || String.eqb collation "" then ToLower str else str.

(** The loop of [ParseEnumName] over [elems] from index [i]. *)
Fixpoint parseEnumNameLoop (collation name : string) (elems : list string) (i : Z)
  : option Enum :=
  match elems with
  | [] => None
  | n :: rest =>
      if simpleCollator_Compare collation n name =? 0
      then Some (mkEnum n (uint64 (uint64 i + 1)))
      else parseEnumNameLoop collation name rest (i + 1)
  end.

Definition ParseEnumName (elems : list string) (name collation : string)
  : Enum * option error :=
  match parseEnumNameLoop collation name elems 0 with
  | Some e => (e, None)
  | None =>
      (zeroEnum,
       Some (errors.Wrap (TErrorValue (code ErrTruncated))
               "convert to MySQL enum failed: item %s is not in enum %v"
               [AStr name; AStrs elems]))
  end.

End Collation.

(** ** Duration fields (time.go) *)

(** [splitDuration(t)]; [/] truncates toward zero, and [-t] wraps at the
    smallest [int64]. *)
Definition splitDuration (t : Z) : Z * Z * Z * Z * Z :=
  let sign := if t <? 0 then -1 else 1 in
  let t := if t <? 0 then int64 (- t) else t in
  let hoursDuration := Z.quot t gotime.Hour in
  let t := int64 (t - int64 (hoursDuration * gotime.Hour)) in
  let minutesDuration := Z.quot t gotime.Minute in
  let t := int64 (t - int64 (minutesDuration * gotime.Minute)) in
  let secondsDuration := Z.quot t gotime.Second in
  let t := int64 (t - int64 (secondsDuration * gotime.Second)) in
  let fractionDuration := Z.quot t gotime.Microsecond in
  (sign, hoursDuration, minutesDuration, secondsDuration, fractionDuration).

Definition Duration_Hour (d : Duration) : Z :=
  let '(_, hour, _, _, _) := splitDuration (duration d) in hour.

Definition Duration_Minute (d : Duration) : Z :=
  let '(_, _, minute, _, _) := splitDuration (duration d) in minute.

Definition Duration_Second (d : Duration) : Z :=
  let '(_, _, _, second, _) := splitDuration (duration d) in second.

Definition Duration_MicroSecond (d : Duration) : Z :=
  let '(_, _, _, _, frac) := splitDuration (duration d) in frac.

Definition MaxMySQLDuration (fsp : Z) : Duration :=
  NewDuration TimeMaxHour TimeMaxMinute TimeMaxSecond 0 fsp.

Definition Duration_Neg (d : Duration) : Duration := mkDuration (int64 (- duration d)) (Fsp d).

(** ** Temporal values from numbers (time.go, etc.go) *)

(** [strconv.FormatInt(n, 10)] and [strconv.Itoa]. *)
Definition FormatInt (n : Z) : string :=
  if n <? 0 then ("-" ++ FormatUint (- n))%string else FormatUint n.

Definition ZeroDate : Time := NewTime ZeroCoreTime mysql.TypeDate DefaultFsp.

Definition TimestampStr : string := "timestamp".
Definition DateStr : string := "date".

(** [getTime(ctx, num, originNum, tp)] *)
Definition getTime (ctx : StmtContext) (num originNum tp : Z) : Time * option error :=
  let s1 := Z.quot num 1000000 in
  let s2 := int64 (num - int64 (s1 * 1000000)) in
  let year := Z.quot s1 10000 in
  let s1 := Z.rem s1 10000 in
  let month := Z.quot s1 100 in
  let day := Z.rem s1 100 in
  let hour := Z.quot s2 10000 in
  let s2 := Z.rem s2 10000 in
  let minute := Z.quot s2 100 in
  let second := Z.rem s2 100 in
  match FromDateChecked year month day hour minute second 0 with
  | (_, false) =>
      (ZeroDatetime,
       errors.Trace (Some (TError_GenWithStackByArgs ErrWrongValue
                             [AStr TimeStr; AStr (FormatInt originNum)])))
  | (ct, true) =>
      let t := NewTime ct tp DefaultFsp in
      (t, errors.Trace (Time_Check ctx t))
  end.

(** [parseDateTimeFromNum(ctx, num)] *)
Definition parseDateTimeFromNum (ctx : StmtContext) (num : Z) : Time * option error :=
  let t := ZeroDate in
  let wrong t :=
    (t, errors.Trace (Some (TError_GenWithStackByArgs ErrWrongValue
                              [AStr TimeStr; AStr (FormatInt num)]))) in
  if num =? 0 then (t, None)
  else
    let originNum := num in
    if num >=? 10000101000000 then
      let t := SetType t mysql.TypeDatetime in
      getTime ctx num originNum (Time_Type t)
    else if num <? 101 then wrong t
    else if num <=? (70 - 1) * 10000 + 1231 then
      getTime ctx (int64 (int64 (num + 20000000) * 1000000)) originNum (Time_Type t)
    else if num <? 70 * 10000 + 101 then wrong t
    else if num <=? 991231 then
      getTime ctx (int64 (int64 (num + 19000000) * 1000000)) originNum (Time_Type t)
    else if num <=? 99991231 then
      getTime ctx (int64 (num * 1000000)) originNum (Time_Type t)
    else if num <? 101000000 then wrong t
    else
      let t := SetType t mysql.TypeDatetime in
      if num <=? 69 * 10000000000 + 1231235959 then
        getTime ctx (int64 (num + 20000000000000)) originNum (Time_Type t)
      else if num <? 70 * 10000000000 + 101000000 then wrong t
      else if num <=? 991231235959 then
        getTime ctx (int64 (num + 19000000000000)) originNum (Time_Type t)
      else getTime ctx num originNum (Time_Type t).

(** [ParseTimeFromNum(ctx, num, tp, fsp)] *)
Definition ParseTimeFromNum (ctx : StmtContext) (num tp fsp : Z) : Time * option error :=
  if num =? 0 then
    let zt := NewTime ZeroCoreTime tp DefaultFsp in
    if negb (ContextFlags_IgnoreZeroDateErr (StmtContext_Flags ctx)) then
      if tp =? mysql.TypeTimestamp then
        (zt, Some (TError_GenWithStackByArgs ErrTruncatedWrongVal [AStr TimestampStr; AStr "0"]))
      else if tp =? mysql.TypeDate then
        (zt, Some (TError_GenWithStackByArgs ErrTruncatedWrongVal [AStr DateStr; AStr "0"]))
      else if tp =? mysql.TypeDatetime then
        (zt, Some (TError_GenWithStackByArgs ErrTruncatedWrongVal [AStr DateTimeStr; AStr "0"]))
      else (zt, None)
    else (zt, None)
  else
    match CheckFsp fsp with
    | (_, Some e) => (NewTime ZeroCoreTime tp DefaultFsp, errors.Trace (Some e))
    | (fsp, None) =>
        match parseDateTimeFromNum ctx num with
        | (_, Some e) => (NewTime ZeroCoreTime tp DefaultFsp, errors.Trace (Some e))
        | (t, None) =>
            let t := SetType t tp in
            let t := SetFsp t fsp in
            match Time_Check ctx t with
            | Some e => (NewTime ZeroCoreTime tp DefaultFsp, errors.Trace (Some e))
            | None => (t, None)
            end
        end
    end.

Definition ParseDatetimeFromNum (ctx : StmtContext) (num : Z) : Time * option error :=
  ParseTimeFromNum ctx num mysql.TypeDatetime DefaultFsp.

Definition TimeMaxValue : Z := TimeMaxHour * 10000 + TimeMaxMinute * 100 + TimeMaxSecond.

(** [NumberToDuration(number, fsp)] *)
Definition NumberToDuration (number fsp : Z) : Duration * option error :=
  let tooBig dur :=
    (dur, Some (TError_GenWithStackByArgs ErrOverflow
                  [AStr "Duration"; AStr (FormatInt number)])) in
  if number >? TimeMaxValue then
    if number >=? 10000000000 then
      match ParseDatetimeFromNum DefaultStmtNoWarningContext number with
      | (t, None) => (Time_ConvertToDuration t, errors.Trace None)
      | (_, Some _) => tooBig (MaxMySQLDuration fsp)
      end
    else tooBig (MaxMySQLDuration fsp)
  else if number <? - TimeMaxValue then
    let dur := MaxMySQLDuration fsp in
    tooBig (mkDuration (int64 (- duration dur)) (Fsp dur))
  else
    let neg := number <? 0 in
    let number := if neg then int64 (- number) else number in
    if (Z.quot number 10000 >? TimeMaxHour) || (Z.rem number 100 >=? 60)
       || (Z.rem (Z.quot number 100) 100 >=? 60)
    then (ZeroDuration,
          errors.Trace (Some (TError_GenWithStackByArgs ErrTruncatedWrongVal
                                [AStr TimeStr; AStr (FormatInt number)])))
    else
      let dur := NewDuration (Z.quot number 10000) (Z.rem (Z.quot number 100) 100)
                   (Z.rem number 100) 0 fsp in
      if neg then (mkDuration (int64 (- duration dur)) (Fsp dur), None) else (dur, None).

(** ** Years (time.go) *)

Definition MinYear : Z := 1901.
Definition MaxYear : Z := 2155.

Definition ErrWarnDataOutOfRange : TError := NewStd mysql.ErrWarnDataOutOfRange.
Definition ErrInvalidYearFormat : TError := NewStd 1367.

Definition int16 (z : Z) : Z := (z + 2 ^ 15) mod 2 ^ 16 - 2 ^ 15.

(** [strconv.ParseInt(s, 10, bitSize)]: as [ParseInt], with the cutoff
    of the bit size. *)
Definition ParseIntSize (s : string) (bitSize : Z) : Z * option error :=
  let '(neg, body) :=
    match s with
    | String c r =>
        if Ascii.eqb c "-" then (true, r)
        else if Ascii.eqb c "+" then (false, r)
        else (false, s)
    | EmptyString => (false, s)
    end in
  let cutoff := 2 ^ (bitSize - 1) in
  if (String.length body =? 0)%nat then
    (0, Some (FmtError "strconv.ParseInt: parsing %q: invalid syntax" [AStr s]))
  else if negb (allBytes isDigitByte body) then
    (0, Some (FmtError "strconv.ParseInt: parsing %q: invalid syntax" [AStr s]))
  else
    let v := digitsValue 0 body in
    if negb neg && (v >=? cutoff) then
      (cutoff - 1,
       Some (FmtError "strconv.ParseInt: parsing %q: value out of range" [AStr s]))
    else if neg && (v >? cutoff) then
      (- cutoff, Some (FmtError "strconv.ParseInt: parsing %q: value out of range" [AStr s]))
    else (if neg then - v else v, None).

(** [ParseYear(str)] *)
Definition ParseYear (str : string) : Z * option error :=
  match ParseIntSize str 16 with
  | (_, Some e) => (0, errors.Trace (Some e))
  | (v, None) =>
      let y := int16 v in
      let check y :=
        if (y <? MinYear) || (y >? MaxYear)
        then (0, errors.Trace (Some (TErrorValue (code ErrInvalidYearFormat))))
        else (y, None) in
      if (len str =? 2) || (len str =? 1) then check (int16 (adjustYear y))
      else if negb (len str =? 4)
      then (0, errors.Trace (Some (TErrorValue (code ErrInvalidYearFormat))))
      else check y
  end.

(** [AdjustYear(y, adjustZero)] *)
Definition AdjustYear (y : Z) (adjustZero : bool) : Z * option error :=
  if (y =? 0) && negb adjustZero then (y, None)
  else
    let y := int64 (adjustYear y) in
    if y <? 0 then (0, errors.Trace (Some (TErrorValue (code ErrWarnDataOutOfRange))))
    else if y <? MinYear
    then (MinYear, errors.Trace (Some (TErrorValue (code ErrWarnDataOutOfRange))))
    else if y >? MaxYear
    then (MaxYear, errors.Trace (Some (TErrorValue (code ErrWarnDataOutOfRange))))
    else (y, None).

(** ** Fixed-width digits (time.go) *)

(** [FormatIntWidthN(num, n)] *)
Definition FormatIntWidthN (num n : Z) : string :=
  let numString := FormatInt num in
  if len numString >=? n then numString
  else (RepeatZero (n - len numString) ++ numString)%string.

(** The loop of [parseNDigits]: [limit] bounds the number of rounds left;
    [num] is a [uint64]. *)
Fixpoint parseNDigitsLoop (input : string) (limit : nat) (num step : Z) : Z * Z :=
  match limit, input with
  | S l, String c r =>
      if (byte "0" <=? byte c) && (byte c <=? byte "9")
      then parseNDigitsLoop r l (uint64 (uint64 (num * 10) + uint64 (byte c - byte "0")))
             (step + 1)
      else (num, step)
  | _, _ => (num, step)
  end.

(** [parseNDigits(input, limit)]: the number and the bytes consumed. *)
Definition parseNDigits (input : string) (limit : Z) : Z * Z :=
  if limit <=? 0 then (0, 0)
  else
    let '(num, step) := parseNDigitsLoop input (Z.to_nat limit) 0 0 in
    (int64 num, step).

(** ** The hasher (part of the planner shim) *)

(** The loop of [(h *SimpleHasher).Write] on the hash. *)
Fixpoint hashBytes (hash : Z) (data : string) : Z :=
  match data with
  | EmptyString => hash
  | String b r => hashBytes (uint64 (Z.lxor hash (byte b) * 1099511628211)) r
  end.

(** [NewHasher().hash] *)
Definition NewHasher : Z := 0.

(** [h.Write(data)]: the hash after the call, the count and the error. *)
Definition SimpleHasher_Write (hash : Z) (data : string) : Z * Z * option error :=
  (hashBytes hash data, len data, None).

(** ** The zone suffix of a datetime literal (time.go)

    [parseDatetime] in two steps, to state what it does with a zone
    suffix: the reading of the literal up to the core time of its date
    and time of day, and the last step, which applies the zone. *)

(** What the last step of [parseDatetime] is given: the context, the
    core time read (after the carry of a rounded fraction), whether the
    literal had a time of day, whether a zone suffix is left after the
    absorption step, and its sign, hour and minute. *)
Definition zoneCont : Type :=
  StmtContext -> CoreTime -> bool -> bool -> string -> string -> string ->
  StmtContext * Time * option error.

(** The last step of [parseDatetime]: the branch on [hasTZ]. *)
Definition zoneStep (str : string) (fsp : Z) : zoneCont :=
  fun ctx tmp hhmmss hasTZ tzSign tzHour tzMinute =>
    if hasTZ then
      if negb hhmmss then
        (ctx, ZeroDatetime,
         errors.Trace (Some (TError_GenWithStack ErrWrongValue DateTimeStr
                               [AStr str])))
      else
        let deltaHour :=
          if negb (len tzHour =? 0) then twoDigitValue tzHour else 0 in
        let deltaMinute :=
          if negb (len tzMinute =? 0) then twoDigitValue tzMinute else 0 in
        if (deltaHour >? 14) || (deltaMinute >? 59)
           || ((deltaHour =? 14) && negb (deltaMinute =? 0))
           || (String.eqb tzSign "-" && (deltaHour =? 0)
               && (deltaMinute =? 0))
        then
          (ctx, ZeroDatetime,
           errors.Trace (Some (TError_GenWithStackByArgs ErrWrongValue
                                 [AStr DateTimeStr; AStr str])))
        else
          let offset := deltaHour * 60 * 60 + deltaMinute * 60 in
          let offset := if String.eqb tzSign "-" then - offset else offset in
          let loc :=
            gotime.FixedZone
              ("UTC" ++ tzSign ++ tzHour ++ ":" ++ tzMinute)%string offset in
          match CoreTime_GoTime tmp loc with
          | (_, Some e) => (ctx, ZeroDatetime, errors.Trace (Some e))
          | (t1, None) =>
              let t1 := gotime.In t1 (StmtContext_Location ctx) in
              (ctx, NewTime (FromGoTime t1) mysql.TypeDatetime fsp, None)
          end
    else (ctx, NewTime tmp mysql.TypeDatetime fsp, None).

(** [parseDatetime] with its last step left open: the body of
    [parseDatetime] as it is, with [k] in the place of the branch on
    [hasTZ].  At [zoneStep] it is [parseDatetime] itself. *)
Definition parseDatetimeUpTo (k : zoneCont) (ctx : StmtContext) (str : string) (fsp : Z)
  : StmtContext * Time * option error :=
  let sp := splitDateTime str in
  let '(seps, fracStr, hasTZ) := (sp_seps sp, sp_fracStr sp, sp_hasTZ sp) in
  let '(tzSign, tzHour, tzSep, tzMinute) :=
    (sp_tzSign sp, sp_tzHour sp, sp_tzSep sp, sp_tzMinute sp) in
  let truncatedOrIncorrect := sp_truncated sp in
  let ctx := if truncatedOrIncorrect
             then StmtContext_AppendWarning ctx (truncatedWarning str) else ctx in
  let '(seps, fracStr) :=
    if negb (len fracStr =? 0) && negb (noAbsorb seps)
    then (seps ++ [fracStr], "") else (seps, fracStr) in
  let '(seps, hasTZ) :=
    if hasTZ && negb (String.eqb tzSign "")
       && negb (noAbsorb seps)
       && negb (negb (String.eqb tzMinute "") && String.eqb tzSep "")
    then (seps ++ (if negb (len tzHour =? 0) then [tzHour] else [])
               ++ (if negb (len tzMinute =? 0) then [tzMinute] else []),
          false)
    else (seps, hasTZ) in
  let n := Z.of_nat (List.length seps) in
  let '(ctx, seps, scan) :=
    if n =? 0 then
      (ctx, seps,
       inl (ZeroDatetime,
            errors.Trace (Some (TError_GenWithStackByArgs ErrWrongValue
                                  [AStr DateTimeStr; AStr str]))))
    else if n =? 1 then
      let '(ctx, r) := scanCompact ctx str (nth 0 seps "") fracStr truncatedOrIncorrect in
      (ctx, seps, r)
    else if n =? 2 then
      (ctx, seps,
       inl (ZeroDatetime,
            errors.Trace (Some (TError_FastGenByArgs ErrWrongValue
                                  [AStr DateTimeStr; AStr str]))))
    else if n =? 3 then (ctx, seps, inr (scanDelimited seps 3 false))
    else if n =? 4 then (ctx, seps, inr (scanDelimited seps 4 false))
    else if n =? 5 then (ctx, seps, inr (scanDelimited seps 5 false))
    else if n =? 6 then (ctx, seps, inr (scanDelimited seps 6 true))
    else
      let seps := firstn 6 seps in
      (StmtContext_AppendWarning ctx (truncatedWarning str), seps,
       inr (scanDelimited seps 6 true)) in
  match scan with
  | inl (t, err) => (ctx, t, err)
  | inr f =>
      match f_err f with
      | Some e =>
          if isEOF e then
            (ctx, ZeroDatetime,
             errors.Trace (Some (TError_GenWithStackByArgs ErrWrongValue
                                   [AStr DateTimeStr; AStr str])))
          else (ctx, ZeroDatetime, errors.Trace (Some e))
      | None =>
          let '(year, month, day) := (f_year f, f_month f, f_day f) in
          let '(hour, minute, second) := (f_hour f, f_minute f, f_second f) in
          let hhmmss := f_hhmmss f in
          let year :=
            if (len (nth 0 seps "") <=? 2)
               && negb ((year =? 0) && (month =? 0) && (day =? 0) && (hour =? 0)
                        && (minute =? 0) && (second =? 0) && String.eqb fracStr "")
            then adjustYear year else year in
          let fracResult :=
            if hhmmss then ParseFrac fracStr fsp else (0, false, None) in
          match fracResult with
          | (_, _, Some e) => (ctx, ZeroDatetime, errors.Trace (Some e))
          | (microsecond, overflow, None) =>
              match FromDateChecked year month day hour minute second microsecond with
              | (_, false) =>
                  (ctx, ZeroDatetime,
                   errors.Trace (Some (TError_GenWithStackByArgs ErrWrongValue
                                         [AStr DateTimeStr; AStr str])))
              | (tmp, true) =>
                  let carried :=
                    if overflow then
                      match CoreTime_GoTime tmp (StmtContext_Location ctx) with
                      | (_, Some e) => inl (errors.Trace (Some e))
                      | (t1, None) => inr (FromGoTime (gotime.Add t1 gotime.Second))
                      end
                    else inr tmp in
                  match carried with
                  | inl err => (ctx, ZeroDatetime, err)
                  | inr tmp => k ctx tmp hhmmss hasTZ tzSign tzHour tzMinute
                  end
              end
          end
      end
  end.

(** The reading the specification gives for the targets datetime and
    date: the same steps, with the zone of the suffix not applied. *)
Definition parseDatetimeWallClock (ctx : StmtContext) (str : string) (fsp : Z)
  : StmtContext * Time * option error :=
  parseDatetimeUpTo
    (fun ctx tmp _ _ _ _ _ => (ctx, NewTime tmp mysql.TypeDatetime fsp, None)) ctx str fsp.

(** The absorption step of [parseDatetime] on the parts of a literal:
    the components, the fraction and whether the zone suffix is left. *)
Definition absorbed (sp : splitResult) : list string * string * bool :=
  let '(seps, fracStr, hasTZ) := (sp_seps sp, sp_fracStr sp, sp_hasTZ sp) in
  let '(tzSign, tzHour, tzSep, tzMinute) :=
    (sp_tzSign sp, sp_tzHour sp, sp_tzSep sp, sp_tzMinute sp) in
  let '(seps, fracStr) :=
    if negb (len fracStr =? 0) && negb (noAbsorb seps)
    then (seps ++ [fracStr], "") else (seps, fracStr) in
  let '(seps, hasTZ) :=
    if hasTZ && negb (String.eqb tzSign "")
       && negb (noAbsorb seps)
       && negb (negb (String.eqb tzMinute "") && String.eqb tzSep "")
    then (seps ++ (if negb (len tzHour =? 0) then [tzHour] else [])
               ++ (if negb (len tzMinute =? 0) then [tzMinute] else []),
          false)
    else (seps, hasTZ) in
  (seps, fracStr, hasTZ).

(** Whether [str] carries a zone suffix that is not absorbed. *)
Definition zoneSurvives (str : string) : bool := snd (absorbed (splitDateTime str)).

(** The offset, in seconds east of UTC, that [parseDatetime] reads from
    the sign, hour and minute of a suffix. *)
Definition zoneOffset (tzSign tzHour tzMinute : string) : Z :=
  let deltaHour := if negb (len tzHour =? 0) then twoDigitValue tzHour else 0 in
  let deltaMinute := if negb (len tzMinute =? 0) then twoDigitValue tzMinute else 0 in
  let offset := deltaHour * 60 * 60 + deltaMinute * 60 in
  if String.eqb tzSign "-" then - offset else offset.

(** The zone [parseDatetime] builds from the suffix of [str]. *)
Definition zoneOf (str : string) : gotime.Location :=
  let sp := splitDateTime str in
  gotime.FixedZone ("UTC" ++ sp_tzSign sp ++ sp_tzHour sp ++ ":" ++ sp_tzMinute sp)%string
    (zoneOffset (sp_tzSign sp) (sp_tzHour sp) (sp_tzMinute sp)).
(** * Properties *)


(** ** Bytes and strings *)

Lemma len_cons (c : ascii) (s : string) : len (String c s) = 1 + len s.
Proof. unfold len. cbn [String.length]. lia. Qed.

Lemma len_nonneg (s : string) : 0 <= len s.
Proof. unfold len. lia. Qed.

Lemma len_app (a b : string) : len (a ++ b)%string = len a + len b.
Proof.
  induction a as [|x a IH]; [cbn; unfold len; lia|].
  cbn [append]. rewrite !len_cons, IH. lia.
Qed.

Lemma append_assoc_str (a b c : string) : ((a ++ b) ++ c)%string = (a ++ (b ++ c))%string.
Proof. induction a as [|x a IH]; cbn; [reflexivity|]. rewrite IH. reflexivity. Qed.

Lemma append_nil_r (a : string) : (a ++ "")%string = a.
Proof. induction a as [|x a IH]; cbn; [reflexivity|]. rewrite IH. reflexivity. Qed.

Lemma substring_0_0 (s : string) : String.substring 0 0 s = "".
Proof. destruct s; reflexivity. Qed.

Lemma substring_all (s : string) : String.substring 0 (String.length s) s = s.
Proof. induction s as [|c s IH]; cbn; [reflexivity|]. rewrite IH. reflexivity. Qed.

Lemma substring_app_prefix (a x : string) :
  String.substring 0 (String.length a) (a ++ x)%string = a.
Proof. induction a as [|c a IH]; cbn; [apply substring_0_0|]. rewrite IH. reflexivity. Qed.

Lemma substring_app_skip (a x : string) (m : nat) :
  String.substring (String.length a) m (a ++ x)%string = String.substring 0 m x.
Proof. induction a as [|c a IH]; cbn; [reflexivity|]. exact IH. Qed.

Lemma allBytes_cons (p : ascii -> bool) (c : ascii) (s : string) :
  allBytes p (String c s) = true <-> p c = true /\ allBytes p s = true.
Proof. cbn [allBytes]. apply andb_true_iff. Qed.

Lemma allBytes_app (p : ascii -> bool) (a b : string) :
  allBytes p (a ++ b)%string = allBytes p a && allBytes p b.
Proof.
  induction a as [|x a IH]; cbn; [reflexivity|]. rewrite IH. apply andb_assoc.
Qed.

Lemma allBytes_weaken (p q : ascii -> bool) (s : string) :
  (forall c, p c = true -> q c = true) -> allBytes p s = true -> allBytes q s = true.
Proof.
  intros Hpq. induction s as [|c s IH]; [reflexivity|].
  intros H. apply allBytes_cons in H. destruct H as [Hc Hs].
  apply allBytes_cons. split; auto.
Qed.

Lemma byteAt_0_cons (c : ascii) (s : string) : byteAt (String c s) 0 = c.
Proof. reflexivity. Qed.

Lemma byteAt_0_app (a b : string) : 0 < len a -> byteAt (a ++ b)%string 0 = byteAt a 0.
Proof. destruct a; [cbn; unfold len; cbn; lia|]. reflexivity. Qed.

Lemma eqb_byte (c d : ascii) : byte c <> byte d -> Ascii.eqb c d = false.
Proof.
  intros H. destruct (Ascii.eqb_spec c d) as [->|]; [contradiction|reflexivity].
Qed.

Lemma digit_byte_range (c : ascii) : isDigitByte c = true -> 48 <= byte c <= 57.
Proof.
  unfold isDigitByte. change (byte "0") with 48. change (byte "9") with 57.
  intros H. apply andb_true_iff in H. destruct H as [H1 H2].
  apply Z.leb_le in H1, H2. lia.
Qed.

Lemma digit_not_byte (c d : ascii) :
  isDigitByte c = true -> (byte d < 48 \/ 57 < byte d) -> Ascii.eqb c d = false.
Proof. intros Hc Hd. pose proof (digit_byte_range c Hc). apply eqb_byte. lia. Qed.




(** ** Two-digit years and enum ordinals *)

(** C6. [adjustYear] maps 0..69 to 2000+y, 70..99 to 1900+y and is the
    identity on every other integer. *)
Theorem adjustYear_law (y : Z) :
  (0 <= y <= 69 -> adjustYear y = 2000 + y) /\
  (70 <= y <= 99 -> adjustYear y = 1900 + y) /\
  (y < 0 \/ 99 < y -> adjustYear y = y).
Proof.
  unfold adjustYear.
  destruct (Z.geb_spec y 0), (Z.leb_spec y 69), (Z.geb_spec y 70), (Z.leb_spec y 99);
    cbn; repeat split; intros; lia.
Qed.

Lemma adjustYear_law_witness :
  adjustYear 5 = 2005 /\ adjustYear 70 = 1970 /\ adjustYear 2024 = 2024.
Proof.
  destruct (adjustYear_law 5) as [H5 _].
  destruct (adjustYear_law 70) as [_ [H70 _]].
  destruct (adjustYear_law 2024) as [_ [_ H2024]].
  split; [apply H5; lia | split; [apply H70; lia | apply H2024; lia]].
Defined.

(** C8. [ParseEnumValue] resolves an ordinal in [1, len(elems)] to the
    member at that ordinal and rejects 0 and every ordinal past the end
    with the zero [Enum].  [n] ranges over [uint64]; a slice is never
    longer than the largest [int]. *)
Theorem ParseEnumValue_spec (elems : list string) (n : Z) :
  0 <= n < 2 ^ 64 ->
  Z.of_nat (List.length elems) <= MaxInt64 ->
  (1 <= n <= Z.of_nat (List.length elems) ->
     ParseEnumValue elems n
     = (mkEnum (nth (Z.to_nat (n - 1)) elems "") n, None)) /\
  (n = 0 \/ n > Z.of_nat (List.length elems) ->
     exists e, ParseEnumValue elems n = (zeroEnum, Some e)) /\
  ParseEnumValue ["a"; "b"; "c"] 2 = (mkEnum "b" 2, None) /\
  (exists e, ParseEnumValue ["a"; "b"; "c"] 0 = (zeroEnum, Some e)).
Proof.
  intros Hn Hlen. unfold MaxInt64 in Hlen.
  assert (Hu : uint64 (Z.of_nat (List.length elems)) = Z.of_nat (List.length elems)).
  { unfold uint64. apply Z.mod_small. lia. }
  split; [|split; [|split]].
  - intros H. unfold ParseEnumValue. rewrite Hu.
    destruct (Z.eqb_spec n 0); [lia|].
    destruct (Z.gtb_spec n (Z.of_nat (List.length elems))); [lia|]. reflexivity.
  - intros H. unfold ParseEnumValue. rewrite Hu.
    destruct (Z.eqb_spec n 0); [eexists; reflexivity|].
    destruct (Z.gtb_spec n (Z.of_nat (List.length elems))); [|lia].
    eexists; reflexivity.
  - reflexivity.
  - eexists; reflexivity.
Qed.

Lemma ParseEnumValue_spec_witness :
  ParseEnumValue ["x"; "y"] 1 = (mkEnum "x" 1, None) /\
  (exists e, ParseEnumValue ["x"; "y"] 3 = (zeroEnum, Some e)).
Proof.
  assert (Hl : Z.of_nat (List.length ["x"; "y"]) <= MaxInt64) by (vm_compute; discriminate).
  destruct (ParseEnumValue_spec ["x"; "y"] 1 ltac:(lia) Hl) as [H1 _].
  destruct (ParseEnumValue_spec ["x"; "y"] 3 ltac:(lia) Hl) as [_ [H3 _]].
  split; [apply H1; simpl; lia | apply H3; right; simpl; lia].
Defined.


(** ** Tag bits of a time *)

Lemma mask_fspTt : fspTtBitFieldMask = Z.ones 4.
Proof. reflexivity. Qed.

Lemma small_tag (k : Z) : 0 <= k < 16 -> k = Z.land k (Z.ones 4).
Proof. intros. rewrite Z.land_ones by lia. symmetry. apply Z.mod_small. lia. Qed.

Lemma tag_range (k : Z) : 0 <= Z.land k (Z.ones 4) < 16.
Proof. rewrite Z.land_ones by lia. apply Z.mod_pos_bound. lia. Qed.

Lemma getFspTt_range (t : Time) : 0 <= getFspTt t < 16.
Proof. unfold getFspTt. rewrite mask_fspTt. apply tag_range. Qed.

Lemma lor_tag_range (a b : Z) : 0 <= a < 16 -> 0 <= b < 16 -> 0 <= Z.lor a b < 16.
Proof.
  intros Ha Hb.
  replace (Z.lor a b) with (Z.land (Z.lor a b) (Z.ones 4)); [apply tag_range|].
  rewrite (small_tag a Ha), (small_tag b Hb). Z.bitblast.
Qed.

Lemma land_tag_range (a b : Z) : 0 <= a < 16 -> 0 <= Z.land a b < 16.
Proof.
  intros Ha.
  replace (Z.land a b) with (Z.land (Z.land a b) (Z.ones 4)); [apply tag_range|].
  rewrite (small_tag a Ha). Z.bitblast.
Qed.

Lemma high_bits_64 (t : Z) : 0 <= t < 2 ^ 64 -> t = Z.land t (Z.ones 64).
Proof. intros. rewrite Z.land_ones by lia. symmetry. apply Z.mod_small. lia. Qed.

Lemma setFspTt_core (t : Time) (k : Z) :
  0 <= k < 16 ->
  Time_CoreTime (setFspTt t k) = Time_CoreTime t.
Proof.
  intros Hk. unfold Time_CoreTime, setFspTt, coreTimeBitFieldMask, not64, uint64. cbn [coreTime].
  rewrite (Z.mod_small k) by lia.
  rewrite (small_tag k Hk).
  rewrite mask_fspTt.
  Z.bitblast.
Qed.

Lemma setFspTt_high (t : Time) (k : Z) :
  0 <= coreTime t < 2 ^ 64 ->
  0 <= k < 16 ->
  Z.shiftr (coreTime (setFspTt t k)) 4 = Z.shiftr (coreTime t) 4.
Proof.
  intros Ht Hk. unfold setFspTt, not64, uint64. cbn [coreTime].
  rewrite (Z.mod_small k) by lia.
  rewrite (small_tag k Hk). rewrite (high_bits_64 _ Ht).
  rewrite mask_fspTt.
  Z.bitblast.
Qed.

Lemma SetType_tag_range (t : Time) (tp : Z) :
  exists k, 0 <= k < 16 /\ SetType t tp = setFspTt t k.
Proof.
  unfold SetType.
  pose proof (getFspTt_range t) as Hg.
  set (k0 := if (getFspTt t =? fspTtForDate) && negb (tp =? mysql.TypeDate) then 0
             else getFspTt t).
  assert (Hk0 : 0 <= k0 < 16) by (subst k0; destruct (_ && _); lia).
  destruct (tp =? mysql.TypeDate); [exists fspTtForDate; split; [unfold fspTtForDate; lia|reflexivity]|].
  destruct (tp =? mysql.TypeTimestamp).
  { eexists; split; [|reflexivity]. apply lor_tag_range; lia. }
  destruct (tp =? mysql.TypeDatetime).
  { eexists; split; [|reflexivity]. apply land_tag_range; lia. }
  exists k0; split; [lia|reflexivity].
Qed.

Lemma valid_fsp_shift (fsp : Z) :
  fsp = UnspecifiedFsp \/ 0 <= fsp <= 7 ->
  exists k, 0 <= k < 16 /\
    shl64 (uint64 (if fsp =? UnspecifiedFsp then DefaultFsp else fsp)) 1 = k.
Proof.
  intros [->|H].
  - exists 0. split; [lia|reflexivity].
  - assert (fsp = 0 \/ fsp = 1 \/ fsp = 2 \/ fsp = 3 \/ fsp = 4 \/ fsp = 5 \/ fsp = 6 \/ fsp = 7)
      as Hc by lia.
    repeat (destruct Hc as [->|Hc]); try subst fsp;
      (eexists; split; [|vm_compute; reflexivity]; lia).
Qed.

Lemma SetFsp_core (t : Time) (fsp : Z) :
  fsp = UnspecifiedFsp \/ 0 <= fsp <= 7 ->
  Time_CoreTime (SetFsp t fsp) = Time_CoreTime t.
Proof.
  intros Hf. unfold SetFsp.
  destruct (getFspTt t =? fspTtForDate); [reflexivity|].
  destruct (valid_fsp_shift fsp Hf) as (k & Hk & ->).
  unfold Time_CoreTime, coreTimeBitFieldMask, not64, fspBitFieldMask. cbn [coreTime].
  rewrite (small_tag k Hk). rewrite mask_fspTt.
  change 14 with (Z.land 14 (Z.ones 4)).
  Z.bitblast.
Qed.

Lemma SetFsp_high (t : Time) (fsp : Z) :
  0 <= coreTime t < 2 ^ 64 ->
  fsp = UnspecifiedFsp \/ 0 <= fsp <= 7 ->
  Z.shiftr (coreTime (SetFsp t fsp)) 4 = Z.shiftr (coreTime t) 4.
Proof.
  intros Ht Hf. unfold SetFsp.
  destruct (getFspTt t =? fspTtForDate); [reflexivity|].
  destruct (valid_fsp_shift fsp Hf) as (k & Hk & ->).
  unfold not64, fspBitFieldMask. cbn [coreTime].
  rewrite (small_tag k Hk). rewrite (high_bits_64 _ Ht).
  change 14 with (Z.land 14 (Z.ones 4)).
  Z.bitblast.
Qed.

(** C9 (as amended). [SetType], for every [tp], and [SetFsp], for every
    fsp that is unspecified or within 0..7, change nothing above the 4
    tag bits: [CoreTime()] and the upper 60 bits stay as they were. *)
Theorem SetType_SetFsp_frame (t : Time) :
  0 <= coreTime t < 2 ^ 64 ->
  (forall tp,
      Time_CoreTime (SetType t tp) = Time_CoreTime t /\
      Z.shiftr (coreTime (SetType t tp)) 4 = Z.shiftr (coreTime t) 4) /\
  (forall fsp,
      fsp = UnspecifiedFsp \/ MinFsp <= fsp <= 7 ->
      Time_CoreTime (SetFsp t fsp) = Time_CoreTime t /\
      Z.shiftr (coreTime (SetFsp t fsp)) 4 = Z.shiftr (coreTime t) 4).
Proof.
  intros Ht. split.
  - intros tp. destruct (SetType_tag_range t tp) as (k & Hk & ->).
    split; [apply setFspTt_core | apply setFspTt_high]; assumption.
  - intros fsp Hf. unfold MinFsp in Hf.
    split; [apply SetFsp_core | apply SetFsp_high]; assumption.
Qed.

Lemma SetType_SetFsp_frame_witness :
  Time_CoreTime (SetType (NewTime (FromDate 2020 1 2 3 4 5 6) mysql.TypeDatetime 0)
                   mysql.TypeTimestamp)
  = Time_CoreTime (NewTime (FromDate 2020 1 2 3 4 5 6) mysql.TypeDatetime 0) /\
  Time_CoreTime (SetFsp (NewTime (FromDate 2020 1 2 3 4 5 6) mysql.TypeDatetime 0) 6)
  = Time_CoreTime (NewTime (FromDate 2020 1 2 3 4 5 6) mysql.TypeDatetime 0).
Proof.
  assert (Hr : 0 <= coreTime (NewTime (FromDate 2020 1 2 3 4 5 6) mysql.TypeDatetime 0)
               < 2 ^ 64)
    by (split; [vm_compute; discriminate | vm_compute; reflexivity]).
  destruct (SetType_SetFsp_frame _ Hr) as [HT HF].
  split.
  - apply (HT mysql.TypeTimestamp).
  - apply (HF 6). right. unfold MinFsp. lia.
Defined.

(** C9, as stated, fails: [SetFsp] with fsp 8 writes bit 4, the lowest
    microsecond bit. *)
Lemma SetFsp_writes_core_bit :
  Time_CoreTime (SetFsp (NewTime (FromDate 2020 1 2 3 4 5 0) mysql.TypeDatetime 0) 8)
  <> Time_CoreTime (NewTime (FromDate 2020 1 2 3 4 5 0) mysql.TypeDatetime 0).
Proof. vm_compute. discriminate. Qed.


(** ** The packed encoding *)

Lemma field_extract (t w off : Z) :
  0 <= w -> 0 <= off ->
  Z.shiftr (Z.land t (bitFieldMask w off)) off = Z.land (Z.shiftr t off) (Z.ones w).
Proof. intros. unfold bitFieldMask. Z.bitblast. Qed.

Lemma field_range (t w off : Z) :
  0 <= w -> 0 <= off ->
  0 <= Z.shiftr (Z.land t (bitFieldMask w off)) off < 2 ^ w.
Proof.
  intros. rewrite field_extract by lia. rewrite Z.land_ones by lia.
  apply Z.mod_pos_bound. apply Z.pow_pos_nonneg; lia.
Qed.

Lemma field_piece (t w off : Z) :
  0 <= w -> 0 <= off -> off + w <= 64 ->
  Z.land (shl64 (uint64 (Z.shiftr (Z.land t (bitFieldMask w off)) off)) off) (bitFieldMask w off)
  = Z.land t (bitFieldMask w off).
Proof.
  intros. rewrite field_extract by lia. unfold shl64, uint64, bitFieldMask. Z.bitblast.
Qed.

Lemma mask_split (t a b off : Z) :
  0 <= a -> 0 <= b -> 0 <= off ->
  Z.land t (bitFieldMask (a + b) off)
  = Z.lor (Z.land t (bitFieldMask a off)) (Z.land t (bitFieldMask b (off + a))).
Proof.
  intros. unfold bitFieldMask. Z.bitblast.
Qed.

Lemma coreTimeBitFieldMask_eq : coreTimeBitFieldMask = bitFieldMask 60 4.
Proof. reflexivity. Qed.

Lemma FromDate_fields (t : CoreTime) :
  FromDate (Year t) (Month t) (Day t) (Hour t) (Minute t) (Second t) (Microsecond t)
  = Z.land t coreTimeBitFieldMask.
Proof.
  unfold FromDate, Year, Month, Day, Hour, Minute, Second, Microsecond,
    yearBitFieldMask, monthBitFieldMask, dayBitFieldMask, hourBitFieldMask,
    minuteBitFieldMask, secondBitFieldMask, microsecondBitFieldMask.
  rewrite !field_piece by (vm_compute; discriminate).
  rewrite coreTimeBitFieldMask_eq.
  change 60 with (20 + (6 + (6 + (5 + (5 + (4 + 14)))))).
  rewrite !mask_split by lia.
  unfold ZeroCoreTime. rewrite Z.lor_0_l, !Z.lor_assoc.
  reflexivity.
Qed.

Lemma lor_shiftl_add (a b n : Z) :
  0 <= n -> 0 <= b < 2 ^ n -> Z.lor (Z.shiftl a n) b = a * 2 ^ n + b.
Proof.
  intros Hn Hb.
  assert (Hd : Z.land (Z.shiftl a n) b = 0).
  { apply Z.bits_inj'. intros i Hi. rewrite Z.land_spec, Z.bits_0.
    destruct (Z.lt_ge_cases i n) as [Hlt|Hge].
    - rewrite Z.shiftl_spec_low by lia. reflexivity.
    - replace (Z.testbit b i) with false; [apply andb_false_r|].
      symmetry. destruct (Z.eq_dec b 0) as [->|Hnz]; [apply Z.bits_0|].
      apply Z.bits_above_log2; [lia|].
      apply Z.lt_le_trans with n; [|exact Hge].
      apply Z.log2_lt_pow2; lia. }
  rewrite <- Z.lxor_lor by exact Hd.
  rewrite <- Z.add_nocarry_lxor by exact Hd.
  rewrite Z.shiftl_mul_pow2 by lia. reflexivity.
Qed.

Lemma div_mod_pack (a b m : Z) :
  0 < m -> 0 <= b < m -> (a * m + b) / m = a /\ (a * m + b) mod m = b.
Proof.
  intros Hm Hb. split.
  - symmetry. apply Z.div_unique with b; lia.
  - symmetry. apply Z.mod_unique with a; lia.
Qed.

Lemma CoreTime_fieldsInRange (t : CoreTime) :
  fieldsInRange (Year t) (Month t) (Day t) (Hour t) (Minute t) (Second t) (Microsecond t).
Proof.
  split; apply field_range; vm_compute; discriminate.
Qed.

Lemma packed_nonzero_layout (Y M D h mi s us : Z) :
  fieldsInRange Y M D h mi s us ->
  let ymd := uint64 (Z.lor (Z.shiftl (Y * 13 + M) 5) D) in
  let hms := uint64 (Z.lor (Z.lor (Z.shiftl h 12) (Z.shiftl mi 6)) s) in
  Z.lor (shl64 (Z.lor (shl64 ymd 17) hms) 24) (uint64 us)
  = packedLayout Y M D h mi s us.
Proof.
  intros [HY HM HD Hh Hmi Hs Hus]. cbv zeta. unfold shl64, uint64, packedLayout.
  rewrite (lor_shiftl_add _ D 5) by lia.
  rewrite <- Z.lor_assoc.
  rewrite (lor_shiftl_add mi s 6) by lia.
  rewrite (lor_shiftl_add h _ 12) by lia.
  rewrite (Z.mod_small ((Y * 13 + M) * 2 ^ 5 + D)) by lia.
  rewrite (Z.mod_small (h * 2 ^ 12 + (mi * 2 ^ 6 + s))) by lia.
  rewrite (Z.mod_small us) by lia.
  rewrite (Z.shiftl_mul_pow2 _ 17) by lia.
  rewrite (Z.mod_small (((Y * 13 + M) * 2 ^ 5 + D) * 2 ^ 17)) by lia.
  rewrite <- (Z.shiftl_mul_pow2 _ 17) by lia.
  rewrite (lor_shiftl_add _ _ 17) by lia.
  rewrite (Z.shiftl_mul_pow2 _ 24) by lia.
  rewrite (Z.mod_small ((((Y * 13 + M) * 2 ^ 5 + D) * 2 ^ 17 + _) * 2 ^ 24)) by lia.
  rewrite <- (Z.shiftl_mul_pow2 _ 24) by lia.
  rewrite (lor_shiftl_add _ us 24) by lia.
  lia.
Qed.

Lemma unpack_layout (Y M D h mi s us : Z) :
  fieldsInRange Y M D h mi s us -> M <= 12 ->
  let packed := packedLayout Y M D h mi s us in
  let ymdhms := Z.shiftr packed 24 in
  let ymd := Z.shiftr ymdhms 17 in
  let ym := Z.shiftr ymd 5 in
  let hms := Z.land ymdhms (Z.shiftl 1 17 - 1) in
  ym / 13 = Y /\ ym mod 13 = M /\ Z.land ymd (Z.shiftl 1 5 - 1) = D /\
  Z.shiftr hms 12 = h /\ Z.land (Z.shiftr hms 6) (Z.shiftl 1 6 - 1) = mi /\
  Z.land hms (Z.shiftl 1 6 - 1) = s /\ packed mod Z.shiftl 1 24 = us.
Proof.
  intros [HY HM HD Hh Hmi Hs Hus] HM12. cbv zeta.
  change (Z.shiftl 1 17 - 1) with (Z.ones 17).
  change (Z.shiftl 1 5 - 1) with (Z.ones 5).
  change (Z.shiftl 1 6 - 1) with (Z.ones 6).
  change (Z.shiftl 1 24) with (2 ^ 24).
  rewrite !Z.land_ones, !Z.shiftr_div_pow2 by lia.
  set (ymd := (Y * 13 + M) * 2 ^ 5 + D).
  set (hms := (h * 2 ^ 6 + mi) * 2 ^ 6 + s).
  assert (Hp : packedLayout Y M D h mi s us = (ymd * 2 ^ 17 + hms) * 2 ^ 24 + us).
  { unfold packedLayout, ymd, hms. lia. }
  rewrite Hp.
  destruct (div_mod_pack (ymd * 2 ^ 17 + hms) us (2 ^ 24)) as [-> ->]; [lia|lia|].
  destruct (div_mod_pack ymd hms (2 ^ 17)) as [-> ->]; [lia|unfold hms; lia|].
  unfold ymd at 1 2.
  destruct (div_mod_pack (Y * 13 + M) D (2 ^ 5)) as [-> _]; [lia|lia|].
  destruct (div_mod_pack Y M 13) as [-> ->]; [lia|lia|].
  unfold ymd.
  destruct (div_mod_pack (Y * 13 + M) D (2 ^ 5)) as [_ ->]; [lia|lia|].
  unfold hms.
  replace (2 ^ 12) with (2 ^ 6 * 2 ^ 6) by reflexivity.
  rewrite <- Z.div_div by lia.
  destruct (div_mod_pack (h * 2 ^ 6 + mi) s (2 ^ 6)) as [-> ->]; [lia|lia|].
  destruct (div_mod_pack h mi (2 ^ 6)) as [-> ->]; [lia|lia|].
  repeat split; reflexivity.
Qed.

Lemma IsZero_fields (t : Time) :
  IsZero t = true ->
  Year (coreTime t) = 0 /\ Month (coreTime t) = 0 /\ Day (coreTime t) = 0 /\
  Hour (coreTime t) = 0 /\ Minute (coreTime t) = 0 /\ Second (coreTime t) = 0 /\
  Microsecond (coreTime t) = 0.
Proof.
  unfold IsZero, compareTime.
  change (datetimeToUint64 ZeroCoreTime) with 0.
  change (Microsecond ZeroCoreTime) with 0.
  destruct (CoreTime_fieldsInRange (coreTime t)) as [HY HM HD Hh Hmi Hs Hus].
  unfold datetimeToUint64.
  destruct (Z.ltb_spec ((Year (coreTime t) * 10000 + Month (coreTime t) * 100 + Day (coreTime t))
                        * 1000000
                        + (Hour (coreTime t) * 10000 + Minute (coreTime t) * 100
                           + Second (coreTime t))) 0); [discriminate|].
  destruct (Z.gtb_spec ((Year (coreTime t) * 10000 + Month (coreTime t) * 100 + Day (coreTime t))
                        * 1000000
                        + (Hour (coreTime t) * 10000 + Minute (coreTime t) * 100
                           + Second (coreTime t))) 0); [discriminate|].
  destruct (Z.ltb_spec (Microsecond (coreTime t)) 0); [discriminate|].
  destruct (Z.gtb_spec (Microsecond (coreTime t)) 0); [discriminate|].
  intros _. lia.
Qed.

Lemma IsZero_core (t : Time) : IsZero t = true -> Time_CoreTime t = 0.
Proof.
  intros H. unfold Time_CoreTime. rewrite <- FromDate_fields.
  destruct (IsZero_fields t H) as (-> & -> & -> & -> & -> & -> & ->). reflexivity.
Qed.

Lemma FromPackedUint_layout (r : Time) (Y M D h mi s us : Z) :
  fieldsInRange Y M D h mi s us -> M <= 12 ->
  FromPackedUint r (packedLayout Y M D h mi s us)
  = SetCoreTime r (FromDate Y M D h mi s us).
Proof.
  intros Hr HM. unfold FromPackedUint.
  destruct (Z.eqb_spec (packedLayout Y M D h mi s us) 0) as [Hz|Hnz].
  - destruct Hr as [HY HM' HD Hh Hmi Hs Hus]. unfold packedLayout in Hz.
    assert (Y = 0 /\ M = 0 /\ D = 0 /\ h = 0 /\ mi = 0 /\ s = 0 /\ us = 0)
      as (-> & -> & -> & -> & -> & -> & ->) by lia.
    reflexivity.
  - destruct (unpack_layout Y M D h mi s us Hr HM) as (-> & -> & -> & -> & -> & -> & ->).
    reflexivity.
Qed.

Lemma ToPackedUint_layout (t : Time) :
  IsZero t = false ->
  ToPackedUint t
  = packedLayout (Year (coreTime t)) (Month (coreTime t)) (Day (coreTime t))
      (Hour (coreTime t)) (Minute (coreTime t)) (Second (coreTime t))
      (Microsecond (coreTime t)).
Proof.
  intros Hz. unfold ToPackedUint. rewrite Hz.
  apply packed_nonzero_layout. apply CoreTime_fieldsInRange.
Qed.

Lemma roundtrip_SetCoreTime (t r : Time) :
  Month (coreTime t) <= 12 ->
  FromPackedUint r (ToPackedUint t) = SetCoreTime r (Time_CoreTime t).
Proof.
  intros HM. destruct (IsZero t) eqn:Hz.
  - unfold ToPackedUint. rewrite Hz. rewrite (IsZero_core t Hz). reflexivity.
  - rewrite (ToPackedUint_layout t Hz).
    rewrite FromPackedUint_layout by (auto using CoreTime_fieldsInRange).
    rewrite FromDate_fields. reflexivity.
Qed.

Lemma Time_eq (a b : Time) : coreTime a = coreTime b -> a = b.
Proof. destruct a, b. cbn. intros ->. reflexivity. Qed.

Lemma not64_coreTimeBitFieldMask : not64 coreTimeBitFieldMask = Z.ones 4.
Proof. reflexivity. Qed.

Lemma coreTimeBitFieldMask_bits : coreTimeBitFieldMask = Z.shiftl (Z.ones 60) 4.
Proof. reflexivity. Qed.

Lemma SetCoreTime_core (r : Time) (c : Z) :
  Time_CoreTime (SetCoreTime r c) = Z.land c coreTimeBitFieldMask.
Proof.
  unfold Time_CoreTime, SetCoreTime, uint64. cbn [coreTime].
  rewrite not64_coreTimeBitFieldMask, coreTimeBitFieldMask_bits. Z.bitblast.
Qed.

Lemma SetCoreTime_tag (r : Time) (c : Z) : getFspTt (SetCoreTime r c) = getFspTt r.
Proof.
  unfold getFspTt, SetCoreTime, uint64. cbn [coreTime].
  rewrite not64_coreTimeBitFieldMask, coreTimeBitFieldMask_bits, mask_fspTt. Z.bitblast.
Qed.

Lemma Time_split (t : Time) :
  0 <= coreTime t < 2 ^ 64 ->
  coreTime t = Z.lor (getFspTt t) (Time_CoreTime t).
Proof.
  intros Ht. unfold getFspTt, Time_CoreTime.
  rewrite coreTimeBitFieldMask_bits, mask_fspTt.
  rewrite (high_bits_64 _ Ht) at 1. Z.bitblast.
Qed.

Lemma SetCoreTime_split (r : Time) (c : Z) :
  coreTime (SetCoreTime r c) = Z.lor (getFspTt r) (Z.land c coreTimeBitFieldMask).
Proof.
  unfold getFspTt, SetCoreTime, uint64. cbn [coreTime].
  rewrite not64_coreTimeBitFieldMask, coreTimeBitFieldMask_bits, mask_fspTt. Z.bitblast.
Qed.

(** C1 (as amended). Decoding the packed encoding of a valid [t] (month
    at most 12) into any receiver restores the 60 core bits of [t] and
    keeps the receiver's own type/fsp tag, so the result is [t] itself
    exactly when the receiver carried [t]'s tag; the zero time encodes as
    0, and a non-zero time encodes in the stated layout, with the top bit
    clear for years up to 9999. *)
Theorem FromPackedUint_ToPackedUint (t r : Time) :
  0 <= coreTime t < 2 ^ 64 ->
  Month (coreTime t) <= 12 ->
  let r' := FromPackedUint r (ToPackedUint t) in
  Time_CoreTime r' = Time_CoreTime t /\
  getFspTt r' = getFspTt r /\
  (getFspTt r = getFspTt t -> r' = t) /\
  (IsZero t = true -> ToPackedUint t = 0) /\
  (IsZero t = false ->
   ToPackedUint t
   = packedLayout (Year (coreTime t)) (Month (coreTime t)) (Day (coreTime t))
       (Hour (coreTime t)) (Minute (coreTime t)) (Second (coreTime t))
       (Microsecond (coreTime t))) /\
  (Year (coreTime t) <= 9999 ->
   Year (coreTime t) * 13 + Month (coreTime t) < 2 ^ 17 /\ 0 <= ToPackedUint t < 2 ^ 63).
Proof.
  intros Ht HM r'. subst r'.
  rewrite (roundtrip_SetCoreTime t r HM).
  assert (Hcc : Z.land (Time_CoreTime t) coreTimeBitFieldMask = Time_CoreTime t).
  { unfold Time_CoreTime. rewrite <- Z.land_assoc, Z.land_diag. reflexivity. }
  split; [|split; [|split; [|split; [|split]]]].
  - rewrite SetCoreTime_core. exact Hcc.
  - apply SetCoreTime_tag.
  - intros Htag. apply Time_eq.
    rewrite SetCoreTime_split, Hcc, Htag. symmetry. apply (Time_split t Ht).
  - intros Hz. unfold ToPackedUint. rewrite Hz. reflexivity.
  - apply ToPackedUint_layout.
  - intros HY.
    destruct (CoreTime_fieldsInRange (coreTime t)) as [HY' HM' HD Hh Hmi Hs Hus].
    split; [lia|].
    destruct (IsZero t) eqn:Hz.
    + unfold ToPackedUint. rewrite Hz. lia.
    + rewrite (ToPackedUint_layout t Hz). unfold packedLayout. lia.
Qed.

Lemma FromPackedUint_ToPackedUint_witness :
  Time_CoreTime
    (FromPackedUint ZeroTime
       (ToPackedUint (NewTime (FromDate 2020 1 2 3 4 5 6) mysql.TypeTimestamp 3)))
  = Time_CoreTime (NewTime (FromDate 2020 1 2 3 4 5 6) mysql.TypeTimestamp 3).
Proof.
  apply (FromPackedUint_ToPackedUint
           (NewTime (FromDate 2020 1 2 3 4 5 6) mysql.TypeTimestamp 3) ZeroTime).
  - split; [vm_compute; discriminate | vm_compute; reflexivity].
  - vm_compute; discriminate.
Defined.

(** C1, as stated, fails: decoded into a fresh [Time], the packed value
    of a timestamp with fsp 3 comes back as a datetime with fsp 0. *)
Lemma FromPackedUint_drops_tag :
  FromPackedUint ZeroTime
    (ToPackedUint (NewTime (FromDate 2020 1 2 3 4 5 6) mysql.TypeTimestamp 3))
  <> NewTime (FromDate 2020 1 2 3 4 5 6) mysql.TypeTimestamp 3.
Proof. vm_compute. discriminate. Qed.


(** ** Truncation policy of the context *)






(** ** Durations *)




(** C10 (as amended). [RoundFrac] at the duration's own fsp returns the
    duration as it is, with no error, whatever precision its nanosecond
    count carries, exactly when that fsp is a valid one, 0 to 6. *)
Theorem Duration_RoundFrac_own_fsp (Local : gotime.Location) (d : Duration)
    (loc : option gotime.Location) :
  MinFsp <= Fsp d <= MaxFsp <->
  Duration_RoundFrac Local d (Fsp d) loc = (d, None).
Proof.
  unfold Duration_RoundFrac, CheckFsp, UnspecifiedFsp, DefaultFsp, MinFsp, MaxFsp.
  destruct d as [n f]. cbn [Fsp duration].
  split.
  - intros H.
    destruct (Z.eqb_spec f (-1)); [lia|].
    destruct (Z.ltb_spec f 0); [lia|].
    destruct (Z.gtb_spec f 6); [lia|].
    rewrite Z.eqb_refl. reflexivity.
  - destruct (Z.eqb_spec f (-1)) as [E|E].
    + subst f. cbn [Z.eqb]. intros K. inversion K.
    + destruct (Z.ltb_spec f 0) as [L0|L0].
      * cbn [errors.Trace errors.Errorf errors.HasStack]. discriminate.
      * destruct (Z.gtb_spec f 6) as [L6|L6]; [|lia].
        destruct (Z.eqb_spec 6 f); [lia|]. intros K. inversion K. lia.
Qed.

Lemma Duration_RoundFrac_own_fsp_witness :
  Duration_RoundFrac gotime.UTC (mkDuration 36610999999999 3) 3 None
  = (mkDuration 36610999999999 3, None).
Proof.
  apply (proj1 (Duration_RoundFrac_own_fsp gotime.UTC (mkDuration 36610999999999 3) None)).
  unfold MinFsp, MaxFsp. simpl. lia.
Defined.

(** C10, as stated, fails: the fsp of a [Duration] is a plain [int], and
    [CheckFsp] reads -1 as the default 0 and anything above 6 as 6.  A
    duration of 1.5 s that carries fsp -1 comes back from [RoundFrac] at
    its own fsp as 2 s with fsp 0, and one that carries fsp 7 comes back
    with fsp 6. *)
Lemma Duration_RoundFrac_unspecified_fsp :
  let d := mkDuration 1500000000 (-1) in
  Duration_RoundFrac gotime.UTC d (Fsp d) None = (mkDuration 2000000000 0, None) /\
  Duration_RoundFrac gotime.UTC d (Fsp d) None <> (d, None) /\
  Duration_RoundFrac gotime.UTC (mkDuration 1500000000 7) 7 None
  = (mkDuration 1500000000 6, None).
Proof.
  cbv zeta. split; [vm_compute; reflexivity|]. split; [vm_compute; discriminate|].
  vm_compute. reflexivity.
Qed.






Lemma hhmmssAddOverflow_hour (v : hms) :
  0 <= fst (fst v) <= 9 -> fst (fst (hhmmssAddOverflow v)) <= 10.
Proof.
  destruct v as [[h m] s]. cbn [fst]. intros H. unfold hhmmssAddOverflow.
  destruct (int64 (s + 1) =? 60); [|cbn; lia].
  destruct (int64 (m + 1) =? 60); [|cbn; lia].
  assert (Hh : int64 (h + 1) = h + 1).
  { unfold int64. rewrite Z.mod_small by lia. lia. }
  rewrite Hh. destruct (h + 1 =? -1); cbn; lia.
Qed.

Lemma Digit_zero (s : string) : Digit s 0 = ("", s, None).
Proof.
  unfold Digit. pose proof (len_nonneg s).
  destruct (Z.ltb_spec (len s) 0); [lia|].
  unfold sliceFrom, slice. change (Z.to_nat 0) with 0%nat.
  change (Z.to_nat (0 - 0)) with 0%nat. rewrite substring_0_0.
  replace (Z.to_nat (len s - 0)) with (String.length s) by (unfold len; lia).
  rewrite substring_all. reflexivity.
Qed.


Lemma matchAnyHHMMSS_empty : matchAnyHHMMSS "" = None.
Proof. reflexivity. Qed.




(** C7. The code does not do what the claim says.  The carry itself is
    as claimed ([hhmmssAddOverflow] adds one second and carries at 60
    into minutes and hours), but it is never reached: [matchFrac] reads
    no digit of any fraction, since [Digit] with a count of 0 answers the
    empty string, so after the point everything is left over and nothing
    is rounded.  On "10:10:10.999999" at fsp 0 the six digits stay
    unread, and [ParseDuration] answers the zero duration, null, with the
    truncation error -- not 10:10:11. *)
Theorem ParseDuration_fraction_left_over (Local : gotime.Location) (ctx : StmtContext) :
  hhmmssAddOverflow (10, 10, 10) = (10, 10, 11) /\
  hhmmssAddOverflow (10, 59, 59) = (11, 0, 0) /\
  (forall s fsp, matchFrac (String "." s) fsp = (false, 0, s, None)) /\
  ParseDuration Local ctx "10:10:10.999999" 0
  = (ctx, ZeroDuration, true, Some (truncatedTime "10:10:10.999999")) /\
  ParseDuration Local ctx "10:10:10.999999" 0
  <> (ctx, NewDuration 10 10 11 0 0, false, None).
Proof.
  split; [reflexivity|]. split; [reflexivity|].
  split; [|split].
  - intros s fsp. unfold matchFrac, Char. cbn [Ascii.eqb Bool.eqb negb].
    rewrite Digit_zero. reflexivity.
  - vm_compute. reflexivity.
  - vm_compute. discriminate.
Qed.


(** ** Timezone suffix *)

Lemma Trace_some (e : error) : exists e', errors.Trace (Some e) = Some e'.
Proof. unfold errors.Trace. destruct (errors.HasStack e); eexists; reflexivity. Qed.

Lemma Trace_none_inv (err : option error) : errors.Trace err = None -> err = None.
Proof.
  destruct err as [e|]; [|reflexivity].
  destruct (Trace_some e) as [e' ->]. discriminate.
Qed.

Lemma parseTime_success (ctx : StmtContext) (str : string) (tp fsp : Z)
    (c : StmtContext) (t : Time) :
  parseTime ctx str tp fsp = (c, t, None) ->
  exists fsp' t0,
    CheckFsp fsp = (fsp', None) /\
    parseDatetime ctx str fsp' = (c, t0, None) /\
    t = SetType t0 tp /\
    Time_Check c t = None.
Proof.
  unfold parseTime.
  destruct (CheckFsp fsp) as [fsp' [e|]] eqn:Hf.
  { destruct (Trace_some e) as [e' ->]. discriminate. }
  destruct (parseDatetime ctx str fsp') as [[c0 t0] [e|]] eqn:Hp.
  { destruct (Trace_some e) as [e' ->]. discriminate. }
  destruct (Time_Check c0 (SetType t0 tp)) as [e|] eqn:Hchk.
  - destruct (Trace_some e) as [e' He'].
    destruct ((tp =? mysql.TypeTimestamp) && negb (IsZero (SetType t0 tp))).
    + destruct (adjustTimestampErrForDST _ _ _ _ _) as [tAdj errAdj].
      destruct (TError_Equal ErrTimestampInDSTTransition errAdj) eqn:Heq.
      * destruct errAdj as [ea|]; [|discriminate Heq].
        destruct (Trace_some ea) as [ea' ->]. discriminate.
      * rewrite He'. discriminate.
    + rewrite He'. discriminate.
  - intros H. inversion H; subst. exists fsp', t0. auto.
Qed.

(** [parseDatetime] is its reading of the literal followed by the zone
    step. *)
Lemma parseDatetime_steps (ctx : StmtContext) (str : string) (fsp : Z) :
  parseDatetime ctx str fsp = parseDatetimeUpTo (zoneStep str fsp) ctx str fsp.
Proof. reflexivity. Qed.

Lemma scanCompact_early (ctx : StmtContext) (str seps0 fracStr : string) (tr : bool)
    (c : StmtContext) (t : Time) (e : option error) :
  scanCompact ctx str seps0 fracStr tr = (c, inl (t, e)) -> exists e', e = Some e'.
Proof.
  unfold scanCompact.
  repeat match goal with
         | |- context[if ?b then _ else _] => destruct b
         | |- context[match ?x with _ => _ end] => destruct x
         end;
    intros H; inversion H; subst; eexists; reflexivity.
Qed.

Ltac split_scrutinee :=
  match goal with
  | |- context[if ?b then _ else _] => destruct b
  | |- context[match scanCompact ?a ?b ?c ?d ?e with _ => _ end] =>
      let H := fresh "Hsc" in
      destruct (scanCompact a b c d e) as [? [[? ?]|?]] eqn:H
  | |- context[match f_err ?f with _ => _ end] => destruct (f_err f)
  | |- context[match ParseFrac ?a ?b with _ => _ end] =>
      destruct (ParseFrac a b) as [[? ?] [?|]]
  | |- context[match FromDateChecked ?a ?b ?c ?d ?e ?f ?g with _ => _ end] =>
      destruct (FromDateChecked a b c d e f g) as [? ?]
  | |- context[match CoreTime_GoTime ?a ?b with _ => _ end] =>
      destruct (CoreTime_GoTime a b) as [? [?|]]
  end.

Ltac settle_reading :=
  first
    [ left; do 3 eexists; intros k; reflexivity
    | right;
      match goal with
      | |- exists c t e, forall k, (?c0, ?t0, errors.Trace (Some ?x)) = _ =>
          let e' := fresh "e" in
          let He := fresh "He" in
          destruct (Trace_some x) as [e' He]; exists c0, t0, e'; intros k;
          rewrite He; reflexivity
      end
    | right;
      match goal with
      | Hsc : scanCompact _ _ _ _ _ = (_, inl (_, ?e)) |- _ =>
          let e' := fresh "e" in
          destruct (scanCompact_early _ _ _ _ _ _ _ _ Hsc) as [e' ->];
          do 3 eexists; intros k; reflexivity
      end ].

(** The reading either reaches the last step, with the zone flag and
    the sign, hour and minute of the suffix as the absorption step left
    them, or it has failed before, whatever the last step is. *)
Lemma parseDatetimeUpTo_inv (ctx : StmtContext) (str : string) (fsp : Z) :
  (exists c tmp hh,
     forall k, parseDatetimeUpTo k ctx str fsp
               = k c tmp hh (zoneSurvives str) (sp_tzSign (splitDateTime str))
                   (sp_tzHour (splitDateTime str)) (sp_tzMinute (splitDateTime str)))
  \/ (exists c t e, forall k, parseDatetimeUpTo k ctx str fsp = (c, t, Some e)).
Proof.
  unfold parseDatetimeUpTo, zoneSurvives, absorbed.
  set (sp := splitDateTime str). cbv zeta. cbv beta iota.
  destruct (negb (len (sp_fracStr sp) =? 0) && negb (noAbsorb (sp_seps sp)));
    match goal with
    | |- context[if ?b then (_ ++ _, false) else _] => destruct b
    end;
    cbv beta iota; cbn [snd];
    repeat (split_scrutinee; cbv beta iota);
    settle_reading.
Qed.

Lemma GoTime_instant (t : CoreTime) (loc : gotime.Location) :
  gotime.instant (fst (CoreTime_GoTime t loc))
  = gotime.instant (fst (CoreTime_GoTime t gotime.UTC))
    - gotime.offsetOf loc * 1000000000.
Proof.
  assert (F : forall l, fst (CoreTime_GoTime t l)
                        = gotime.Date (Year t) (Month t) (Day t) (Hour t) (Minute t)
                            (Second t) (Microsecond t * 1000) l).
  { intros l. unfold CoreTime_GoTime.
    destruct (gotime.dateOf _) as [[y2 m2] d2].
    destruct (gotime.clockOf _) as [[h2 mi2] s2].
    destruct (_ || _); reflexivity. }
  rewrite !F. unfold gotime.Date. cbn [gotime.instant gotime.offsetOf]. lia.
Qed.

(** C2 (as amended). [ParseTime] applies a parsed, non-absorbed timezone
    suffix whatever the target type is: the conversion happens inside
    [parseDatetime], which is not told the type, and the type only
    re-tags the result ([SetType]) and selects the check.  So a successful
    parse is [parseDatetime]'s value re-tagged, and two target types that
    both succeed agree on the core date and time.  For every literal whose
    suffix survives the absorption step, a successful result is the
    wall-clock reading of the literal (the same steps with the zone left
    unapplied), taken as a time in the fixed zone of the suffix, east of
    UTC by its offset, and moved into the location of the context.
    "2020-01-01 12:00:00+08:00" reads as 04:00:00 UTC as a timestamp, as
    a datetime and as a date; a negative offset, an offset with minutes,
    one without a colon, a bare hour and [Z] are applied the same way. *)
Theorem ParseTime_timezone_any_type (ctx : StmtContext) (str : string) (fsp : Z) :
  (forall tp c t,
      ParseTime ctx str tp fsp = (c, t, None) ->
      exists fsp' t0,
        CheckFsp fsp = (fsp', None) /\
        parseDatetime ctx str fsp' = (c, t0, None) /\
        t = SetType t0 tp /\
        Time_CoreTime t = Time_CoreTime t0) /\
  (forall tp1 tp2 c1 c2 t1 t2,
      ParseTime ctx str tp1 fsp = (c1, t1, None) ->
      ParseTime ctx str tp2 fsp = (c2, t2, None) ->
      c1 = c2 /\ Time_CoreTime t1 = Time_CoreTime t2) /\
  (forall tp c t,
      ParseTime ctx str tp fsp = (c, t, None) ->
      zoneSurvives str = true ->
      exists fsp' tmp t1,
        CheckFsp fsp = (fsp', None) /\
        parseDatetimeWallClock ctx str fsp'
        = (c, NewTime tmp mysql.TypeDatetime fsp', None) /\
        CoreTime_GoTime tmp (zoneOf str) = (t1, None) /\
        gotime.instant t1
        = gotime.instant (fst (CoreTime_GoTime tmp gotime.UTC))
          - gotime.offsetOf (zoneOf str) * 1000000000 /\
        t = SetType (NewTime (FromGoTime (gotime.In t1 (StmtContext_Location c)))
                       mysql.TypeDatetime fsp') tp) /\
  (forall tp,
      tp = mysql.TypeTimestamp \/ tp = mysql.TypeDatetime \/ tp = mysql.TypeDate ->
      ParseTime ctx "2020-01-01 12:00:00+08:00" tp 0
      = (ctx, NewTime (FromDate 2020 1 1 4 0 0 0) tp 0, None) /\
      ParseTime ctx "2020-01-01 12:00:00-05:30" tp 0
      = (ctx, NewTime (FromDate 2020 1 1 17 30 0 0) tp 0, None) /\
      ParseTime ctx "2020-01-01 23:30:00-01:00" tp 0
      = (ctx, NewTime (FromDate 2020 1 2 0 30 0 0) tp 0, None) /\
      ParseTime ctx "2020-01-01 12:00:00+0530" tp 0
      = (ctx, NewTime (FromDate 2020 1 1 6 30 0 0) tp 0, None) /\
      ParseTime ctx "2020-01-01 12:00:00+08" tp 0
      = (ctx, NewTime (FromDate 2020 1 1 4 0 0 0) tp 0, None) /\
      ParseTime ctx "2020-01-01 12:00:00Z" tp 0
      = (ctx, NewTime (FromDate 2020 1 1 12 0 0 0) tp 0, None)).
Proof.
  split; [|split; [|split]].
  - intros tp c t H. unfold ParseTime in H.
    destruct (parseTime_success _ _ _ _ _ _ H) as (fsp' & t0 & Hf & Hp & Ht & _).
    exists fsp', t0. repeat split; try assumption.
    subst t. destruct (SetType_tag_range t0 tp) as (k & Hk & ->).
    apply setFspTt_core. exact Hk.
  - intros tp1 tp2 c1 c2 t1 t2 H1 H2. unfold ParseTime in H1, H2.
    destruct (parseTime_success _ _ _ _ _ _ H1) as (f1 & a1 & Hf1 & Hp1 & Ht1 & _).
    destruct (parseTime_success _ _ _ _ _ _ H2) as (f2 & a2 & Hf2 & Hp2 & Ht2 & _).
    rewrite Hf1 in Hf2. inversion Hf2; subst f2.
    rewrite Hp1 in Hp2. inversion Hp2; subst.
    split; [reflexivity|].
    destruct (SetType_tag_range a2 tp1) as (k1 & Hk1 & ->).
    destruct (SetType_tag_range a2 tp2) as (k2 & Hk2 & ->).
    rewrite !setFspTt_core by assumption. reflexivity.
  - intros tp c t H Hz. unfold ParseTime in H.
    destruct (parseTime_success _ _ _ _ _ _ H) as (fsp' & t0 & Hf & Hp & Ht & _).
    rewrite parseDatetime_steps in Hp.
    destruct (parseDatetimeUpTo_inv ctx str fsp')
      as [(c1 & tmp & hh & Hk) | (c1 & t1 & e & Hk)];
      [|rewrite Hk in Hp; discriminate].
    rewrite Hk, Hz in Hp. unfold zoneStep in Hp.
    destruct hh; cbn [negb] in Hp;
      [|destruct (Trace_some (TError_GenWithStack ErrWrongValue DateTimeStr [AStr str]))
          as [e' He']; rewrite He' in Hp; discriminate].
    cbv zeta in Hp.
    match type of Hp with
    | (if ?b then _ else _) = _ => destruct b
    end.
    { match type of Hp with
      | (_, _, errors.Trace (Some ?x)) = _ =>
          destruct (Trace_some x) as [e' He']; rewrite He' in Hp; discriminate
      end. }
    change (gotime.FixedZone _ _) with (zoneOf str) in Hp.
    destruct (CoreTime_GoTime tmp (zoneOf str)) as [t1 [e|]] eqn:Hg.
    { destruct (Trace_some e) as [e' He']; rewrite He' in Hp; discriminate. }
    inversion Hp; subst c1 t0. clear Hp.
    exists fsp', tmp, t1.
    split; [exact Hf|]. split; [unfold parseDatetimeWallClock; rewrite Hk; reflexivity|].
    split; [exact Hg|]. split; [|exact Ht].
    pose proof (GoTime_instant tmp (zoneOf str)) as Hi. rewrite Hg in Hi. exact Hi.
  - destruct ctx as [it tw [f1 f2 f3 f4 zeroInDate f6 f7 f8] ws].
    intros tp [->|[->| ->]]; destruct zeroInDate; repeat split; vm_compute; reflexivity.
Qed.

Lemma ParseTime_timezone_any_type_witness :
  exists tmp t1,
    parseDatetimeWallClock DefaultStmtNoWarningContext "2020-01-01 12:00:00-05:30" 0
    = (DefaultStmtNoWarningContext, NewTime tmp mysql.TypeDatetime 0, None) /\
    CoreTime_GoTime tmp (zoneOf "2020-01-01 12:00:00-05:30") = (t1, None) /\
    NewTime (FromDate 2020 1 1 17 30 0 0) mysql.TypeDatetime 0
    = SetType (NewTime (FromGoTime (gotime.In t1 gotime.UTC)) mysql.TypeDatetime 0)
        mysql.TypeDatetime.
Proof.
  destruct (ParseTime_timezone_any_type
              DefaultStmtNoWarningContext
              "2020-01-01 12:00:00-05:30" 0) as [_ [_ [H _]]].
  destruct (H mysql.TypeDatetime DefaultStmtNoWarningContext
              (NewTime (FromDate 2020 1 1 17 30 0 0) mysql.TypeDatetime 0))
    as (fsp' & tmp & t1 & Hf & Hw & Hg & _ & Ht).
  - vm_compute. reflexivity.
  - vm_compute. reflexivity.
  - assert (fsp' = 0) by (vm_compute in Hf; inversion Hf; reflexivity). subst fsp'.
    exists tmp, t1. split; [exact Hw|]. split; [exact Hg | exact Ht].
Defined.

(** C2, as stated, fails: with target type Datetime the suffix "+08:00"
    is neither absorbed nor ignored; noon becomes 04:00:00, where the
    literal without the suffix gives noon. *)
Lemma ParseTime_datetime_applies_timezone :
  let ctx := DefaultStmtNoWarningContext in
  sp_hasTZ (splitDateTime "2020-01-01 12:00:00+08:00") = true /\
  noAbsorb (sp_seps (splitDateTime "2020-01-01 12:00:00+08:00")) = true /\
  ParseTime ctx "2020-01-01 12:00:00+08:00" mysql.TypeDatetime 0
  = (ctx, NewTime (FromDate 2020 1 1 4 0 0 0) mysql.TypeDatetime 0, None) /\
  ParseTime ctx "2020-01-01 12:00:00" mysql.TypeDatetime 0
  = (ctx, NewTime (FromDate 2020 1 1 12 0 0 0) mysql.TypeDatetime 0, None) /\
  ParseTime ctx "2020-01-01 12:00:00+08:00" mysql.TypeDatetime 0
  <> ParseTime ctx "2020-01-01 12:00:00" mysql.TypeDatetime 0.
Proof.
  cbv zeta. repeat split; try (vm_compute; reflexivity).
  vm_compute. discriminate.
Qed.


(** ** Decimal numerals *)

Lemma pow10_len_cons (c : ascii) (s : string) :
  10 ^ len (String c s) = 10 * 10 ^ len s.
Proof.
  rewrite len_cons. pose proof (len_nonneg s).
  rewrite Z.pow_add_r by lia. reflexivity.
Qed.

Lemma digitsValue_acc (s : string) (acc : Z) :
  digitsValue acc s = acc * 10 ^ len s + digitsValue 0 s.
Proof.
  revert acc. induction s as [|c s IH]; intros acc.
  - cbn. lia.
  - cbn [digitsValue]. rewrite IH. rewrite (IH (0 * 10 + _)).
    rewrite pow10_len_cons. lia.
Qed.

Lemma digitsValue_cons (c : ascii) (s : string) :
  digitsValue 0 (String c s) = (byte c - 48) * 10 ^ len s + digitsValue 0 s.
Proof.
  cbn [digitsValue]. rewrite digitsValue_acc. change (byte "0") with 48. lia.
Qed.

Lemma digitsValue_bound (s : string) :
  allBytes isDigitByte s = true -> 0 <= digitsValue 0 s < 10 ^ len s.
Proof.
  induction s as [|c s IH]; intros H.
  - cbn. lia.
  - apply allBytes_cons in H. destruct H as [Hc Hs].
    pose proof (digit_byte_range c Hc). specialize (IH Hs).
    rewrite digitsValue_cons, pow10_len_cons. nia.
Qed.



Lemma digitsValue_app (a b : string) (acc : Z) :
  digitsValue acc (a ++ b)%string = digitsValue (digitsValue acc a) b.
Proof. revert acc. induction a as [|x a IH]; intros acc; cbn; [reflexivity|]. apply IH. Qed.

Lemma digit_char (k : Z) :
  0 <= k <= 9 ->
  byte (ascii_of_N (Z.to_N (byte "0" + k))) = 48 + k /\
  isDigitByte (ascii_of_N (Z.to_N (byte "0" + k))) = true.
Proof.
  intros H.
  assert (k = 0 \/ k = 1 \/ k = 2 \/ k = 3 \/ k = 4 \/ k = 5 \/ k = 6 \/ k = 7 \/ k = 8 \/ k = 9)
    as Hk by lia.
  repeat (destruct Hk as [->|Hk]; [split; reflexivity|]). subst. split; reflexivity.
Qed.

(** [formatDigits] writes the canonical numeral of [n] in front of what
    it was given: digits only, of value [n], with no leading zero unless
    [n] is 0. *)
Lemma formatDigits_spec (fuel : nat) (n : Z) (acc : string) :
  0 <= n < 10 ^ Z.of_nat fuel -> (0 < fuel)%nat ->
  exists ds,
    formatDigits fuel n acc = (ds ++ acc)%string /\
    allBytes isDigitByte ds = true /\
    digitsValue 0 ds = n /\
    0 < len ds /\
    (n <> 0 -> byte (byteAt ds 0) <> 48) /\
    (n = 0 -> ds = "0").
Proof.
  revert n acc. induction fuel as [|f IH]; intros n acc Hn Hf; [lia|].
  cbn [formatDigits].
  assert (Hm : 0 <= n mod 10 <= 9) by (pose proof (Z.mod_pos_bound n 10); lia).
  destruct (digit_char (n mod 10) Hm) as [Hb Hd].
  set (c := ascii_of_N (Z.to_N (byte "0" + n mod 10))) in *.
  destruct (Z.eqb_spec (n / 10) 0) as [Hq|Hq].
  - assert (Hsm : n = n mod 10).
    { pose proof (Z.div_mod n 10). lia. }
    exists (String c "").
    split; [reflexivity|split; [|split; [|split; [|split]]]].
    + cbn [allBytes]. rewrite Hd. reflexivity.
    + rewrite digitsValue_cons. cbn [digitsValue]. change (len "") with 0. lia.
    + rewrite len_cons. change (len "") with 0. lia.
    + intros Hnz. rewrite byteAt_0_cons. lia.
    + intros Hz. subst c. rewrite Hz. reflexivity.
  - assert (Hq' : 0 < n / 10).
    { pose proof (Z.div_pos n 10). lia. }
    assert (Hf' : (0 < f)%nat).
    { destruct f; [|lia]. cbn in Hn. pose proof (Z.div_lt_upper_bound n 10 1). lia. }
    assert (Hn' : 0 <= n / 10 < 10 ^ Z.of_nat f).
    { split; [lia|]. apply Z.div_lt_upper_bound; [lia|].
      replace (Z.of_nat (S f)) with (1 + Z.of_nat f) in Hn by lia.
      rewrite Z.pow_add_r in Hn by lia. lia. }
    destruct (IH (n / 10) (String c acc) Hn' Hf') as (ds & He & Ha & Hv & Hl & Hz & _).
    exists (ds ++ String c "")%string.
    split; [|split; [|split; [|split; [|split]]]].
    + rewrite He, append_assoc_str. reflexivity.
    + rewrite allBytes_app, Ha. cbn [allBytes]. rewrite Hd. reflexivity.
    + rewrite digitsValue_app, Hv. cbn [digitsValue]. change (byte "0") with 48.
      pose proof (Z.div_mod n 10). lia.
    + rewrite len_app. rewrite len_cons. change (len "") with 0. lia.
    + intros _. rewrite byteAt_0_app by exact Hl. apply Hz. lia.
    + intros Hz0. subst n. cbn in Hq. contradiction.
Qed.

Lemma FormatUint_spec (n : Z) :
  0 <= n <= MaxUint64 ->
  allBytes isDigitByte (FormatUint n) = true /\
  digitsValue 0 (FormatUint n) = n /\
  0 < len (FormatUint n) /\
  (n <> 0 -> byte (byteAt (FormatUint n) 0) <> 48) /\
  (n = 0 -> FormatUint n = "0").
Proof.
  intros Hn. unfold FormatUint.
  destruct (formatDigits_spec 20 n "") as (ds & He & H); [unfold MaxUint64 in Hn; lia|lia|].
  rewrite He, append_nil_r. exact H.
Qed.
















(** ** Worked literals

    The embedding evaluated on literals whose outcome the package's
    comments and the spec spell out. *)

Example ParseTime_microseconds :
  ParseTime DefaultStmtNoWarningContext "2020-01-01 12:00:00.123456" mysql.TypeDatetime 6
  = (DefaultStmtNoWarningContext,
     NewTime (FromDate 2020 1 1 12 0 0 123456) mysql.TypeDatetime 6, None).
Proof. vm_compute. reflexivity. Qed.

Example ParseTime_field_out_of_range :
  exists e,
    ParseTime DefaultStmtNoWarningContext "2020-10-10 25:61:61" mysql.TypeDatetime 0
    = (DefaultStmtNoWarningContext, NewTime ZeroCoreTime mysql.TypeDatetime 0, Some e).
Proof. eexists. vm_compute. reflexivity. Qed.

Example ParseTime_two_components :
  exists e,
    ParseTime DefaultStmtNoWarningContext "2020-10" mysql.TypeDatetime 0
    = (DefaultStmtNoWarningContext, NewTime ZeroCoreTime mysql.TypeDatetime 0, Some e).
Proof. eexists. vm_compute. reflexivity. Qed.

Example ParseTime_compact_digits :
  ParseTime DefaultStmtNoWarningContext "20200101120000" mysql.TypeDatetime 0
  = (DefaultStmtNoWarningContext,
     NewTime (FromDate 2020 1 1 12 0 0 0) mysql.TypeDatetime 0, None) /\
  ParseTime DefaultStmtNoWarningContext "690101" mysql.TypeDate 0
  = (DefaultStmtNoWarningContext, NewTime (FromDate 2069 1 1 0 0 0 0) mysql.TypeDate 0, None) /\
  ParseTime DefaultStmtNoWarningContext "700101" mysql.TypeDate 0
  = (DefaultStmtNoWarningContext, NewTime (FromDate 1970 1 1 0 0 0 0) mysql.TypeDate 0, None).
Proof. repeat split; vm_compute; reflexivity. Qed.

Example ParseTime_fraction_as_time_of_day :
  ParseTime DefaultStmtNoWarningContext "20170118.123423" mysql.TypeDatetime 6
  = (DefaultStmtNoWarningContext,
     NewTime (FromDate 2017 1 18 12 34 23 0) mysql.TypeDatetime 6, None).
Proof. vm_compute. reflexivity. Qed.

Example ParseTime_round_up_second :
  ParseTime DefaultStmtNoWarningContext "2017-01-05 08:40:59.575601" mysql.TypeDatetime 0
  = (DefaultStmtNoWarningContext,
     NewTime (FromDate 2017 1 5 8 41 0 0) mysql.TypeDatetime 0, None).
Proof. vm_compute. reflexivity. Qed.

Example ParseTime_timestamp_range :
  exists e,
    ParseTime DefaultStmtNoWarningContext "1969-12-31 23:59:59" mysql.TypeTimestamp 0
    = (DefaultStmtNoWarningContext, NewTime ZeroCoreTime mysql.TypeTimestamp 0, Some e).
Proof. eexists. vm_compute. reflexivity. Qed.

Example ParseDuration_plain (Local : gotime.Location) :
  ParseDuration Local DefaultStmtNoWarningContext "10:10:10" 0
  = (DefaultStmtNoWarningContext, NewDuration 10 10 10 0 0, false, None) /\
  ParseDuration Local DefaultStmtNoWarningContext "1 10:10:10" 3
  = (DefaultStmtNoWarningContext, NewDuration 34 10 10 0 3, false, None) /\
  ParseDuration Local DefaultStmtNoWarningContext "101010" 0
  = (DefaultStmtNoWarningContext, NewDuration 10 10 10 0 0, false, None).
Proof. repeat split; vm_compute; reflexivity. Qed.

Example gotime_unix_epoch :
  gotime.instant (gotime.Date 1970 1 1 0 0 0 0 gotime.UTC) = 62135596800 * 1000000000 /\
  gotime.dateOf (gotime.Date 0 0 0 0 0 0 0 gotime.UTC) = (-1, 11, 30) /\
  gotime.dateOf (gotime.Date 2023 2 29 0 0 0 0 gotime.UTC) = (2023, 3, 1) /\
  gotime.dateOf (gotime.Date 2024 2 29 0 0 0 0 gotime.UTC) = (2024, 2, 29).
Proof. repeat split; vm_compute; reflexivity. Qed.

Example Duration_RoundFrac_half_up (Local : gotime.Location) :
  Duration_RoundFrac Local (mkDuration 36610999999000 6) 0 (Some gotime.UTC)
  = (mkDuration 36611000000000 0, None) /\
  Duration_RoundFrac Local (mkDuration 36610499999000 6) 0
    (Some (gotime.FixedZone "CST" 28800))
  = (mkDuration 36610000000000 0, None) /\
  Duration_RoundFrac Local (mkDuration (-36610500000000) 6) 0 (Some gotime.UTC)
  = (mkDuration (-36610000000000) 0, None).
Proof. repeat split; vm_compute; reflexivity. Qed.

(** * The rest of the value layer: properties *)

(** ** Parser helpers *)

Lemma span_spec (p : ascii -> bool) (s a b : string) :
  span p s = (a, b) ->
  s = (a ++ b)%string /\ allBytes p a = true /\
  match b with
  | EmptyString => True
  | String c _ => p c = false
  end.
Proof.
  revert a b. induction s as [|c r IH]; intros a b H; cbn in H.
  - inversion H; subst. cbn. auto.
  - destruct (p c) eqn:Hp.
    + destruct (span p r) as [a' b'] eqn:Hs. inversion H; subst.
      destruct (IH a' b eq_refl) as (E & A & B).
      cbn. rewrite Hp, A. repeat split; [congruence | exact B].
    + inversion H; subst. cbn. rewrite Hp. auto.
Qed.

Lemma span_app (p : ascii -> bool) (a b : string) :
  allBytes p a = true ->
  match b with
  | EmptyString => True
  | String c _ => p c = false
  end ->
  span p (a ++ b) = (a, b).
Proof.
  induction a as [|c r IH]; cbn; intros A B.
  - destruct b as [|d b']; [reflexivity|]. cbn. rewrite B. reflexivity.
  - apply andb_prop in A. destruct A as [Hc Hr]. rewrite Hc, (IH Hr B). reflexivity.
Qed.

Lemma len_pos_cons (s : string) : 0 < len s -> exists c r, s = String c r.
Proof. destruct s as [|c r]; [cbn; lia | eauto]. Qed.

Lemma len_zero_eqb (s : string) : (len s =? 0) = (String.length s =? 0)%nat.
Proof. destruct s; reflexivity. Qed.

Lemma ParseInt_digits (ds : string) :
  allBytes isDigitByte ds = true -> 0 < len ds ->
  ParseInt ds =
    if digitsValue 0 ds >? MaxInt64
    then (MaxInt64,
          Some (FmtError "strconv.ParseInt: parsing %q: value out of range" [AStr ds]))
    else (digitsValue 0 ds, None).
Proof.
  intros A L. destruct (len_pos_cons ds L) as (c & r & ->).
  pose proof A as A'. cbn in A'. apply andb_prop in A'. destruct A' as [Hc _].
  unfold ParseInt.
  rewrite (digit_not_byte c "-"), (digit_not_byte c "+") by (assumption || (vm_compute; intuition discriminate)).
  rewrite A. cbn [String.length Nat.eqb negb andb].
  reflexivity.
Qed.

Lemma allBytes_len_pos_app (a b : string) : 0 < len a -> (len (a ++ b) =? 0) = false.
Proof. intros H. rewrite len_app. pose proof (len_nonneg b). apply Z.eqb_neq. lia. Qed.

(** X1. [Number] reads the longest run of leading digits: on a string
    that starts with the digits [ds] followed by [rest] (which does not
    start with a digit) it answers the decimal value of [ds] and leaves
    [rest]; a run whose value does not fit an [int] answers the largest
    [int] with the range error of [strconv.Atoi], still consuming the
    run.  A string that does not start with a digit is left whole, with
    the number 0 and an error. *)
Theorem Number_longest_digit_run (ds rest : string) :
  allBytes isDigitByte ds = true ->
  startsWithout isDigitByte rest ->
  Number (ds ++ rest) =
    if len ds =? 0 then (0, rest, Some (FmtError "no number found" []))
    else if digitsValue 0 ds >? MaxInt64
    then (MaxInt64, rest,
          Some (FmtError "strconv.Atoi: parsing %q: value out of range" [AStr ds]))
    else (digitsValue 0 ds, rest, None).
Proof.
  intros A B. unfold Number.
  destruct (Z.eqb_spec (len ds) 0) as [E|E].
  - destruct ds; [|cbn in E; lia]. cbn [append].
    destruct rest as [|c r]; [reflexivity|].
    cbn in B. change (len (String c r) =? 0) with false. cbv iota.
    cbn [span]. rewrite B. reflexivity.
  - pose proof (len_nonneg ds).
    rewrite allBytes_len_pos_app by lia.
    rewrite (span_app isDigitByte ds rest A B).
    destruct (Z.eqb_spec (len ds) 0); [lia|].
    unfold Atoi. rewrite ParseInt_digits by (assumption || lia).
    destruct (digitsValue 0 ds >? MaxInt64); reflexivity.
Qed.

Lemma Number_longest_digit_run_witness :
  Number "838:59" = (838, ":59", None) /\ Number ":59" = (0, ":59", Some (FmtError "no number found" [])).
Proof.
  split.
  - exact (Number_longest_digit_run "838" ":59" eq_refl eq_refl).
  - exact (Number_longest_digit_run "" ":59" eq_refl eq_refl).
Defined.

Lemma slice_0_app (a b : string) : slice (a ++ b) 0 (len a) = a.
Proof.
  unfold slice, len. rewrite Z.sub_0_r, Nat2Z.id. change (Z.to_nat 0) with 0%nat.
  apply substring_app_prefix.
Qed.

Lemma sliceFrom_app (a b : string) : sliceFrom (a ++ b) (len a) = b.
Proof.
  unfold sliceFrom, slice. rewrite len_app. unfold len. rewrite Nat2Z.id.
  replace (Z.to_nat (Z.of_nat (String.length a) + Z.of_nat (String.length b) - Z.of_nat (String.length a))) with (String.length b) by lia.
  rewrite substring_app_skip. apply substring_all.
Qed.

Lemma slice_split (s : string) (n : Z) :
  0 <= n <= len s -> s = (slice s 0 n ++ sliceFrom s n)%string /\ len (slice s 0 n) = n.
Proof.
  unfold len. revert n. induction s as [|c r IH]; intros n Hn.
  - cbn in Hn. assert (n = 0) by lia. subst. split; reflexivity.
  - destruct (Z.eq_dec n 0) as [->|Hz].
    + split; [|reflexivity]. unfold sliceFrom, slice. cbn [Z.to_nat Z.sub].
      change (Z.to_nat (0 - 0)) with 0%nat. rewrite substring_0_0. cbn [append].
      unfold len. rewrite Z.sub_0_r, Nat2Z.id. symmetry. apply substring_all.
    + cbn [String.length] in Hn. rewrite Nat2Z.inj_succ in Hn.
      destruct (IH (n - 1) ltac:(lia)) as [E L].
      unfold sliceFrom, slice, len in *. rewrite Z.sub_0_r in *.
      replace (Z.to_nat n) with (S (Z.to_nat (n - 1))) by lia.
      change (Z.to_nat 0) with 0%nat in *. cbn [String.substring String.length append].
      replace (Z.to_nat (Z.of_nat (S (String.length r)) - n))
        with (Z.to_nat (Z.of_nat (String.length r) - (n - 1))) by lia.
      split; [f_equal; exact E | rewrite Nat2Z.inj_succ; lia].
Qed.

(** X2. [Digit(s, n)] succeeds exactly when [s] has at least [n] bytes
    and its first [n] bytes are all digits; it then splits [s] at [n]:
    the two parts concatenate to [s] and the first has [n] bytes.  On
    failure nothing is consumed. *)
Theorem Digit_splits_at_n (s : string) (n : Z) :
  0 <= n ->
  let '(ds, rest, err) := Digit s n in
  (err = None <-> n <= len s /\ allBytes isDigitByte (slice s 0 n) = true) /\
  (err = None -> s = (ds ++ rest)%string /\ len ds = n /\ allBytes isDigitByte ds = true) /\
  (err <> None -> ds = "" /\ rest = s).
Proof.
  intros Hn. unfold Digit.
  destruct (Z.ltb_spec (len s) n) as [L|L].
  - split; [split; [discriminate | intros [H _]; lia] |].
    split; [discriminate | auto].
  - destruct (allBytes isDigitByte (slice s 0 n)) eqn:A; cbn [negb].
    + destruct (slice_split s n ltac:(lia)) as [E Ln].
      split; [split; auto |]. split; [auto | congruence].
    + split; [split; [discriminate | intros [_ H]; discriminate] |].
      split; [discriminate | auto].
Qed.

Lemma Digit_splits_at_n_witness :
  let '(ds, rest, err) := Digit "59.5" 2 in
  (err = None <-> 2 <= len "59.5" /\ allBytes isDigitByte (slice "59.5" 0 2) = true) /\
  (err = None -> "59.5" = (ds ++ rest)%string /\ len ds = 2 /\ allBytes isDigitByte ds = true) /\
  (err <> None -> ds = "" /\ rest = "59.5").
Proof. apply (Digit_splits_at_n "59.5" 2). lia. Defined.

Lemma allBytes_space_repeat (sp : string) :
  allBytes isSpace32 sp = true -> sp = string_of_list_ascii (List.repeat " "%char (String.length sp)).
Proof.
  induction sp as [|c r IH]; cbn; [reflexivity|]. intros H.
  apply andb_prop in H. destruct H as [Hc Hr].
  unfold isSpace32 in Hc. apply Ascii.eqb_eq in Hc. subst c. f_equal. auto.
Qed.

(** X3. [Space0] drops exactly the leading blanks (byte 32): the input is
    a run of blanks followed by the result, the result does not start
    with a blank, and applying [Space0] again changes nothing.
    [Space(s, min)] answers the same rest when the run has at least
    [min] blanks, and consumes nothing but fails when it is shorter. *)
Theorem Space0_strips_leading_blanks (s : string) (min : Z) :
  exists sp,
    s = (sp ++ Space0 s)%string /\
    sp = string_of_list_ascii (List.repeat " "%char (String.length sp)) /\
    startsWithout isSpace32 (Space0 s) /\
    Space0 (Space0 s) = Space0 s /\
    (min <= len sp -> Space s min = (Space0 s, None)) /\
    (len sp < min -> exists e, Space s min = ("", Some e)).
Proof.
  unfold Space0, Space. destruct (span isSpace32 s) as [sp rest] eqn:Hs.
  destruct (span_spec _ _ _ _ Hs) as (E & A & B). cbn [snd].
  exists sp. split; [exact E|]. split; [apply allBytes_space_repeat; exact A|].
  split; [exact B|]. split.
  - change rest with ("" ++ rest)%string at 1.
    rewrite (span_app isSpace32 "" rest eq_refl B). reflexivity.
  - split; intros H.
    + destruct (Z.ltb_spec (len sp) min); [lia|reflexivity].
    + destruct (Z.ltb_spec (len sp) min); [eauto|lia].
Qed.

(** ** Rounding a numeral in place *)

Lemma sol_app (a b : list ascii) :
  string_of_list_ascii (a ++ b) = (string_of_list_ascii a ++ string_of_list_ascii b)%string.
Proof. induction a as [|c a IH]; cbn; [reflexivity|]. rewrite IH. reflexivity. Qed.

Lemma allBytes_sol (p : ascii -> bool) (l : list ascii) :
  allBytes p (string_of_list_ascii l) = forallb p l.
Proof. induction l as [|c l IH]; cbn; [reflexivity|]. rewrite IH. reflexivity. Qed.

Lemma allBytes_los (p : ascii -> bool) (s : string) :
  forallb p (list_ascii_of_string s) = allBytes p s.
Proof. induction s as [|c s IH]; cbn; [reflexivity|]. rewrite IH. reflexivity. Qed.

Lemma len_sol (l : list ascii) : len (string_of_list_ascii l) = Z.of_nat (List.length l).
Proof.
  induction l as [|c l IH]; [reflexivity|].
  cbn [string_of_list_ascii List.length]. rewrite len_cons, IH. lia.
Qed.

Lemma forallb_rev (p : ascii -> bool) (l : list ascii) : forallb p (rev l) = forallb p l.
Proof.
  induction l as [|c l IH]; cbn; [reflexivity|].
  rewrite forallb_app, IH. cbn. rewrite andb_true_r. apply andb_comm.
Qed.

Lemma byte_range (c : ascii) : 0 <= byte c < 256.
Proof.
  unfold byte. pose proof (N_ascii_bounded c). lia.
Qed.

Lemma byte_inj (c d : ascii) : byte c = byte d -> c = d.
Proof.
  unfold byte. intros H. apply N2Z.inj in H.
  rewrite <- (ascii_N_embedding c), <- (ascii_N_embedding d). congruence.
Qed.

Lemma byte_ascii_of (k : Z) : 0 <= k < 256 -> byte (ascii_of_N (Z.to_N k)) = k.
Proof.
  intros H. unfold byte. rewrite N_ascii_embedding by lia. lia.
Qed.

Lemma incByte_digit (c : ascii) :
  isDigitByte c = true -> Ascii.eqb c "9" = false ->
  byte (incByte c) = byte c + 1 /\ isDigitByte (incByte c) = true.
Proof.
  intros Hd H9. pose proof (digit_byte_range c Hd) as R.
  assert (byte c <> 57).
  { intros E. apply Ascii.eqb_neq in H9. apply H9. apply byte_inj. exact E. }
  unfold incByte. rewrite Z.mod_small by lia.
  assert (E : byte (ascii_of_N (Z.to_N (byte c + 1))) = byte c + 1)
    by (apply byte_ascii_of; lia).
  split; [exact E|].
  unfold isDigitByte. rewrite E. change (byte "0") with 48. change (byte "9") with 57.
  apply andb_true_iff. split; apply Z.leb_le; lia.
Qed.

(** Value of a numeral given last digit first. *)
Lemma revValue_cons (c : ascii) (r : list ascii) :
  digitsValue 0 (string_of_list_ascii (rev (c :: r)))
  = digitsValue 0 (string_of_list_ascii (rev r)) * 10 + (byte c - 48).
Proof.
  cbn [rev]. rewrite sol_app, digitsValue_app. reflexivity.
Qed.

Lemma roundCarry_spec (l : list ascii) :
  forallb isDigitByte l = true ->
  let '(l', ran) := roundCarry l in
  List.length l' = List.length l /\ forallb isDigitByte l' = true /\
  if ran
  then digitsValue 0 (string_of_list_ascii (rev l')) = 0 /\
       digitsValue 0 (string_of_list_ascii (rev l)) = 10 ^ Z.of_nat (List.length l) - 1
  else digitsValue 0 (string_of_list_ascii (rev l'))
       = digitsValue 0 (string_of_list_ascii (rev l)) + 1.
Proof.
  induction l as [|c r IH]; intros H.
  - cbn. auto.
  - cbn [forallb] in H. apply andb_prop in H. destruct H as [Hc Hr].
    cbn [roundCarry]. destruct (Ascii.eqb c "9") eqn:E9; cbn [negb].
    + specialize (IH Hr). destruct (roundCarry r) as [r' ran].
      destruct IH as (L & D & V).
      apply Ascii.eqb_eq in E9. subst c.
      split; [cbn; lia|]. split; [cbn; exact D|].
      destruct ran.
      * destruct V as [V0 V9]. rewrite !revValue_cons, V0, V9.
        change (byte "0") with 48. change (byte "9") with 57.
        cbn [List.length]. rewrite Nat2Z.inj_succ, Z.pow_succ_r by lia.
        generalize (10 ^ Z.of_nat (List.length r)). intros. lia.
      * rewrite !revValue_cons, V. change (byte "0") with 48. change (byte "9") with 57. lia.
    + destruct (incByte_digit c Hc E9) as [B D].
      split; [reflexivity|]. split; [cbn; rewrite D; exact Hr|].
      rewrite !revValue_cons, B. lia.
Qed.

Lemma roundCarry_snoc (l : list ascii) (d : ascii) :
  roundCarry (l ++ [d]) =
    let '(l', ran) := roundCarry l in
    if ran then
      if negb (Ascii.eqb d "9") then (l' ++ [incByte d], false) else (l' ++ ["0"%char], true)
    else (l' ++ [d], false).
Proof.
  induction l as [|c r IH].
  - cbn. destruct (Ascii.eqb d "9"); reflexivity.
  - cbn [app roundCarry]. destruct (Ascii.eqb c "9"); cbn [negb].
    + rewrite IH. destruct (roundCarry r) as [r' ran].
      destruct ran; [destruct (Ascii.eqb d "9")|]; reflexivity.
    + reflexivity.
Qed.

Lemma sol_los (s : string) : string_of_list_ascii (list_ascii_of_string s) = s.
Proof. apply string_of_list_ascii_of_string. Qed.

Lemma len_los (s : string) : Z.of_nat (List.length (list_ascii_of_string s)) = len s.
Proof.
  unfold len. induction s as [|c s IH]; [reflexivity|].
  cbn [list_ascii_of_string List.length String.length]. lia.
Qed.

Lemma isDigit_9 (c : ascii) : Ascii.eqb c "9" = true -> isDigitByte c = true.
Proof. intros H. apply Ascii.eqb_eq in H. subst. reflexivity. Qed.

Lemma roundIntStr_carry_spec (c : ascii) (ds : string) :
  allBytes isDigitByte ds = true -> 0 < len ds ->
  exists r,
    roundIntStr c ds = Some r /\
    allBytes isDigitByte r = true /\
    digitsValue 0 r = digitsValue 0 ds + (if byte c <? byte "5" then 0 else 1) /\
    (len r = len ds \/ len r = len ds + 1) /\
    forall sign, isDigitByte sign = false ->
      roundIntStr c (String sign ds) = Some (String sign r).
Proof.
  intros A L. destruct (len_pos_cons ds L) as (c0 & t & ->).
  unfold roundIntStr.
  destruct (byte c <? byte "5") eqn:Hc.
  { exists (String c0 t). rewrite Z.add_0_r. auto 6. }
  cbn [list_ascii_of_string].
  pose proof A as A'. apply allBytes_cons in A'. destruct A' as [H0 Ht].
  pose proof (roundCarry_spec (rev (list_ascii_of_string t))) as S.
  rewrite forallb_rev, allBytes_los in S. specialize (S Ht).
  pose proof (roundCarry_snoc (rev (list_ascii_of_string t)) c0) as Sn.
  destruct (roundCarry (rev (list_ascii_of_string t))) as [l' ran] eqn:R.
  destruct S as (Ll & Dl & V).
  rewrite length_rev in Ll. rewrite rev_involutive, sol_los in V.
  assert (Lt : len (string_of_list_ascii (rev l')) = len t).
  { rewrite len_sol, length_rev, Ll. apply len_los. }
  assert (Dr : allBytes isDigitByte (string_of_list_ascii (rev l')) = true)
    by (rewrite allBytes_sol, forallb_rev; exact Dl).
  assert (Hsign : forall sign, isDigitByte sign = false -> Ascii.eqb sign "9" = false).
  { intros sign Hs. destruct (Ascii.eqb sign "9") eqn:E; [|reflexivity].
    rewrite (isDigit_9 _ E) in Hs. discriminate. }
  destruct ran; cbn [negb].
  - destruct V as [V0 V9].
    destruct (Ascii.eqb c0 "9") eqn:E9.
    + exists (string_of_list_ascii (("1"%char :: rev l') ++ ["0"%char])).
      split; [reflexivity|].
      apply Ascii.eqb_eq in E9. subst c0.
      split; [|split; [|split]].
      * rewrite allBytes_sol. cbn [app forallb]. rewrite forallb_app, forallb_rev, Dl. reflexivity.
      * change (("1"%char :: rev l') ++ ["0"%char]) with (("1"%char :: rev l') ++ ["0"%char]).
        cbn [app string_of_list_ascii]. rewrite sol_app.
        rewrite digitsValue_cons, len_app, digitsValue_app, digitsValue_cons, V0, V9, Lt.
        cbn [string_of_list_ascii digitsValue]. change (len "0") with 1.
        change (byte "1") with 49. change (byte "9") with 57. change (byte "0") with 48.
        pose proof (len_nonneg t). rewrite Z.pow_add_r by lia.
        rewrite length_rev, len_los.
        generalize (10 ^ len t). intros. lia.
      * right. cbn [app string_of_list_ascii]. rewrite !len_cons, sol_app, len_app, Lt.
        change (len (string_of_list_ascii ["0"%char])) with 1. lia.
      * intros sign Hs. cbn [list_ascii_of_string rev]. rewrite Sn.
        cbn [negb Ascii.eqb]. change (Ascii.eqb "9" "9") with true. cbn [negb].
        rewrite (Hsign sign Hs). unfold isDigit. rewrite Hs.
        rewrite rev_app_distr. cbn [rev app]. reflexivity.
    + exists (string_of_list_ascii (incByte c0 :: rev l')).
      unfold isDigit. rewrite H0. split; [reflexivity|].
      destruct (incByte_digit c0 H0 E9) as [B D].
      split; [|split; [|split]].
      * cbn [string_of_list_ascii allBytes]. rewrite D, Dr. reflexivity.
      * cbn [string_of_list_ascii]. rewrite !digitsValue_cons, B, V0, Lt.
        rewrite V9, length_rev, len_los.
        generalize (10 ^ len t). intros. lia.
      * left. cbn [string_of_list_ascii]. rewrite !len_cons, Lt. reflexivity.
      * intros sign Hs. cbn [list_ascii_of_string rev]. rewrite Sn.
        cbn [negb]. rewrite rev_app_distr. reflexivity.
  - exists (string_of_list_ascii (c0 :: rev l')). split; [reflexivity|].
    split; [|split; [|split]].
    + cbn [string_of_list_ascii allBytes]. rewrite H0, Dr. reflexivity.
    + cbn [string_of_list_ascii]. rewrite !digitsValue_cons, V, Lt. lia.
    + left. cbn [string_of_list_ascii]. rewrite !len_cons, Lt. reflexivity.
    + intros sign Hs. cbn [list_ascii_of_string rev]. rewrite Sn.
      cbn [negb]. rewrite rev_app_distr. reflexivity.
Qed.

(** X4. [roundIntStr] adds one to a numeral when the digit after the
    point is 5 or more, and leaves it alone otherwise: on a non-empty
    string of digits the result is again a string of digits, and its
    value is the value of the input plus the carry.  A sign (any byte
    that is not a digit) in front is kept in front of the rounded
    digits, also when the carry adds a digit. *)
Theorem roundIntStr_adds_carry (c : ascii) (ds : string) :
  allBytes isDigitByte ds = true -> 0 < len ds ->
  exists r,
    roundIntStr c ds = Some r /\
    allBytes isDigitByte r = true /\
    digitsValue 0 r = digitsValue 0 ds + (if byte c <? byte "5" then 0 else 1) /\
    (len r = len ds \/ len r = len ds + 1) /\
    forall sign, isDigitByte sign = false ->
      roundIntStr c (String sign ds) = Some (String sign r).
Proof. exact (roundIntStr_carry_spec c ds). Qed.

Lemma roundIntStr_adds_carry_witness :
  exists r,
    roundIntStr "5" "1999" = Some r /\
    allBytes isDigitByte r = true /\
    digitsValue 0 r = digitsValue 0 "1999" + (if byte "5" <? byte "5" then 0 else 1) /\
    (len r = len "1999" \/ len r = len "1999" + 1) /\
    forall sign, isDigitByte sign = false ->
      roundIntStr "5" (String sign "1999") = Some (String sign r).
Proof. apply (roundIntStr_adds_carry "5" "1999"); [reflexivity | reflexivity]. Defined.

(** ** Decimal literals read as integers *)

Lemma lastIndexFrom_none (p : ascii -> bool) (s : string) (i acc : Z) :
  allBytes (fun c => negb (p c)) s = true -> lastIndexFrom p s i acc = acc.
Proof.
  revert i acc. induction s as [|c r IH]; intros i acc H; [reflexivity|].
  cbn in H. apply andb_prop in H. destruct H as [Hc Hr].
  cbn [lastIndexFrom]. apply negb_true_iff in Hc. rewrite Hc. apply IH. exact Hr.
Qed.

Lemma lastIndexFrom_app (p : ascii -> bool) (a b : string) (i acc : Z) :
  lastIndexFrom p (a ++ b) i acc = lastIndexFrom p b (i + len a) (lastIndexFrom p a i acc).
Proof.
  revert i acc. induction a as [|c r IH]; intros i acc.
  - cbn [append lastIndexFrom]. change (len "") with 0. rewrite Z.add_0_r. reflexivity.
  - cbn [append lastIndexFrom]. rewrite IH, len_cons. f_equal. lia.
Qed.

Lemma digits_not (p : ascii -> bool) (s : string) :
  (forall c, isDigitByte c = true -> p c = false) ->
  allBytes isDigitByte s = true -> allBytes (fun c => negb (p c)) s = true.
Proof.
  intros Hp. apply allBytes_weaken. intros c Hc. rewrite (Hp c Hc). reflexivity.
Qed.

Lemma digit_not_dot (c : ascii) : isDigitByte c = true -> isDot c = false.
Proof. intros H. apply digit_not_byte; [exact H | vm_compute; intuition discriminate]. Qed.

Lemma digit_not_exp (c : ascii) : isDigitByte c = true -> isExpMark c = false.
Proof.
  intros H. unfold isExpMark.
  rewrite !(digit_not_byte c) by (assumption || (vm_compute; intuition discriminate)).
  reflexivity.
Qed.

Lemma digit_not_sign (c : ascii) : isDigitByte c = true -> isSign c = false.
Proof.
  intros H. unfold isSign.
  rewrite !(digit_not_byte c) by (assumption || (vm_compute; intuition discriminate)).
  reflexivity.
Qed.

(** The carry a fraction gives: 1 when its first digit is 5 or more. *)
Lemma carry_cases (b : string) :
  allBytes isDigitByte b = true ->
  (len b >? 0) = negb (String.eqb b "").
Proof.
  destruct b as [|c r]; [reflexivity|]. intros _. rewrite len_cons.
  pose proof (len_nonneg r). cbn [String.eqb negb].
  destruct (Z.gtb_spec (1 + len r) 0); [reflexivity|lia].
Qed.

Lemma nonzero_numeral (r : string) :
  0 < len r ->
  match r with
  | EmptyString => false
  | String c0 _ => (len r >? 1) || negb (Ascii.eqb c0 "0")
  end = negb (String.eqb r "0").
Proof.
  destruct r as [|c0 [|c1 t]]; intros L.
  - cbn in L. lia.
  - cbn. destruct (Ascii.eqb c0 "0"); reflexivity.
  - rewrite !len_cons. pose proof (len_nonneg t).
    destruct (Z.gtb_spec (1 + (1 + len t)) 1); [|lia].
    cbn [orb String.eqb]. destruct (Ascii.eqb c0 "0"); reflexivity.
Qed.

Lemma sliceChecked_prefix (a b : string) :
  sliceChecked (a ++ b) 0 (len a) = Some a.
Proof.
  unfold sliceChecked. rewrite len_app. pose proof (len_nonneg a). pose proof (len_nonneg b).
  replace (0 <=? 0) with true by reflexivity.
  destruct (Z.leb_spec 0 (len a)); [|lia].
  destruct (Z.leb_spec (len a) (len a + len b)); [|lia].
  cbn [andb]. rewrite slice_0_app. reflexivity.
Qed.

Lemma byteAt_app_skip (a : string) (c : ascii) (b : string) :
  byteAt (a ++ String c b) (len a) = c.
Proof.
  unfold byteAt, len. rewrite Nat2Z.id.
  induction a as [|x a IH]; cbn; [reflexivity|]. exact IH.
Qed.

Lemma decimal_indices (sg a b : string) :
  signPrefix sg -> allBytes isDigitByte a = true -> allBytes isDigitByte b = true ->
  lastIndexFrom isDot (sg ++ a ++ String "." b) 0 (-1) = len sg + len a /\
  lastIndexFrom isExpMark (sg ++ a ++ String "." b) 0 (-1) = -1.
Proof.
  intros Hsg A B. split.
  - rewrite !lastIndexFrom_app. cbn [lastIndexFrom].
    change (isDot ".") with true. cbv iota.
    rewrite (lastIndexFrom_none isDot b) by (apply digits_not; [apply digit_not_dot|exact B]).
    lia.
  - apply lastIndexFrom_none. rewrite !allBytes_app.
    rewrite (digits_not isExpMark a digit_not_exp A).
    cbn [allBytes]. rewrite (digits_not isExpMark b digit_not_exp B).
    destruct Hsg as [-> | [-> | ->]]; reflexivity.
Qed.

Lemma decimal_core (a b : string) :
  allBytes isDigitByte a = true -> allBytes isDigitByte b = true ->
  exists r,
    match
      (if len a =? 0 then Some "0" else sliceChecked (a ++ String "." b) 0 (len a))
    with
    | None => None
    | Some intStr =>
        if len (a ++ String "." b) >? len a + 1
        then roundIntStr (byteAt (a ++ String "." b) (len a + 1)) intStr
        else Some intStr
    end = Some r /\
    0 < len r /\ allBytes isDigitByte r = true /\
    digitsValue 0 r = digitsValue 0 a + fractionCarry b.
Proof.
  intros A B.
  set (a0 := if len a =? 0 then "0" else a).
  assert (E0 : (if len a =? 0 then Some "0" else sliceChecked (a ++ String "." b) 0 (len a))
               = Some a0).
  { unfold a0. destruct (len a =? 0); [reflexivity|]. apply sliceChecked_prefix. }
  assert (A0 : allBytes isDigitByte a0 = true /\ 0 < len a0 /\
               digitsValue 0 a0 = digitsValue 0 a).
  { unfold a0. destruct (Z.eqb_spec (len a) 0) as [E|E].
    - destruct a as [|x a']; [|rewrite len_cons in E; pose proof (len_nonneg a'); lia].
      repeat split.
    - pose proof (len_nonneg a). repeat split; [exact A | lia]. }
  destruct A0 as (Ad & Al & Av).
  rewrite E0. rewrite len_app, len_cons.
  destruct b as [|c b'].
  - change (len "") with 0. destruct (Z.gtb_spec (len a + (1 + 0)) (len a + 1)); [lia|].
    exists a0. cbn [fractionCarry]. rewrite Z.add_0_r. auto.
  - rewrite len_cons. pose proof (len_nonneg b').
    destruct (Z.gtb_spec (len a + (1 + (1 + len b'))) (len a + 1)); [|lia].
    replace (a ++ String "." (String c b'))%string with ((a ++ ".") ++ String c b')%string
      by (rewrite append_assoc_str; reflexivity).
    replace (len a + 1) with (len (a ++ ".")) by (rewrite len_app; reflexivity).
    rewrite byteAt_app_skip.
    destruct (roundIntStr_carry_spec c a0 Ad Al) as (r & Hr & Dr & Vr & Lr & _).
    exists r. split; [exact Hr|]. split; [lia|]. split; [exact Dr|].
    rewrite Vr, Av. reflexivity.
Qed.

Lemma floatStrToIntStr_decimal_spec (sg a b ori : string) :
  signPrefix sg -> allBytes isDigitByte a = true -> allBytes isDigitByte b = true ->
  exists r,
    floatStrToIntStr (sg ++ a ++ String "." b) ori
    = Some (if String.eqb sg "-" && negb (String.eqb r "0") then ("-" ++ r)%string else r,
            None) /\
    0 < len r /\ allBytes isDigitByte r = true /\
    digitsValue 0 r = digitsValue 0 a + fractionCarry b.
Proof.
  intros Hsg A B.
  destruct (decimal_indices sg a b Hsg A B) as [Hdot He].
  destruct (decimal_core a b A B) as (r & Hr & Lr & Dr & Vr).
  exists r. split; [|auto].
  unfold floatStrToIntStr. rewrite Hdot, He.
  pose proof (len_nonneg sg). pose proof (len_nonneg a).
  change (-1 =? -1) with true. cbv iota.
  destruct (Z.eqb_spec (len sg + len a) (-1)); [lia|].
  assert (Hfirst : isSign (byteAt (sg ++ a ++ String "." b) 0) = negb (String.eqb sg "")
                   /\ Ascii.eqb (byteAt (sg ++ a ++ String "." b) 0) "-" = String.eqb sg "-"
                   /\ (if negb (String.eqb sg "") then sliceFrom (sg ++ a ++ String "." b) 1
                       else (sg ++ a ++ String "." b)%string) = (a ++ String "." b)%string
                   /\ (if negb (String.eqb sg "") then len sg + len a - 1 else len sg + len a)
                      = len a).
  { destruct Hsg as [-> | [-> | ->]].
    - cbn [append String.eqb negb]. change (len "") with 0.
      split; [|split; [|split; [reflexivity|lia]]].
      + destruct a as [|c0 t]; [reflexivity|]. cbn [append]. rewrite byteAt_0_cons.
        apply allBytes_cons in A. apply digit_not_sign. tauto.
      + destruct a as [|c0 t]; [reflexivity|]. cbn [append]. rewrite byteAt_0_cons.
        apply allBytes_cons in A. apply digit_not_byte; [tauto | vm_compute; intuition discriminate].
    - cbn [append String.eqb negb]. rewrite byteAt_0_cons. change (len "-") with 1.
      split; [reflexivity|]. split; [reflexivity|]. split; [|lia].
      change (String "-" (a ++ String "." b)) with ("-" ++ (a ++ String "." b))%string.
      change 1 with (len "-"). apply sliceFrom_app.
    - cbn [append String.eqb negb]. rewrite byteAt_0_cons. change (len "+") with 1.
      split; [reflexivity|]. split; [reflexivity|]. split; [|lia].
      change (String "+" (a ++ String "." b)) with ("+" ++ (a ++ String "." b))%string.
      change 1 with (len "+"). apply sliceFrom_app. }
  destruct Hfirst as (Hs & Hm & Hd & Hi).
  rewrite Hs, Hm, Hd, Hi. rewrite Hr.
  pose proof (nonzero_numeral r Lr) as Hnz.
  destruct r as [|c0 t]; [cbn in Lr; lia|].
  rewrite Hnz. rewrite andb_comm.
  destruct (String.eqb sg "-" && negb (String.eqb (String c0 t) "0")); reflexivity.
Qed.

(** X5. On a plain decimal (an optional sign, digits, a point, digits)
    [floatStrToIntStr] rounds half away from zero on the first digit of
    the fraction: the digits it answers have the value of the integer
    part plus the carry of the fraction, a missing integer part counts as
    0, a minus sign is put back unless the result is "0", and a plus sign
    is dropped.  There is no error and no panic. *)
Theorem floatStrToIntStr_rounds_decimal (sg a b ori : string) :
  signPrefix sg -> allBytes isDigitByte a = true -> allBytes isDigitByte b = true ->
  exists r,
    floatStrToIntStr (sg ++ a ++ String "." b) ori
    = Some (if String.eqb sg "-" && negb (String.eqb r "0") then ("-" ++ r)%string else r,
            None) /\
    0 < len r /\ allBytes isDigitByte r = true /\
    digitsValue 0 r = digitsValue 0 a + fractionCarry b.
Proof. exact (floatStrToIntStr_decimal_spec sg a b ori). Qed.

Lemma floatStrToIntStr_rounds_decimal_witness :
  exists r,
    floatStrToIntStr ("-" ++ "12" ++ String "." "5") "-12.5x"
    = Some (if String.eqb "-" "-" && negb (String.eqb r "0") then ("-" ++ r)%string else r,
            None) /\
    0 < len r /\ allBytes isDigitByte r = true /\
    digitsValue 0 r = digitsValue 0 "12" + fractionCarry "5".
Proof.
  apply (floatStrToIntStr_rounds_decimal "-" "12" "5" "-12.5x");
    [right; left; reflexivity | reflexivity | reflexivity].
Defined.

(** ** White space at the ends *)

Lemma stripAnyRune_ascii (runes : list (list Z)) (c : ascii) (r : list ascii) :
  Forall (fun rn => match rn with [] => False | b :: _ => byte c <> b end) runes ->
  stripAnyRune runes (c :: r) = None.
Proof.
  induction 1 as [|rn rs Hrn _ IH]; [reflexivity|].
  cbn [stripAnyRune]. destruct rn as [|b bs]; [contradiction|].
  cbn [stripBytes]. destruct (Z.eqb_spec (byte c) b); [contradiction|]. exact IH.
Qed.

Lemma spaceRunes_lead (c : ascii) :
  byte c < 128 ->
  Forall (fun rn => match rn with [] => False | b :: _ => byte c <> b end) spaceRunes /\
  Forall (fun rn => match rn with [] => False | b :: _ => byte c <> b end)
    (List.map (@List.rev Z) spaceRunes).
Proof.
  intros H. split; unfold spaceRunes; cbn [List.map List.rev List.app];
    repeat (constructor; [lia|]); constructor.
Qed.

Lemma trimLeftRunes_plain (runes : list (list Z)) (fuel : nat) (c : ascii) (r : list ascii) :
  isSpaceByte c = false ->
  Forall (fun rn => match rn with [] => False | b :: _ => byte c <> b end) runes ->
  trimLeftRunes runes fuel (c :: r) = c :: r.
Proof.
  intros Hs Hr. destruct fuel; [reflexivity|].
  cbn [trimLeftRunes]. rewrite Hs, (stripAnyRune_ascii runes c r Hr). reflexivity.
Qed.

Lemma los_app (a b : string) :
  list_ascii_of_string (a ++ b) = list_ascii_of_string a ++ list_ascii_of_string b.
Proof. induction a as [|c a IH]; cbn; [reflexivity|]. rewrite IH. reflexivity. Qed.

(** [TrimSpace] leaves alone a string whose first and last bytes are
    ASCII and not blank. *)
Lemma TrimSpace_plain (first last : ascii) (mid : string) :
  byte first < 128 -> isSpaceByte first = false ->
  byte last < 128 -> isSpaceByte last = false ->
  TrimSpace (String first (mid ++ String last "")) = String first (mid ++ String last "") /\
  TrimSpace (String first "") = String first "".
Proof.
  intros Hf Sf Hl Sl.
  destruct (spaceRunes_lead first Hf) as [Ff Fr].
  destruct (spaceRunes_lead last Hl) as [_ Lr].
  split.
  - unfold TrimSpace. cbn [list_ascii_of_string].
    rewrite (trimLeftRunes_plain _ _ first _ Sf Ff).
    rewrite los_app. cbn [list_ascii_of_string rev].
    rewrite rev_app_distr. cbn [rev app].
    rewrite (trimLeftRunes_plain _ _ last _ Sl Lr).
    cbn [rev]. rewrite rev_app_distr, rev_involutive. cbn [rev app].
    cbn [string_of_list_ascii]. rewrite sol_app, sol_los. reflexivity.
  - unfold TrimSpace. cbn [list_ascii_of_string].
    rewrite (trimLeftRunes_plain _ _ first _ Sf Ff). cbn [rev app].
    rewrite (trimLeftRunes_plain _ _ first _ Sf Fr). reflexivity.
Qed.

Lemma string_last (s : string) :
  0 < len s -> exists mid last, s = (mid ++ String last "")%string.
Proof.
  induction s as [|c r IH]; intros L; [cbn in L; lia|].
  destruct r as [|d r'].
  - exists "", c. reflexivity.
  - destruct IH as (mid & last & E).
    { rewrite len_cons. pose proof (len_nonneg r'). lia. }
    exists (String c mid), last. cbn [append]. rewrite <- E. reflexivity.
Qed.

Lemma digit_plain (c : ascii) :
  isDigitByte c = true -> byte c < 128 /\ isSpaceByte c = false.
Proof.
  intros H. pose proof (digit_byte_range c H). split; [lia|].
  unfold isSpaceByte.
  destruct (Z.eqb_spec (byte c) 32); [lia|].
  destruct (Z.leb_spec 9 (byte c)), (Z.leb_spec (byte c) 13); cbn; try reflexivity; lia.
Qed.

(** ** The float prefix of a plain decimal *)

Lemma floatPrefixScan_digit (c : ascii) (r : string) (i : Z) (sd sg : bool) (vl e : Z) :
  isDigitByte c = true ->
  floatPrefixScan (String c r) i sd sg vl e = floatPrefixScan r (i + 1) sd true (i + 1) e.
Proof.
  intros H. pose proof (digit_byte_range c H) as R. cbn [floatPrefixScan].
  rewrite !(digit_not_byte c) by (assumption || (vm_compute; intuition discriminate)).
  cbn [orb].
  change (byte "0") with 48. change (byte "9") with 57.
  destruct (Z.ltb_spec (byte c) 48); [lia|]. destruct (Z.gtb_spec (byte c) 57); [lia|].
  reflexivity.
Qed.

Lemma floatPrefixScan_digits (ds rest : string) (i : Z) (sd sg : bool) (vl e : Z) :
  allBytes isDigitByte ds = true ->
  floatPrefixScan (ds ++ rest) i sd sg vl e =
    if len ds =? 0 then floatPrefixScan rest i sd sg vl e
    else floatPrefixScan rest (i + len ds) sd true (i + len ds) e.
Proof.
  revert i sg vl. induction ds as [|c r IH]; intros i sg vl H; [reflexivity|].
  apply allBytes_cons in H. destruct H as [Hc Hr].
  cbn [append]. rewrite floatPrefixScan_digit by exact Hc.
  rewrite IH by exact Hr. rewrite len_cons. pose proof (len_nonneg r).
  destruct (Z.eqb_spec (1 + len r) 0); [lia|].
  destruct (Z.eqb_spec (len r) 0) as [E|E].
  - rewrite E. reflexivity.
  - replace (i + 1 + len r) with (i + (1 + len r)) by lia. reflexivity.
Qed.

Lemma floatPrefixScan_digits_end (ds : string) (i : Z) (sd sg : bool) (vl e : Z) :
  allBytes isDigitByte ds = true ->
  floatPrefixScan ds i sd sg vl e =
    if len ds =? 0 then (vl, false) else (i + len ds, false).
Proof.
  intros H. rewrite <- (append_nil_r ds) at 1.
  rewrite floatPrefixScan_digits by exact H. reflexivity.
Qed.

Lemma getValidFloatPrefix_decimal (ctx : StmtContext) (sg a b : string) :
  signPrefix sg -> allBytes isDigitByte a = true -> allBytes isDigitByte b = true ->
  0 < len a ->
  getValidFloatPrefix ctx (sg ++ a ++ String "." b) false
  = (ctx, (sg ++ a ++ String "." b)%string, None).
Proof.
  intros Hsg A B La. unfold getValidFloatPrefix. cbn [andb].
  assert (Hscan : floatPrefixScan (sg ++ a ++ String "." b) 0 false false 0 (-1)
                  = (len (sg ++ a ++ String "." b), false)).
  { assert (Hrest : forall i, floatPrefixScan (a ++ String "." b) i false false 0 (-1)
                              = (i + len (a ++ String "." b), false)).
    { intros i. rewrite floatPrefixScan_digits by exact A.
      destruct (Z.eqb_spec (len a) 0); [lia|].
      cbn [floatPrefixScan]. cbn [Ascii.eqb Bool.eqb orb andb].
      change (-1 >? 0) with false. cbv iota.
      rewrite floatPrefixScan_digits_end by exact B.
      rewrite len_app, len_cons. pose proof (len_nonneg b).
      destruct (Z.eqb_spec (len b) 0) as [E|E]; [rewrite E|]; f_equal; lia. }
    destruct Hsg as [-> | [-> | ->]].
    - cbn [append]. apply Hrest.
    - cbn [append floatPrefixScan]. cbn [Ascii.eqb Bool.eqb orb andb negb].
      change (0 =? 0) with true. cbn [negb andb]. rewrite Hrest, len_cons. reflexivity.
    - cbn [append floatPrefixScan]. cbn [Ascii.eqb Bool.eqb orb andb negb].
      change (0 =? 0) with true. cbn [negb andb]. rewrite Hrest, len_cons. reflexivity. }
  rewrite Hscan.
  set (s := (sg ++ a ++ String "." b)%string).
  assert (Ls : 0 < len s).
  { unfold s. rewrite !len_app. pose proof (len_nonneg sg). pose proof (len_nonneg b).
    rewrite len_cons. lia. }
  assert (Hsl : slice s 0 (len s) = s).
  { unfold slice, len. rewrite Z.sub_0_r, Nat2Z.id. apply substring_all. }
  rewrite Hsl.
  destruct (String.eqb_spec s "") as [E|E]; [rewrite E in Ls; cbn in Ls; lia|].
  destruct (Z.eqb_spec (len s) 0); [lia|]. rewrite Z.eqb_refl. reflexivity.
Qed.

Lemma ParseInt_minus_digits (r : string) :
  allBytes isDigitByte r = true -> 0 < len r -> digitsValue 0 r <= - MinInt64 ->
  ParseInt ("-" ++ r) = (- digitsValue 0 r, None).
Proof.
  intros A L V. unfold ParseInt. cbn [append]. cbn [Ascii.eqb Bool.eqb].
  destruct (len_pos_cons r L) as (c & t & ->).
  cbn [String.length Nat.eqb]. rewrite A. cbn [negb andb].
  destruct (Z.gtb_spec (digitsValue 0 (String c t)) (- MinInt64)); [lia|]. reflexivity.
Qed.

(** X6. [StrToInt] (outside a function cast) reads a plain decimal by
    rounding half away from zero on the first digit of the fraction:
    for digits [a] (at least one) and [b], the literal [sg a . b] gives
    the value of [a] plus the carry of [b], negated under a minus sign,
    with no error, no warning and the context unchanged, whenever that
    value fits an [int64]. *)
Theorem StrToInt_rounds_decimal (ctx : StmtContext) (sg a b : string) :
  signPrefix sg -> allBytes isDigitByte a = true -> allBytes isDigitByte b = true ->
  0 < len a ->
  digitsValue 0 a + fractionCarry b <= MaxInt64 ->
  StrToInt ctx (sg ++ a ++ String "." b) false
  = Some (ctx,
          if String.eqb sg "-" then - (digitsValue 0 a + fractionCarry b)
          else digitsValue 0 a + fractionCarry b,
          None).
Proof.
  intros Hsg A B La V. unfold StrToInt.
  assert (Htrim : TrimSpace (sg ++ a ++ String "." b) = (sg ++ a ++ String "." b)%string).
  { assert (Hlast : exists mid last, (a ++ String "." b)%string = (mid ++ String last "")%string
                                     /\ byte last < 128 /\ isSpaceByte last = false).
    { destruct b as [|cb b'].
      - exists a, "."%char. repeat split.
      - destruct (string_last (String cb b')) as (m & l & E).
        { rewrite len_cons. pose proof (len_nonneg b'). lia. }
        exists (a ++ String "." m)%string, l. rewrite E.
        split; [rewrite append_assoc_str; reflexivity|].
        apply digit_plain. rewrite E in B. rewrite allBytes_app in B.
        apply andb_prop in B. destruct B as [_ B]. cbn in B.
        rewrite andb_true_r in B. exact B. }
    destruct Hlast as (mid & last & E & Hl & Sl).
    destruct (len_pos_cons a La) as (ca & ta & Ea).
    assert (Hca : isDigitByte ca = true).
    { rewrite Ea in A. apply allBytes_cons in A. tauto. }
    destruct (digit_plain ca Hca) as [Hf Sf].
    destruct Hsg as [-> | [-> | ->]]; cbn [append].
    - destruct mid as [|cm tm].
      + exfalso. rewrite Ea in E. cbn [append] in E. injection E as _ E.
        destruct ta; discriminate.
      + rewrite E. cbn [append]. cbn [append] in E. rewrite Ea in E. cbn [append] in E.
        injection E as <- _.
        apply (TrimSpace_plain ca last tm Hf Sf Hl Sl).
    - rewrite E. apply (TrimSpace_plain "-" last mid); [vm_compute; reflexivity | reflexivity | exact Hl | exact Sl].
    - rewrite E. apply (TrimSpace_plain "+" last mid); [vm_compute; reflexivity | reflexivity | exact Hl | exact Sl]. }
  rewrite Htrim. unfold getValidIntPrefix. cbn [negb].
  rewrite getValidFloatPrefix_decimal by assumption.
  destruct (floatStrToIntStr_decimal_spec sg a b (sg ++ a ++ String "." b) Hsg A B)
    as (r & Hr & Lr & Dr & Vr).
  rewrite Hr. cbn [option_map fst snd].
  pose proof (digitsValue_bound a A) as Ba.
  assert (0 <= fractionCarry b <= 1).
  { unfold fractionCarry. destruct b; [lia|]. destruct (_ <? _); lia. }
  destruct (String.eqb sg "-") eqn:Em; cbn [andb].
  - destruct (String.eqb_spec r "0") as [E0|E0]; cbn [negb].
    + rewrite E0 in *. cbn in Vr. rewrite <- Vr. reflexivity.
    + rewrite ParseInt_minus_digits by (try assumption; unfold MinInt64, MaxInt64 in *; lia).
      rewrite Vr. reflexivity.
  - rewrite ParseInt_digits by assumption. rewrite Vr.
    destruct (Z.gtb_spec (digitsValue 0 a + fractionCarry b) MaxInt64); [lia|]. reflexivity.
Qed.

Lemma StrToInt_rounds_decimal_witness :
  StrToInt DefaultStmtNoWarningContext ("-" ++ "12" ++ String "." "50") false
  = Some (DefaultStmtNoWarningContext, -13, None).
Proof.
  apply (StrToInt_rounds_decimal DefaultStmtNoWarningContext "-" "12" "50");
    [right; left; reflexivity | reflexivity | reflexivity | reflexivity | vm_compute; discriminate].
Defined.

(** ** Integer prefixes in a function cast *)

Lemma intPrefix_digit_test (c : ascii) :
  ((byte c >=? byte "0") && (byte c <=? byte "9")) = isDigitByte c.
Proof.
  unfold isDigitByte. rewrite Z.geb_leb. reflexivity.
Qed.

Lemma intPrefixScan_run (r rest : string) (i : Z) :
  0 <= i -> allBytes isDigitByte r = true -> startsWithout isDigitByte rest ->
  intPrefixScan (r ++ rest) (i + 1) (i + 1) = i + 1 + len r.
Proof.
  revert i. induction r as [|c r IH]; intros i Hi A B.
  - cbn [append]. change (len "") with 0. rewrite Z.add_0_r.
    destruct rest as [|c' t]; [reflexivity|]. cbn in B. cbn [intPrefixScan].
    rewrite intPrefix_digit_test, B.
    destruct (Z.eqb_spec (i + 1) 0); [lia|]. rewrite andb_false_r. reflexivity.
  - apply allBytes_cons in A. destruct A as [Hc Hr].
    cbn [append intPrefixScan]. rewrite intPrefix_digit_test, Hc.
    destruct (Z.eqb_spec (i + 1) 0); [lia|]. rewrite andb_false_r.
    rewrite (IH (i + 1)) by (assumption || lia). rewrite len_cons. lia.
Qed.

Lemma intPrefixScan_signed (sg ds rest : string) :
  signPrefix sg -> allBytes isDigitByte ds = true -> 0 < len ds ->
  startsWithout isDigitByte rest ->
  intPrefixScan (sg ++ ds ++ rest) 0 0 = len sg + len ds.
Proof.
  intros Hsg A L B. destruct (len_pos_cons ds L) as (c & r & ->).
  apply allBytes_cons in A. destruct A as [Hc Hr].
  assert (Hrun : forall i vl, 0 <= i ->
            intPrefixScan (String c r ++ rest) i vl = i + len (String c r)).
  { intros i vl Hi. cbn [append intPrefixScan]. rewrite intPrefix_digit_test, Hc.
    assert (Hns : (Ascii.eqb c "+" || Ascii.eqb c "-") = false).
    { rewrite !(digit_not_byte c) by (assumption || (vm_compute; intuition discriminate)).
      reflexivity. }
    rewrite Hns. cbn [andb]. rewrite (intPrefixScan_run r rest i Hi Hr B), len_cons. lia. }
  destruct Hsg as [-> | [-> | ->]].
  - cbn [append]. change (len "") with 0. apply (Hrun 0 0). lia.
  - change ("-" ++ String c r ++ rest)%string with (String "-" (String c r ++ rest)).
    cbn [intPrefixScan]. cbn [Ascii.eqb Bool.eqb orb andb]. change (0 =? 0) with true.
    cbv iota. rewrite Hrun by lia. change (len "-") with 1. reflexivity.
  - change ("+" ++ String c r ++ rest)%string with (String "+" (String c r ++ rest)).
    cbn [intPrefixScan]. cbn [Ascii.eqb Bool.eqb orb andb]. change (0 =? 0) with true.
    cbv iota. rewrite Hrun by lia. change (len "+") with 1. reflexivity.
Qed.

Lemma slice_whole_prefix (a b : string) : slice (a ++ b) 0 (len a) = a.
Proof. apply slice_0_app. Qed.

Lemma HandleTruncate_gen (ctx : StmtContext) (code : Z) (fmt : string) (args : list arg) :
  StmtContext_HandleTruncate ctx (Some (GenError code fmt args))
  = (ctx, Some (GenError code fmt args)).
Proof. reflexivity. Qed.

(** X7. In a function cast [StrToInt] reads the longest prefix made of an
    optional sign and digits, after trimming white space: the value is
    that of the digits, negated under a minus sign.  Anything left after
    the digits gives the same value together with the truncation error;
    the flags of the context do not change this, and the context is
    returned as it was (no warning is appended). *)
Theorem StrToInt_cast_reads_prefix (ctx : StmtContext) (str sg ds rest : string) :
  TrimSpace str = (sg ++ ds ++ rest)%string ->
  signPrefix sg -> allBytes isDigitByte ds = true -> 0 < len ds ->
  startsWithout isDigitByte rest ->
  digitsValue 0 ds <= MaxInt64 ->
  StrToInt ctx str true
  = Some (ctx,
          if String.eqb sg "-" then - digitsValue 0 ds else digitsValue 0 ds,
          if String.eqb rest "" then None
          else Some (WithStack (TError_GenWithStackByArgs ErrTruncatedWrongVal
                                  [AStr "INTEGER"; AStr (TrimSpace str)]))).
Proof.
  intros Ht Hsg A L B V. unfold StrToInt. rewrite Ht.
  unfold getValidIntPrefix. cbn [negb].
  rewrite (intPrefixScan_signed sg ds rest Hsg A L B).
  assert (Hsl : slice (sg ++ ds ++ rest) 0 (len sg + len ds) = (sg ++ ds)%string).
  { rewrite <- append_assoc_str, <- len_app. apply slice_0_app. }
  rewrite Hsl.
  pose proof (len_nonneg sg) as Lsg. pose proof (len_nonneg rest) as Lr.
  assert (Hne : String.eqb (sg ++ ds) "" = false).
  { apply String.eqb_neq. intros E. apply (f_equal len) in E. rewrite len_app in E.
    change (len "") with 0 in E. lia. }
  rewrite Hne.
  destruct (Z.eqb_spec (len sg + len ds) 0); [lia|]. cbn [orb].
  rewrite !len_app.
  assert (Hparse : ParseInt (sg ++ ds)
                   = (if String.eqb sg "-" then - digitsValue 0 ds else digitsValue 0 ds, None)).
  { destruct Hsg as [-> | [-> | ->]].
    - cbn [append String.eqb]. rewrite ParseInt_digits by assumption.
      destruct (Z.gtb_spec (digitsValue 0 ds) MaxInt64); [lia|]. reflexivity.
    - cbn [String.eqb Ascii.eqb Bool.eqb].
      apply ParseInt_minus_digits; [assumption | assumption |].
      unfold MinInt64, MaxInt64 in *. lia.
    - cbn [String.eqb Ascii.eqb Bool.eqb]. unfold ParseInt. cbn [append].
      cbn [Ascii.eqb Bool.eqb]. destruct (len_pos_cons ds L) as (c & t & ->).
      cbn [String.length Nat.eqb]. rewrite A. cbn [negb andb].
      destruct (Z.gtb_spec (digitsValue 0 (String c t)) MaxInt64); [lia|]. reflexivity. }
  destruct (String.eqb_spec rest "") as [E|E].
  - subst rest. change (len "") with 0.
    destruct (Z.eqb_spec (len sg + len ds) (len sg + (len ds + 0))); [|lia].
    cbn [negb]. rewrite Hparse. reflexivity.
  - assert (0 < len rest).
    { destruct rest; [contradiction|]. rewrite len_cons. pose proof (len_nonneg rest). lia. }
    destruct (Z.eqb_spec (len sg + len ds) (len sg + (len ds + len rest))); [lia|].
    cbn [negb]. unfold TError_GenWithStackByArgs. rewrite HandleTruncate_gen.
    rewrite Hparse. reflexivity.
Qed.

Lemma StrToInt_cast_reads_prefix_witness :
  StrToInt DefaultStmtNoWarningContext " -42abc" true
  = Some (DefaultStmtNoWarningContext, -42,
          Some (WithStack (TError_GenWithStackByArgs ErrTruncatedWrongVal
                             [AStr "INTEGER"; AStr "-42abc"]))).
Proof.
  apply (StrToInt_cast_reads_prefix DefaultStmtNoWarningContext " -42abc" "-" "42" "abc");
    [reflexivity | right; left; reflexivity | reflexivity | reflexivity | reflexivity
    | vm_compute; discriminate].
Defined.

(** ** What ends a float prefix *)

Lemma slice_full (s : string) : slice s 0 (len s) = s.
Proof. unfold slice, len. rewrite Z.sub_0_r, Nat2Z.id. apply substring_all. Qed.

(** X8. [getValidFloatPrefix] on digits followed by something else: at
    the end of the string the digits are the prefix and there is no
    error; a NUL byte right after the digits cuts the string there
    silently, so whatever follows the NUL is dropped without an error; any
    other byte that cannot continue a number (not a digit, a point or an
    exponent mark) gives the digits together with the truncation error,
    whatever the flags of the context are, and appends no warning. *)
Theorem getValidFloatPrefix_digits_then (ctx : StmtContext) (ds rest : string)
  (isFuncCast : bool) :
  allBytes isDigitByte ds = true -> 0 < len ds ->
  startsWithout (fun c => isDigitByte c || isDot c || isExpMark c) rest ->
  getValidFloatPrefix ctx (ds ++ rest) isFuncCast
  = (ctx, ds,
     match rest with
     | EmptyString => None
     | String c _ =>
         if Ascii.eqb c Ascii.zero then None
         else Some (WithStack (TError_GenWithStackByArgs ErrTruncatedWrongVal
                                 [AStr "DOUBLE"; AStr (ds ++ rest)]))
     end).
Proof.
  intros A L B. unfold getValidFloatPrefix.
  pose proof (len_nonneg rest) as Lr.
  assert (Hne : String.eqb (ds ++ rest) "" = false).
  { apply String.eqb_neq. intros E. apply (f_equal len) in E. rewrite len_app in E.
    change (len "") with 0 in E. lia. }
  rewrite Hne, andb_false_r.
  rewrite floatPrefixScan_digits by exact A.
  destruct (Z.eqb_spec (len ds) 0); [lia|].
  assert (Hds : String.eqb ds "" = false).
  { apply String.eqb_neq. intros E. rewrite E in L. cbn in L. lia. }
  destruct rest as [|c t].
  - cbn [floatPrefixScan]. rewrite append_nil_r, Z.add_0_l, slice_full, Hds.
    destruct (Z.eqb_spec (len ds) 0); [lia|]. rewrite Z.eqb_refl. reflexivity.
  - cbn in B. apply orb_false_iff in B. destruct B as [B Be].
    apply orb_false_iff in B. destruct B as [Bd Bp].
    unfold isDot in Bp. unfold isExpMark in Be.
    cbn [floatPrefixScan]. rewrite Bp, Be. rewrite Z.add_0_l.
    assert (Hcut : slice (slice (ds ++ String c t) 0 (len ds)) 0 (len ds) = ds)
      by (rewrite slice_0_app; apply slice_full).
    assert (Hrest : negb (len ds =? len (ds ++ String c t)) = true).
    { rewrite len_app, len_cons. pose proof (len_nonneg t).
      destruct (Z.eqb_spec (len ds) (len ds + (1 + len t))); [lia|reflexivity]. }
    assert (Hgarbage :
      (let '(validLen, cut) := (len ds, false) in
       let s := if cut then slice (ds ++ String c t) 0 validLen else (ds ++ String c t)%string in
       let valid := slice s 0 validLen in
       let valid := if String.eqb valid "" then "0" else valid in
       if (validLen =? 0) || negb (validLen =? len s)
       then
         let '(ctx0, err) :=
           StmtContext_HandleTruncate ctx
             (Some (TError_GenWithStackByArgs ErrTruncatedWrongVal [AStr "DOUBLE"; AStr s])) in
         (ctx0, valid, errors.Trace err)
       else (ctx, valid, None))
      = (ctx, ds, Some (WithStack (TError_GenWithStackByArgs ErrTruncatedWrongVal
                                     [AStr "DOUBLE"; AStr (ds ++ String c t)])))).
    { cbv zeta iota. rewrite slice_0_app, Hds, Hrest, orb_true_r. reflexivity. }
    destruct (Ascii.eqb c "+" || Ascii.eqb c "-") eqn:Esign.
    + assert (Hz : Ascii.eqb c Ascii.zero = false).
      { destruct (Ascii.eqb_spec c Ascii.zero) as [->|]; [discriminate Esign|reflexivity]. }
      rewrite Hz.
      destruct (Z.eqb_spec (len ds) 0); [lia|].
      destruct (Z.eqb_spec (len ds) (-1 + 1)); [lia|]. cbn [negb andb].
      exact Hgarbage.
    + destruct (Ascii.eqb c Ascii.zero) eqn:Hz.
      * cbv zeta iota. rewrite Hcut, Hds.
        rewrite slice_0_app, Z.eqb_refl.
        destruct (Z.eqb_spec (len ds) 0); [lia|]. reflexivity.
      * assert (Hnd : (byte c <? byte "0") || (byte c >? byte "9") = true).
        { unfold isDigitByte in Bd. apply andb_false_iff in Bd.
          destruct Bd as [Bd|Bd]; apply Z.leb_gt in Bd; apply orb_true_iff;
            [left; apply Z.ltb_lt; lia | right; apply Z.gtb_lt; lia]. }
        rewrite Hnd. exact Hgarbage.
Qed.

Lemma getValidFloatPrefix_digits_then_witness :
  getValidFloatPrefix DefaultStmtNoWarningContext ("123" ++ String Ascii.zero "abc") false
  = (DefaultStmtNoWarningContext, "123", None).
Proof.
  apply (getValidFloatPrefix_digits_then DefaultStmtNoWarningContext "123"
           (String Ascii.zero "abc") false);
    [reflexivity | reflexivity | reflexivity].
Defined.

(** ** Unsigned integers in a function cast *)

Lemma getValidIntPrefix_cast (ctx : StmtContext) (sg ds rest : string) :
  signPrefix sg -> allBytes isDigitByte ds = true -> 0 < len ds ->
  startsWithout isDigitByte rest ->
  getValidIntPrefix ctx (sg ++ ds ++ rest) true
  = Some (ctx, (sg ++ ds)%string,
          if String.eqb rest "" then None
          else Some (WithStack (TError_GenWithStackByArgs ErrTruncatedWrongVal
                                  [AStr "INTEGER"; AStr (sg ++ ds ++ rest)]))).
Proof.
  intros Hsg A L B. unfold getValidIntPrefix. cbn [negb].
  rewrite (intPrefixScan_signed sg ds rest Hsg A L B).
  assert (Hsl : slice (sg ++ ds ++ rest) 0 (len sg + len ds) = (sg ++ ds)%string).
  { rewrite <- append_assoc_str, <- len_app. apply slice_0_app. }
  rewrite Hsl.
  pose proof (len_nonneg sg) as Lsg. pose proof (len_nonneg rest) as Lr.
  assert (Hne : String.eqb (sg ++ ds) "" = false).
  { apply String.eqb_neq. intros E. apply (f_equal len) in E. rewrite len_app in E.
    change (len "") with 0 in E. lia. }
  rewrite Hne.
  destruct (Z.eqb_spec (len sg + len ds) 0); [lia|]. cbn [orb].
  rewrite !len_app.
  destruct (String.eqb_spec rest "") as [E|E].
  - subst rest. change (len "") with 0.
    destruct (Z.eqb_spec (len sg + len ds) (len sg + (len ds + 0))); [|lia].
    reflexivity.
  - assert (0 < len rest).
    { destruct rest; [contradiction|]. rewrite len_cons. pose proof (len_nonneg rest). lia. }
    destruct (Z.eqb_spec (len sg + len ds) (len sg + (len ds + len rest))); [lia|].
    cbn [negb]. unfold TError_GenWithStackByArgs. rewrite HandleTruncate_gen.
    reflexivity.
Qed.

Lemma all_zero_digits (ds : string) :
  allBytes isDigitByte ds = true ->
  allBytes (fun v => Ascii.eqb v "0") ds = (digitsValue 0 ds =? 0).
Proof.
  induction ds as [|c r IH]; intros A; [reflexivity|].
  apply allBytes_cons in A. destruct A as [Hc Hr].
  cbn [allBytes]. rewrite digitsValue_cons. rewrite (IH Hr).
  pose proof (digitsValue_bound r Hr) as Br.
  pose proof (digit_byte_range c Hc) as Bc.
  assert (P : 0 < 10 ^ len r) by (apply Z.pow_pos_nonneg; [lia | apply len_nonneg]).
  change (byte "0") with 48 in *.
  destruct (Ascii.eqb_spec c "0") as [->|Hn].
  - change (byte "0") with 48. cbn [andb].
    replace ((48 - 48) * 10 ^ len r + digitsValue 0 r) with (digitsValue 0 r) by lia.
    reflexivity.
  - cbn [andb]. symmetry. apply Z.eqb_neq.
    assert (byte c <> 48).
    { intros E. apply Hn. apply byte_inj. rewrite E. reflexivity. }
    nia.
Qed.

(** X19. In a function cast [StrToUint] reads, after trimming white
    space, the longest prefix made of an optional sign and digits.
    Without a minus sign the value is that of the digits, or the largest
    [uint64] with the overflow error when they exceed it.  Under a minus
    sign only zeros are accepted: [-000] is 0, any other negative
    numeral is 0 with the overflow error.  Where there is no overflow,
    anything left after the digits adds the truncation error; the context
    is returned as it was. *)
Theorem StrToUint_cast_reads_prefix (ctx : StmtContext) (str sg ds rest : string) :
  TrimSpace str = (sg ++ ds ++ rest)%string ->
  signPrefix sg -> allBytes isDigitByte ds = true -> 0 < len ds ->
  startsWithout isDigitByte rest ->
  let truncated :=
    if String.eqb rest "" then None
    else Some (WithStack (TError_GenWithStackByArgs ErrTruncatedWrongVal
                            [AStr "INTEGER"; AStr (TrimSpace str)])) in
  StrToUint ctx str true
  = if String.eqb sg "-" then
      if digitsValue 0 ds =? 0 then Some (ctx, 0, truncated)
      else Some (ctx, 0,
                 Some (TError_GenWithStackByArgs ErrOverflow
                         [AStr "BIGINT UNSIGNED"; AStr ("-" ++ ds)]))
    else if digitsValue 0 ds >? MaxUint64 then
      Some (ctx, MaxUint64,
            Some (TError_GenWithStackByArgs ErrOverflow [AStr "BIGINT UNSIGNED"; AStr ds]))
    else Some (ctx, digitsValue 0 ds, truncated).
Proof.
  intros Ht Hsg A L B truncated. unfold StrToUint. rewrite Ht.
  rewrite (getValidIntPrefix_cast ctx sg ds rest Hsg A L B).
  assert (Hpu : ParseUint ds =
                if digitsValue 0 ds >? MaxUint64
                then (MaxUint64,
                      Some (FmtError "strconv.ParseUint: parsing %q: value out of range"
                              [AStr ds]))
                else (digitsValue 0 ds, None)).
  { unfold ParseUint. rewrite A. rewrite <- len_zero_eqb.
    destruct (Z.eqb_spec (len ds) 0); [lia|]. reflexivity. }
  assert (Htr : errors.Trace
                  (if String.eqb rest "" then None
                   else Some (WithStack (TError_GenWithStackByArgs ErrTruncatedWrongVal
                                           [AStr "INTEGER"; AStr (sg ++ ds ++ rest)])))
                = truncated).
  { unfold truncated. rewrite Ht. destruct (String.eqb rest ""); reflexivity. }
  revert Htr. generalize truncated. clear truncated. intros truncated Htr.
  destruct Hsg as [-> | [-> | ->]].
  - cbn [append String.eqb] in *.
    destruct (len_pos_cons ds L) as (c & r & Eds).
    assert (Hc : isDigitByte c = true).
    { rewrite Eds in A. apply allBytes_cons in A. tauto. }
    assert (Hm : Ascii.eqb c "-" = false)
      by (apply digit_not_byte; [assumption | vm_compute; intuition discriminate]).
    assert (Hp : Ascii.eqb c "+" = false)
      by (apply digit_not_byte; [assumption | vm_compute; intuition discriminate]).
    transitivity
      (let '(v, e) := ParseUint ds in
       if match e with Some _ => true | None => false end
       then Some (ctx, v, Some (TError_GenWithStackByArgs ErrOverflow
                                  [AStr "BIGINT UNSIGNED"; AStr ds]))
       else Some (ctx, v, truncated)).
    + rewrite <- Htr. rewrite Eds. cbv beta iota zeta. rewrite Hm, Hp.
      destruct (ParseUint (String c r)) as [v [e|]]; reflexivity.
    + rewrite Hpu. destruct (digitsValue 0 ds >? MaxUint64); reflexivity.
  - cbn [append String.eqb Ascii.eqb Bool.eqb] in *. cbv beta iota zeta.
    rewrite (all_zero_digits ds A).
    destruct (digitsValue 0 ds =? 0); cbn [negb]; [|reflexivity].
    rewrite <- Htr. reflexivity.
  - cbn [append String.eqb Ascii.eqb Bool.eqb] in *. cbv beta iota zeta.
    rewrite Hpu.
    destruct (digitsValue 0 ds >? MaxUint64); [reflexivity|].
    rewrite <- Htr. reflexivity.
Qed.

Lemma StrToUint_cast_reads_prefix_witness :
  StrToUint DefaultStmtNoWarningContext "-000" true
  = Some (DefaultStmtNoWarningContext, 0, None) /\
  StrToUint DefaultStmtNoWarningContext "-1" true
  = Some (DefaultStmtNoWarningContext, 0,
          Some (TError_GenWithStackByArgs ErrOverflow [AStr "BIGINT UNSIGNED"; AStr "-1"])).
Proof.
  split.
  - apply (StrToUint_cast_reads_prefix DefaultStmtNoWarningContext "-000" "-" "000" "");
      [reflexivity | right; left; reflexivity | reflexivity | reflexivity | exact I].
  - apply (StrToUint_cast_reads_prefix DefaultStmtNoWarningContext "-1" "-" "1" "");
      [reflexivity | right; left; reflexivity | reflexivity | reflexivity | exact I].
Defined.

(** ** Quoting round trip *)

Lemma replaceAll_double (q : ascii) (s : string) (fuel : nat) :
  (String.length s < fuel)%nat ->
  replaceAllFuel fuel (String q "") (String q (String q "")) s = doubled q s.
Proof.
  revert fuel. induction s as [|c r IH]; intros fuel Hf.
  - destruct fuel; [lia|]. reflexivity.
  - destruct fuel as [|f]; [lia|]. cbn [String.length] in Hf.
    cbn [replaceAllFuel stripPrefix doubled].
    rewrite (Ascii.eqb_sym q c).
    destruct (Ascii.eqb c q) eqn:E.
    + cbn [append]. rewrite IH by lia. reflexivity.
    + rewrite IH by lia. reflexivity.
Qed.

Lemma length_doubled (q : ascii) (s : string) :
  (String.length s <= String.length (doubled q s) <= 2 * String.length s)%nat.
Proof.
  induction s as [|c r IH]; cbn [doubled String.length]; [lia|].
  destruct (Ascii.eqb c q); cbn [String.length]; lia.
Qed.

Lemma replaceAll_undouble (q : ascii) (s : string) (fuel : nat) :
  (String.length (doubled q s) < fuel)%nat ->
  replaceAllFuel fuel (String q (String q "")) (String q "") (doubled q s) = s.
Proof.
  revert fuel. induction s as [|c r IH]; intros fuel Hf.
  - destruct fuel; [lia|]. reflexivity.
  - destruct fuel as [|f]; [lia|]. cbn [doubled] in *.
    destruct (Ascii.eqb c q) eqn:E.
    + apply Ascii.eqb_eq in E. subst c. cbn [String.length] in Hf.
      cbn [replaceAllFuel stripPrefix]. rewrite Ascii.eqb_refl. cbn [append].
      rewrite IH by lia. reflexivity.
    + cbn [String.length] in Hf. cbn [replaceAllFuel stripPrefix].
      rewrite (Ascii.eqb_sym q c), E. rewrite IH by lia. reflexivity.
Qed.

Lemma replaceAll_undouble_other (q1 q2 : ascii) (s : string) (fuel : nat) :
  q1 <> q2 ->
  (String.length (doubled q2 (doubled q1 s)) < fuel)%nat ->
  replaceAllFuel fuel (String q1 (String q1 "")) (String q1 "") (doubled q2 (doubled q1 s))
  = doubled q2 s.
Proof.
  intros Hq. assert (E12 : Ascii.eqb q1 q2 = false) by (apply Ascii.eqb_neq; exact Hq).
  revert fuel. induction s as [|c r IH]; intros fuel Hf.
  - destruct fuel; [lia|]. reflexivity.
  - cbn [doubled] in *. destruct (Ascii.eqb c q1) eqn:E1.
    + apply Ascii.eqb_eq in E1. subst c. rewrite E12.
      cbn [doubled] in *. rewrite E12 in *. cbn [String.length] in Hf.
      destruct fuel as [|f]; [lia|].
      cbn [replaceAllFuel stripPrefix]. rewrite Ascii.eqb_refl. cbn [append].
      rewrite IH by lia. reflexivity.
    + cbn [doubled] in *. destruct (Ascii.eqb c q2) eqn:E2.
      * apply Ascii.eqb_eq in E2. subst c. cbn [String.length] in Hf.
        destruct fuel as [|[|f]]; [lia|lia|].
        cbn [replaceAllFuel stripPrefix]. rewrite E12.
        rewrite IH by lia. reflexivity.
      * cbn [String.length] in Hf. destruct fuel as [|f]; [lia|].
        cbn [replaceAllFuel stripPrefix]. rewrite (Ascii.eqb_sym q1 c), E1.
        rewrite IH by lia. reflexivity.
Qed.

Lemma slice_middle (q : ascii) (x : string) :
  slice (String q (x ++ String q "")) 1 (len (String q (x ++ String q "")) - 1) = x /\
  sliceFrom (String q (x ++ String q "")) (len (String q (x ++ String q "")) - 1)
  = String q "" /\
  slice (String q (x ++ String q "")) 0 1 = String q "".
Proof.
  rewrite len_cons, len_app. change (len (String q "")) with 1.
  pose proof (len_nonneg x).
  split; [|split].
  - unfold slice. replace (Z.to_nat (1 + (len x + 1) - 1 - 1)) with (String.length x)
      by (unfold len; lia).
    change (Z.to_nat 1) with 1%nat. cbn [String.substring].
    apply substring_app_prefix.
  - unfold sliceFrom, slice. rewrite len_cons, len_app. change (len (String q "")) with 1.
    replace (Z.to_nat (1 + (len x + 1) - 1)) with (S (String.length x)) by (unfold len; lia).
    replace (Z.to_nat (1 + (len x + 1) - (1 + (len x + 1) - 1))) with 1%nat by lia.
    cbn [String.substring]. rewrite substring_app_skip. reflexivity.
  - unfold slice. cbn. destruct (x ++ String q "")%string; reflexivity.
Qed.

Lemma substring_one (t : string) (n : nat) :
  (n < String.length t)%nat ->
  String.substring n 1 t
  = String (match String.get n t with Some c => c | None => Ascii.zero end) "".
Proof.
  revert n. induction t as [|c r IH]; intros n H; [cbn in H; lia|].
  destruct n as [|n].
  - cbn [String.substring String.get]. rewrite substring_0_0. reflexivity.
  - cbn [String.substring String.get]. apply IH. cbn in H. lia.
Qed.

Lemma slice_one (t : string) (i : Z) :
  0 <= i < len t -> slice t i (i + 1) = String (byteAt t i) "".
Proof.
  intros H. unfold slice, byteAt.
  replace (Z.to_nat (i + 1 - i)) with 1%nat by lia.
  apply substring_one. unfold len in H. lia.
Qed.

Lemma one_byte_eqb (c q : ascii) :
  String.eqb (String c "") (String q "") = Ascii.eqb c q.
Proof. cbn [String.eqb]. destruct (Ascii.eqb c q); reflexivity. Qed.

(** X9. Unwrapping undoes wrapping: for every string [s],
    [UnwrapFromSingleQuotes (WrapInSingleQuotes s)] is [s] again.
    Wrapping doubles every backslash and every single quote and puts the
    result between single quotes.  Every string that is not between
    single quotes (shorter than two bytes, or not starting or not ending
    with a single quote) is returned by the unwrapping as it is. *)
Theorem Unwrap_Wrap_roundtrip (s : string) :
  UnwrapFromSingleQuotes (WrapInSingleQuotes s) = s /\
  WrapInSingleQuotes s
  = (String quote "" ++ doubled quote (doubled backslash s) ++ String quote "")%string /\
  (forall t,
     len t < 2 \/ byteAt t 0 <> quote \/ byteAt t (len t - 1) <> quote ->
     UnwrapFromSingleQuotes t = t).
Proof.
  assert (W : WrapInSingleQuotes s
    = (String quote "" ++ doubled quote (doubled backslash s) ++ String quote "")%string).
  { unfold WrapInSingleQuotes, ReplaceAll.
    rewrite (replaceAll_double backslash) by lia.
    rewrite (replaceAll_double quote) by lia. reflexivity. }
  split; [|split; [exact W|]].
  - rewrite W. cbn [append].
    set (x := doubled quote (doubled backslash s)).
    destruct (slice_middle quote x) as (Hmid & Hlast & Hfirst).
    unfold UnwrapFromSingleQuotes. rewrite Hmid, Hlast, Hfirst.
    rewrite String.eqb_refl. cbn [negb orb].
    assert (Hlen : (len (String quote (x ++ String quote "")) <? 2) = false).
    { rewrite len_cons, len_app. change (len (String quote "")) with 1.
      pose proof (len_nonneg x). apply Z.ltb_ge. lia. }
    rewrite Hlen. cbn [orb].
    unfold ReplaceAll, x.
    rewrite (replaceAll_undouble_other backslash quote) by (try lia; discriminate).
    apply replaceAll_undouble. lia.
  - intros t H. unfold UnwrapFromSingleQuotes.
    destruct (Z.ltb_spec (len t) 2) as [L|L]; [reflexivity|].
    cbn [orb].
    assert (E1 : slice t 0 1 = String (byteAt t 0) "") by (apply (slice_one t 0); lia).
    assert (E2 : sliceFrom t (len t - 1) = String (byteAt t (len t - 1)) "").
    { unfold sliceFrom. replace (len t) with (len t - 1 + 1) at 2 by lia.
      apply slice_one. lia. }
    rewrite E1, E2, !one_byte_eqb.
    destruct H as [H|[H|H]]; [lia| |].
    + destruct (Ascii.eqb_spec (byteAt t 0) quote); [contradiction|]. reflexivity.
    + destruct (Ascii.eqb_spec (byteAt t (len t - 1)) quote); [contradiction|].
      cbn [negb]. rewrite orb_true_r. reflexivity.
Qed.

(** ** Set values *)

Lemma setMembers_ext (elems : list string) (i a b : Z) :
  (forall j, i <= j -> Z.testbit a j = Z.testbit b j) ->
  setMembers elems i a = setMembers elems i b.
Proof.
  revert i. induction elems as [|e r IH]; intros i H; [reflexivity|].
  cbn [setMembers]. rewrite (H i) by lia.
  rewrite (IH (i + 1)) by (intros j Hj; apply H; lia). reflexivity.
Qed.

Lemma setIndex_some (i : Z) :
  0 <= i < 64 ->
  setIndexValue i = Some (2 ^ i) /\ setIndexInvertValue i = Some (not64 (2 ^ i)).
Proof.
  intros H. unfold setIndexInvertValue, setIndexValue.
  destruct (Z.leb_spec 0 i); [|lia]. destruct (Z.ltb_spec i 64); [|lia]. cbn [andb option_map].
  assert (E : shl64 1 (uint64 i) = 2 ^ i).
  { unfold shl64, uint64. rewrite (Z.mod_small i) by lia.
    rewrite Z.shiftl_1_l. apply Z.mod_small. split; [apply Z.pow_nonneg; lia|].
    apply Z.pow_lt_mono_r; lia. }
  rewrite E. split; reflexivity.
Qed.

Lemma land_pow2_test (n i : Z) :
  0 <= i -> (Z.land n (2 ^ i) >? 0) = Z.testbit n i.
Proof.
  intros Hi.
  assert (E : Z.land n (2 ^ i) = if Z.testbit n i then 2 ^ i else 0).
  { apply Z.bits_inj'. intros k Hk. rewrite Z.land_spec, Z.pow2_bits_eqb by lia.
    destruct (Z.eqb_spec i k) as [->|Hne].
    - rewrite andb_true_r. destruct (Z.testbit n k) eqn:T.
      + rewrite Z.pow2_bits_true by lia. reflexivity.
      + rewrite Z.bits_0. reflexivity.
    - rewrite andb_false_r. destruct (Z.testbit n i).
      + rewrite Z.pow2_bits_false by lia. reflexivity.
      + rewrite Z.bits_0. reflexivity. }
  rewrite E. destruct (Z.testbit n i).
  - apply Z.gtb_lt. apply Z.pow_pos_nonneg; lia.
  - reflexivity.
Qed.

Lemma land_not64_pow2 (n i : Z) :
  0 <= i < 64 -> 0 <= n < 2 ^ 64 ->
  Z.land n (not64 (2 ^ i)) = Z.ldiff n (2 ^ i) /\ 0 <= Z.ldiff n (2 ^ i) < 2 ^ 64.
Proof.
  intros Hi Hn.
  assert (E : Z.land n (not64 (2 ^ i)) = Z.ldiff n (2 ^ i)).
  { unfold not64. apply Z.bits_inj'. intros k Hk.
    rewrite Z.land_spec, Z.lxor_spec, Z.ldiff_spec, Z.pow2_bits_eqb by lia.
    destruct (Z.ltb_spec k 64).
    - rewrite Z.ones_spec_low by lia. destruct (Z.eqb i k); cbn; reflexivity.
    - rewrite Z.ones_spec_high by lia.
      assert (Z.testbit n k = false) as ->.
      { destruct (Z.eq_dec n 0) as [->|]; [apply Z.bits_0|].
        apply Z.bits_above_log2; [lia|].
        assert (Z.log2 n < 64) by (apply Z.log2_lt_pow2; lia). lia. }
      reflexivity. }
  split; [exact E|]. rewrite <- E.
  assert (Hm : 0 <= not64 (2 ^ i)).
  { unfold not64. apply Z.lxor_nonneg. split; intros _; [vm_compute; discriminate|].
    apply Z.pow_nonneg. lia. }
  assert (H0 : 0 <= Z.land n (not64 (2 ^ i))) by (apply Z.land_nonneg; left; lia).
  split; [exact H0|].
  destruct (Z.eq_dec (Z.land n (not64 (2 ^ i))) 0) as [->|Hne]; [lia|].
  apply Z.log2_lt_pow2; [lia|].
  pose proof (Z.log2_land n (not64 (2 ^ i)) ltac:(lia) Hm).
  assert (n <> 0) by (intros ->; rewrite Z.land_0_l in Hne; contradiction).
  assert (Z.log2 n < 64) by (apply Z.log2_lt_pow2; lia). lia.
Qed.

Lemma parseSetValueLoop_spec (elems : list string) (i n : Z) (items : list string) :
  0 <= i -> i + Z.of_nat (List.length elems) <= 64 -> 0 <= n < 2 ^ 64 ->
  parseSetValueLoop elems i n items
  = Some (Z.ldiff n (Z.shiftl (Z.ones (Z.of_nat (List.length elems))) i),
          items ++ setMembers elems i n).
Proof.
  revert i n items. induction elems as [|e r IH]; intros i n items Hi Hl Hn.
  - cbn [parseSetValueLoop setMembers List.length Z.of_nat]. rewrite app_nil_r.
    f_equal. f_equal. change (Z.ones 0) with 0. rewrite Z.shiftl_0_l, Z.ldiff_0_r. reflexivity.
  - cbn [List.length] in Hl. rewrite Nat2Z.inj_succ in Hl.
    cbn [parseSetValueLoop setMembers].
    destruct (setIndex_some i ltac:(lia)) as [-> ->].
    rewrite land_pow2_test by lia.
    destruct (land_not64_pow2 n i ltac:(lia) Hn) as [E R]. rewrite E.
    assert (Hbits : forall m, Z.ldiff m (Z.shiftl (Z.ones (Z.of_nat (List.length (e :: r)))) i)
                             = Z.ldiff (Z.ldiff m (2 ^ i))
                                 (Z.shiftl (Z.ones (Z.of_nat (List.length r))) (i + 1))).
    { intros m. cbn [List.length]. rewrite Nat2Z.inj_succ.
      apply Z.bits_inj'. intros k Hk.
      rewrite !Z.ldiff_spec, !Z.shiftl_spec, Z.pow2_bits_eqb by lia.
      destruct (Z.ltb_spec k i).
      - rewrite !(Z.testbit_neg_r _ (k - _)) by lia.
        destruct (Z.eqb_spec i k); [lia|]. cbn. rewrite !andb_true_r. reflexivity.
      - destruct (Z.eqb_spec i k) as [->|Hne].
        + rewrite Z.sub_diag, (Z.testbit_neg_r _ (k - (k + 1))) by lia.
          rewrite Z.ones_spec_low by lia. cbn. rewrite andb_false_r. reflexivity.
        + cbn [negb]. rewrite andb_true_r.
          destruct (Z.ltb_spec (k - i) (Z.succ (Z.of_nat (List.length r)))).
          * rewrite !Z.ones_spec_low by lia. reflexivity.
          * rewrite !Z.ones_spec_high by lia. reflexivity. }
    destruct (Z.testbit n i) eqn:T.
    + rewrite IH by lia. rewrite <- app_assoc. cbn [app].
      rewrite Hbits.
      rewrite (setMembers_ext r (i + 1) (Z.ldiff n (2 ^ i)) n); [reflexivity|].
      intros j Hj. rewrite Z.ldiff_spec, Z.pow2_bits_eqb by lia.
      destruct (Z.eqb_spec i j); [lia|]. cbn. rewrite andb_true_r. reflexivity.
    + rewrite IH by lia. rewrite Hbits.
      assert (Z.ldiff n (2 ^ i) = n) as ->; [|reflexivity].
      apply Z.bits_inj'. intros k Hk.
      rewrite Z.ldiff_spec, Z.pow2_bits_eqb by lia.
      destruct (Z.eqb_spec i k) as [->|]; [rewrite T|]; cbn; [reflexivity|].
      rewrite andb_true_r. reflexivity.
Qed.

Lemma ldiff_ones_zero (n k : Z) :
  0 <= n -> 0 <= k -> (Z.ldiff n (Z.ones k) =? 0) = (n <? 2 ^ k).
Proof.
  intros Hn Hk.
  assert (E : Z.ldiff n (Z.ones k) = Z.shiftl (Z.shiftr n k) k).
  { apply Z.ldiff_ones_r. lia. }
  rewrite E, Z.shiftl_mul_pow2, Z.shiftr_div_pow2 by lia.
  assert (P : 0 < 2 ^ k) by (apply Z.pow_pos_nonneg; lia).
  destruct (Z.ltb_spec n (2 ^ k)).
  - rewrite Z.div_small by lia. reflexivity.
  - apply Z.eqb_neq. assert (1 <= n / 2 ^ k) by (apply Z.div_le_lower_bound; lia). nia.
Qed.

(** X10. [ParseSetValue] reads [number] as a bit set over [elems] (at
    most 64 of them): 0 is the empty set; a number below 2^len(elems)
    gives the set whose value is the number and whose name joins, with
    commas and in the order of [elems], the members whose bit is set; a
    number with a bit at or above len(elems) is rejected, and the error
    names the bits that are left over.  With more than 64 elements and a
    non-zero number the call indexes past the 64-entry tables and
    panics. *)
Theorem ParseSetValue_bitset (elems : list string) (n : Z) :
  0 <= n < 2 ^ 64 ->
  let k := Z.of_nat (List.length elems) in
  ParseSetValue elems n =
    if n =? 0 then Some (zeroSet, None)
    else if k >? 64 then None
    else if n <? 2 ^ k then Some (mkSet (Join (setMembers elems 0 n) ",") n, None)
    else Some (mkSet "" 0,
               Some (errors.Errorf "invalid number %d for Set %v"
                       [AInt (Z.ldiff n (Z.ones k)); AStrs elems])).
Proof.
  intros Hn k. unfold ParseSetValue.
  destruct (n =? 0); [reflexivity|].
  destruct (Z.gtb_spec k 64) as [Hk|Hk].
  - (* the loop reaches index 64 *)
    assert (Hpanic : forall (l : list string) (i m : Z) (items : list string),
              0 <= i <= 64 -> 0 <= m < 2 ^ 64 -> 64 < i + Z.of_nat (List.length l) ->
              parseSetValueLoop l i m items = None).
    { induction l as [|e r IH]; intros i m items Hi Hm Hl.
      - cbn [List.length Z.of_nat] in Hl. lia.
      - cbn [List.length] in Hl. rewrite Nat2Z.inj_succ in Hl. cbn [parseSetValueLoop].
        destruct (Z.eq_dec i 64) as [->|Hne]; [reflexivity|].
        destruct (setIndex_some i ltac:(lia)) as [-> ->].
        destruct (land_not64_pow2 m i ltac:(lia) Hm) as [E R]. rewrite E.
        destruct (Z.land m (2 ^ i) >? 0); apply IH; lia. }
    rewrite Hpanic by (fold k; lia). reflexivity.
  - rewrite parseSetValueLoop_spec by (fold k; lia). fold k.
    rewrite Z.shiftl_0_r. cbn [app].
    rewrite ldiff_ones_zero by (unfold k; lia).
    destruct (n <? 2 ^ k); reflexivity.
Qed.

(** ** Enum names *)

Lemma parseEnumNameLoop_spec (ToLower : string -> string) (collation name : string)
  (elems : list string) (i : Z) :
  0 <= i -> i + Z.of_nat (List.length elems) <= MaxInt64 ->
  match parseEnumNameLoop ToLower collation name elems i with
  | Some e =>
      exists before after,
        elems = before ++ Name e :: after /\
        Value e = i + Z.of_nat (List.length before) + 1 /\
        simpleCollator_Compare ToLower collation (Name e) name = 0 /\
        Forall (fun n => simpleCollator_Compare ToLower collation n name <> 0) before
  | None => Forall (fun n => simpleCollator_Compare ToLower collation n name <> 0) elems
  end.
Proof.
  revert i. induction elems as [|n r IH]; intros i Hi Hl.
  - constructor.
  - cbn [List.length] in Hl. rewrite Nat2Z.inj_succ in Hl. unfold MaxInt64 in *.
    cbn [parseEnumNameLoop].
    destruct (Z.eqb_spec (simpleCollator_Compare ToLower collation n name) 0) as [E|E].
    + exists [], r. cbn [Name Value app List.length Z.of_nat].
      split; [reflexivity|]. split; [|split; [exact E|constructor]].
      unfold uint64. rewrite (Z.mod_small i) by lia. rewrite Z.mod_small by lia. lia.
    + specialize (IH (i + 1) ltac:(lia) ltac:(lia)).
      destruct (parseEnumNameLoop ToLower collation name r (i + 1)) as [e|].
      * destruct IH as (before & after & Hel & Hv & Hc & Hb).
        exists (n :: before), after. cbn [app List.length].
        rewrite Nat2Z.inj_succ. split; [rewrite Hel; reflexivity|].
        split; [lia|]. split; [exact Hc|]. constructor; assumption.
      * constructor; assumption.
Qed.

(** X11. [ParseEnumName] answers the first member of [elems] that the
    collator of [collation] compares equal to [name], with its 1-based
    position as the value, and fails with the zero enum exactly when no
    member compares equal.  The value it answers resolves back to the
    same enum through [ParseEnumValue]. *)
Theorem ParseEnumName_first_match (ToLower : string -> string)
  (elems : list string) (name collation : string) :
  Z.of_nat (List.length elems) <= MaxInt64 ->
  match ParseEnumName ToLower elems name collation with
  | (e, None) =>
      (exists before after,
         elems = before ++ Name e :: after /\
         Value e = Z.of_nat (List.length before) + 1 /\
         simpleCollator_Compare ToLower collation (Name e) name = 0 /\
         Forall (fun n => simpleCollator_Compare ToLower collation n name <> 0) before) /\
      ParseEnumValue elems (Value e) = (e, None)
  | (e, Some _) =>
      e = zeroEnum /\
      Forall (fun n => simpleCollator_Compare ToLower collation n name <> 0) elems
  end.
Proof.
  intros Hl. unfold ParseEnumName.
  pose proof (parseEnumNameLoop_spec ToLower collation name elems 0 ltac:(lia) ltac:(lia)) as S.
  destruct (parseEnumNameLoop ToLower collation name elems 0) as [e|]; [|auto].
  destruct S as (before & after & Hel & Hv & Hc & Hb).
  split; [exists before, after; rewrite Z.add_0_l in Hv; auto|].
  unfold ParseEnumValue. unfold MaxInt64 in Hl.
  assert (Hlen : Z.of_nat (List.length elems)
                 = Z.of_nat (List.length before) + 1 + Z.of_nat (List.length after)).
  { rewrite Hel, length_app. cbn [List.length]. lia. }
  unfold uint64. rewrite (Z.mod_small (Z.of_nat (List.length elems))) by lia.
  destruct (Z.eqb_spec (Value e) 0); [lia|].
  destruct (Z.gtb_spec (Value e) (Z.of_nat (List.length elems))); [lia|].
  cbn [orb]. f_equal. destruct e as [nm v]. cbn [Name Value] in *. f_equal.
  subst v. replace (Z.to_nat (0 + Z.of_nat (List.length before) + 1 - 1))
    with (List.length before) by lia.
  rewrite Hel. rewrite app_nth2 by lia. rewrite Nat.sub_diag. reflexivity.
Qed.

Lemma ParseEnumName_first_match_witness :
  match ParseEnumName (fun s => s) ["red"; "green"; "green"] "green" "utf8mb4_bin" with
  | (e, None) =>
      (exists before after,
         ["red"; "green"; "green"] = before ++ Name e :: after /\
         Value e = Z.of_nat (List.length before) + 1 /\
         simpleCollator_Compare (fun s => s) "utf8mb4_bin" (Name e) "green" = 0 /\
         Forall (fun n => simpleCollator_Compare (fun s => s) "utf8mb4_bin" n "green" <> 0)
           before) /\
      ParseEnumValue ["red"; "green"; "green"] (Value e) = (e, None)
  | (e, Some _) =>
      e = zeroEnum /\
      Forall (fun n => simpleCollator_Compare (fun s => s) "utf8mb4_bin" n "green" <> 0)
        ["red"; "green"; "green"]
  end.
Proof.
  apply (ParseEnumName_first_match (fun s => s) ["red"; "green"; "green"] "green" "utf8mb4_bin").
  vm_compute. discriminate.
Defined.

Lemma ParseSetValue_bitset_witness :
  ParseSetValue ["a"; "b"; "c"] 5 = Some (mkSet "a,c" 5, None).
Proof. apply (ParseSetValue_bitset ["a"; "b"; "c"] 5). lia. Defined.

(** ** Reading the tag back *)

Lemma getFspTt_setFspTt (t : Time) (k : Z) :
  0 <= k < 16 -> getFspTt (setFspTt t k) = k.
Proof.
  intros Hk. unfold getFspTt, setFspTt, not64, uint64. cbn [coreTime].
  rewrite (Z.mod_small k) by lia. rewrite mask_fspTt.
  rewrite (small_tag k Hk) at 2. rewrite (small_tag k Hk) at 1. Z.bitblast.
Qed.

Lemma low_bit_setFspTt (t : Time) (k : Z) :
  0 <= k < 16 -> Z.land (coreTime (setFspTt t k)) 1 = Z.land k 1.
Proof.
  intros Hk. unfold setFspTt, not64, uint64. cbn [coreTime].
  rewrite (Z.mod_small k) by lia. rewrite mask_fspTt.
  change 1 with (Z.ones 1). Z.bitblast.
Qed.

Lemma Type_setFspTt (t : Time) (k : Z) :
  0 <= k < 16 ->
  Time_Type (setFspTt t k) =
    if k =? fspTtForDate then mysql.TypeDate
    else if Z.land k 1 =? 1 then mysql.TypeTimestamp else mysql.TypeDatetime.
Proof.
  intros Hk. unfold Time_Type. rewrite getFspTt_setFspTt, low_bit_setFspTt by exact Hk.
  reflexivity.
Qed.

Lemma Fsp_setFspTt (t : Time) (k : Z) :
  0 <= k < 16 ->
  Time_Fsp (setFspTt t k) = if k =? fspTtForDate then 0 else Z.shiftr k 1.
Proof.
  intros Hk. unfold Time_Fsp. rewrite getFspTt_setFspTt by exact Hk. reflexivity.
Qed.

Lemma tag_cases (k : Z) :
  0 <= k < 16 ->
  k = 0 \/ k = 1 \/ k = 2 \/ k = 3 \/ k = 4 \/ k = 5 \/ k = 6 \/ k = 7 \/
  k = 8 \/ k = 9 \/ k = 10 \/ k = 11 \/ k = 12 \/ k = 13 \/ k = 14 \/ k = 15.
Proof. lia. Qed.

Ltac by_tag_cases H :=
  repeat (destruct H as [H|H]; [rewrite H; try (vm_compute; intuition congruence)|]);
  try (rewrite H; vm_compute; intuition congruence).

Lemma Type_Fsp_of_tag (t : Time) :
  Time_Type t =
    (if getFspTt t =? fspTtForDate then mysql.TypeDate
     else if Z.land (getFspTt t) 1 =? 1 then mysql.TypeTimestamp else mysql.TypeDatetime) /\
  Time_Fsp t = (if getFspTt t =? fspTtForDate then 0 else Z.shiftr (getFspTt t) 1).
Proof.
  unfold Time_Type, Time_Fsp. split; [|reflexivity].
  destruct (getFspTt t =? fspTtForDate); [reflexivity|].
  replace (Z.land (getFspTt t) 1) with (Z.land (coreTime t) 1); [reflexivity|].
  unfold getFspTt. rewrite mask_fspTt. change 1 with (Z.ones 1). Z.bitblast.
Qed.

(** X12. [SetType] and [SetFsp] can be read back.  For a time whose tag
    is not the unused pattern 1111: after [SetType(tp)] with one of the
    three temporal types, [Type()] answers [tp]; the fsp is kept, except
    that a date has fsp 0 and a time that was a date starts again from
    fsp 0.  On a time that is not a date, [SetFsp(fsp)] with fsp in 0..6
    makes [Fsp()] answer [fsp] and keeps the type ([-1] stores the
    default 0); on a date [SetFsp] does nothing. *)
Theorem SetType_SetFsp_read_back (t : Time) (tp fsp : Z) :
  getFspTt t <> 15 ->
  tp = mysql.TypeDate \/ tp = mysql.TypeDatetime \/ tp = mysql.TypeTimestamp ->
  MinFsp <= fsp <= MaxFsp ->
  Time_Type (SetType t tp) = tp /\
  Time_Fsp (SetType t tp) =
    (if (tp =? mysql.TypeDate) || (Time_Type t =? mysql.TypeDate) then 0 else Time_Fsp t) /\
  (Time_Type t <> mysql.TypeDate ->
     Time_Fsp (SetFsp t fsp) = fsp /\ Time_Type (SetFsp t fsp) = Time_Type t /\
     Time_Fsp (SetFsp t UnspecifiedFsp) = DefaultFsp) /\
  (Time_Type t = mysql.TypeDate -> SetFsp t fsp = t).
Proof.
  intros H15 Htp Hfsp.
  pose proof (getFspTt_range t) as Hg.
  destruct (SetType_tag_range t tp) as (k & Hk & Ek).
  destruct (Type_Fsp_of_tag t) as [ET EF].
  assert (Hset : getFspTt (SetType t tp) =
                 (let g := getFspTt t in
                  let g := if (g =? fspTtForDate) && negb (tp =? mysql.TypeDate) then 0 else g in
                  if tp =? mysql.TypeDate then fspTtForDate
                  else if tp =? mysql.TypeTimestamp then Z.lor g 1
                  else if tp =? mysql.TypeDatetime then Z.land g (not64 1)
                  else g)).
  { rewrite Ek, getFspTt_setFspTt by exact Hk.
    assert (E : setFspTt t k = SetType t tp) by (symmetry; exact Ek).
    unfold SetType in E. 
    apply (f_equal getFspTt) in E. rewrite getFspTt_setFspTt in E by exact Hk.
    rewrite E. apply getFspTt_setFspTt. cbv zeta.
    destruct ((getFspTt t =? fspTtForDate) && negb (tp =? mysql.TypeDate));
      destruct (tp =? mysql.TypeDate); try (unfold fspTtForDate; lia);
      destruct (tp =? mysql.TypeTimestamp); try (apply lor_tag_range; lia);
      destruct (tp =? mysql.TypeDatetime); try (apply land_tag_range; lia); lia. }
  destruct (Type_Fsp_of_tag (SetType t tp)) as [ET' EF'].
  rewrite ET', EF', Hset, ET.
  pose proof (tag_cases _ Hg) as Hc.
  split; [|split; [|split]].
  - destruct Htp as [-> | [-> | ->]]; by_tag_cases Hc.
  - destruct Htp as [-> | [-> | ->]]; rewrite EF; by_tag_cases Hc.
  - intros Hnd.
    assert (Hg14 : (getFspTt t =? fspTtForDate) = false).
    { destruct (getFspTt t =? fspTtForDate); [contradiction|reflexivity]. }
    assert (Hsf : forall f, MinFsp <= f <= MaxFsp ->
              SetFsp t f = setFspTt t (Z.lor (Z.land (getFspTt t) 1) (2 * f))).
    { intros f Hf. unfold SetFsp. rewrite Hg14.
      assert ((f =? UnspecifiedFsp) = false) as -> by (apply Z.eqb_neq; unfold MinFsp, UnspecifiedFsp in *; lia).
      apply Time_eq. unfold setFspTt, getFspTt, shl64, uint64, not64, fspBitFieldMask.
      cbn [coreTime]. rewrite mask_fspTt.
      unfold MinFsp, MaxFsp in Hf.
      rewrite (Z.mod_small f) by lia. rewrite Z.shiftl_mul_pow2 by lia.
      rewrite (Z.mod_small (f * 2 ^ 1)) by lia.
      assert (Hr : 0 <= Z.lor (Z.land (Z.land (coreTime t) (Z.ones 4)) 1) (2 * f) < 16).
      { apply lor_tag_range; [apply land_tag_range; apply tag_range | lia]. }
      rewrite (Z.mod_small _ (2 ^ 64)) by lia.
      replace (f * 2 ^ 1) with (2 * f) by lia.
      assert (Hf2 : 2 * f = Z.land (2 * f) 14).
      { assert (f = 0 \/ f = 1 \/ f = 2 \/ f = 3 \/ f = 4 \/ f = 5 \/ f = 6) as Hcf by lia.
        repeat (destruct Hcf as [->|Hcf]; [reflexivity|]). subst. reflexivity. }
      rewrite Hf2. change 14 with (Z.shiftl (Z.ones 3) 1). change 1 with (Z.ones 1) at 3.
      Z.bitblast. }
    assert (Hu : SetFsp t UnspecifiedFsp = SetFsp t 0) by reflexivity.
    rewrite Hu, !Hsf by (unfold MinFsp, MaxFsp in *; lia).
    assert (Hr : forall f, MinFsp <= f <= MaxFsp ->
              0 <= Z.lor (Z.land (getFspTt t) 1) (2 * f) < 16).
    { intros f Hf. unfold MinFsp, MaxFsp in Hf.
      apply lor_tag_range; [apply land_tag_range; exact Hg | lia]. }
    rewrite !Fsp_setFspTt, !Type_setFspTt by (apply Hr; unfold MinFsp, MaxFsp in *; lia).
    unfold MinFsp, MaxFsp in Hfsp.
    assert (fsp = 0 \/ fsp = 1 \/ fsp = 2 \/ fsp = 3 \/ fsp = 4 \/ fsp = 5 \/ fsp = 6) as Hcf by lia.
    revert Hnd. 
    repeat (destruct Hcf as [->|Hcf]; [by_tag_cases Hc|]). subst fsp. by_tag_cases Hc.
  - intros Hd. unfold SetFsp.
    destruct (getFspTt t =? fspTtForDate); [reflexivity|].
    exfalso. destruct (Z.land (getFspTt t) 1 =? 1); discriminate.
Qed.

Lemma SetType_SetFsp_read_back_witness :
  Time_Type (SetType (NewTime (FromDate 2020 1 2 3 4 5 6) mysql.TypeDatetime 3)
               mysql.TypeTimestamp) = mysql.TypeTimestamp /\
  Time_Fsp (SetType (NewTime (FromDate 2020 1 2 3 4 5 6) mysql.TypeDatetime 3)
              mysql.TypeTimestamp) = 3.
Proof.
  destruct (SetType_SetFsp_read_back
              (NewTime (FromDate 2020 1 2 3 4 5 6) mysql.TypeDatetime 3)
              mysql.TypeTimestamp 6) as (H1 & H2 & _).
  - vm_compute. discriminate.
  - right. right. reflexivity.
  - unfold MinFsp, MaxFsp. lia.
  - split; [exact H1 | exact H2].
Defined.

Lemma tagged_word (u k : Z) :
  0 <= k < 16 ->
  getFspTt (mkTime (Z.lor (Z.land u coreTimeBitFieldMask) k)) = k /\
  Z.land (Z.lor (Z.land u coreTimeBitFieldMask) k) 1 = Z.land k 1 /\
  Time_CoreTime (mkTime (Z.lor (Z.land u coreTimeBitFieldMask) k))
  = Z.land u coreTimeBitFieldMask.
Proof.
  intros Hk. unfold getFspTt, Time_CoreTime. cbn [coreTime].
  rewrite mask_fspTt, coreTimeBitFieldMask_bits.
  split; [|split].
  - rewrite (small_tag k Hk) at 2. rewrite (small_tag k Hk) at 1. Z.bitblast.
  - change 1 with (Z.ones 1). Z.bitblast.
  - rewrite (small_tag k Hk). Z.bitblast.
Qed.

Lemma NewTime_form (ct tp' fsp' : Z) :
  (fsp' = UnspecifiedFsp \/ 0 <= fsp' <= 7) ->
  exists k, 0 <= k < 16 /\
    NewTime ct tp' fsp' = mkTime (Z.lor (Z.land (uint64 ct) coreTimeBitFieldMask) k) /\
    k = if tp' =? mysql.TypeDate then 14
        else Z.lor (2 * (if fsp' =? UnspecifiedFsp then 0 else fsp'))
                   (if tp' =? mysql.TypeTimestamp then 1 else 0).
Proof.
  intros Hf. unfold NewTime. cbn [coreTime ZeroTime]. rewrite Z.lor_0_l.
  destruct (tp' =? mysql.TypeDate).
  - exists 14. split; [lia|]. split; reflexivity.
  - destruct (valid_fsp_shift fsp' Hf) as (k & Hk & Ek). rewrite Ek.
    assert (Ek2 : k = 2 * (if fsp' =? UnspecifiedFsp then 0 else fsp')).
    { rewrite <- Ek. destruct Hf as [->|Hf]; [reflexivity|].
      assert ((fsp' =? UnspecifiedFsp) = false) as ->
        by (apply Z.eqb_neq; unfold UnspecifiedFsp; lia).
      unfold shl64, uint64. rewrite (Z.mod_small fsp') by lia.
      rewrite Z.shiftl_mul_pow2 by lia. rewrite Z.mod_small by lia. lia. }
    destruct (tp' =? mysql.TypeTimestamp).
    + exists (Z.lor k 1). split; [apply lor_tag_range; lia|].
      split; [rewrite Z.lor_assoc; reflexivity | rewrite Ek2; reflexivity].
    + exists k. split; [exact Hk|]. split; [reflexivity|].
      rewrite Z.lor_0_r. exact Ek2.
Qed.

(** X13. What [NewTime] is given can be read back: for one of the three
    temporal types and an fsp in 0..6 (or the unspecified -1),
    [Type()] answers the type, [Fsp()] the fsp (0 for a date and for an
    unspecified fsp), and [CoreTime()] the core time with its 4 low bits
    cleared.  The tag 1110 is shared, though: a datetime built with fsp 7
    reads back as a date. *)
Theorem NewTime_read_back (ct tp fsp : Z) :
  tp = mysql.TypeDate \/ tp = mysql.TypeDatetime \/ tp = mysql.TypeTimestamp ->
  fsp = UnspecifiedFsp \/ MinFsp <= fsp <= MaxFsp ->
  Time_Type (NewTime ct tp fsp) = tp /\
  Time_Fsp (NewTime ct tp fsp) =
    (if (tp =? mysql.TypeDate) || (fsp =? UnspecifiedFsp) then 0 else fsp) /\
  Time_CoreTime (NewTime ct tp fsp) = Z.land (uint64 ct) coreTimeBitFieldMask /\
  Time_Type (NewTime ct mysql.TypeDatetime 7) = mysql.TypeDate.
Proof.
  intros Htp Hfsp.
  pose proof (NewTime_form ct) as Hform.
  assert (Hread : forall tp' fsp' k,
            0 <= k < 16 ->
            NewTime ct tp' fsp' = mkTime (Z.lor (Z.land (uint64 ct) coreTimeBitFieldMask) k) ->
            Time_Type (NewTime ct tp' fsp') =
              (if k =? fspTtForDate then mysql.TypeDate
               else if Z.land k 1 =? 1 then mysql.TypeTimestamp else mysql.TypeDatetime) /\
            Time_Fsp (NewTime ct tp' fsp') = (if k =? fspTtForDate then 0 else Z.shiftr k 1) /\
            Time_CoreTime (NewTime ct tp' fsp') = Z.land (uint64 ct) coreTimeBitFieldMask).
  { intros tp' fsp' k Hk E. rewrite E.
    destruct (tagged_word (uint64 ct) k Hk) as (G & B & C).
    unfold Time_Type, Time_Fsp. rewrite G. cbn [coreTime]. rewrite B. auto. }
  split; [|split; [|split]].
  - destruct (Hform tp fsp) as (k & Hk & E & Ev).
    { unfold MinFsp, MaxFsp in Hfsp. lia. }
    destruct (Hread tp fsp k Hk E) as (T & _ & _). rewrite T, Ev.
    unfold MinFsp, MaxFsp in Hfsp.
    destruct Hfsp as [-> | Hfsp].
    + destruct Htp as [-> | [-> | ->]]; reflexivity.
    + assert (fsp = 0 \/ fsp = 1 \/ fsp = 2 \/ fsp = 3 \/ fsp = 4 \/ fsp = 5 \/ fsp = 6)
        as Hcf by lia.
      destruct Htp as [-> | [-> | ->]];
        repeat (destruct Hcf as [->|Hcf]; [reflexivity|]); subst; reflexivity.
  - destruct (Hform tp fsp) as (k & Hk & E & Ev).
    { unfold MinFsp, MaxFsp in Hfsp. lia. }
    destruct (Hread tp fsp k Hk E) as (_ & F & _). rewrite F, Ev.
    unfold MinFsp, MaxFsp in Hfsp.
    destruct Hfsp as [-> | Hfsp].
    + destruct Htp as [-> | [-> | ->]]; reflexivity.
    + assert (fsp = 0 \/ fsp = 1 \/ fsp = 2 \/ fsp = 3 \/ fsp = 4 \/ fsp = 5 \/ fsp = 6)
        as Hcf by lia.
      destruct Htp as [-> | [-> | ->]];
        repeat (destruct Hcf as [->|Hcf]; [reflexivity|]); subst; reflexivity.
  - destruct (Hform tp fsp) as (k & Hk & E & Ev).
    { unfold MinFsp, MaxFsp in Hfsp. lia. }
    destruct (Hread tp fsp k Hk E) as (_ & _ & C). exact C.
  - destruct (Hform mysql.TypeDatetime 7) as (k & Hk & E & Ev); [right; lia|].
    destruct (Hread mysql.TypeDatetime 7 k Hk E) as (T & _ & _). rewrite T, Ev. reflexivity.
Qed.

Lemma NewTime_read_back_witness :
  Time_Type (NewTime (FromDate 2020 1 2 3 4 5 6) mysql.TypeTimestamp 6) = mysql.TypeTimestamp /\
  Time_Fsp (NewTime (FromDate 2020 1 2 3 4 5 6) mysql.TypeTimestamp 6) = 6.
Proof.
  destruct (NewTime_read_back (FromDate 2020 1 2 3 4 5 6) mysql.TypeTimestamp 6)
    as (H1 & H2 & _).
  - right. right. reflexivity.
  - right. unfold MinFsp, MaxFsp. lia.
  - split; [exact H1 | exact H2].
Defined.

(** ** Building a core time from checked fields *)

Lemma field_write (x w off : Z) :
  0 <= w -> 0 <= off -> off + w <= 64 -> 0 <= x < 2 ^ w ->
  Z.land (shl64 (uint64 x) off) (bitFieldMask w off) = x * 2 ^ off.
Proof.
  intros Hw Hoff Hsum Hx. unfold shl64, uint64, bitFieldMask.
  assert (2 ^ w <= 2 ^ 64) by (apply Z.pow_le_mono_r; lia).
  rewrite (Z.mod_small x) by lia.
  rewrite <- Z.shiftl_mul_pow2 by lia.
  assert (Ex : x = Z.land x (Z.ones w)).
  { rewrite Z.land_ones by lia. symmetry. apply Z.mod_small. lia. }
  rewrite Ex. rewrite <- (Z.land_ones (Z.shiftl _ _) 64) by lia. Z.bitblast.
Qed.

Lemma lor_add_high (a x off : Z) :
  0 <= off -> 0 <= a < 2 ^ off -> Z.lor a (x * 2 ^ off) = x * 2 ^ off + a.
Proof.
  intros Hoff Ha. rewrite Z.lor_comm, <- Z.shiftl_mul_pow2 by lia.
  rewrite lor_shiftl_add by lia. rewrite Z.shiftl_mul_pow2 by lia. reflexivity.
Qed.

Lemma FromDate_layout (y m d h mi s us : Z) :
  fieldsInRange y m d h mi s us ->
  FromDate y m d h mi s us
  = y * 2 ^ 50 + m * 2 ^ 46 + d * 2 ^ 41 + h * 2 ^ 36 + mi * 2 ^ 30 + s * 2 ^ 24 + us * 2 ^ 4.
Proof.
  intros [Hy Hm Hd Hh Hmi Hs Hus]. unfold FromDate.
  unfold yearBitFieldMask, monthBitFieldMask, dayBitFieldMask, hourBitFieldMask,
    minuteBitFieldMask, secondBitFieldMask, microsecondBitFieldMask,
    yearBitFieldOffset, monthBitFieldOffset, dayBitFieldOffset, hourBitFieldOffset,
    minuteBitFieldOffset, secondBitFieldOffset, microsecondBitFieldOffset,
    yearBitFieldWidth, monthBitFieldWidth, dayBitFieldWidth, hourBitFieldWidth,
    minuteBitFieldWidth, secondBitFieldWidth, microsecondBitFieldWidth, ZeroCoreTime.
  rewrite !field_write by lia.
  rewrite Z.lor_0_l.
  rewrite (lor_add_high _ s 24) by lia.
  rewrite (lor_add_high _ mi 30) by lia.
  rewrite (lor_add_high _ h 36) by lia.
  rewrite (lor_add_high _ d 41) by lia.
  rewrite (lor_add_high _ m 46) by lia.
  rewrite (lor_add_high _ y 50) by lia.
  lia.
Qed.

Lemma FromDate_in_core (y m d h mi s us : Z) :
  fieldsInRange y m d h mi s us ->
  Z.land (FromDate y m d h mi s us) coreTimeBitFieldMask = FromDate y m d h mi s us /\
  0 <= FromDate y m d h mi s us < 2 ^ 64.
Proof.
  intros F. rewrite coreTimeBitFieldMask_bits. rewrite (FromDate_layout y m d h mi s us F).
  destruct F as [Hy Hm Hd Hh Hmi Hs Hus].
  split; [|lia].
  replace (y * 2 ^ 50 + m * 2 ^ 46 + d * 2 ^ 41 + h * 2 ^ 36 + mi * 2 ^ 30
           + s * 2 ^ 24 + us * 2 ^ 4)
    with (Z.shiftl (y * 2 ^ 46 + m * 2 ^ 42 + d * 2 ^ 37 + h * 2 ^ 32 + mi * 2 ^ 26
                    + s * 2 ^ 20 + us) 4)
    by (rewrite Z.shiftl_mul_pow2 by lia; lia).
  set (q := y * 2 ^ 46 + m * 2 ^ 42 + d * 2 ^ 37 + h * 2 ^ 32 + mi * 2 ^ 26
            + s * 2 ^ 20 + us).
  assert (Hq : q = Z.land q (Z.ones 60)).
  { rewrite Z.land_ones by lia. symmetry. apply Z.mod_small. unfold q. lia. }
  rewrite Hq. Z.bitblast.
Qed.

Lemma FromDate_injective (y m d h mi s us y' m' d' h' mi' s' us' : Z) :
  fieldsInRange y m d h mi s us -> fieldsInRange y' m' d' h' mi' s' us' ->
  FromDate y' m' d' h' mi' s' us' = FromDate y m d h mi s us ->
  y' = y /\ m' = m /\ d' = d /\ h' = h /\ mi' = mi /\ s' = s /\ us' = us.
Proof.
  intros F F' E. rewrite !FromDate_layout in E by assumption.
  destruct F, F'. lia.
Qed.

Lemma FromDate_reads (y m d h mi s us : Z) :
  fieldsInRange y m d h mi s us ->
  Year (FromDate y m d h mi s us) = y /\ Month (FromDate y m d h mi s us) = m /\
  Day (FromDate y m d h mi s us) = d /\ Hour (FromDate y m d h mi s us) = h /\
  Minute (FromDate y m d h mi s us) = mi /\ Second (FromDate y m d h mi s us) = s /\
  Microsecond (FromDate y m d h mi s us) = us.
Proof.
  intros F.
  pose proof (CoreTime_fieldsInRange (FromDate y m d h mi s us)) as F'.
  pose proof (FromDate_fields (FromDate y m d h mi s us)) as E.
  rewrite (proj1 (FromDate_in_core y m d h mi s us F)) in E.
  destruct (FromDate_injective y m d h mi s us _ _ _ _ _ _ _ F F' E)
    as (E1 & E2 & E3 & E4 & E5 & E6 & E7).
  repeat split; assumption.
Qed.

Lemma uint64_out_of_field (x w : Z) :
  MinInt64 <= x <= MaxInt64 -> 0 <= w < 63 ->
  (uint64 x >=? Z.shiftl 1 w) = negb ((0 <=? x) && (x <? 2 ^ w)).
Proof.
  intros Hx Hw. unfold MinInt64, MaxInt64 in Hx. rewrite Z.shiftl_1_l.
  assert (2 ^ w < 2 ^ 63) by (apply Z.pow_lt_mono_r; lia).
  unfold uint64. rewrite Z.geb_leb.
  destruct (Z.leb_spec 0 x).
  - rewrite Z.mod_small by lia. cbn [andb].
    destruct (Z.leb_spec (2 ^ w) x), (Z.ltb_spec x (2 ^ w)); try reflexivity; lia.
  - cbn [andb negb].
    replace (x mod 2 ^ 64) with (x + 2 ^ 64).
    + apply Z.leb_le. lia.
    + apply Z.mod_unique with (-1); lia.
Qed.

(** X14. [FromDateChecked] accepts exactly the field tuples that fit the
    bit widths (year below 2^14, month 2^4, day and hour 2^5, minute
    and second 2^6, microsecond 2^20; a negative field never fits) and
    answers the zero core time with [false] for any other.  An accepted
    tuple is laid out field by field above the 4 tag bits, so two
    accepted tuples with the same core time are the same tuple, and each
    accessor reads its field back. *)
Theorem FromDateChecked_accepts_fitting_fields (y m d h mi s us : Z) :
  MinInt64 <= y <= MaxInt64 -> MinInt64 <= m <= MaxInt64 -> MinInt64 <= d <= MaxInt64 ->
  MinInt64 <= h <= MaxInt64 -> MinInt64 <= mi <= MaxInt64 -> MinInt64 <= s <= MaxInt64 ->
  MinInt64 <= us <= MaxInt64 ->
  (fieldsInRange y m d h mi s us ->
     FromDateChecked y m d h mi s us
     = (y * 2 ^ 50 + m * 2 ^ 46 + d * 2 ^ 41 + h * 2 ^ 36 + mi * 2 ^ 30 + s * 2 ^ 24
        + us * 2 ^ 4, true) /\
     (forall y' m' d' h' mi' s' us',
        fieldsInRange y' m' d' h' mi' s' us' ->
        FromDate y' m' d' h' mi' s' us' = FromDate y m d h mi s us ->
        y' = y /\ m' = m /\ d' = d /\ h' = h /\ mi' = mi /\ s' = s /\ us' = us) /\
     Year (FromDate y m d h mi s us) = y /\ Month (FromDate y m d h mi s us) = m /\
     Day (FromDate y m d h mi s us) = d /\ Hour (FromDate y m d h mi s us) = h /\
     Minute (FromDate y m d h mi s us) = mi /\ Second (FromDate y m d h mi s us) = s /\
     Microsecond (FromDate y m d h mi s us) = us) /\
  (~ fieldsInRange y m d h mi s us ->
     FromDateChecked y m d h mi s us = (ZeroCoreTime, false)).
Proof.
  intros Ry Rm Rd Rh Rmi Rs Rus.
  assert (Htest :
    ((uint64 y >=? Z.shiftl 1 yearBitFieldWidth)
     || (uint64 m >=? Z.shiftl 1 monthBitFieldWidth)
     || (uint64 d >=? Z.shiftl 1 dayBitFieldWidth)
     || (uint64 h >=? Z.shiftl 1 hourBitFieldWidth)
     || (uint64 mi >=? Z.shiftl 1 minuteBitFieldWidth)
     || (uint64 s >=? Z.shiftl 1 secondBitFieldWidth)
     || (uint64 us >=? Z.shiftl 1 microsecondBitFieldWidth)) = true
    <-> ~ fieldsInRange y m d h mi s us).
  { unfold yearBitFieldWidth, monthBitFieldWidth, dayBitFieldWidth, hourBitFieldWidth,
      minuteBitFieldWidth, secondBitFieldWidth, microsecondBitFieldWidth.
    rewrite !uint64_out_of_field by lia.
    split.
    - intros Ht [Hy Hm Hd Hh Hmi Hs Hus]. lia.
    - intros Hn.
      match goal with |- ?b = true => destruct b eqn:T end; [reflexivity|].
      exfalso. apply Hn. constructor; lia. }
  split.
  - intros F. unfold FromDateChecked.
    destruct (_ || _) eqn:T.
    + exfalso. apply (proj1 Htest); [reflexivity | exact F].
    + split; [rewrite FromDate_layout by exact F; reflexivity|]. split.
      * intros y' m' d' h' mi' s' us' F' E.
        apply (FromDate_injective y m d h mi s us); assumption.
      * apply FromDate_reads. exact F.
  - intros Hn. unfold FromDateChecked. rewrite (proj2 Htest Hn). reflexivity.
Qed.

Lemma FromDateChecked_accepts_fitting_fields_witness :
  FromDateChecked 2020 1 2 3 4 5 6
  = (2020 * 2 ^ 50 + 1 * 2 ^ 46 + 2 * 2 ^ 41 + 3 * 2 ^ 36 + 4 * 2 ^ 30 + 5 * 2 ^ 24 + 6 * 2 ^ 4,
     true) /\
  FromDateChecked 2020 1 2 3 4 64 0 = (ZeroCoreTime, false).
Proof.
  split.
  - apply (FromDateChecked_accepts_fitting_fields 2020 1 2 3 4 5 6);
      try (unfold MinInt64, MaxInt64; lia).
    constructor; lia.
  - apply (FromDateChecked_accepts_fitting_fields 2020 1 2 3 4 64 0);
      try (unfold MinInt64, MaxInt64; lia).
    intros [_ _ _ _ _ H _]. lia.
Defined.

(** ** The range of a parsed duration *)

Lemma MaxTime_value : MaxTime = 3020399000000000 /\ MinTime = -3020399000000000.
Proof. split; reflexivity. Qed.

Lemma TruncateOverflowMySQLTime_range (d : Z) :
  MinTime <= fst (TruncateOverflowMySQLTime d) <= MaxTime.
Proof.
  unfold TruncateOverflowMySQLTime. destruct MaxTime_value as [-> ->].
  destruct (Z.gtb_spec d 3020399000000000); [cbn; lia|].
  destruct (Z.ltb_spec d (-3020399000000000)); cbn; lia.
Qed.

Lemma zero_in_range : MinTime <= 0 <= MaxTime.
Proof. vm_compute. split; discriminate. Qed.

Lemma bounds_in_range :
  MinTime <= MinTime <= MaxTime /\ MinTime <= MaxTime <= MaxTime.
Proof. vm_compute. repeat split; discriminate. Qed.

Lemma matchDuration_range (str : string) (fsp : Z) :
  MinTime <= duration (fst (fst (matchDuration str fsp))) <= MaxTime.
Proof.
  pose proof zero_in_range as Z0. destruct bounds_in_range as [Bmin Bmax].
  unfold matchDuration.
  destruct (CheckFsp fsp) as [fsp' [e|]]; [exact Z0|].
  destruct (len str =? 0); [exact Z0|].
  destruct (isNegativeDuration str) as [negative rest].
  destruct (matchAnyHHMMSS (Space0 rest)) as [[hhmmss rest']|]; [|exact Z0].
  destruct (matchFrac (Space0 rest') fsp') as [[[overflow frac] rest''] [e|]]; [exact Z0|].
  destruct ((len rest'' >? 0) && (len (Space0 rest) >=? 12)); [exact Z0|].
  destruct (if overflow then (hhmmssAddOverflow hhmmss, 0) else (hhmmss, frac)) as [v frac'].
  destruct (negb (checkHHMMSS v)); [exact Z0|].
  destruct v as [[h m] s].
  destruct (h >? TimeMaxHour).
  { cbn [fst duration]. destruct negative; assumption. }
  match goal with
  | |- context [TruncateOverflowMySQLTime ?d] =>
      pose proof (TruncateOverflowMySQLTime_range d) as R;
      destruct (TruncateOverflowMySQLTime d) as [d' [e|]]
  end.
  - exact R.
  - destruct (len rest'' >? 0); exact R.
Qed.

Lemma CheckFsp_ok_range (fsp f : Z) : CheckFsp fsp = (f, None) -> MinFsp <= f <= MaxFsp.
Proof.
  unfold CheckFsp, MinFsp, MaxFsp, UnspecifiedFsp, DefaultFsp.
  destruct (Z.eqb_spec fsp (-1)); [intros Q; inversion Q; lia|].
  destruct (Z.ltb_spec fsp 0); [discriminate|].
  destruct (Z.gtb_spec fsp 6); intros Q; inversion Q; lia.
Qed.

Lemma ConvertToDuration_range (t : Time) :
  0 <= duration (Time_ConvertToDuration t) <= 115443000000000 + 1048575000.
Proof.
  unfold Time_ConvertToDuration. destruct (IsZero t); [cbn; lia|].
  cbn [duration].
  pose proof (CoreTime_fieldsInRange (coreTime t)) as [_ _ _ Hh Hm Hs Hus].
  unfold gotime.Second, gotime.Millisecond, gotime.Microsecond, gotime.Nanosecond.
  unfold int64.
  set (a := (Hour (coreTime t) * 3600 + Minute (coreTime t) * 60 + Second (coreTime t))
            * (1000 * (1000 * (1000 * 1)))).
  assert (Ha : 0 <= a <= 115443000000000) by (unfold a; lia).
  replace ((a + 2 ^ 63) mod 2 ^ 64 - 2 ^ 63) with a
    by (rewrite Z.mod_small by lia; lia).
  rewrite Z.mod_small by lia. lia.
Qed.

Lemma RoundFrac_range (Local : gotime.Location) (d : Duration) (fsp : Z)
  (loc : option gotime.Location) :
  0 <= duration d <= 115443000000000 + 1048575000 ->
  - 1000000000 <= duration (fst (Duration_RoundFrac Local d fsp loc))
  <= 115443000000000 + 1048575000 + 1000000000.
Proof.
  intros Hd. unfold Duration_RoundFrac.
  destruct (CheckFsp fsp) as [f [e|]] eqn:E; [cbn; lia|].
  apply CheckFsp_ok_range in E. unfold MinFsp, MaxFsp in E.
  destruct (f =? Fsp d); [cbn; lia|].
  cbn [fst duration].
  generalize (gotime.Date 0 0 0 0 0 0 0 match loc with Some l => l | None => Local end).
  intros n.
  assert (Hu : exists u, int64 (10 ^ (9 - f) * gotime.Nanosecond) = u /\ 0 < u <= 1000000000).
  { assert (f = 0 \/ f = 1 \/ f = 2 \/ f = 3 \/ f = 4 \/ f = 5 \/ f = 6) as Hc by lia.
    repeat (destruct Hc as [->|Hc]; [eexists; split; [vm_compute; reflexivity|lia]|]).
    subst. eexists; split; [vm_compute; reflexivity|lia]. }
  destruct Hu as (u & -> & Hu).
  unfold gotime.Round, gotime.Add, gotime.Sub. cbn [gotime.instant gotime.zone].
  destruct (Z.leb_spec u 0); [lia|].
  pose proof (Z.mod_pos_bound (gotime.instant n + duration d) u ltac:(lia)) as Hr.
  set (r := (gotime.instant n + duration d) mod u) in *.
  unfold MaxInt64, MinInt64.
  destruct (r + r <? u); cbn [gotime.instant];
    match goal with
    | |- context [?x >? 2 ^ 63 - 1] =>
        destruct (Z.gtb_spec x (2 ^ 63 - 1)); [lia|];
        destruct (Z.ltb_spec x (- 2 ^ 63)); [lia|]; lia
    end.
Qed.

(** X15. A parsed duration never leaves the range of the TIME type:
    whatever the string, the fsp and the context, and whether the call
    succeeds or not, the duration [ParseDuration] answers lies between
    -838:59:59 and 838:59:59. *)
Theorem ParseDuration_within_TIME_range (Local : gotime.Location) (ctx : StmtContext)
  (str : string) (fsp : Z) :
  MinTime <= duration (snd (fst (fst (ParseDuration Local ctx str fsp)))) <= MaxTime.
Proof.
  unfold ParseDuration.
  pose proof (matchDuration_range (TrimSpace str) fsp) as M.
  destruct (matchDuration (TrimSpace str) fsp) as [[d isNull] [e|]]; [|exact M].
  cbn [fst] in M.
  destruct (negb (canFallbackToDateTime (TrimSpace str))); [exact M|].
  destruct (ParseDatetime ctx (TrimSpace str)) as [[ctx' datetime] [e'|]];
    [apply zero_in_range|].
  pose proof (RoundFrac_range Local (Time_ConvertToDuration datetime) fsp
                (Some (StmtContext_Location ctx')) (ConvertToDuration_range datetime)) as R.
  destruct (Duration_RoundFrac Local (Time_ConvertToDuration datetime) fsp
              (Some (StmtContext_Location ctx'))) as [d' err].
  cbn [fst snd] in *. destruct MaxTime_value as [-> ->]. lia.
Qed.

(** ** The fields of a duration *)

Lemma gotime_units :
  gotime.Hour = 3600000000000 /\ gotime.Minute = 60000000000 /\
  gotime.Second = 1000000000 /\ gotime.Microsecond = 1000.
Proof. repeat split; reflexivity. Qed.

Lemma int64_small (z : Z) : MinInt64 <= z <= MaxInt64 -> int64 z = z.
Proof.
  unfold MinInt64, MaxInt64, int64. intros H. rewrite Z.mod_small by lia. lia.
Qed.

Lemma quot_step (a q : Z) :
  0 <= a -> 0 < q ->
  0 <= Z.quot a q /\ Z.quot a q * q <= a /\ 0 <= a - Z.quot a q * q < q.
Proof.
  intros Ha Hq. rewrite Z.quot_div_nonneg by lia.
  pose proof (Z.div_mod a q ltac:(lia)). pose proof (Z.mod_pos_bound a q Hq).
  pose proof (Z.div_pos a q Ha Hq). nia.
Qed.

Lemma splitDuration_nonneg (a : Z) :
  0 <= a <= MaxInt64 ->
  let h := Z.quot a 3600000000000 in
  let r1 := a - h * 3600000000000 in
  let m := Z.quot r1 60000000000 in
  let r2 := r1 - m * 60000000000 in
  let s := Z.quot r2 1000000000 in
  let r3 := r2 - s * 1000000000 in
  let f := Z.quot r3 1000 in
  splitDuration a = (1, h, m, s, f) /\
  0 <= h /\ 0 <= m < 60 /\ 0 <= s < 60 /\ 0 <= f < 1000000 /\
  a = h * 3600000000000 + m * 60000000000 + s * 1000000000 + f * 1000 + a mod 1000.
Proof.
  intros Ha. cbv zeta. unfold MaxInt64 in Ha.
  destruct (quot_step a 3600000000000 ltac:(lia) ltac:(lia)) as (H0 & H1 & H2).
  set (h := Z.quot a 3600000000000) in *.
  set (r1 := a - h * 3600000000000) in *.
  destruct (quot_step r1 60000000000 ltac:(lia) ltac:(lia)) as (M0 & M1 & M2).
  set (m := Z.quot r1 60000000000) in *.
  set (r2 := r1 - m * 60000000000) in *.
  destruct (quot_step r2 1000000000 ltac:(lia) ltac:(lia)) as (S0 & S1 & S2).
  set (s := Z.quot r2 1000000000) in *.
  set (r3 := r2 - s * 1000000000) in *.
  destruct (quot_step r3 1000 ltac:(lia) ltac:(lia)) as (F0 & F1 & F2).
  set (f := Z.quot r3 1000) in *.
  split.
  - unfold splitDuration. destruct gotime_units as (-> & -> & -> & ->).
    destruct (Z.ltb_spec a 0); [lia|].
    fold h. rewrite (int64_small (h * 3600000000000)) by (unfold MinInt64, MaxInt64; lia).
    rewrite (int64_small (a - h * 3600000000000)) by (unfold MinInt64, MaxInt64; lia).
    fold r1. fold m.
    rewrite (int64_small (m * 60000000000)) by (unfold MinInt64, MaxInt64; lia).
    rewrite (int64_small (r1 - m * 60000000000)) by (unfold MinInt64, MaxInt64; lia).
    fold r2. fold s.
    rewrite (int64_small (s * 1000000000)) by (unfold MinInt64, MaxInt64; lia).
    rewrite (int64_small (r2 - s * 1000000000)) by (unfold MinInt64, MaxInt64; lia).
    reflexivity.
  - assert (Hmod : a mod 1000 = r3 - f * 1000).
    { symmetry. apply Z.mod_unique with (h * 3600000000 + m * 60000000 + s * 1000000 + f).
      - lia.
      - unfold r3, r2, r1. lia. }
    repeat split; lia.
Qed.

(** X16. [splitDuration] takes a duration apart into sign, hours,
    minutes, seconds and microseconds: for every duration but the
    smallest [int64], the minutes and seconds are below 60, the
    microseconds below 1000000, the hours are not negative, and together
    with what is left below one microsecond they add up to the magnitude
    of the duration. *)
Theorem splitDuration_decomposes (t : Z) :
  MinInt64 < t <= MaxInt64 ->
  let '(sign, h, m, s, f) := splitDuration t in
  sign = (if t <? 0 then -1 else 1) /\
  0 <= h /\ 0 <= m < 60 /\ 0 <= s < 60 /\ 0 <= f < 1000000 /\
  Z.abs t = h * gotime.Hour + m * gotime.Minute + s * gotime.Second
            + f * gotime.Microsecond + Z.abs t mod 1000.
Proof.
  intros Ht. unfold MinInt64, MaxInt64 in Ht.
  destruct gotime_units as (EH & EM & ES & EU).
  destruct (Z.ltb_spec t 0) as [Hneg|Hpos].
  - pose proof (splitDuration_nonneg (- t) ltac:(unfold MaxInt64; lia)) as S.
    cbv zeta in S. destruct S as (E & S).
    assert (Es : splitDuration t =
                 let '(_, h, m, s, f) := splitDuration (- t) in (-1, h, m, s, f)).
    { unfold splitDuration. destruct (Z.ltb_spec t 0); [|lia].
      destruct (Z.ltb_spec (- t) 0); [lia|].
      rewrite (int64_small (- t)) by (unfold MinInt64, MaxInt64; lia). reflexivity. }
    rewrite E in Es.
    rewrite Es. rewrite EH, EM, ES, EU. rewrite Z.abs_neq by lia.
    split; [reflexivity|]. exact S.
  - pose proof (splitDuration_nonneg t ltac:(unfold MaxInt64; lia)) as S.
    cbv zeta in S. destruct S as (E & S). rewrite E.
    rewrite EH, EM, ES, EU. rewrite Z.abs_eq by lia.
    split; [reflexivity|]. exact S.
Qed.

Lemma splitDuration_decomposes_witness :
  let '(sign, h, m, s, f) := splitDuration (-3723000001500) in
  sign = -1 /\
  0 <= h /\ 0 <= m < 60 /\ 0 <= s < 60 /\ 0 <= f < 1000000 /\
  Z.abs (-3723000001500) = h * gotime.Hour + m * gotime.Minute + s * gotime.Second
            + f * gotime.Microsecond + Z.abs (-3723000001500) mod 1000.
Proof.
  apply (splitDuration_decomposes (-3723000001500)). unfold MinInt64, MaxInt64. lia.
Defined.

Lemma quot_unique (x q r : Z) : 0 <= x -> 0 <= r < q -> Z.quot (x * q + r) q = x.
Proof.
  intros Hx Hr. rewrite Z.quot_div_nonneg by nia.
  symmetry. apply Z.div_unique with r; lia.
Qed.

Lemma splitDuration_fields (h m s us : Z) :
  0 <= h <= 2562046 -> 0 <= m < 60 -> 0 <= s < 60 -> 0 <= us < 1000000 ->
  splitDuration (h * 3600000000000 + m * 60000000000 + s * 1000000000 + us * 1000)
  = (1, h, m, s, us).
Proof.
  intros Hh Hm Hs Hus.
  set (a := h * 3600000000000 + m * 60000000000 + s * 1000000000 + us * 1000).
  destruct (splitDuration_nonneg a ltac:(unfold a, MaxInt64; lia)) as (E & _).
  cbv zeta in E. rewrite E.
  assert (E1 : Z.quot a 3600000000000 = h).
  { unfold a. replace (h * 3600000000000 + m * 60000000000 + s * 1000000000 + us * 1000)
      with (h * 3600000000000 + (m * 60000000000 + s * 1000000000 + us * 1000)) by lia.
    apply quot_unique; lia. }
  rewrite E1.
  assert (E2 : a - h * 3600000000000 = m * 60000000000 + (s * 1000000000 + us * 1000))
    by (unfold a; lia).
  rewrite E2. rewrite (quot_unique m 60000000000) by lia.
  replace (m * 60000000000 + (s * 1000000000 + us * 1000) - m * 60000000000)
    with (s * 1000000000 + us * 1000) by lia.
  rewrite (quot_unique s 1000000000) by lia.
  replace (s * 1000000000 + us * 1000 - s * 1000000000) with (us * 1000 + 0) by lia.
  rewrite (quot_unique us 1000) by lia. reflexivity.
Qed.

Lemma splitDuration_opp (a : Z) :
  0 < a <= MaxInt64 ->
  splitDuration (- a) = let '(_, h, m, s, f) := splitDuration a in (-1, h, m, s, f).
Proof.
  intros Ha. unfold MaxInt64 in Ha. unfold splitDuration.
  destruct (Z.ltb_spec (- a) 0); [|lia]. destruct (Z.ltb_spec a 0); [lia|].
  rewrite Z.opp_involutive.
  rewrite (int64_small a) by (unfold MinInt64, MaxInt64; lia). reflexivity.
Qed.

Lemma NewDuration_value (h m s us fsp : Z) :
  0 <= h <= 2562046 -> 0 <= m < 60 -> 0 <= s < 60 -> 0 <= us < 1000000 ->
  duration (NewDuration h m s us fsp)
  = h * 3600000000000 + m * 60000000000 + s * 1000000000 + us * 1000.
Proof.
  intros Hh Hm Hs Hus. unfold NewDuration. cbn [duration].
  destruct gotime_units as (-> & -> & -> & ->).
  rewrite (int64_small (h * _)) by (unfold MinInt64, MaxInt64; lia).
  rewrite (int64_small (m * _)) by (unfold MinInt64, MaxInt64; lia).
  rewrite (int64_small (s * _)) by (unfold MinInt64, MaxInt64; lia).
  rewrite (int64_small (us * _)) by (unfold MinInt64, MaxInt64; lia).
  rewrite (int64_small (h * _ + m * _)) by (unfold MinInt64, MaxInt64; lia).
  rewrite (int64_small (h * _ + m * _ + s * _)) by (unfold MinInt64, MaxInt64; lia).
  rewrite int64_small by (unfold MinInt64, MaxInt64; lia). reflexivity.
Qed.

(** X17. The fields given to [NewDuration] are read back by [Hour],
    [Minute], [Second] and [MicroSecond] (hours up to 2562046, minutes
    and seconds below 60, microseconds below 1000000), and [Neg] changes
    the sign only: the negated duration has the same four fields and
    negating twice gives the duration back.  [MaxMySQLDuration] is
    838:59:59, the upper end of the TIME range. *)
Theorem NewDuration_fields_read_back (h m s us fsp : Z) :
  0 <= h <= 2562046 -> 0 <= m < 60 -> 0 <= s < 60 -> 0 <= us < 1000000 ->
  let d := NewDuration h m s us fsp in
  (Duration_Hour d = h /\ Duration_Minute d = m /\ Duration_Second d = s /\
   Duration_MicroSecond d = us /\ Fsp d = fsp) /\
  (Duration_Hour (Duration_Neg d) = h /\ Duration_Minute (Duration_Neg d) = m /\
   Duration_Second (Duration_Neg d) = s /\ Duration_MicroSecond (Duration_Neg d) = us /\
   duration (Duration_Neg d) = - duration d /\ Duration_Neg (Duration_Neg d) = d) /\
  duration (MaxMySQLDuration fsp) = MaxTime.
Proof.
  intros Hh Hm Hs Hus d.
  pose proof (NewDuration_value h m s us fsp Hh Hm Hs Hus) as V. fold d in V.
  pose proof (splitDuration_fields h m s us Hh Hm Hs Hus) as S. rewrite <- V in S.
  assert (Hd : 0 <= duration d <= 9223369199999999000) by (rewrite V; lia).
  split; [|split].
  - unfold Duration_Hour, Duration_Minute, Duration_Second, Duration_MicroSecond.
    rewrite S. repeat split; reflexivity.
  - assert (En : duration (Duration_Neg d) = - duration d).
    { unfold Duration_Neg. cbn [duration]. apply int64_small. unfold MinInt64, MaxInt64. lia. }
    assert (Sn : splitDuration (duration (Duration_Neg d))
                 = (if duration d =? 0 then 1 else -1, h, m, s, us)).
    { rewrite En.
      destruct (Z.eqb_spec (duration d) 0) as [E0|E0].
      - rewrite E0 in *. cbn [Z.opp]. exact S.
      - rewrite (splitDuration_opp (duration d)) by (unfold MaxInt64; lia).
        rewrite S. reflexivity. }
    unfold Duration_Hour, Duration_Minute, Duration_Second, Duration_MicroSecond.
    rewrite Sn. repeat split; try reflexivity; [exact En|].
    unfold Duration_Neg at 1. rewrite En. cbn [Fsp]. rewrite Z.opp_involutive.
    rewrite int64_small by (unfold MinInt64, MaxInt64; lia).
    destruct d; reflexivity.
  - reflexivity.
Qed.

Lemma NewDuration_fields_read_back_witness :
  Duration_Hour (NewDuration 838 59 59 999999 6) = 838 /\
  Duration_MicroSecond (Duration_Neg (NewDuration 838 59 59 999999 6)) = 999999.
Proof.
  destruct (NewDuration_fields_read_back 838 59 59 999999 6) as (A & B & _);
    [lia | lia | lia | lia |].
  split; [apply A | apply B].
Defined.

(** ** Durations from numbers *)

Lemma hhmmss_digits (h m s : Z) :
  0 <= h -> 0 <= m < 60 -> 0 <= s < 60 ->
  Z.quot (h * 10000 + m * 100 + s) 10000 = h /\
  Z.rem (Z.quot (h * 10000 + m * 100 + s) 100) 100 = m /\
  Z.rem (h * 10000 + m * 100 + s) 100 = s.
Proof.
  intros Hh Hm Hs.
  split; [|split].
  - replace (h * 10000 + m * 100 + s) with (h * 10000 + (m * 100 + s)) by lia.
    apply quot_unique; lia.
  - replace (h * 10000 + m * 100 + s) with ((h * 100 + m) * 100 + s) by lia.
    rewrite quot_unique by lia. rewrite Z.rem_mod_nonneg by lia.
    symmetry. apply Z.mod_unique with h; lia.
  - rewrite Z.rem_mod_nonneg by lia.
    symmetry. apply Z.mod_unique with (h * 100 + m); lia.
Qed.

Lemma digits_of_number (n : Z) :
  0 <= n ->
  0 <= Z.quot n 10000 /\ 0 <= Z.rem (Z.quot n 100) 100 < 100 /\ 0 <= Z.rem n 100 < 100 /\
  n = Z.quot n 10000 * 10000 + Z.rem (Z.quot n 100) 100 * 100 + Z.rem n 100.
Proof.
  intros Hn.
  rewrite !Z.quot_div_nonneg by lia.
  assert (0 <= n / 100) by (apply Z.div_pos; lia).
  rewrite !Z.rem_mod_nonneg by lia.
  pose proof (Z.div_mod n 100 ltac:(lia)).
  pose proof (Z.mod_pos_bound n 100 ltac:(lia)).
  pose proof (Z.div_mod (n / 100) 100 ltac:(lia)).
  pose proof (Z.mod_pos_bound (n / 100) 100 ltac:(lia)).
  assert (n / 10000 = n / 100 / 100) by (rewrite Z.div_div by lia; reflexivity).
  assert (0 <= n / 10000) by (apply Z.div_pos; lia).
  lia.
Qed.

Lemma NumberToDuration_small (n fsp : Z) :
  0 <= n <= TimeMaxValue ->
  NumberToDuration n fsp =
    if (Z.quot n 10000 >? TimeMaxHour) || (Z.rem n 100 >=? 60)
       || (Z.rem (Z.quot n 100) 100 >=? 60)
    then (ZeroDuration,
          errors.Trace (Some (TError_GenWithStackByArgs ErrTruncatedWrongVal
                                [AStr TimeStr; AStr (FormatInt n)])))
    else (NewDuration (Z.quot n 10000) (Z.rem (Z.quot n 100) 100) (Z.rem n 100) 0 fsp, None).
Proof.
  intros Hn. unfold NumberToDuration.
  assert (ET : TimeMaxValue = 8385959) by reflexivity.
  destruct (Z.gtb_spec n TimeMaxValue); [lia|].
  destruct (Z.ltb_spec n (- TimeMaxValue)); [lia|].
  destruct (Z.ltb_spec n 0); [lia|]. reflexivity.
Qed.

Lemma NumberToDuration_small_neg (n fsp : Z) :
  0 < n <= TimeMaxValue ->
  NumberToDuration (- n) fsp =
    if (Z.quot n 10000 >? TimeMaxHour) || (Z.rem n 100 >=? 60)
       || (Z.rem (Z.quot n 100) 100 >=? 60)
    then (ZeroDuration,
          errors.Trace (Some (TError_GenWithStackByArgs ErrTruncatedWrongVal
                                [AStr TimeStr; AStr (FormatInt n)])))
    else (Duration_Neg
            (NewDuration (Z.quot n 10000) (Z.rem (Z.quot n 100) 100) (Z.rem n 100) 0 fsp),
          None).
Proof.
  intros Hn. unfold NumberToDuration.
  assert (ET : TimeMaxValue = 8385959) by reflexivity.
  destruct (Z.gtb_spec (- n) TimeMaxValue); [lia|].
  destruct (Z.ltb_spec (- n) (- TimeMaxValue)); [lia|].
  destruct (Z.ltb_spec (- n) 0); [|lia].
  rewrite Z.opp_involutive. rewrite (int64_small n) by (unfold MinInt64, MaxInt64; lia).
  reflexivity.
Qed.

(** X18. [NumberToDuration] reads a number as the digits HHMMSS: for
    hours up to 838 and minutes and seconds below 60 it answers the
    duration with those fields, and the negated duration for the
    negated number, without error.  Whatever the number, also when it is
    rejected or read as a datetime, the duration answered lies within
    the TIME range of -838:59:59 to 838:59:59. *)
Theorem NumberToDuration_reads_hhmmss (h m s number fsp : Z) :
  0 <= h <= TimeMaxHour -> 0 <= m < 60 -> 0 <= s < 60 ->
  MinInt64 <= number <= MaxInt64 ->
  NumberToDuration (h * 10000 + m * 100 + s) fsp = (NewDuration h m s 0 fsp, None) /\
  (0 < h * 10000 + m * 100 + s ->
   NumberToDuration (- (h * 10000 + m * 100 + s)) fsp
   = (Duration_Neg (NewDuration h m s 0 fsp), None)) /\
  MinTime <= duration (fst (NumberToDuration number fsp)) <= MaxTime.
Proof.
  intros Hh Hm Hs Hnum. change TimeMaxHour with 838 in Hh.
  destruct (hhmmss_digits h m s ltac:(lia) Hm Hs) as (Eh & Em & Es).
  assert (Htest : (Z.quot (h * 10000 + m * 100 + s) 10000 >? TimeMaxHour)
                  || (Z.rem (h * 10000 + m * 100 + s) 100 >=? 60)
                  || (Z.rem (Z.quot (h * 10000 + m * 100 + s) 100) 100 >=? 60) = false).
  { rewrite Eh, Em, Es. change TimeMaxHour with 838. rewrite !Z.geb_leb.
    destruct (Z.gtb_spec h 838); [lia|]. destruct (Z.leb_spec 60 s); [lia|].
    destruct (Z.leb_spec 60 m); [lia|]. reflexivity. }
  split; [|split].
  - rewrite NumberToDuration_small by (change TimeMaxValue with 8385959; lia).
    rewrite Htest, Eh, Em, Es. reflexivity.
  - intros Hpos.
    rewrite NumberToDuration_small_neg by (change TimeMaxValue with 8385959; lia).
    rewrite Htest, Eh, Em, Es. reflexivity.
  - clear h m s Hh Hm Hs Eh Em Es Htest.
    destruct MaxTime_value as [EMax EMin].
    assert (Hmax : forall f, duration (MaxMySQLDuration f) = MaxTime) by reflexivity.
    assert (Hfit : forall n f, 0 <= n <= TimeMaxValue ->
              (Z.quot n 10000 >? TimeMaxHour) || (Z.rem n 100 >=? 60)
              || (Z.rem (Z.quot n 100) 100 >=? 60) = false ->
              0 <= duration (NewDuration (Z.quot n 10000) (Z.rem (Z.quot n 100) 100)
                               (Z.rem n 100) 0 f) <= MaxTime).
    { intros n f Hn T. change TimeMaxHour with 838 in T. rewrite !Z.geb_leb in T.
      destruct (digits_of_number n ltac:(lia)) as (D1 & D2 & D3 & _).
      destruct (Z.gtb_spec (Z.quot n 10000) 838); [discriminate|].
      destruct (Z.leb_spec 60 (Z.rem n 100)); [discriminate|].
      destruct (Z.leb_spec 60 (Z.rem (Z.quot n 100) 100)); [discriminate|].
      rewrite NewDuration_value by lia. rewrite EMax. lia. }
    unfold MinInt64, MaxInt64 in Hnum.
    destruct (Z.le_gt_cases 0 number) as [Hpos|Hneg].
    + destruct (Z.le_gt_cases number TimeMaxValue) as [Hs|Hb].
      * rewrite NumberToDuration_small by lia.
        destruct (_ || _) eqn:T; [apply zero_in_range|].
        cbn [fst]. pose proof (Hfit number fsp ltac:(lia) T). rewrite EMin. lia.
      * unfold NumberToDuration.
        destruct (Z.gtb_spec number TimeMaxValue); [|lia].
        destruct (number >=? 10000000000).
        -- destruct (ParseDatetimeFromNum DefaultStmtNoWarningContext number) as [t [e|]].
           ++ cbn [fst]. rewrite Hmax, EMax, EMin. lia.
           ++ cbn [fst]. pose proof (ConvertToDuration_range t). rewrite EMax, EMin. lia.
        -- cbn [fst]. rewrite Hmax, EMax, EMin. lia.
    + destruct (Z.le_gt_cases (- TimeMaxValue) number) as [Hs|Hb].
      * replace number with (- (- number)) by lia.
        rewrite NumberToDuration_small_neg by lia.
        destruct (_ || _) eqn:T; [apply zero_in_range|].
        cbn [fst]. pose proof (Hfit (- number) fsp ltac:(lia) T) as R.
        unfold Duration_Neg. cbn [duration].
        rewrite int64_small by (unfold MinInt64, MaxInt64; rewrite EMax in R; lia).
        rewrite EMax in *. rewrite EMin. lia.
      * unfold NumberToDuration.
        assert (ET : TimeMaxValue = 8385959) by reflexivity.
        destruct (Z.gtb_spec number TimeMaxValue); [lia|].
        destruct (Z.ltb_spec number (- TimeMaxValue)); [|lia].
        cbn [fst duration]. rewrite Hmax, EMax, EMin. vm_compute. split; discriminate.
Qed.

Lemma NumberToDuration_reads_hhmmss_witness :
  NumberToDuration (10 * 10000 + 11 * 100 + 12) 3 = (NewDuration 10 11 12 0 3, None).
Proof.
  destruct (NumberToDuration_reads_hhmmss 10 11 12 0 3) as (A & _);
    [change TimeMaxHour with 838; lia | lia | lia | unfold MinInt64, MaxInt64; lia |].
  exact A.
Defined.

(** ** Dates and datetimes from numbers *)

Lemma rem_unique (x q r : Z) : 0 <= x -> 0 <= r < q -> Z.rem (x * q + r) q = r.
Proof.
  intros Hx Hr. rewrite Z.rem_mod_nonneg by nia.
  symmetry. apply Z.mod_unique with x; lia.
Qed.

Lemma FromDateChecked_fits (y m d h mi s us : Z) :
  fieldsInRange y m d h mi s us ->
  FromDateChecked y m d h mi s us = (FromDate y m d h mi s us, true).
Proof.
  intros [Hy Hm Hd Hh Hmi Hs Hus]. unfold FromDateChecked.
  unfold yearBitFieldWidth, monthBitFieldWidth, dayBitFieldWidth, hourBitFieldWidth,
    minuteBitFieldWidth, secondBitFieldWidth, microsecondBitFieldWidth.
  rewrite !uint64_out_of_field by (unfold MinInt64, MaxInt64; lia).
  destruct (_ || _) eqn:T; [lia | reflexivity].
Qed.

Lemma tagged_reads (y m d h mi s us k : Z) :
  fieldsInRange y m d h mi s us -> 0 <= k < 16 ->
  let t := Z.lor (FromDate y m d h mi s us) k in
  Year t = y /\ Month t = m /\ Day t = d /\ Hour t = h /\ Minute t = mi /\
  Second t = s /\ Microsecond t = us.
Proof.
  intros F Hk t.
  pose proof (CoreTime_fieldsInRange t) as F'.
  pose proof (FromDate_fields t) as E.
  assert (Ec : Z.land t coreTimeBitFieldMask = FromDate y m d h mi s us).
  { unfold t. rewrite Z.land_lor_distr_l.
    rewrite (proj1 (FromDate_in_core y m d h mi s us F)).
    assert (Z.land k coreTimeBitFieldMask = 0) as ->; [|apply Z.lor_0_r].
    rewrite coreTimeBitFieldMask_bits.
    assert (Hl : k = Z.land k (Z.ones 4)).
    { rewrite Z.land_ones by lia. symmetry. apply Z.mod_small. lia. }
    rewrite Hl. Z.bitblast. }
  rewrite Ec in E.
  destruct (FromDate_injective y m d h mi s us _ _ _ _ _ _ _ F F' E)
    as (E1 & E2 & E3 & E4 & E5 & E6 & E7).
  repeat split; assumption.
Qed.

Lemma NewTime_default (ct tp : Z) :
  0 <= ct < 2 ^ 64 -> Z.land ct coreTimeBitFieldMask = ct ->
  tp = mysql.TypeDate \/ tp = mysql.TypeDatetime ->
  exists k, 0 <= k < 16 /\
    coreTime (NewTime ct tp DefaultFsp) = Z.lor ct k /\
    Time_Type (NewTime ct tp DefaultFsp) = tp.
Proof.
  intros Hct Hm Htp.
  destruct (NewTime_form ct tp DefaultFsp) as (k & Hk & E & Ek);
    [right; unfold DefaultFsp; lia|].
  exists k. split; [exact Hk|].
  assert (Eu : uint64 ct = ct) by (unfold uint64; apply Z.mod_small; lia).
  rewrite E. cbn [coreTime]. rewrite Eu, Hm. split; [reflexivity|].
  destruct (tagged_word ct k Hk) as (Hg & Hb & _). rewrite Hm in Hg, Hb.
  unfold Time_Type. rewrite Hg. cbn [coreTime]. rewrite Hb.
  destruct Htp as [-> | ->]; subst k; reflexivity.
Qed.

Lemma month_days (m : Z) :
  1 <= m <= 12 -> 28 <= nth (Z.to_nat (m - 1)) maxDaysInMonth 0.
Proof.
  intros H.
  assert (C : m = 1 \/ m = 2 \/ m = 3 \/ m = 4 \/ m = 5 \/ m = 6 \/ m = 7 \/ m = 8
              \/ m = 9 \/ m = 10 \/ m = 11 \/ m = 12) by lia.
  repeat (destruct C as [-> | C]; [vm_compute; discriminate|]).
  subst m. vm_compute. discriminate.
Qed.

Lemma checkMonthDay_ok (y m d : Z) :
  1 <= m <= 12 -> 0 <= d <= 28 -> checkMonthDay y m d false = None.
Proof.
  intros Hm Hd. unfold checkMonthDay.
  destruct ((m <? 0) || (m >? 12)) eqn:E1; [lia|].
  cbn [negb]. pose proof (month_days m Hm) as Hn.
  destruct (m >? 0) eqn:E2; [|lia].
  destruct ((m =? 2) && negb (isLeapYear (uint16 y))).
  - destruct ((d <? 0) || (d >? 28)) eqn:E3; [lia | reflexivity].
  - destruct ((d <? 0) || (d >? nth (Z.to_nat (m - 1)) maxDaysInMonth 0)) eqn:E3;
      [lia | reflexivity].
Qed.

Lemma checkDatetimeType_ok (t : CoreTime) (y m d h mi s : Z) (allowZeroInDate : bool) :
  Year t = y -> Month t = m -> Day t = d -> Hour t = h -> Minute t = mi -> Second t = s ->
  1 <= y <= 9999 -> 1 <= m <= 12 -> 1 <= d <= 28 ->
  0 <= h < 24 -> 0 <= mi < 60 -> 0 <= s < 60 ->
  checkDatetimeType t allowZeroInDate false = None.
Proof.
  intros Ey Em Ed Eh Emi Es Hy Hm Hd Hh Hmi Hs.
  assert (EM : datetimeToUint64 MaxDatetime = 99991231235959) by (vm_compute; reflexivity).
  assert (Er : checkDateRange t = None).
  { unfold checkDateRange, compareTime. rewrite EM. unfold datetimeToUint64.
    rewrite Ey, Em, Ed, Eh, Emi, Es.
    destruct ((y <? 0) || (m <? 0) || (d <? 0)) eqn:E1; [lia|].
    destruct (_ <? 99991231235959) eqn:E2; [reflexivity | lia]. }
  assert (Ec : checkDateType t allowZeroInDate false = None).
  { unfold checkDateType. rewrite Er, Ey, Em, Ed.
    destruct ((y =? 0) && (m =? 0) && (d =? 0)); [reflexivity|].
    assert (((m =? 0) || (d =? 0)) = false) as -> by lia.
    rewrite andb_false_r. rewrite checkMonthDay_ok by lia. reflexivity. }
  unfold checkDatetimeType. rewrite Ec, Eh, Emi, Es.
  destruct ((h <? 0) || (h >=? 24)) eqn:E1; [lia|].
  destruct ((mi <? 0) || (mi >=? 60)) eqn:E2; [lia|].
  destruct ((s <? 0) || (s >=? 60)) eqn:E3; [lia|]. reflexivity.
Qed.

Lemma getTime_fields (ctx : StmtContext) (y m d h mi s originNum tp : Z) :
  1 <= y <= 9999 -> 1 <= m <= 12 -> 1 <= d <= 28 ->
  0 <= h < 24 -> 0 <= mi < 60 -> 0 <= s < 60 ->
  tp = mysql.TypeDate \/ tp = mysql.TypeDatetime ->
  getTime ctx ((y * 10000 + m * 100 + d) * 1000000 + (h * 10000 + mi * 100 + s))
    originNum tp
  = (NewTime (FromDate y m d h mi s 0) tp DefaultFsp, None).
Proof.
  intros Hy Hm Hd Hh Hmi Hs Htp. unfold getTime.
  rewrite (quot_unique (y * 10000 + m * 100 + d) 1000000) by lia.
  rewrite (int64_small ((y * 10000 + m * 100 + d) * 1000000))
    by (unfold MinInt64, MaxInt64; lia).
  replace ((y * 10000 + m * 100 + d) * 1000000 + (h * 10000 + mi * 100 + s)
           - (y * 10000 + m * 100 + d) * 1000000)
    with (h * 10000 + mi * 100 + s) by lia.
  rewrite (int64_small (h * 10000 + mi * 100 + s)) by (unfold MinInt64, MaxInt64; lia).
  replace (y * 10000 + m * 100 + d) with (y * 10000 + (m * 100 + d)) by lia.
  rewrite (quot_unique y 10000), (rem_unique y 10000) by lia.
  rewrite (quot_unique m 100), (rem_unique m 100) by lia.
  replace (h * 10000 + mi * 100 + s) with (h * 10000 + (mi * 100 + s)) by lia.
  rewrite (quot_unique h 10000), (rem_unique h 10000) by lia.
  rewrite (quot_unique mi 100), (rem_unique mi 100) by lia.
  assert (F : fieldsInRange y m d h mi s 0) by (constructor; lia).
  rewrite (FromDateChecked_fits _ _ _ _ _ _ _ F).
  destruct (FromDate_in_core y m d h mi s 0 F) as [Hc Hb].
  destruct (NewTime_default (FromDate y m d h mi s 0) tp Hb Hc Htp) as (k & Hk & Ek & Et).
  f_equal. unfold Time_Check. rewrite Et, Ek.
  destruct (tagged_reads y m d h mi s 0 k F Hk) as (E1 & E2 & E3 & E4 & E5 & E6 & _).
  assert (Hnt : (tp =? mysql.TypeTimestamp) = false) by (destruct Htp as [-> | ->]; reflexivity).
  assert (Hdt : ((tp =? mysql.TypeDatetime) || (tp =? mysql.TypeDate)) = true)
    by (destruct Htp as [-> | ->]; reflexivity).
  rewrite Hnt, Hdt.
  unfold ContextFlags_IgnoreInvalidDateErr.
  rewrite (checkDatetimeType_ok _ y m d h mi s _ E1 E2 E3 E4 E5 E6) by lia.
  reflexivity.
Qed.

(** X20. A number of the form YYMMDD is read as a date, and one of the
    form YYMMDDHHMMSS as a datetime, with the two-digit year moved into
    1970..2069 exactly as [adjustYear] does (00..69 become 2000..2069,
    70..99 become 1970..1999); a number with all four digits of the year
    keeps it.  This holds for every month, every day up to the 28th and
    every time of day, under every context, and gives no error. *)
Theorem parseDateTimeFromNum_two_digit_year (ctx : StmtContext) (yy m d h mi s : Z) :
  0 <= yy <= 99 -> 1 <= m <= 12 -> 1 <= d <= 28 ->
  0 <= h < 24 -> 0 <= mi < 60 -> 0 <= s < 60 ->
  parseDateTimeFromNum ctx (yy * 10000 + m * 100 + d)
  = (NewTime (FromDate (adjustYear yy) m d 0 0 0 0) mysql.TypeDate DefaultFsp, None) /\
  parseDateTimeFromNum ctx
    ((yy * 10000 + m * 100 + d) * 1000000 + (h * 10000 + mi * 100 + s))
  = (NewTime (FromDate (adjustYear yy) m d h mi s 0) mysql.TypeDatetime DefaultFsp, None) /\
  (forall yyyy, 1000 <= yyyy <= 9999 ->
     parseDateTimeFromNum ctx (yyyy * 10000 + m * 100 + d)
     = (NewTime (FromDate yyyy m d 0 0 0 0) mysql.TypeDate DefaultFsp, None) /\
     parseDateTimeFromNum ctx
       ((yyyy * 10000 + m * 100 + d) * 1000000 + (h * 10000 + mi * 100 + s))
     = (NewTime (FromDate yyyy m d h mi s 0) mysql.TypeDatetime DefaultFsp, None)).
Proof.
  intros Hy Hm Hd Hh Hmi Hs.
  assert (Td : Time_Type ZeroDate = mysql.TypeDate) by (vm_compute; reflexivity).
  assert (Tt : Time_Type (SetType ZeroDate mysql.TypeDatetime) = mysql.TypeDatetime)
    by (vm_compute; reflexivity).
  assert (Ha : adjustYear yy = if yy <=? 69 then 2000 + yy else 1900 + yy).
  { unfold adjustYear. destruct (yy >=? 0) eqn:A0; [|lia]. cbn [andb].
    destruct (yy <=? 69) eqn:A1; [reflexivity|].
    destruct (yy >=? 70) eqn:A2; [|lia]. cbn [andb].
    destruct (yy <=? 99) eqn:A3; [reflexivity | lia]. }
  assert (G0 : forall y num, 1 <= y <= 9999 ->
            num = (y * 10000 + m * 100 + d) * 1000000 ->
            getTime ctx num (yy * 10000 + m * 100 + d) mysql.TypeDate
            = (NewTime (FromDate y m d 0 0 0 0) mysql.TypeDate DefaultFsp, None)).
  { intros y num Hy' ->.
    replace ((y * 10000 + m * 100 + d) * 1000000)
      with ((y * 10000 + m * 100 + d) * 1000000 + (0 * 10000 + 0 * 100 + 0)) by lia.
    apply getTime_fields; solve [lia | left; reflexivity]. }
  split; [|split].
  - unfold parseDateTimeFromNum. rewrite Td.
    set (num := yy * 10000 + m * 100 + d).
    destruct (Z.eqb_spec num 0); [unfold num in *; lia|].
    destruct (Z.geb_spec num 10000101000000); [unfold num in *; lia|].
    destruct (Z.ltb_spec num 101); [unfold num in *; lia|].
    rewrite Ha. destruct (Z.leb_spec yy 69).
    + destruct (Z.leb_spec num ((70 - 1) * 10000 + 1231)); [|unfold num in *; lia].
      apply G0; [lia|].
      rewrite (int64_small (num + 20000000)) by (unfold MinInt64, MaxInt64, num; lia).
      rewrite int64_small by (unfold MinInt64, MaxInt64, num; lia).
      unfold num. lia.
    + destruct (Z.leb_spec num ((70 - 1) * 10000 + 1231)); [unfold num in *; lia|].
      destruct (Z.ltb_spec num (70 * 10000 + 101)); [unfold num in *; lia|].
      destruct (Z.leb_spec num 991231); [|unfold num in *; lia].
      apply G0; [lia|].
      rewrite (int64_small (num + 19000000)) by (unfold MinInt64, MaxInt64, num; lia).
      rewrite int64_small by (unfold MinInt64, MaxInt64, num; lia).
      unfold num. lia.
  - unfold parseDateTimeFromNum. rewrite Tt.
    set (num := (yy * 10000 + m * 100 + d) * 1000000 + (h * 10000 + mi * 100 + s)).
    destruct (Z.eqb_spec num 0); [unfold num in *; lia|].
    destruct (Z.geb_spec num 10000101000000); [unfold num in *; lia|].
    destruct (Z.ltb_spec num 101); [unfold num in *; lia|].
    destruct (Z.leb_spec num ((70 - 1) * 10000 + 1231)); [unfold num in *; lia|].
    destruct (Z.ltb_spec num (70 * 10000 + 101)); [unfold num in *; lia|].
    destruct (Z.leb_spec num 991231); [unfold num in *; lia|].
    destruct (Z.leb_spec num 99991231); [unfold num in *; lia|].
    destruct (Z.ltb_spec num 101000000); [unfold num in *; lia|].
    rewrite Ha. destruct (Z.leb_spec yy 69).
    + destruct (Z.leb_spec num (69 * 10000000000 + 1231235959)); [|unfold num in *; lia].
      rewrite int64_small by (unfold MinInt64, MaxInt64, num; lia).
      replace (num + 20000000000000)
        with (((2000 + yy) * 10000 + m * 100 + d) * 1000000 + (h * 10000 + mi * 100 + s))
        by (unfold num; lia).
      apply getTime_fields; solve [lia | right; reflexivity].
    + destruct (Z.leb_spec num (69 * 10000000000 + 1231235959)); [unfold num in *; lia|].
      destruct (Z.ltb_spec num (70 * 10000000000 + 101000000)); [unfold num in *; lia|].
      destruct (Z.leb_spec num 991231235959); [|unfold num in *; lia].
      rewrite int64_small by (unfold MinInt64, MaxInt64, num; lia).
      replace (num + 19000000000000)
        with (((1900 + yy) * 10000 + m * 100 + d) * 1000000 + (h * 10000 + mi * 100 + s))
        by (unfold num; lia).
      apply getTime_fields; solve [lia | right; reflexivity].
  - intros yyyy Hyy. split.
    + unfold parseDateTimeFromNum. rewrite Td.
      set (num := yyyy * 10000 + m * 100 + d).
      destruct (Z.eqb_spec num 0); [unfold num in *; lia|].
      destruct (Z.geb_spec num 10000101000000); [unfold num in *; lia|].
      destruct (Z.ltb_spec num 101); [unfold num in *; lia|].
      destruct (Z.leb_spec num ((70 - 1) * 10000 + 1231)); [unfold num in *; lia|].
      destruct (Z.ltb_spec num (70 * 10000 + 101)); [unfold num in *; lia|].
      destruct (Z.leb_spec num 991231); [unfold num in *; lia|].
      destruct (Z.leb_spec num 99991231); [|unfold num in *; lia].
      rewrite int64_small by (unfold MinInt64, MaxInt64, num; lia).
      replace (num * 1000000)
        with ((yyyy * 10000 + m * 100 + d) * 1000000 + (0 * 10000 + 0 * 100 + 0))
        by (unfold num; lia).
      apply getTime_fields; solve [lia | left; reflexivity].
    + unfold parseDateTimeFromNum. rewrite Tt.
      set (num := (yyyy * 10000 + m * 100 + d) * 1000000 + (h * 10000 + mi * 100 + s)).
      destruct (Z.eqb_spec num 0); [unfold num in *; lia|].
      destruct (Z.geb_spec num 10000101000000).
      * apply getTime_fields; solve [lia | right; reflexivity].
      * exfalso. unfold num in *. lia.
Qed.

Lemma parseDateTimeFromNum_two_digit_year_witness :
  parseDateTimeFromNum DefaultStmtNoWarningContext 700101
  = (NewTime (FromDate 1970 1 1 0 0 0 0) mysql.TypeDate DefaultFsp, None).
Proof.
  apply (proj1 (parseDateTimeFromNum_two_digit_year
                  DefaultStmtNoWarningContext 70 1 1 0 0 0
                  ltac:(lia) ltac:(lia) ltac:(lia) ltac:(lia) ltac:(lia) ltac:(lia))).
Defined.

(** ** Scientific notation *)

Lemma substring_app_l (a b : string) (n m : nat) :
  (n + m <= String.length a)%nat ->
  String.substring n m (a ++ b) = String.substring n m a.
Proof.
  revert n m. induction a as [|c a IH]; intros n m H.
  - cbn in H. assert (n = 0%nat) by lia. assert (m = 0%nat) by lia. subst.
    cbn [append]. rewrite substring_0_0. reflexivity.
  - cbn [String.length] in H. cbn [append]. destruct n as [|n].
    + destruct m as [|m]; [reflexivity|]. cbn [String.substring].
      rewrite IH by lia. reflexivity.
    + cbn [String.substring]. apply IH. lia.
Qed.

Lemma substring_app_r (a b : string) (n m : nat) :
  String.substring (String.length a + n) m (a ++ b) = String.substring n m b.
Proof. induction a as [|c a IH]; cbn; [reflexivity | exact IH]. Qed.

Lemma slice_app_l (a b : string) (lo hi : Z) :
  0 <= lo <= hi -> hi <= len a -> slice (a ++ b) lo hi = slice a lo hi.
Proof. intros H1 H2. unfold slice. apply substring_app_l. unfold len in H2. lia. Qed.

Lemma slice_app_r (a b : string) (lo hi : Z) :
  0 <= lo -> slice (a ++ b) (len a + lo) (len a + hi) = slice b lo hi.
Proof.
  intros H. unfold slice, len.
  replace (Z.to_nat (Z.of_nat (String.length a) + lo))
    with (String.length a + Z.to_nat lo)%nat by lia.
  replace (Z.of_nat (String.length a) + hi - (Z.of_nat (String.length a) + lo))
    with (hi - lo) by lia.
  apply substring_app_r.
Qed.

Lemma sciScan_plain (a r : string) (i p : Z) :
  allBytes (fun c => negb (isDot c || isExpMark c)) a = true ->
  sciScan (a ++ r) i p = sciScan r (i + len a) p.
Proof.
  revert i p. induction a as [|c a IH]; intros i p H.
  - cbn [append]. change (len "") with 0. rewrite Z.add_0_r. reflexivity.
  - apply allBytes_cons in H. destruct H as [Hc Ha].
    apply negb_true_iff, orb_false_iff in Hc. destruct Hc as [Hd He].
    unfold isDot in Hd. unfold isExpMark in He.
    cbn [append sciScan]. rewrite Hd, He. rewrite IH by exact Ha.
    rewrite len_cons. f_equal. lia.
Qed.

Lemma sciScan_no_point (f ex : string) (e : ascii) :
  allBytes (fun c => negb (isDot c || isExpMark c)) f = true ->
  isExpMark e = true ->
  sciScan (f ++ String e ex) 0 (-1) = (len f, len f).
Proof.
  intros Hf He.
  rewrite sciScan_plain by exact Hf. cbn [sciScan].
  unfold isExpMark in He. rewrite He.
  assert (Hd : Ascii.eqb e "." = false).
  { apply orb_true_iff in He. destruct He as [E|E]; apply Ascii.eqb_eq in E; subst e;
      reflexivity. }
  rewrite Hd. change (-1 =? -1) with true. cbv iota.
  rewrite Z.add_0_l. reflexivity.
Qed.

Lemma sciScan_point (a b ex : string) (e : ascii) :
  allBytes (fun c => negb (isDot c || isExpMark c)) a = true ->
  allBytes (fun c => negb (isDot c || isExpMark c)) b = true ->
  isExpMark e = true ->
  sciScan ((a ++ String "." b) ++ String e ex) 0 (-1) = (len a + 1 + len b, len a).
Proof.
  intros Ha Hb He.
  rewrite append_assoc_str. rewrite sciScan_plain by exact Ha.
  cbn [append sciScan]. change (Ascii.eqb "." ".") with true.
  change (Ascii.eqb "." "e" || Ascii.eqb "." "E") with false. cbv iota.
  rewrite sciScan_plain by exact Hb. cbn [sciScan].
  unfold isExpMark in He. rewrite He.
  assert (Hd : Ascii.eqb e "." = false).
  { apply orb_true_iff in He. destruct He as [E|E]; apply Ascii.eqb_eq in E; subst e;
      reflexivity. }
  rewrite Hd. pose proof (len_nonneg a).
  destruct (Z.eqb_spec (0 + len a) (-1)); [lia|].
  f_equal; lia.
Qed.

Lemma mantissa_slices (a b : string) :
  let f := (a ++ String "." b)%string in
  len f = len a + 1 + len b /\
  sliceChecked f (len a + 1) (len f) = Some b /\
  (forall n, 0 <= n <= len b ->
     sliceChecked f (len a + 1) (len a + 1 + n) = Some (slice b 0 n) /\
     sliceChecked f (len a + 1 + n) (len f) = Some (sliceFrom b n)) /\
  (forall k, 0 <= k <= len a ->
     sliceChecked f 0 k = Some (slice a 0 k) /\
     sliceChecked f k (len a) = Some (sliceFrom a k)).
Proof.
  intros f.
  assert (Lf : len f = len a + 1 + len b).
  { unfold f. rewrite len_app, len_cons. lia. }
  pose proof (len_nonneg a) as La. pose proof (len_nonneg b) as Lb.
  assert (Ef : f = ((a ++ String "." "") ++ b)%string).
  { unfold f. rewrite append_assoc_str. reflexivity. }
  assert (Lp : len (a ++ String "." "") = len a + 1).
  { rewrite len_app. reflexivity. }
  assert (R : forall lo hi, 0 <= lo <= hi -> hi <= len b ->
            sliceChecked f (len a + 1 + lo) (len a + 1 + hi) = Some (slice b lo hi)).
  { intros lo hi H1 H2. unfold sliceChecked. rewrite Lf.
    assert (((0 <=? len a + 1 + lo) && (len a + 1 + lo <=? len a + 1 + hi)
             && (len a + 1 + hi <=? len a + 1 + len b)) = true) as -> by lia.
    rewrite Ef, <- Lp. rewrite slice_app_r by lia. reflexivity. }
  assert (L : forall lo hi, 0 <= lo <= hi -> hi <= len a ->
            sliceChecked f lo hi = Some (slice a lo hi)).
  { intros lo hi H1 H2. unfold sliceChecked. rewrite Lf.
    assert (((0 <=? lo) && (lo <=? hi) && (hi <=? len a + 1 + len b)) = true) as -> by lia.
    unfold f. rewrite slice_app_l by lia. reflexivity. }
  split; [exact Lf|]. split; [|split].
  - specialize (R 0 (len b)). rewrite Z.add_0_r in R.
    replace (len a + 1 + len b) with (len f) in R by lia.
    rewrite R by lia. rewrite slice_full. reflexivity.
  - intros n Hn. split.
    + specialize (R 0 n). rewrite Z.add_0_r in R. apply R; lia.
    + specialize (R n (len b)).
      replace (len a + 1 + len b) with (len f) in R by lia.
      rewrite R by lia. reflexivity.
  - intros k Hk. split; [apply L; lia|].
    rewrite L by lia. reflexivity.
Qed.

Lemma exponent_text (f ex : string) (e : ascii) :
  sliceFrom (f ++ String e ex) (len f + 1) = ex /\
  slice (f ++ String e ex) 0 (len f) = f.
Proof.
  split; [|apply slice_0_app].
  replace (f ++ String e ex)%string with ((f ++ String e "") ++ ex)%string
    by (rewrite append_assoc_str; reflexivity).
  replace (len f + 1) with (len (f ++ String e "")) by (rewrite len_app; reflexivity).
  apply sliceFrom_app.
Qed.

(** X21. [convertScientificNotation] moves the decimal point of a
    mantissa [a.b] by the exponent: to the right through the digits of
    [b], padding with zeros once they are used up and dropping the point
    when it reaches their end; to the left through the digits of [a],
    writing [0.] and padding zeros once they are used up.  Exponent 0
    gives the mantissa as it is.  No digit is lost or reordered, and
    there is no error. *)
Theorem convertScientificNotation_shifts_point (a b ex : string) (e : ascii) (n : Z) :
  allBytes (fun c => negb (isDot c || isExpMark c)) a = true ->
  allBytes (fun c => negb (isDot c || isExpMark c)) b = true ->
  isExpMark e = true ->
  ParseInt ex = (n, None) ->
  len a + len b + Z.abs n < 2 ^ 62 ->
  convertScientificNotation ((a ++ String "." b) ++ String e ex)
  = Some ((if (n =? 0)%Z then a ++ String "." b
           else if (0 <? n)%Z then
             if (len b <=? n)%Z then a ++ b ++ RepeatZero (n - len b)%Z
             else a ++ slice b 0 n ++ String "." (sliceFrom b n)
           else if (- n <? len a)%Z
             then slice a 0 (len a + n)%Z ++ String "." (sliceFrom a (len a + n)%Z ++ b)
             else "0." ++ RepeatZero (- n - len a)%Z ++ a ++ b)%string, None).
Proof.
  intros Ha Hb He Hp Hn.
  unfold convertScientificNotation.
  rewrite (sciScan_point a b ex e Ha Hb He).
  destruct (mantissa_slices a b) as (Lf & S2 & Sb & Sa).
  destruct (exponent_text (a ++ String "." b) ex e) as [Eex Ef].
  pose proof (len_nonneg a) as La. pose proof (len_nonneg b) as Lb.
  destruct (Z.eqb_spec (len a + 1 + len b) (-1)); [lia|].
  rewrite <- Lf. rewrite Eex, Ef, Hp.
  assert (I : forall z, - 2 ^ 62 <= z <= 2 ^ 62 -> int64 z = z).
  { intros z Hz. apply int64_small. unfold MinInt64, MaxInt64. lia. }
  destruct (Z.eqb_spec n 0) as [->|N0]; [reflexivity|].
  rewrite Z.gtb_ltb.
  destruct (Z.ltb_spec 0 n) as [Pn|Nn].
  - rewrite (I (len a + n)) by lia. rewrite Lf.
    destruct (Z.eqb_spec (len a + n) (len a + 1 + len b - 1)) as [E|E].
    + assert (n = len b) by lia. subst n.
      rewrite <- Lf, sliceChecked_prefix, S2.
      destruct (Z.leb_spec (len b) (len b)); [|lia].
      rewrite Z.sub_diag. reflexivity.
    + destruct (Z.ltb_spec (len a + n) (len a + 1 + len b - 1)) as [Lt|Ge].
      * destruct (Z.leb_spec (len b) n); [lia|].
        rewrite (I (len a + 1 + n)) by lia. rewrite <- Lf.
        rewrite sliceChecked_prefix.
        destruct (Sb n) as [S3 S4]; [lia|]. rewrite S3, S4. reflexivity.
      * destruct (Z.leb_spec (len b) n); [|lia].
        rewrite (I (len a + n - (len a + 1 + len b) + 1)) by lia.
        rewrite <- Lf, sliceChecked_prefix, S2.
        destruct (Z.ltb_spec (len a + n - len (a ++ String "." b) + 1) 0); [lia|].
        replace (len a + n - len (a ++ String "." b) + 1) with (n - len b) by lia.
        reflexivity.
  - rewrite (I (- n)) by lia.
    destruct (Z.ltb_spec (- n) (len a)) as [Lt|Ge].
    + rewrite (I (len a - - n)) by lia.
      destruct (Sa (len a - - n)) as [S5 S6]; [lia|].
      rewrite S5, S6, S2. cbn [option_map].
      replace (len a - - n) with (len a + n) by lia.
      rewrite !append_assoc_str. reflexivity.
    + rewrite (I (- n - len a)) by lia.
      destruct (Z.ltb_spec (- n - len a) 0); [lia|].
      rewrite sliceChecked_prefix, S2.
      rewrite ?append_assoc_str. reflexivity.
Qed.

Lemma convertScientificNotation_shifts_point_witness :
  convertScientificNotation (("123" ++ String "." "456") ++ String "e" "2")
  = Some ("12345.6", None).
Proof.
  apply (convertScientificNotation_shifts_point "123" "456" "2" "e" 2);
    [reflexivity | reflexivity | reflexivity | reflexivity | vm_compute; reflexivity].
Defined.

(** X22. A mantissa without a decimal point makes
    [convertScientificNotation] panic whenever the exponent is not zero:
    the point is then taken to sit at the exponent mark, one past the end
    of the mantissa, and the slice of the digits after the point is out
    of range.  So [1E6], which the comment of the function gives as an
    example, does not return, and neither does [convertDecimalStrToUint]
    on it; with exponent 0 the mantissa comes back. *)
Theorem convertScientificNotation_needs_point (a ex : string) (e : ascii) (n : Z)
  (upperBound tp : Z) :
  allBytes (fun c => negb (isDot c || isExpMark c)) a = true ->
  isExpMark e = true ->
  ParseInt ex = (n, None) ->
  (n <> 0 ->
     convertScientificNotation (a ++ String e ex) = None /\
     convertDecimalStrToUint (a ++ String e ex) upperBound tp = None) /\
  (n = 0 -> convertScientificNotation (a ++ String e ex) = Some (a, None)).
Proof.
  intros Ha He Hp.
  pose proof (sciScan_no_point a ex e Ha He) as Hs.
  destruct (exponent_text a ex e) as [Eex Ef].
  pose proof (len_nonneg a) as La.
  assert (Hout : forall hi, sliceChecked a (len a + 1) hi = None).
  { intros hi. unfold sliceChecked.
    destruct ((0 <=? len a + 1) && (len a + 1 <=? hi) && (hi <=? len a)) eqn:E;
      [lia | reflexivity]. }
  assert (Hc : n <> 0 -> convertScientificNotation (a ++ String e ex) = None).
  { intros N0. unfold convertScientificNotation. rewrite Hs.
    destruct (Z.eqb_spec (len a) (-1)); [lia|].
    rewrite Eex, Ef, Hp.
    destruct (Z.eqb_spec n 0); [contradiction|].
    destruct (n >? 0).
    - destruct (_ =? _).
      + rewrite Hout. destruct (sliceChecked a 0 (len a)); reflexivity.
      + destruct (_ <? _).
        * rewrite Hout. destruct (sliceChecked a 0 (len a)); reflexivity.
        * rewrite Hout. destruct (sliceChecked a 0 (len a)); reflexivity.
    - destruct (_ <? _).
      + rewrite Hout.
        destruct (option_map _ _); [|reflexivity].
        destruct (sliceChecked a _ _); reflexivity.
      + rewrite Hout.
        destruct (if _ <? 0 then None else Some _); [|reflexivity].
        destruct (sliceChecked a 0 (len a)); reflexivity. }
  split.
  - intros N0. split; [exact (Hc N0)|].
    unfold convertDecimalStrToUint. rewrite (Hc N0). reflexivity.
  - intros ->. unfold convertScientificNotation. rewrite Hs.
    destruct (Z.eqb_spec (len a) (-1)); [lia|].
    rewrite Eex, Ef, Hp. reflexivity.
Qed.

Lemma convertScientificNotation_needs_point_witness :
  convertScientificNotation "1E6" = None /\
  convertDecimalStrToUint "1E6" MaxUint64 mysql.TypeLonglong = None.
Proof.
  apply (proj1 (convertScientificNotation_needs_point "1" "6" "E" 6 MaxUint64
                  mysql.TypeLonglong eq_refl eq_refl eq_refl)).
  discriminate.
Defined.

(** ** Years *)

Lemma int16_small (z : Z) : - 2 ^ 15 <= z < 2 ^ 15 -> int16 z = z.
Proof. intros H. unfold int16. rewrite Z.mod_small by lia. lia. Qed.

Lemma int16_range (z : Z) : - 2 ^ 15 <= int16 z < 2 ^ 15.
Proof.
  unfold int16. pose proof (Z.mod_pos_bound (z + 2 ^ 15) (2 ^ 16)). lia.
Qed.

Lemma adjustYear_cases (y : Z) :
  adjustYear y = if (0 <=? y) && (y <=? 69) then 2000 + y
                 else if (70 <=? y) && (y <=? 99) then 1900 + y else y.
Proof. unfold adjustYear. rewrite !Z.geb_leb. reflexivity. Qed.

(** X23. [AdjustYear] answers 0 or a year of the YEAR type
    (1901..2155), whatever it is given: a year outside is clamped to the
    nearer end (a negative one to 0) with the out-of-range error.  It
    answers without error exactly when the year, after the two-digit
    adjustment, lies in 1901..2155, or is a 0 that is not to be adjusted;
    every two-digit year succeeds and lands in 1970..2069, and 0 becomes
    2000 when it is adjusted. *)
Theorem AdjustYear_clamps (y : Z) (adjustZero : bool) :
  MinInt64 <= y <= MaxInt64 ->
  let '(r, e) := AdjustYear y adjustZero in
  (r = 0 \/ MinYear <= r <= MaxYear) /\
  (e = None <->
     (y = 0 /\ adjustZero = false) \/ MinYear <= adjustYear y <= MaxYear) /\
  (e = None -> r = if (y =? 0) && negb adjustZero then 0 else adjustYear y) /\
  (e <> None ->
     e = Some (WithStack (TErrorValue mysql.ErrWarnDataOutOfRange)) /\
     r = if adjustYear y <? 0 then 0
         else if adjustYear y <? MinYear then MinYear else MaxYear) /\
  (0 <= y <= 99 -> (y <> 0 \/ adjustZero = true) ->
     e = None /\ r = adjustYear y /\ 1970 <= r <= 2069).
Proof.
  intros Hy. unfold AdjustYear.
  assert (Ha : (0 <= y <= 69 -> adjustYear y = 2000 + y) /\
               (70 <= y <= 99 -> adjustYear y = 1900 + y) /\
               (y < 0 \/ 99 < y -> adjustYear y = y)).
  { rewrite adjustYear_cases.
    destruct ((0 <=? y) && (y <=? 69)) eqn:E1;
      [|destruct ((70 <=? y) && (y <=? 99)) eqn:E2]; lia. }
  destruct Ha as (A1 & A2 & A3).
  assert (Hb : MinInt64 <= adjustYear y <= MaxInt64) by (unfold MinInt64, MaxInt64 in *; lia).
  rewrite (int64_small _ Hb). clear Hb.
  assert (Et : errors.Trace (Some (TErrorValue (code ErrWarnDataOutOfRange)))
               = Some (WithStack (TErrorValue mysql.ErrWarnDataOutOfRange)))
    by reflexivity.
  rewrite Et. clear Et.
  unfold MinYear, MaxYear.
  destruct ((y =? 0) && negb adjustZero) eqn:Z0.
  - apply andb_prop in Z0. destruct Z0 as [Z0 Z1].
    apply Z.eqb_eq in Z0. apply negb_true_iff in Z1. subst y adjustZero.
    split; [lia|]. split; [split; [intros _; left; split; reflexivity | reflexivity]|].
    split; [reflexivity|]. split; [intros H; contradiction H; reflexivity|].
    intros _ [H|H]; [lia | discriminate].
  - assert (Hz : ~ (y = 0 /\ adjustZero = false)).
    { intros [-> ->]. discriminate. }
    generalize dependent (adjustYear y). intros a A1 A2 A3.
    destruct (Z.ltb_spec a 0) as [C1|C1];
      [|destruct (Z.ltb_spec a 1901) as [C2|C2];
        [|destruct (Z.gtb_spec a 2155) as [C3|C3]]].
    + split; [lia|]. split; [split; [discriminate | intros [H|H]; [contradiction | lia]]|].
      split; [discriminate|]. split; [intros _; split; reflexivity|].
      intros R _. lia.
    + split; [lia|]. split; [split; [discriminate | intros [H|H]; [contradiction | lia]]|].
      split; [discriminate|]. split; [intros _; split; reflexivity|].
      intros R _. lia.
    + split; [lia|]. split; [split; [discriminate | intros [H|H]; [contradiction | lia]]|].
      split; [discriminate|]. split; [intros _; split; reflexivity|].
      intros R _. lia.
    + split; [lia|]. split; [split; [intros _; right; lia | reflexivity]|].
      split; [reflexivity|]. split; [intros H; contradiction H; reflexivity|].
      intros R _. split; [reflexivity|]. split; [reflexivity | lia].
Qed.

Lemma AdjustYear_clamps_witness :
  AdjustYear 69 false = (2069, None) /\ AdjustYear 70 false = (1970, None).
Proof.
  split.
  - pose proof (AdjustYear_clamps 69 false ltac:(unfold MinInt64, MaxInt64; lia)) as H.
    destruct (AdjustYear 69 false) as [r e].
    destruct H as (_ & _ & _ & _ & H). destruct H as (-> & -> & _); [lia | left; lia |].
    reflexivity.
  - pose proof (AdjustYear_clamps 70 false ltac:(unfold MinInt64, MaxInt64; lia)) as H.
    destruct (AdjustYear 70 false) as [r e].
    destruct H as (_ & _ & _ & _ & H). destruct H as (-> & -> & _); [lia | left; lia |].
    reflexivity.
Defined.

Lemma ParseIntSize_digits (ds : string) (bitSize : Z) :
  allBytes isDigitByte ds = true -> 0 < len ds ->
  digitsValue 0 ds < 2 ^ (bitSize - 1) ->
  ParseIntSize ds bitSize = (digitsValue 0 ds, None).
Proof.
  intros A L V. destruct (len_pos_cons ds L) as (c & r & ->).
  pose proof A as A'. cbn in A'. apply andb_prop in A'. destruct A' as [Hc _].
  unfold ParseIntSize.
  rewrite (digit_not_byte c "-"), (digit_not_byte c "+")
    by (assumption || (vm_compute; intuition discriminate)).
  rewrite A. cbn [String.length Nat.eqb negb andb].
  destruct (Z.geb_spec (digitsValue 0 (String c r)) (2 ^ (bitSize - 1))); [lia|].
  reflexivity.
Qed.

(** X24. [ParseYear] answers a year of the YEAR type or fails: whatever
    the string, either there is no error and the year lies in 1901..2155
    (and the string has 1, 2 or 4 bytes), or there is an error and the
    year is 0.  On one or two digits it answers the two-digit adjustment
    of their value, which always succeeds; on four digits it answers
    their value when that lies in 1901..2155 and the invalid-year error
    otherwise. *)
Theorem ParseYear_reads_year (str : string) :
  (let '(y, e) := ParseYear str in
   (e = None ->
      MinYear <= y <= MaxYear /\ (len str = 1 \/ len str = 2 \/ len str = 4)) /\
   (e <> None -> y = 0)) /\
  (allBytes isDigitByte str = true ->
   (len str = 1 \/ len str = 2 ->
      ParseYear str = (adjustYear (digitsValue 0 str), None)) /\
   (len str = 4 ->
      ParseYear str =
        if (MinYear <=? digitsValue 0 str) && (digitsValue 0 str <=? MaxYear)
        then (digitsValue 0 str, None)
        else (0, Some (WithStack (TErrorValue 1367))))).
Proof.
  assert (Hcheck : forall y,
            (if (y <? MinYear) || (y >? MaxYear)
             then (0, errors.Trace (Some (TErrorValue (code ErrInvalidYearFormat))))
             else (y, None))
            = (if (MinYear <=? y) && (y <=? MaxYear) then (y, None)
               else (0, Some (WithStack (TErrorValue 1367))))).
  { intros y. destruct ((y <? MinYear) || (y >? MaxYear)) eqn:E1;
      destruct ((MinYear <=? y) && (y <=? MaxYear)) eqn:E2; try reflexivity; lia. }
  split.
  - unfold ParseYear. destruct (ParseIntSize str 16) as [v [e|]].
    + split; [|reflexivity]. cbn [errors.Trace]. destruct (errors.HasStack e); discriminate.
    + cbv zeta beta. rewrite !Hcheck.
      destruct ((len str =? 2) || (len str =? 1)) eqn:E1.
      * destruct ((MinYear <=? int16 (adjustYear (int16 v)))
                  && (int16 (adjustYear (int16 v)) <=? MaxYear)) eqn:E2.
        -- split; [intros _; split; lia | intros H; contradiction H; reflexivity].
        -- split; [discriminate | reflexivity].
      * destruct (len str =? 4) eqn:E3; cbn [negb].
        -- destruct ((MinYear <=? int16 v) && (int16 v <=? MaxYear)) eqn:E2.
           ++ split; [intros _; split; lia | intros H; contradiction H; reflexivity].
           ++ split; [discriminate | reflexivity].
        -- split; [discriminate | reflexivity].
  - intros A.
    pose proof (digitsValue_bound str A) as B.
    split.
    + intros L.
      assert (V : digitsValue 0 str < 100).
      { destruct L as [L|L]; rewrite L in B; [change (10 ^ 1) with 10 in B
                                            | change (10 ^ 2) with 100 in B]; lia. }
      unfold ParseYear.
      rewrite ParseIntSize_digits by (try assumption; change (2 ^ (16 - 1)) with 32768; lia).
      rewrite (int16_small (digitsValue 0 str)) by lia.
      assert (((len str =? 2) || (len str =? 1)) = true) as -> by lia.
      assert (Ha : 1970 <= adjustYear (digitsValue 0 str) <= 2069).
      { rewrite adjustYear_cases.
        destruct ((0 <=? digitsValue 0 str) && (digitsValue 0 str <=? 69)) eqn:E1;
          [|destruct ((70 <=? digitsValue 0 str) && (digitsValue 0 str <=? 99)) eqn:E2];
          lia. }
      rewrite int16_small by lia. rewrite Hcheck.
      unfold MinYear, MaxYear.
      destruct ((1901 <=? adjustYear (digitsValue 0 str))
                && (adjustYear (digitsValue 0 str) <=? 2155)) eqn:E; [reflexivity | lia].
    + intros L. rewrite L in B. change (10 ^ 4) with 10000 in B.
      unfold ParseYear.
      rewrite ParseIntSize_digits by (try assumption; change (2 ^ (16 - 1)) with 32768; lia).
      rewrite (int16_small (digitsValue 0 str)) by lia.
      assert (((len str =? 2) || (len str =? 1)) = false) as -> by lia.
      assert ((len str =? 4) = true) as -> by lia. cbn [negb].
      apply Hcheck.
Qed.

Lemma ParseYear_reads_year_witness :
  ParseYear "69" = (2069, None) /\ ParseYear "1900" = (0, Some (WithStack (TErrorValue 1367))).
Proof.
  split.
  - apply (proj1 (proj2 (ParseYear_reads_year "69") eq_refl)). right. reflexivity.
  - apply (proj2 (proj2 (ParseYear_reads_year "1900") eq_refl)). reflexivity.
Defined.

(** ** Fixed-width digits *)

Lemma parseNDigitsLoop_digits (ds rest : string) (limit : nat) (num step : Z) :
  allBytes isDigitByte ds = true ->
  (String.length ds <= limit)%nat ->
  (String.length ds = limit \/ startsWithout isDigitByte rest) ->
  0 <= num -> num * 10 ^ len ds + digitsValue 0 ds < 2 ^ 64 ->
  parseNDigitsLoop (ds ++ rest) limit num step
  = (num * 10 ^ len ds + digitsValue 0 ds, step + len ds).
Proof.
  revert limit num step. induction ds as [|c r IH]; intros limit num step A L E N V.
  - cbn [append]. change (len "") with 0. cbn [digitsValue].
    rewrite Z.pow_0_r, Z.mul_1_r, !Z.add_0_r.
    destruct rest as [|c' t]; [destruct limit; reflexivity|].
    destruct limit as [|l]; [reflexivity|].
    destruct E as [E|E]; [discriminate|].
    cbn in E. cbn [parseNDigitsLoop].
    unfold isDigitByte in E. rewrite E. reflexivity.
  - apply allBytes_cons in A. destruct A as [Hc Hr].
    destruct limit as [|l]; [cbn in L; lia|].
    cbn [append parseNDigitsLoop].
    pose proof Hc as Hc'. unfold isDigitByte in Hc'. rewrite Hc'.
    pose proof (digit_byte_range c Hc) as Bc.
    pose proof (digitsValue_bound r Hr) as Br.
    rewrite digitsValue_cons in V. rewrite len_cons in V.
    pose proof (len_nonneg r) as Lr.
    replace (1 + len r) with (Z.succ (len r)) in V by lia.
    rewrite Z.pow_succ_r in V by lia.
    assert (P : 1 <= 10 ^ len r) by (apply Z.lt_pred_le; apply Z.pow_pos_nonneg; lia).
    change (byte "0") with 48.
    assert (Hn : uint64 (uint64 (num * 10) + uint64 (byte c - 48)) = num * 10 + (byte c - 48)).
    { unfold uint64. rewrite (Z.mod_small (num * 10)) by nia.
      rewrite (Z.mod_small (byte c - 48)) by lia.
      apply Z.mod_small. nia. }
    rewrite Hn. rewrite IH.
    + rewrite digitsValue_cons, len_cons.
      replace (1 + len r) with (Z.succ (len r)) by lia.
      rewrite Z.pow_succ_r by lia. f_equal; lia.
    + exact Hr.
    + cbn in L. lia.
    + destruct E as [E|E]; [left; cbn in E; lia | right; exact E].
    + lia.
    + nia.
Qed.

Lemma parseNDigitsLoop_step (input : string) (limit : nat) (num step : Z) :
  step <= snd (parseNDigitsLoop input limit num step) <= step + Z.of_nat limit /\
  snd (parseNDigitsLoop input limit num step) <= step + len input.
Proof.
  revert limit num step. induction input as [|c r IH]; intros limit num step.
  - destruct limit; cbn [parseNDigitsLoop snd]; change (len "") with 0; lia.
  - pose proof (len_nonneg r). rewrite len_cons.
    destruct limit as [|l]; cbn [parseNDigitsLoop]; [cbn [snd]; lia|].
    destruct ((byte "0" <=? byte c) && (byte c <=? byte "9")); [|cbn [snd]; lia].
    specialize (IH l (uint64 (uint64 (num * 10) + uint64 (byte c - byte "0"))) (step + 1)).
    lia.
Qed.

(** X25. [parseNDigits(input, limit)] reads the leading digits of
    [input], at most [limit] of them: when [input] starts with the
    digits [ds] (up to 18 of them) and either [ds] has [limit] bytes or
    what follows is not a digit, it answers the decimal value of [ds]
    and its length; no leading digit gives (0, 0).  Whatever the input,
    the step answered is between 0 and [limit] and never past the end of
    the input, and a [limit] of 0 or less reads nothing. *)
Theorem parseNDigits_reads_digits (ds rest : string) (limit : Z) :
  allBytes isDigitByte ds = true ->
  len ds <= limit -> 0 < limit -> len ds <= 18 ->
  len ds = limit \/ startsWithout isDigitByte rest ->
  parseNDigits (ds ++ rest) limit = (digitsValue 0 ds, len ds) /\
  (forall input l,
     0 <= snd (parseNDigits input l) <= Z.max 0 l /\
     snd (parseNDigits input l) <= len input /\
     (l <= 0 -> parseNDigits input l = (0, 0))).
Proof.
  intros A L P B E. split.
  - unfold parseNDigits. destruct (Z.leb_spec limit 0); [lia|].
    pose proof (digitsValue_bound ds A) as Bd.
    pose proof (len_nonneg ds) as Ld.
    assert (H18 : 10 ^ len ds <= 10 ^ 18) by (apply Z.pow_le_mono_r; lia).
    change (10 ^ 18) with 1000000000000000000 in H18.
    rewrite (parseNDigitsLoop_digits ds rest (Z.to_nat limit) 0 0 A).
    + rewrite Z.mul_0_l, !Z.add_0_l.
      rewrite int64_small by (unfold MinInt64, MaxInt64; lia). reflexivity.
    + unfold len in L. lia.
    + destruct E as [E|E]; [left; unfold len in E; lia | right; exact E].
    + lia.
    + lia.
  - intros input l. unfold parseNDigits.
    pose proof (len_nonneg input) as Li.
    destruct (Z.leb_spec l 0).
    + cbn [snd]. split; [lia|]. split; [lia | reflexivity].
    + pose proof (parseNDigitsLoop_step input (Z.to_nat l) 0 0) as S.
      destruct (parseNDigitsLoop input (Z.to_nat l) 0 0) as [num step].
      cbn [snd] in *. split; [lia|]. split; [lia|]. intros; lia.
Qed.

Lemma parseNDigits_reads_digits_witness :
  parseNDigits ("59" ++ ":30") 2 = (59, 2).
Proof.
  apply (proj1 (parseNDigits_reads_digits "59" ":30" 2 eq_refl ltac:(cbn; lia) ltac:(lia)
                  ltac:(cbn; lia) (or_introl eq_refl))).
Defined.

Lemma RepeatZero_succ (k : Z) : 0 <= k -> RepeatZero (Z.succ k) = String "0" (RepeatZero k).
Proof.
  intros H. unfold RepeatZero. destruct k as [|p|p]; [reflexivity | | lia].
  change (Z.succ (Z.pos p)) with (Z.pos (p + 1)). rewrite Pos.add_1_r.
  cbn [Z.iter]. apply Pos.iter_succ.
Qed.

Lemma RepeatZero_spec (k : Z) (s : string) :
  len (RepeatZero k) = Z.max 0 k /\
  allBytes isDigitByte (RepeatZero k) = true /\
  digitsValue 0 (RepeatZero k ++ s) = digitsValue 0 s /\
  (0 < k -> byteAt (RepeatZero k ++ s) 0 = "0"%char).
Proof.
  destruct (Z.le_gt_cases 0 k) as [H|H].
  - pattern k. apply natlike_ind; [| |exact H].
    + repeat split. intros; lia.
    + intros x Hx IH. destruct IH as (I1 & I2 & I3 & _).
      rewrite RepeatZero_succ by exact Hx.
      split; [rewrite len_cons, I1; lia|].
      split; [cbn [allBytes]; rewrite I2; reflexivity|].
      split; [|intros _; reflexivity].
      cbn [append digitsValue]. exact I3.
  - assert (E : RepeatZero k = "").
    { unfold RepeatZero. destruct k; try lia. reflexivity. }
    rewrite E. repeat split; try (cbn; lia).
Qed.

(** X26. [FormatIntWidthN(num, n)] writes a number that is not negative
    as decimal digits, filled with zeros on the left up to [n] bytes and
    never cut: the result has max(n, number of digits) bytes, all of
    them digits, and its decimal value is [num] again.  A negative number
    that is shorter than [n] is filled in front of its sign, so the result
    starts with 0 and not with the minus sign. *)
Theorem FormatIntWidthN_pads (num n : Z) :
  MinInt64 <= num <= MaxInt64 ->
  len (FormatIntWidthN num n) = Z.max n (len (FormatInt num)) /\
  (0 <= num ->
     allBytes isDigitByte (FormatIntWidthN num n) = true /\
     digitsValue 0 (FormatIntWidthN num n) = num) /\
  (num < 0 ->
     (len (FormatInt num) < n -> byteAt (FormatIntWidthN num n) 0 = "0"%char) /\
     (n <= len (FormatInt num) -> byteAt (FormatIntWidthN num n) 0 = "-"%char)).
Proof.
  intros R. unfold FormatIntWidthN.
  destruct (RepeatZero_spec (n - len (FormatInt num)) (FormatInt num)) as (Z1 & Z2 & Z3 & Z4).
  split; [|split].
  - destruct (Z.geb_spec (len (FormatInt num)) n); [lia|].
    rewrite len_app, Z1. lia.
  - intros P. unfold FormatInt in *.
    destruct (Z.ltb_spec num 0); [lia|].
    destruct (FormatUint_spec num) as (F1 & F2 & _);
      [unfold MaxInt64, MaxUint64 in *; lia|].
    destruct (Z.geb_spec (len (FormatUint num)) n).
    + split; assumption.
    + split; [rewrite allBytes_app, Z2, F1; reflexivity|].
      rewrite Z3. exact F2.
  - intros N. split.
    + intros L. destruct (Z.geb_spec (len (FormatInt num)) n); [lia|].
      apply Z4. lia.
    + intros L. destruct (Z.geb_spec (len (FormatInt num)) n); [|lia].
      unfold FormatInt. destruct (Z.ltb_spec num 0); [reflexivity | lia].
Qed.

Lemma FormatIntWidthN_pads_witness :
  len (FormatIntWidthN 7 2) = Z.max 2 (len (FormatInt 7)) /\
  byteAt (FormatIntWidthN (-5) 3) 0 = "0"%char.
Proof.
  split.
  - apply (FormatIntWidthN_pads 7 2). unfold MinInt64, MaxInt64. lia.
  - apply (proj2 (proj2 (FormatIntWidthN_pads (-5) 3
                           ltac:(unfold MinInt64, MaxInt64; lia)))); [lia|].
    vm_compute. reflexivity.
Defined.

(** ** Collation keys *)

Lemma stringCompare_eq (a b : string) : stringCompare a b = Eq <-> a = b.
Proof.
  revert b. induction a as [|x a IH]; intros [|y b]; cbn [stringCompare];
    try (split; [discriminate | discriminate]); [split; reflexivity|].
  destruct (Z.compare_spec (byte x) (byte y)) as [E|E|E].
  - apply byte_inj in E. subst y. rewrite IH.
    split; [intros ->; reflexivity | intros H; injection H as H; exact H].
  - split; [discriminate | intros H; injection H as H1 H2; subst; lia].
  - split; [discriminate | intros H; injection H as H1 H2; subst; lia].
Qed.

Lemma stringCompare_opp (a b : string) : stringCompare b a = CompOpp (stringCompare a b).
Proof.
  revert b. induction a as [|x a IH]; intros [|y b]; cbn [stringCompare]; try reflexivity.
  rewrite (Z.compare_antisym (byte x) (byte y)).
  destruct (byte x ?= byte y); cbn [CompOpp]; [apply IH | reflexivity | reflexivity].
Qed.

(** X27. The sort key of the collator agrees with its comparison: two
    strings compare equal exactly when their keys are the same bytes,
    swapping the arguments flips the sign of the result, and in general
    the comparison is the bytewise order of the two keys.  This holds
    for every collation name, case-insensitive or not. *)
Theorem simpleCollator_Key_agrees (ToLower : string -> string) (collation a b : string) :
  (simpleCollator_Compare ToLower collation a b = 0 <->
   simpleCollator_Key ToLower collation a = simpleCollator_Key ToLower collation b) /\
  simpleCollator_Compare ToLower collation b a
  = - simpleCollator_Compare ToLower collation a b /\
  simpleCollator_Compare ToLower collation a b
  = match stringCompare (simpleCollator_Key ToLower collation a)
            (simpleCollator_Key ToLower collation b) with
    | Lt => -1 | Gt => 1 | Eq => 0
    end.
Proof.
  unfold simpleCollator_Compare, simpleCollator_Key.
  set (fold := Contains collation "_ci" || String.eqb collation "").
  set (ka := if fold then ToLower a else a).
  set (kb := if fold then ToLower b else b).
  split; [|split].
  - rewrite <- (stringCompare_eq ka kb).
    destruct (stringCompare ka kb); split; intros H; try reflexivity; discriminate.
  - rewrite (stringCompare_opp ka kb).
    destruct (stringCompare ka kb); reflexivity.
  - reflexivity.
Qed.

(** ** The hasher *)

Lemma hashBytes_app (h : Z) (a b : string) :
  hashBytes h (a ++ b) = hashBytes (hashBytes h a) b.
Proof. revert h. induction a as [|c a IH]; intros h; cbn; [reflexivity | apply IH]. Qed.

Lemma hashBytes_range (h : Z) (a : string) :
  0 <= h < 2 ^ 64 -> 0 <= hashBytes h a < 2 ^ 64.
Proof.
  revert h. induction a as [|c a IH]; intros h H; cbn [hashBytes]; [exact H|].
  apply IH. unfold uint64. apply Z.mod_pos_bound. lia.
Qed.

(** X28. Writing to the hasher streams: writing [a] and then [b] leaves
    the same hash as writing their concatenation in one call, and the
    counts answered add up; the hash stays a [uint64] and there is never
    an error.  Because a new hasher starts from 0, any run of NUL bytes
    hashes to 0, whatever its length. *)
Theorem SimpleHasher_Write_streams (h : Z) (a b : string) :
  0 <= h < 2 ^ 64 ->
  let '(h1, n1, e1) := SimpleHasher_Write h a in
  let '(h2, n2, e2) := SimpleHasher_Write h1 b in
  SimpleHasher_Write h (a ++ b) = (h2, n1 + n2, None) /\
  e1 = None /\ e2 = None /\ n1 = len a /\ n2 = len b /\
  0 <= h1 < 2 ^ 64 /\ 0 <= h2 < 2 ^ 64 /\
  forall n, SimpleHasher_Write NewHasher (string_of_list_ascii (List.repeat Ascii.zero n))
            = (0, Z.of_nat n, None).
Proof.
  intros H. unfold SimpleHasher_Write.
  rewrite hashBytes_app, len_app.
  pose proof (hashBytes_range h a H) as H1.
  pose proof (hashBytes_range (hashBytes h a) b H1) as H2.
  cbv beta iota zeta.
  split; [reflexivity|]. split; [reflexivity|]. split; [reflexivity|].
  split; [reflexivity|]. split; [reflexivity|].
  split; [exact H1|]. split; [exact H2|].
  intros n.
  assert (E1 : hashBytes NewHasher (string_of_list_ascii (List.repeat Ascii.zero n)) = 0).
  { induction n as [|n IH]; [reflexivity|].
    cbn [List.repeat string_of_list_ascii hashBytes]. exact IH. }
  assert (E2 : len (string_of_list_ascii (List.repeat Ascii.zero n)) = Z.of_nat n).
  { rewrite len_sol, repeat_length. reflexivity. }
  rewrite E1, E2. reflexivity.
Qed.

Lemma SimpleHasher_Write_streams_witness :
  SimpleHasher_Write NewHasher ("ab" ++ "c")
  = (fst (fst (SimpleHasher_Write (fst (fst (SimpleHasher_Write NewHasher "ab"))) "c")),
     3, None).
Proof.
  pose proof (SimpleHasher_Write_streams NewHasher "ab" "c" ltac:(unfold NewHasher; lia)) as H.
  cbv beta iota zeta delta [SimpleHasher_Write] in H. destruct H as [H _].
  exact H.
Defined.

(** ** Integer conversions *)

(** X29. The integer conversions clamp.  With an upper bound that is
    not negative, each one answers the value itself without error when
    it lies within the bounds given, and otherwise the bound it crosses
    together with the overflow error of the value: the result is the
    value clamped into the bounds in every case.  A negative value never
    converts to unsigned (the flag that would allow it is constant
    false): it gives 0 with the error under every context.  A value that
    converted to unsigned converts back to the same signed value. *)
Theorem Convert_clamps (flags : ContextFlags) (val lower upper tp : Z) :
  MinInt64 <= val <= MaxInt64 -> 0 <= upper <= MaxInt64 -> lower <= upper ->
  ConvertIntToInt val lower upper tp
  = (Z.max lower (Z.min val upper),
     if (lower <=? val) && (val <=? upper) then None
     else Some (overflow (AInt val) tp)) /\
  ConvertIntToUint flags val upper tp
  = (Z.max 0 (Z.min val upper),
     if (0 <=? val) && (val <=? upper) then None else Some (overflow (AInt val) tp)) /\
  (0 <= val <= upper ->
     ConvertUintToInt (fst (ConvertIntToUint flags val upper tp)) upper tp = (val, None)) /\
  (forall u, 0 <= u <= MaxUint64 ->
     ConvertUintToInt u upper tp
     = (Z.min u upper, if u <=? upper then None else Some (overflow (AInt u) tp)) /\
     ConvertUintToUint u upper tp
     = (Z.min u upper, if u <=? upper then None else Some (overflow (AInt u) tp))).
Proof.
  intros Hv Hu Hl. unfold MinInt64, MaxInt64 in *.
  assert (Eu : uint64 upper = upper) by (unfold uint64; apply Z.mod_small; lia).
  assert (Hiu : ConvertIntToUint flags val upper tp
                = (Z.max 0 (Z.min val upper),
                   if (0 <=? val) && (val <=? upper) then None
                   else Some (overflow (AInt val) tp))).
  { unfold ConvertIntToUint, ContextFlags_AllowNegativeToUnsigned. cbn [negb].
    rewrite andb_true_r.
    destruct (Z.ltb_spec val 0).
    - assert (((0 <=? val) && (val <=? upper)) = false) as -> by lia.
      f_equal. lia.
    - assert (E : uint64 val = val) by (unfold uint64; apply Z.mod_small; lia).
      rewrite E. destruct (Z.gtb_spec val upper).
      + assert (((0 <=? val) && (val <=? upper)) = false) as -> by lia.
        f_equal. lia.
      + assert (((0 <=? val) && (val <=? upper)) = true) as -> by lia.
        f_equal. lia. }
  assert (Hui : forall u, 0 <= u <= MaxUint64 ->
            ConvertUintToInt u upper tp
            = (Z.min u upper, if u <=? upper then None else Some (overflow (AInt u) tp))).
  { intros u Hu'. unfold MaxUint64 in Hu'. unfold ConvertUintToInt. rewrite Eu.
    destruct (Z.gtb_spec u upper).
    - destruct (Z.leb_spec u upper); [lia|]. f_equal. lia.
    - destruct (Z.leb_spec u upper); [|lia].
      rewrite int64_small by (unfold MinInt64, MaxInt64; lia). f_equal. lia. }
  split; [|split; [exact Hiu|split]].
  - unfold ConvertIntToInt.
    destruct (Z.ltb_spec val lower); [|destruct (Z.gtb_spec val upper)].
    + assert (((lower <=? val) && (val <=? upper)) = false) as -> by lia.
      f_equal. lia.
    + assert (((lower <=? val) && (val <=? upper)) = false) as -> by lia.
      f_equal. lia.
    + assert (((lower <=? val) && (val <=? upper)) = true) as -> by lia.
      f_equal. lia.
  - intros R. rewrite Hiu. cbn [fst].
    replace (Z.max 0 (Z.min val upper)) with val by lia.
    rewrite Hui by (unfold MaxUint64; lia).
    destruct (Z.leb_spec val upper); [|lia]. f_equal. lia.
  - intros u Hu'. split; [exact (Hui u Hu')|].
    unfold ConvertUintToUint. destruct (Z.gtb_spec u upper).
    + destruct (Z.leb_spec u upper); [lia|]. f_equal. lia.
    + destruct (Z.leb_spec u upper); [|lia]. f_equal. lia.
Qed.

Lemma Convert_clamps_witness :
  ConvertIntToUint (flags DefaultStmtNoWarningContext) (-1) 255 mysql.TypeTiny
  = (0, Some (overflow (AInt (-1)) mysql.TypeTiny)) /\
  ConvertIntToInt 300 (-128) 127 mysql.TypeTiny
  = (127, Some (overflow (AInt 300) mysql.TypeTiny)).
Proof.
  split.
  - apply (proj1 (proj2 (Convert_clamps (flags DefaultStmtNoWarningContext) (-1) 0 255
                           mysql.TypeTiny
                           ltac:(unfold MinInt64, MaxInt64; lia) ltac:(unfold MaxInt64; lia)
                           ltac:(lia)))).
  - apply (proj1 (Convert_clamps (flags DefaultStmtNoWarningContext) 300 (-128) 127
                    mysql.TypeTiny
                    ltac:(unfold MinInt64, MaxInt64; lia) ltac:(unfold MaxInt64; lia)
                    ltac:(lia))).
Defined.

